(* ===== verification/_CoqProject ===== *)
-Q . S2P
Prelude.v
JsText.v
Digits.v
Decimal.v
JsDate.v
Series.v
Leverage.v
Interval.v
Scale.v
Ticks.v
Viewport.v
ViewSpec.v
App.v
Controls.v
Request.v
Invariant.v
Asserts.v
Labels.v
Render.v
Page.v
Markup.v
System.v
