(* ===== verification/Prelude.v ===== *)
(** * Verification of the synthetic S&P 500 chart engine

    The program is a single-page chart.  A serverless proxy
    ([api/spx.js], staged as [src/unnamed/part_000]) fetches an index
    series; the React component [LiveSP500Canvas]
    ([src/src/LiveSP500Canvas.jsx]) filters it by a start date, turns
    it into a leveraged synthetic series, computes the geometry of the
    chart for the visible time window, draws it as an [svg] element,
    and reacts to wheel, drag and hover gestures by moving that window.
    [src/src/App.jsx] only mounts the component.

    ** The parts of the program and the files that model them

    - [Prelude] (this file): the numeric model and the shared
      automation.  A JavaScript number is an exact rational ([Q]):
      every finite double is a rational, arithmetic is exact (rounding
      is not modelled), and equality of numbers is [Qeq], for which
      the operations of every component are [Proper].  [Math.max],
      [Math.min] and [Math.abs] are [Qmax], [Qmin], [Qabs];
      [Math.exp] and [Math.log] are the fields of the class [ExpLog],
      a pair of functions on [Q] with the order and inverse laws the
      theorems use; [RatExpLog] is a computable instance, so that the
      laws are satisfiable and every instance evaluates.
    - [JsText]: [indexOf], [split], [replace], [Number(s)],
      [String(n)], [toFixed], [encodeURIComponent] and
      [decodeURIComponent], as the sources call them.  [Digits]: the
      decimal digits of an integer, by which printing and parsing are
      related.  [Decimal]: the numbers with a finite decimal
      expansion, which are the numbers a string converts to and the
      numbers [String] prints.  [JsDate]: the UTC part of the
      ECMAScript [Date] built-in (ECMA-262, 21.4.1) over [Z]
      milliseconds.  The four are models of the runtime, not of code
      under [src/].
    - [Series]: [PricePoint] and series; the proxy's [handler]
      (part_000, lines 5-50), the client's [fetchYahooSPX]
      (LiveSP500Canvas.jsx, 118-142), the demo generator
      [buildDemoSPX] (164-176), the start filter [filteredData]
      (523-560) and [fullDomain] (584-592).  A timestamp of the
      upstream body is a number or not one ([option Q]): the proxy
      keeps a point whose time is not a number ([ProxyPoint]), JSON
      writes that time as [null] ([wire]), and [timedPoints] is what
      the filter of the client keeps.
    - [Leverage]: the preset table [buildSyntheticOptions] (54-63),
      [isSynthetic] and [parseLeverage] (69-81), and the simulator
      [buildSyntheticSeries] (144-161).
    - [Interval]: [intervalToStepMs], [alignToInterval],
      [addInterval], [tickLabel] and [clamp] (181-263), the provider
      interval table [YAHOO_INTERVAL_MAP] (101-109), its lookup
      [yahooInterval] (459), which like every lookup in an object
      literal falls through to the properties inherited from
      [Object.prototype], and the range policy of the fetch effect
      (462-486).
    - [Scale]: the geometry engine [useChartPath] (266-416), each
      [var] of its body a definition of the section [Geometry]: slice,
      anchor, value transform and its inverse, padded range, the two
      scales, the path, X ticks (the guarded loop), X labels, Y ticks.
      [Ticks]: the theorems on the ticks and the labels.
    - [Viewport]: the gesture handlers [onWheel], [onPointerDown],
      [onPointerMove], [onPointerUp], [onLeave], [fitToScreen]
      (625-719) as functions on the view state, the arithmetic of a
      zoom ([zoomDomain]) and of a pan ([panDomain]), the scan of the
      crosshair ([nearestPoint]), and the gestures as a step relation.
      [ViewSpec]: the contract of the viewport as an abstract machine
      (the window is auto-fit or explicit, a drag is in progress from
      the window it started on, or not) whose steps [astep] carry the
      gesture that causes them and say what that gesture may change;
      the abstraction [abs] from the view state, the handler
      [perform] of an input and its gesture [kind], and the proof
      that the handlers implement the machine gesture by gesture.
    - [App]: the component as a transition system (421-772, 793-920):
      [AppState] holds the [useState] cells and the [panStart] ref;
      [handle] is the handler of an event, [fetchEffect] and
      [resetEffect] are the two effects (453-520), [commit] runs them
      after the render, [dispatch] is one event with its effects,
      [reachable] the states so reached; the labels of lines 734-772.
    - [Request]: the request of the series from end to end: the URL
      [fetchYahooSPX] builds (119-123), the query the platform hands
      to the proxy as [req.query], the defaults and the URL of the
      provider (part_000, 7-16), and [serve], the handler as a
      function of the URL it is called with.
    - [Invariant]: the composition of [App] and [Viewport], the
      invariant of the component and the events that keep it.
    - [Asserts]: the two [console.assert] calls of a render (614-623)
      as the list of the tests it runs and the messages it writes.
    - [Controls]: the local components [Card] and [Button] (4-28) and
      the form (784-924): each select, input and button with its
      label, its class, the value it shows, its options with their
      keys and the event of its handler; [fires] and [offered] say
      which events the rendered page can raise (a select sends the
      value of one of its options, an input of type number a text
      that the value sanitization of HTML lets through,
      [sanitized]), [uiReachable] which states follow from them.
    - [Labels]: the texts of the labels, printed against the class
      [Locale], the interface of the host's [toLocaleString],
      [toLocaleTimeString] and [toLocaleDateString]; [formatDate]
      (83-86).
    - [Render]: the [svg] element (930-1123) as the list of its
      shapes, each with the attributes of its element, and the keys
      of the mapped elements; [Chars] is a text node without an
      element, which [{startTs && ...}] leaves for a start at the
      epoch.
    - [Page]: what the component returns (773-1132) as the record of
      its parts, and [App] of [src/src/App.jsx].  [Markup]: the same
      as the tree of its elements, with tags, classes and inline
      styles; [raises] says which events the tree can raise, and
      [raised] is the test of it.
    - [System]: the closed system of the component, the network and
      the proxy: the state of the component, the requests in flight
      by the number of their run, and the URLs the provider was asked
      for; a step is an event the page raises in the state it is in
      ([sysEnabled], by [Markup.raised]), the delivery of a request
      in flight through [serve], or its loss.  The provider is a
      parameter.

    ** State and operations

    React state cells become fields of a record; a handler is a
    function from the record (and the payload of the event) to the
    record; an effect is a function of the state before and after the
    handler, which runs its body when one of its dependencies changed.
    The fetch is asynchronous: a run of the effect leaves a request in
    the state ([live]), tagged with the number of the run
    ([effectRuns]), and the event [FetchSettled] delivers the outcome
    of a run; the [cancelled] flag of the closure is the comparison of
    the two numbers.  [Date.parse], [Math.sin], the results of
    [Math.random()] and [Date.now()] are parameters.

    Loops keep the shape of the source.  The simulator, the demo
    generator, the label filter and the crosshair scan are folds over
    the indices or the elements, each with the recursive definition it
    is shown equal to or the loop invariant its theorems rest on.  The
    tick loop is a [Fixpoint] on the source's
    own guard counter ([guard] = 5000), so no fuel is invented: the
    bound is the code's, [tickLoop_terminates] shows that the loop
    ends by its own test within one iteration per minute of the
    window, and [xTicks_truncated] what happens when the guard ends it
    first.

    ** What the theorems show

    - Leverage: the index loop refines the recurrence
      [synthetic (i+1) = synthetic i * (1 + k * r i)]; the first value
      is the base, timestamps are kept, zero returns and zero leverage
      give a flat line; every preset parses back to its multiple, as
      does the option of any multiple ([Number(String(k))] is [k],
      [Digits]), and [parseLeverage] accepts more than the presets.
    - Series: the proxy answers 200 exactly for a well-formed body,
      with the points of a finite close, in order where their times
      are numbers; the client fetch of the proxy's response keeps the
      points whose time is a number; the start filter returns a
      suffix and keeps every point from the start on; the demo series
      is ordered.
    - Interval: alignment to the step, the week and the month;
      aligning twice is aligning once, for every token; an instant
      the alignment leaves in place is a boundary of the calendar, and
      conversely ([aligned_calendar]); a step moves
      forward by a minute at least, and from a boundary of the
      interval to a boundary; for the day, week and month intervals
      the range requested reaches back to the start and is the
      shortest of the four that does.
    - Scale and Ticks: between 2 and 5000 X ticks for every non-empty
      series; the ticks are the iterates of the step inside the
      window, each on a boundary of the interval when the loop gives
      two at least, none after the end of the window and none more
      than 31 days before its start ([xTicks_window]); the label filter is the recursive selection and keeps
      the minimum gap; log mode degrades to the identity on a value
      that is not positive; transform and inverse are mutually
      inverse; the padded range is never degenerate; values are drawn
      strictly inside the pads; the line runs from left to right.
    - Viewport: zoom and pan keep the window inside the full extent
      and above the minimum span, for every sequence of gestures with
      the cursor over the plot; an unclamped zoom keeps the instant
      under the cursor; zoom in then out restores the window; a pan at
      the left edge clamps; the crosshair snaps to the nearest point
      in the domain.  A zoom out contains the window it leaves, a zoom
      in is contained in it or ends within twice the minimum span;
      at the minimum span a zoom in makes the window wider
      ([zoomDomain_limit_widens]).
    - ViewSpec: the handler of every input is a step of the contract
      machine with the gesture of the input, and the gestures of a
      run of the handlers are the gestures of a run of the machine (a
      forward simulation with [abs], and the inclusion of traces that
      follows): only the wheel, a move and fit change the window, only
      pointer down and up change the mode, a move changes the window
      only during a drag and keeps the width the drag started with.
    - App: a domain override exists only while the chart is shown; a
      superseded fetch never writes the state; the request in flight
      is the one the policy chooses; a start after the last point
      gives the placeholder.
    - Request: the platform reads from the client's URL the range
      and the interval it was built from, whatever characters they
      hold (decoding undoes encoding, and an encoded string has no
      separator of the query), so the proxy asks the provider for
      what the client asked; without a query it asks for two years
      of days; the requests of the component need no escape in the
      states the page leads to, and an interval the select does not
      offer can name an inherited property
      ([requestUrl_inherited]).
    - Invariant: under calm events the domain shown fits the full
      extent of the synthetic series in every reachable state; when
      a fetch settles during a drag and the new extent is narrower
      than the window the drag started on, the next move shows a
      window that begins before the first point
      ([drag_across_fetch]).
    - System: whatever the user does with the page, the provider is
      asked for the sixteen requests of the
      policy and nothing else; responses may arrive in any order, and
      one whose request was superseded changes nothing; the live
      request can be delivered, and then its series or the demo series
      is shown; the data of the component are the provider's or the
      demo generator's; for a provider with ordered timestamps the
      data are ordered in every state, and the invariant of
      [Invariant] holds without an assumption on what a fetch
      delivers.
    - Asserts: the test on the first synthetic value never fails;
      the test on the ticks fails exactly when there is no synthetic
      point, which is the case of the first render.
    - Controls: in the states the page leads to, each select shows
      one of its options and the leverage is an integer between -10
      and 10 other than 0; choosing an option of a select shows it.
    - Labels: every label is printed in every reachable state and
      every locale (the numbers of the title have a finite decimal
      expansion, and [Decimal] shows that [String] prints them); the
      text of the title is "Synthetic ", the label of the selected
      preset and the base in digits ([title_text]);
      the percentage a label prints is the position of the value on
      the Y axis, and 0.0% for the anchor.
    - Page: the drawing starts with the background of its section; a
      render that writes to the console shows the placeholder; after
      calm events the line of an auto-fit chart is inside the plot.
    - Render: the line of the series and the crosshair are inside the
      plot when a point is in the domain shown; the grid of the Y axis
      is inside the view box; the badge of the last value, the first
      tick and the line of a window without points are not; the texts
      of the badge and of the tooltip stand in their rectangles; the
      keys of mapped siblings are pairwise different; a start at the
      epoch leaves the text "0" in the drawing
      ([headerLabels_epoch]).
    - Markup: the controls, the texts and the drawing of the tree are
      those of [Controls], [Page] and [Render], in document order;
      the tree raises the events of its controls and, while the chart
      is shown, the gestures, and [raised] decides it
      ([raised_raises]).

    ** Bounds

    The system of [System] has no bound on the number of requests in
    flight or on the order in which they settle; the proxy serves a
    request in one step, which loses nothing because it keeps no
    state between requests.

    [numberToString] searches the number of decimal places of a
    reduced fraction up to the binary logarithm of its denominator:
    a denominator that divides a power of ten is [2^a * 5^b] with
    [a] and [b] below that bound ([Decimal.divide_pow10_log2]).  It
    prints the digits of the number itself, which are the digits
    [String] prints for a double up to 15 significant digits.
    [intToString] takes as many digits as the number has bits, and
    one more.

    Timestamps are taken inside the ECMAScript time range; [NaN] and
    the infinities are not values of the model: where the code tests
    for them ([Number.isFinite], [isFinite], [isNaN]) the model has an
    [option] whose [None] is the non-finite or non-numeric case.

    ** Not modelled

    The style sheet the class names refer to, and the [g] elements of
    the drawing, which group shapes without attributes of their own.
    The network transport and the JSON parsing of the proxy: the
    handler starts from the parsed body.  The query parser of the
    platform is modelled from the URL standard; a name that occurs
    more than once gives an array, which is modelled by the string
    the handler makes of it (its elements joined by commas); the
    UTF-8 check of [decodeURIComponent] (a string is a sequence of
    bytes here) is not modelled.  The handlers of the gestures are
    attributes of the [svg] element and do not exist without it: the
    model's [handle] tests [showsChart] in their place.  A handler
    runs with the state of the render that made it; [dispatch] takes
    each event on the state the last one left.  The functions of the host's
    locale: they are the fields of [Locale], of which nothing is
    assumed.  [console.log] and [console.error].  The resolution
    of the import of line 5 of [App.jsx], whose file name differs in
    case from the file.  Rounding of doubles: a property that holds up
    to floating-point tolerance in the program holds exactly in the
    model. *)

From Stdlib Require Import QArith Qminmax Qround Qabs Lqa Lia ZArith.
From stdpp Require Import base decidable list option sorting.

#[local] Open Scope Q_scope.

(** ** Decidable order on numbers

    JavaScript's [<=], [<] and [===] on finite numbers. *)

#[export] Instance Qle_decision (x y : Q) : Decision (x <= y) :=
  match Qlt_le_dec y x with
  | left H => right (Qlt_not_le _ _ H)
  | right H => left H
  end.

#[export] Instance Qlt_decision (x y : Q) : Decision (x < y) :=
  match Qlt_le_dec x y with
  | left H => left H
  | right H => right (Qle_not_lt _ _ H)
  end.

#[export] Instance Qeq_decision (x y : Q) : Decision (x == y) := Qeq_dec x y.

(** Numbers are compared up to [Qeq]; stdpp's [≡] on [Q], and so on
    lists, options and pairs of numbers, is that relation. *)

#[export] Instance Q_equiv : Equiv Q := Qeq.
#[export] Instance Q_equivalence : Equivalence (≡@{Q}) := Q_Setoid.

(** ** Automation for [Qmax], [Qmin], [Qabs] and division

    [q_abstract] replaces every [Qmax], [Qmin] and [Qabs] of the goal
    and the context by a fresh variable constrained by its
    specification; [qlra] and [qnra] then call the linear and the
    non-linear solver.  [q_inv d] names [/ d] for a positive [d] and
    records [0 < / d] and [d * / d == 1], which is all the solvers need
    of a division. *)

Lemma Qabs_spec (x : Q) : 0 <= x /\ Qabs x == x \/ x < 0 /\ Qabs x == - x.
Proof.
  destruct (Qlt_le_dec x 0) as [H|H].
  - right. split; [done|]. apply Qabs_neg. lra.
  - left. split; [done|]. by apply Qabs_pos.
Qed.

Ltac q_abstract_with spec t :=
  let m := fresh "m" in pose proof spec; set (m := t) in *; clearbody m.

Ltac q_abstract :=
  repeat match goal with
  | |- context [Qmax ?a ?b] => q_abstract_with (Q.max_spec a b) (Qmax a b)
  | |- context [Qmin ?a ?b] => q_abstract_with (Q.min_spec a b) (Qmin a b)
  | |- context [Qabs ?a] => q_abstract_with (Qabs_spec a) (Qabs a)
  | H : context [Qmax ?a ?b] |- _ => q_abstract_with (Q.max_spec a b) (Qmax a b)
  | H : context [Qmin ?a ?b] |- _ => q_abstract_with (Q.min_spec a b) (Qmin a b)
  | H : context [Qabs ?a] |- _ => q_abstract_with (Qabs_spec a) (Qabs a)
  end.

Ltac qlra := q_abstract; lra.
Ltac qnra := q_abstract; nra.

Lemma Qinv_spec_pos (d : Q) : 0 < d -> 0 < / d /\ d * / d == 1.
Proof.
  intros H. split; [by apply Qinv_lt_0_compat|]. apply Qmult_inv_r. lra.
Qed.

Lemma Qinv_unique (v i : Q) : v * i == 1 -> / i == v.
Proof.
  intros E. assert (~ i == 0) by (intros Z; rewrite Z in E; lra).
  rewrite <- (Qmult_1_l (/ i)), <- E. by field.
Qed.

Ltac q_inv d :=
  let H := fresh "Hinv" in
  let i := fresh "i" in
  assert (H : 0 < / d /\ d * / d == 1) by (apply Qinv_spec_pos; qlra);
  set (i := / d) in *; clearbody i.

(** [x / d] for a positive [d], as the solvers see it. *)

Lemma Qdiv_pos_spec (x d : Q) : 0 < d -> (x / d) * d == x.
Proof. intros H. field. lra. Qed.

Lemma Qdiv_le_mono (x y d : Q) : 0 < d -> x <= y -> x / d <= y / d.
Proof. intros Hd H. unfold Qdiv. q_inv d. nra. Qed.

Lemma Qdiv_lt_mono (x y d : Q) : 0 < d -> x < y -> x / d < y / d.
Proof. intros Hd H. unfold Qdiv. q_inv d. nra. Qed.

Lemma Qdiv_nonneg (x d : Q) : 0 < d -> 0 <= x -> 0 <= x / d.
Proof. intros Hd H. unfold Qdiv. q_inv d. nra. Qed.

Lemma Qdiv_le_1 (x d : Q) : 0 < d -> x <= d -> x / d <= 1.
Proof. intros Hd H. unfold Qdiv. q_inv d. nra. Qed.

(** ** Truncation

    [new Date(ts)] and the other conversions to an integer truncate
    towards zero (ECMA-262 [ToIntegerOrInfinity]). *)

Definition Qtrunc (q : Q) : Z :=
  if decide (0 <= q) then Qfloor q else Qceiling q.

#[export] Instance Qtrunc_proper : Proper (Qeq ==> eq) Qtrunc.
Proof.
  intros x y E. unfold Qtrunc.
  destruct (decide (0 <= x)), (decide (0 <= y)); try lra.
  - by apply Qfloor_comp.
  - by apply Qceiling_comp.
Qed.

Lemma Qtrunc_inject_Z (z : Z) : Qtrunc (inject_Z z) = z.
Proof. unfold Qtrunc. case_decide; [apply Qfloor_Z|apply Qceiling_Z]. Qed.

Lemma Qtrunc_nonneg (q : Q) : 0 <= q -> Qtrunc q = Qfloor q.
Proof. intros. unfold Qtrunc. by case_decide. Qed.

Lemma Qtrunc_le (q : Q) : 0 <= q -> inject_Z (Qtrunc q) <= q.
Proof. intros. rewrite Qtrunc_nonneg by done. apply Qfloor_le. Qed.

Lemma Qtrunc_gt (q : Q) : 0 <= q -> q < inject_Z (Qtrunc q) + 1.
Proof.
  intros. rewrite Qtrunc_nonneg by done.
  pose proof (Qlt_floor q) as Hq. by rewrite inject_Z_plus in Hq.
Qed.

Lemma Qtrunc_bound (q : Q) : inject_Z (Qtrunc q) - 1 < q < inject_Z (Qtrunc q) + 1.
Proof.
  unfold Qtrunc. case_decide.
  - pose proof (Qfloor_le q). pose proof (Qlt_floor q) as Hq.
    rewrite inject_Z_plus in Hq. change (inject_Z 1) with 1 in Hq.
    split; lra.
  - pose proof (Qle_ceiling q). pose proof (Qceiling_lt q) as Hq.
    unfold Z.sub in Hq. rewrite inject_Z_plus, inject_Z_opp in Hq.
    change (inject_Z 1) with 1 in Hq. split; lra.
Qed.

(** [evaluate t]: replace the closed term [t] of the goal by its value. *)
Ltac evaluate t := let v := eval vm_compute in t in change t with v.

(** [x ∈ l] for a list [l] that is written out. *)
Ltac in_list :=
  repeat first [apply elem_of_cons; left; reflexivity | apply elem_of_cons; right].

(** ** [Math.exp] and [Math.log]

    The interface the components are proved against: two functions on
    numbers with the laws of the exponential and the logarithm that
    the theorems use.  The zoom handler needs a positive factor whose
    inverse is the factor of the opposite direction; the logarithmic
    axis needs an increasing transform with an inverse. *)

Class ExpLog := {
  Exp : Q -> Q;
  Ln : Q -> Q;
  Exp_proper :: Proper (Qeq ==> Qeq) Exp;
  Ln_proper :: Proper (Qeq ==> Qeq) Ln;
  Exp_pos x : 0 < Exp x;
  Exp_opp x : Exp (- x) * Exp x == 1;
  Exp_mono x y : x < y -> Exp x < Exp y;
  Exp_Ln v : 0 < v -> Exp (Ln v) == v;
  Ln_Exp x : Ln (Exp x) == x
}.

Section ExpLogLaws.
  Context `{ExpLog}.

Lemma Exp_0 : Exp 0 == 1.
Proof.
  pose proof (Exp_opp 0) as E. pose proof (Exp_pos 0).
  assert (- 0 == 0) as E0 by ring. rewrite E0 in E. nra.
Qed.

Lemma Exp_gt_1 x : 0 < x -> 1 < Exp x.
Proof. intros Hx. rewrite <- Exp_0. by apply Exp_mono. Qed.

Lemma Exp_lt_1 x : x < 0 -> Exp x < 1.
Proof. intros Hx. rewrite <- Exp_0. by apply Exp_mono. Qed.

Lemma Exp_mono_le x y : x <= y -> Exp x <= Exp y.
Proof.
  intros Hxy. destruct (Qeq_dec x y) as [E|N]; [rewrite E; lra|].
  apply Qlt_le_weak, Exp_mono. lra.
Qed.

Lemma Ln_mono x y : 0 < x -> x < y -> Ln x < Ln y.
Proof.
  intros Hx Hxy. destruct (Qlt_le_dec (Ln x) (Ln y)) as [|Hle]; [done|].
  exfalso. pose proof (Exp_mono_le _ _ Hle) as Hexp.
  rewrite !Exp_Ln in Hexp by lra. lra.
Qed.

Lemma Ln_mono_le x y : 0 < x -> x <= y -> Ln x <= Ln y.
Proof.
  intros Hx Hxy. destruct (Qeq_dec x y) as [E|N]; [rewrite E; lra|].
  apply Qlt_le_weak, Ln_mono; lra.
Qed.
End ExpLogLaws.

(** The computable instance: [1 + x] right of the origin and its
    mirror image [1 / (1 - x)] left of it. *)

Definition rexp (x : Q) : Q := if decide (x <= 0) then / (1 - x) else 1 + x.
Definition rln (v : Q) : Q := if decide (v <= 1) then 1 - / v else v - 1.

#[export] Instance rexp_proper : Proper (Qeq ==> Qeq) rexp.
Proof. intros x y E. unfold rexp. do 2 case_decide; rewrite ?E in *; lra. Qed.

#[export] Instance rln_proper : Proper (Qeq ==> Qeq) rln.
Proof. intros x y E. unfold rln. do 2 case_decide; rewrite ?E in *; lra. Qed.

Lemma rexp_pos x : 0 < rexp x.
Proof. unfold rexp. case_decide; [apply Qinv_lt_0_compat|]; lra. Qed.

Lemma rexp_opp x : rexp (- x) * rexp x == 1.
Proof.
  unfold rexp. do 2 case_decide; try lra.
  - assert (x == 0) as -> by lra. reflexivity.
  - q_inv (1 - - x). nra.
  - q_inv (1 - x). nra.
Qed.

Lemma rexp_mono x y : x < y -> rexp x < rexp y.
Proof.
  unfold rexp. intros. do 2 case_decide; try lra.
  - q_inv (1 - x). q_inv (1 - y). nra.
  - q_inv (1 - x). nra.
Qed.

Lemma rexp_rln v : 0 < v -> rexp (rln v) == v.
Proof.
  unfold rexp, rln. intros. destruct (decide (v <= 1)); [|case_decide; lra].
  q_inv v. case_decide; [|exfalso; nra].
  assert (E : 1 - (1 - i) == i) by ring. rewrite E. apply Qinv_unique. lra.
Qed.

Lemma rln_rexp x : rln (rexp x) == x.
Proof.
  unfold rexp, rln. destruct (decide (x <= 0)); [|case_decide; lra].
  q_inv (1 - x). case_decide; [|exfalso; nra].
  rewrite (Qinv_unique (1 - x) i) by lra. ring.
Qed.

#[export] Instance RatExpLog : ExpLog :=
  {| Exp := rexp; Ln := rln; Exp_pos := rexp_pos; Exp_opp := rexp_opp;
     Exp_mono := rexp_mono; Exp_Ln := rexp_rln; Ln_Exp := rln_rexp |}.

(** ** Lists

    Facts on filtering and order that several components use. *)

(** The value of the first pair with the key [k]: the property [k] of
    an object written as the list of its properties. *)
Fixpoint assoc {K V : Type} `{EqDecision K} (l : list (K * V)) (k : K) : option V :=
  match l with
  | [] => None
  | (k', v) :: l => if decide (k' = k) then Some v else assoc l k
  end.

Lemma assoc_Some {K V : Type} `{EqDecision K} (l : list (K * V)) (k : K) (v : V) :
  assoc l k = Some v -> (k, v) ∈ l.
Proof.
  induction l as [|[k' v'] l IH]; simpl; [done|]. case_decide.
  - intros [= <-]. subst. by left.
  - intros Hl. right. by apply IH.
Qed.

Lemma assoc_None {K V : Type} `{EqDecision K} (l : list (K * V)) (k : K) :
  assoc l k = None <-> k ∉ l.*1.
Proof.
  induction l as [|[k' v'] l IH]; simpl; [split; [intros _; apply not_elem_of_nil|done]|].
  rewrite not_elem_of_cons, <- IH. case_decide as E.
  - split; [done|]. by intros [Hk _].
  - split; [by split|by intros [_ ?]].
Qed.

Section Lists.
  Context {A : Type}.
  Implicit Types (l k : list A) (R : relation A).

Lemma filter_Forall_id (P : A -> Prop) `{!forall x, Decision (P x)} l :
  Forall P l -> filter P l = l.
Proof.
  induction 1 as [|x l Hx _ IH]; [done|].
  by rewrite filter_cons_True, IH.
Qed.

Lemma filter_Forall_not (P : A -> Prop) `{!forall x, Decision (P x)} l :
  Forall (fun x => ~ P x) l -> filter P l = [].
Proof.
  induction 1 as [|x l Hx _ IH]; [done|]. by rewrite filter_cons_False.
Qed.

Lemma StronglySorted_sublist R l k :
  k `sublist_of` l -> StronglySorted R l -> StronglySorted R k.
Proof.
  induction 1 as [|x k l Hs IH|x k l Hs IH]; intros Hl; [done|..];
    apply StronglySorted_cons in Hl as [Hx Hl].
  - apply StronglySorted_cons. split; [|by apply IH].
    rewrite Forall_forall in Hx |- *. eauto using elem_of_sublist.
  - by apply IH.
Qed.

Lemma StronglySorted_filter R (P : A -> Prop) `{!forall x, Decision (P x)} l :
  StronglySorted R l -> StronglySorted R (filter P l).
Proof. apply StronglySorted_sublist, sublist_filter. Qed.

(** Sortedness from the order of the elements by position. *)
Lemma StronglySorted_lookup_1 (R : relation A) l i j x y :
  StronglySorted R l -> (i < j)%nat -> l !! i = Some x -> l !! j = Some y -> R x y.
Proof.
  intros Hs. revert i j. induction Hs as [|a l _ IH Ha]; intros i j Hij Hi Hj; [done|].
  destruct j as [|j]; [lia|]. destruct i as [|i]; simplify_eq/=.
  - by eapply (proj1 (Forall_lookup _ _) Ha).
  - apply (IH i j); [lia|done..].
Qed.

Lemma StronglySorted_lookup_2 (R : relation A) l :
  (forall i j x y, (i < j)%nat -> l !! i = Some x -> l !! j = Some y -> R x y) ->
  StronglySorted R l.
Proof.
  induction l as [|a l IH]; intros Hl; constructor.
  - apply IH. intros i j x y Hij Hi Hj. by apply (Hl (S i) (S j) x y); [lia|..].
  - apply Forall_lookup. intros j y Hj. by apply (Hl 0%nat (S j) a y); [lia|..].
Qed.

(** A sorted list whose head passes an upward-closed test passes it
    everywhere: filtering such a list by such a test cuts a prefix. *)
Lemma filter_upward_suffix R (P : A -> Prop) `{!forall x, Decision (P x)} l :
  (forall x y, R x y -> P x -> P y) ->
  StronglySorted R l -> filter P l `suffix_of` l.
Proof.
  intros Hup. induction 1 as [|x l _ IH Hx]; [done|].
  destruct (decide (P x)) as [HP|HP].
  - rewrite filter_Forall_id; [done|].
    constructor; [done|]. eapply Forall_impl; [exact Hx|]. eauto.
  - rewrite filter_cons_False by done. by apply suffix_cons_r.
Qed.

Lemma last_cons_default (x : A) l : last (x :: l) = Some (default x (last l)).
Proof. rewrite last_cons. by destruct (last l). Qed.

Lemma head_suffix_last l k x :
  k `suffix_of` l -> last k = Some x -> last l = Some x.
Proof. intros [p ->] Hk. rewrite last_app. by rewrite Hk. Qed.
End Lists.

Lemma head_fmap {A B} (f : A -> B) (l : list A) : head (f <$> l) = f <$> head l.
Proof. by destruct l. Qed.

Lemma last_fmap {A B} (f : A -> B) (l : list A) : last (f <$> l) = f <$> last l.
Proof.
  induction l as [|x l IH]; [done|]. rewrite fmap_cons, !last_cons, IH.
  by destruct (last l).
Qed.

(** ** Shared hints and notation *)

Create HintDb chart discriminated.
Create Rewrite HintDb chart.

#[export] Hint Resolve Qle_refl Qlt_le_weak Qabs_nonneg Q.le_max_l Q.le_max_r
  Q.le_min_l Q.le_min_r Exp_pos Exp_mono_le Ln_mono_le : chart.
#[export] Hint Rewrite Qtrunc_inject_Z Qfloor_Z Qceiling_Z : chart.

(** The scope of the components' notations (points, domains). *)
Declare Scope chart_scope.
Delimit Scope chart_scope with chart.
