(* ===== verification/JsText.v ===== *)
(** * JsText: the string and number-conversion built-ins the sources call

    [String.prototype.indexOf], [split], [replace] (string pattern,
    replacement text without [$]), the conversion [Number(s)] of a
    string to a number (ECMA-262, 7.1.4.1 [StringToNumber]), the
    printing of a number ([Number::toString]: [intToString] for an
    integer, [numberToString] for a number with a finite decimal
    expansion), [toFixed], [encodeURIComponent] and
    [decodeURIComponent].  These are models of the runtime.

    [toNumber] answers [None] for a string that converts to [NaN] or
    to an infinity: the sources test [isFinite] right after the
    conversion.  Overflow of the double range is not modelled. *)

From Stdlib Require Import QArith Qround ZArith NArith Ascii String Lia.
From stdpp Require Import base decidable list option.
From S2P Require Import Prelude.

#[local] Open Scope string_scope.

(** ** Strings *)

(** [s.indexOf(pat)]: the first position of [pat], or -1. *)
Definition indexOf (s pat : string) : Z :=
  match String.index 0 pat s with
  | Some n => Z.of_nat n
  | None => (-1)%Z
  end.

(** [s.split(sep)] for a separator of one character. *)
Fixpoint split (sep : ascii) (s : string) : list string :=
  match s with
  | "" => [""]
  | String c s' =>
      if Ascii.eqb c sep then "" :: split sep s'
      else match split sep s' with
           | w :: ws => String c w :: ws
           | [] => [String c ""]
           end
  end.

Fixpoint dropString (n : nat) (s : string) : string :=
  match n, s with
  | S n', String _ s' => dropString n' s'
  | _, _ => s
  end.

(** [s.replace(pat, repl)]: the first occurrence only. *)
Fixpoint replace (pat repl s : string) : string :=
  if String.prefix pat s then repl ++ dropString (String.length pat) s
  else match s with
       | "" => ""
       | String c s' => String c (replace pat repl s')
       end.

(** ** String to number *)

Definition isWhiteSpace (c : ascii) : bool :=
  let n := N_of_ascii c in
  ((9 <=? n) && (n <=? 13) || (n =? 32))%N.

Fixpoint trimStart (s : string) : string :=
  match s with
  | String c s' => if isWhiteSpace c then trimStart s' else s
  | "" => ""
  end.

Fixpoint revString (acc s : string) : string :=
  match s with
  | "" => acc
  | String c s' => revString (String c acc) s'
  end.

Definition trim (s : string) : string :=
  revString "" (trimStart (revString "" (trimStart s))).

(** The value of a digit in a base up to 16. *)
Definition digitOf (base : N) (c : ascii) : option N :=
  let n := N_of_ascii c in
  let d := if ((48 <=? n) && (n <=? 57))%N then Some (n - 48)%N
           else if ((97 <=? n) && (n <=? 102))%N then Some (n - 87)%N
           else if ((65 <=? n) && (n <=? 70))%N then Some (n - 55)%N
           else None in
  d ≫= fun v => if (v <? base)%N then Some v else None.

(** The longest prefix of digits, and what follows it. *)
Fixpoint takeDigits (base : N) (s : string) : list N * string :=
  match s with
  | String c s' =>
      match digitOf base c with
      | Some d => let '(ds, r) := takeDigits base s' in (d :: ds, r)
      | None => ([], s)
      end
  | "" => ([], "")
  end.

Definition fromDigits (base : N) (ds : list N) : N :=
  foldl (fun acc d => acc * base + d)%N 0%N ds.

(** A whole string of at least one digit in the base. *)
Definition parseRadix (base : N) (s : string) : option Q :=
  match takeDigits base s with
  | ((_ :: _) as ds, "") => Some (inject_Z (Z.of_N (fromDigits base ds)))
  | _ => None
  end.

(** The exponent part: nothing, or [e] or [E], a sign, digits. *)
Definition parseExponent (s : string) : option Z :=
  match s with
  | "" => Some 0%Z
  | String c s' =>
      if (Ascii.eqb c "e" || Ascii.eqb c "E")%bool then
        let '(neg, s'') :=
          match s' with
          | String "-" r => (true, r)
          | String "+" r => (false, r)
          | _ => (false, s')
          end in
        match takeDigits 10 s'' with
        | ((_ :: _) as ds, "") =>
            let e := Z.of_N (fromDigits 10 ds) in
            Some (if neg then (- e)%Z else e)
        | _ => None
        end
      else None
  end.

(** An unsigned decimal literal: digits, a fraction, an exponent, with
    a digit on at least one side of the point. *)
Definition parseDecimal (s : string) : option Q :=
  let '(ip, r1) := takeDigits 10 s in
  let '(fp, r2) :=
    match r1 with
    | String "." r => takeDigits 10 r
    | _ => ([], r1)
    end in
  match ip, fp with
  | [], [] => None
  | _, _ =>
      e ← parseExponent r2;
      let m := (inject_Z (Z.of_N (fromDigits 10 ip))
                + inject_Z (Z.of_N (fromDigits 10 fp))
                  * Qpower 10 (- Z.of_nat (length fp)))%Q in
      Some (m * Qpower 10 e)%Q
  end.

(** [Number(s)]: [None] is [NaN] or an infinity. *)
Definition toNumber (s : string) : option Q :=
  match trim s with
  | "" => Some 0%Q
  | String "0" (String c r) as t =>
      if (Ascii.eqb c "x" || Ascii.eqb c "X")%bool then parseRadix 16 r
      else if (Ascii.eqb c "o" || Ascii.eqb c "O")%bool then parseRadix 8 r
      else if (Ascii.eqb c "b" || Ascii.eqb c "B")%bool then parseRadix 2 r
      else parseDecimal t
  | String "-" r => Qopp <$> parseDecimal r
  | String "+" r => parseDecimal r
  | t => parseDecimal t
  end.

(** ** Integer to string *)

Definition digitChar (d : N) : ascii := ascii_of_N (48 + d).

(** The decimal digits of [n], most significant first; [fuel] bounds
    the number of digits. *)
Fixpoint natDigits (fuel : nat) (n : N) (acc : string) : string :=
  match fuel with
  | O => acc
  | S fuel' =>
      let acc' := String (digitChar (n mod 10)) acc in
      if (n <? 10)%N then acc' else natDigits fuel' (n / 10) acc'
  end.

(** [String(n)] for an integer [n]: [N.size_nat] bits need no more
    decimal digits than bits, and one digit is always printed. *)
Definition intToString (z : Z) : string :=
  let n := Z.abs_N z in
  let ds := natDigits (S (N.size_nat n)) n "" in
  if (z <? 0)%Z then String "-" ds else ds.

(** ** Fixed-point printing *)

(** [s.padStart(n, "0")]. *)
Definition padZeros (n : nat) (s : string) : string :=
  Nat.iter (n - String.length s) (String "0") s.

(** [x.toFixed(f)] (ECMA-262, 21.1.3.3) for [|x| < 1e21]: the integer
    [n] with [n / 10^f] nearest to [|x|], the larger one on a tie,
    printed with [f] digits after the point, and the sign of [x] in
    front (also when every printed digit is zero). *)
Definition toFixed (x : Q) (f : nat) : string :=
  let a := if Qlt_le_dec x 0 then (- x)%Q else x in
  let n := Qfloor (a * Qpower 10 (Z.of_nat f) + (1 # 2))%Q in
  let m := intToString n in
  let m :=
    match f with
    | O => m
    | _ =>
        let m := padZeros (S f) m in
        let k := String.length m in
        substring 0 (k - f) m ++ "." ++ substring (k - f) f m
    end in
  if Qlt_le_dec x 0 then String "-" m else m.

(** ** Number to string *)

(** The least [e], from [e] on and within [fuel] more, for which
    [num * 10^e] is a multiple of [den]: the number of decimal places
    of [num / den]. *)
Fixpoint decimalPlaces (fuel : nat) (num : Z) (den : positive) (e : nat) : option nat :=
  if decide ((num * 10 ^ Z.of_nat e) mod Zpos den = 0)%Z then Some e
  else match fuel with
       | O => None
       | S fuel' => decimalPlaces fuel' num den (S e)
       end.

(** A string without the zeros at its end, and a string of zeros. *)
Fixpoint stripZeros (s : string) : string :=
  match s with
  | "" => ""
  | String c r =>
      match stripZeros r with
      | "" => if Ascii.eqb c "0" then "" else String c ""
      | r' => String c r'
      end
  end.

Definition zeros (n : nat) : string := Nat.iter n (String "0") "".

(** The digits [s] of a number [0.s * 10^n] as [Number::toString]
    lays them out (ECMA-262, 6.1.6.1.20, steps 6 to 10): as an
    integer, with a point inside, with zeros after the point, or with
    an exponent. *)
Definition layoutDigits (s : string) (n : Z) : string :=
  let k := String.length s in
  if decide (Z.of_nat k <= n <= 21)%Z then s ++ zeros (Z.to_nat n - k)
  else if decide (0 < n <= 21)%Z
  then substring 0 (Z.to_nat n) s ++ "." ++ substring (Z.to_nat n) (k - Z.to_nat n) s
  else if decide (-6 < n <= 0)%Z then "0." ++ zeros (Z.to_nat (- n)) ++ s
  else
    let mantissa :=
      match s with
      | String d (String _ _ as rest) => String d ("." ++ rest)
      | _ => s
      end in
    mantissa ++ "e" ++ (if (1 <=? n)%Z then "+" else "-") ++ intToString (Z.abs (n - 1)).

(** [String(x)] for a number with a finite decimal expansion; [None]
    for another rational, which is not a double.  The digits are those
    of the number itself: for a double they are the shortest that
    denote it, which are the same up to 15 significant digits.  A
    denominator [2^a * 5^b] has no more than its binary logarithm of
    decimal places, which bounds the search. *)
Definition numberToString (x : Q) : option string :=
  let r := Qred x in
  let num := Qnum r in
  let den := Qden r in
  if (num =? 0)%Z then Some "0"
  else
    e ← decimalPlaces (Z.to_nat (Z.log2 (Zpos den))) num den 0;
    let ds := intToString (Z.abs num * 10 ^ Z.of_nat e / Zpos den) in
    let body := layoutDigits (stripZeros ds) (Z.of_nat (String.length ds) - Z.of_nat e) in
    Some (if (num <? 0)%Z then String "-" body else body).

(** ** URI components *)

(** The characters [encodeURIComponent] leaves as they are (ECMA-262,
    19.2.6.5): letters, digits and [- _ . ! ~ * ' ( )]. *)
Definition uriUnreserved (c : ascii) : bool :=
  let n := N_of_ascii c in
  ((48 <=? n) && (n <=? 57) || (65 <=? n) && (n <=? 90)
   || (97 <=? n) && (n <=? 122)
   || existsb (N.eqb n) [45; 95; 46; 33; 126; 42; 39; 40; 41])%N.

Definition hexChar (d : N) : ascii :=
  if (d <? 10)%N then ascii_of_N (48 + d) else ascii_of_N (55 + d).

(** [encodeURIComponent(s)]: a string is the sequence of the bytes of
    its UTF-8 form, each byte that is not unreserved is escaped. *)
Fixpoint encodeURIComponent (s : string) : string :=
  match s with
  | "" => ""
  | String c s' =>
      if uriUnreserved c then String c (encodeURIComponent s')
      else
        let n := N_of_ascii c in
        String "%" (String (hexChar (n / 16))
                      (String (hexChar (n mod 16)) (encodeURIComponent s')))
  end.

(** [decodeURIComponent(s)]; [None] is the [URIError] of an escape
    that is not two hexadecimal digits.  The test that the decoded
    bytes are UTF-8 is not modelled. *)
Fixpoint decodeURIComponent (s : string) : option string :=
  match s with
  | "" => Some ""
  | String "%" (String h (String l s')) =>
      match digitOf 16 h, digitOf 16 l with
      | Some a, Some b =>
          String (ascii_of_N (16 * a + b)) <$> decodeURIComponent s'
      | _, _ => None
      end
  | String "%" _ => None
  | String c s' => String c <$> decodeURIComponent s'
  end.

(** The characters of an escaped string. *)
Definition uriSafe (c : ascii) : bool := uriUnreserved c || Ascii.eqb c "%".

(** Every character of [s] passes the test. *)
Fixpoint allChars (P : ascii -> bool) (s : string) : bool :=
  match s with
  | "" => true
  | String c s' => P c && allChars P s'
  end.

(** ** Checks against the runtime's answers *)

Example toNumber_examples :
  toNumber "+2" = Some 2%Q /\ toNumber "-10" = Some (-10)%Q /\
  toNumber "  7 " = Some 7%Q /\ toNumber "" = Some 0%Q /\
  toNumber "abc" = None /\ toNumber "1e" = None /\ toNumber "0x1F" = Some 31%Q /\
  (toNumber "1.5e1" ≫= fun q => Some (Qred q)) = Some 15%Q.
Proof. by vm_compute. Qed.

Example toFixed_examples :
  toFixed 100 2 = "100.00" /\ toFixed (1 # 8) 2 = "0.13" /\
  toFixed (- (1 # 25)) 1 = "-0.0" /\ toFixed (- (5 # 2)) 0 = "-3" /\
  toFixed (12345 # 1000) 1 = "12.3" /\ toFixed 0 1 = "0.0" /\
  toFixed (999 # 1000) 2 = "1.00".
Proof. by vm_compute. Qed.

Example numberToString_examples :
  numberToString 100 = Some "100" /\ numberToString (-10) = Some "-10" /\
  numberToString (1 # 2) = Some "0.5" /\ numberToString (- (25 # 2)) = Some "-12.5" /\
  numberToString (1 # 1000000) = Some "0.000001" /\
  numberToString (1 # 10000000) = Some "1e-7" /\
  numberToString (15 # 100000000) = Some "1.5e-7" /\
  numberToString (inject_Z (10 ^ 20)) = Some "100000000000000000000" /\
  numberToString (inject_Z (10 ^ 21)) = Some "1e+21" /\
  numberToString (inject_Z (123 * 10 ^ 21)) = Some "1.23e+23" /\
  numberToString 0 = Some "0" /\ numberToString (1 # 3) = None.
Proof. by vm_compute. Qed.

Example intToString_examples :
  intToString 0 = "0" /\ intToString (-10) = "-10" /\
  intToString 1234567890 = "1234567890".
Proof. by vm_compute. Qed.

(** ** Concatenation *)

Lemma append_assoc (a b c : string) : (a ++ b) ++ c = a ++ (b ++ c).
Proof. induction a as [|x a IH]; simpl; by rewrite ?IH. Qed.

Lemma append_nil_r (a : string) : a ++ "" = a.
Proof. induction a as [|x a IH]; simpl; by rewrite ?IH. Qed.

(** ** Printing respects the equality of rationals *)

Lemma toFixed_proper (x y : Q) (f : nat) : (x == y)%Q -> toFixed x f = toFixed y f.
Proof.
  intros E. unfold toFixed.
  assert (forall a b, (a == b)%Q ->
            Qfloor (a * Qpower 10 (Z.of_nat f) + (1 # 2))%Q
            = Qfloor (b * Qpower 10 (Z.of_nat f) + (1 # 2))%Q) as Hn
    by (intros a b Eab; apply Qfloor_comp; by rewrite Eab).
  destruct (Qlt_le_dec x 0) as [Hx|Hx], (Qlt_le_dec y 0) as [Hy|Hy].
  - by rewrite (Hn (- x)%Q (- y)%Q) by (by rewrite E).
  - rewrite E in Hx. by destruct (Qlt_not_le _ _ Hx).
  - rewrite <- E in Hy. by destruct (Qlt_not_le _ _ Hy).
  - by rewrite (Hn x y).
Qed.

(** ** Escaping and unescaping *)

Example encodeURIComponent_examples :
  encodeURIComponent "^GSPC" = "%5EGSPC" /\ encodeURIComponent "5d" = "5d" /\
  encodeURIComponent "a b&c=d" = "a%20b%26c%3Dd" /\
  decodeURIComponent "%5eGSPC" = Some "^GSPC" /\ decodeURIComponent "50%" = None.
Proof. by vm_compute. Qed.

(** One character, escaped or not, is read back. *)
Lemma decode_encode_char (c : ascii) (s : string) :
  decodeURIComponent (encodeURIComponent (String c "") ++ s)
  = String c <$> decodeURIComponent s.
Proof. by destruct c as [[] [] [] [] [] [] [] []]. Qed.

Lemma encodeURIComponent_cons (c : ascii) (s : string) :
  encodeURIComponent (String c s)
  = encodeURIComponent (String c "") ++ encodeURIComponent s.
Proof. simpl. by destruct (uriUnreserved c). Qed.

Lemma encodeURIComponent_app (a b : string) :
  encodeURIComponent (a ++ b) = encodeURIComponent a ++ encodeURIComponent b.
Proof.
  induction a as [|c a IH]; [done|].
  change (String c a ++ b) with (String c (a ++ b)).
  by rewrite (encodeURIComponent_cons c a), (encodeURIComponent_cons c (a ++ b)),
    IH, append_assoc.
Qed.

(** Unescaping undoes escaping, for every string. *)
Theorem decode_encodeURIComponent (s : string) :
  decodeURIComponent (encodeURIComponent s) = Some s.
Proof.
  induction s as [|c s IH]; [done|].
  by rewrite encodeURIComponent_cons, decode_encode_char, IH.
Qed.

(** So escaping is injective. *)
Corollary encodeURIComponent_inj (a b : string) :
  encodeURIComponent a = encodeURIComponent b -> a = b.
Proof.
  intros E. apply (f_equal decodeURIComponent) in E.
  rewrite !decode_encodeURIComponent in E. by simplify_eq.
Qed.

(** ** The characters of a string *)

Lemma allChars_app P (a b : string) :
  allChars P (a ++ b) = allChars P a && allChars P b.
Proof. induction a as [|c a IH]; simpl; [done|]. by rewrite IH, andb_assoc. Qed.

Lemma allChars_impl (P Q : ascii -> bool) (s : string) :
  (forall c, P c = true -> Q c = true) -> allChars P s = true -> allChars Q s = true.
Proof.
  intros HPQ. induction s as [|c s IH]; simpl; [done|].
  intros [Hc Hs]%andb_true_iff. by rewrite (HPQ c Hc), IH.
Qed.

(** An escaped string is made of unreserved characters and of [%]. *)
Lemma encodeURIComponent_safe (s : string) :
  allChars uriSafe (encodeURIComponent s) = true.
Proof.
  induction s as [|c s IH]; [done|].
  rewrite encodeURIComponent_cons, allChars_app, IH, andb_true_r.
  by destruct c as [[] [] [] [] [] [] [] []].
Qed.

(** A string of unreserved characters is its own escape. *)
Lemma encodeURIComponent_unreserved (s : string) :
  allChars uriUnreserved s = true -> encodeURIComponent s = s.
Proof.
  induction s as [|c s IH]; simpl; [done|].
  intros [-> Hs]%andb_true_iff. by rewrite IH.
Qed.

(** ** Cutting at a separator *)

Section Split.
Variable sep : ascii.

#[local] Abbreviation other := (fun c => negb (Ascii.eqb c sep)).

Lemma split_app_sep (a b : string) :
  allChars other a = true -> split sep (a ++ String sep b) = a :: split sep b.
Proof.
  induction a as [|c a IH]; simpl.
  - intros _. by rewrite Ascii.eqb_refl.
  - intros [Hc Ha]%andb_true_iff. apply negb_true_iff in Hc. by rewrite Hc, IH.
Qed.

Lemma split_no_sep (a : string) : allChars other a = true -> split sep a = [a].
Proof.
  induction a as [|c a IH]; simpl; [done|].
  intros [Hc Ha]%andb_true_iff. apply negb_true_iff in Hc. by rewrite Hc, IH.
Qed.

End Split.

Lemma prefix_empty (s : string) : String.prefix "" s = true.
Proof. by destruct s. Qed.

(** ** Searching and replacing a character that is not there *)

Section Absent.
Variable c : ascii.

#[local] Abbreviation other := (fun x => negb (Ascii.eqb x c)).

Lemma prefix_other (p : string) (x : ascii) (s : string) :
  other x = true -> String.prefix (String c p) (String x s) = false.
Proof.
  intros Hx%negb_true_iff%Ascii.eqb_neq. simpl. by destruct (ascii_dec c x).
Qed.

(** [indexOf] does not find a pattern whose first character is not in
    the string. *)
Lemma index_absent (p s : string) :
  allChars other s = true -> String.index 0 (String c p) s = None.
Proof.
  induction s as [|x s IH]; [done|]. intros [Hx Hs]%andb_true_iff.
  cbn [String.index]. by rewrite prefix_other, IH.
Qed.

(** [replace] leaves a string without the character as it is. *)
Lemma replace_absent (repl s : string) :
  allChars other s = true -> replace (String c "") repl s = s.
Proof.
  induction s as [|x s IH]; [done|]. intros [Hx Hs]%andb_true_iff.
  cbn [replace]. by rewrite prefix_other, IH.
Qed.

End Absent.
