(* ===== verification/Digits.v ===== *)
(** * Digits: printing and reading a number

    The conversions of [JsText] between integers and strings undo one
    another: [Number(String(z))] is [z] for every integer [z].  The
    digits are followed as a list ([natDigitsL], [digitString]): the
    loop of [intToString] builds the list of the decimal digits of
    its argument, most significant first, and [takeDigits] reads a
    string of digits back into the list.

    [Leverage] uses the round trip for the values of the presets:
    what [presetOption] prints, [parseLeverage] reads. *)

From Stdlib Require Import QArith Qround ZArith NArith Ascii String Lia.
From stdpp Require Import base decidable list option.
From S2P Require Import Prelude JsText.

#[local] Open Scope string_scope.

(** ** Reference definitions *)

(** The string of a list of digits. *)
Definition digitString (l : list N) : string :=
  foldr (fun d s => String (digitChar d) s) "" l.

(** The loop of [natDigits] on lists of digits. *)
Fixpoint natDigitsL (fuel : nat) (n : N) (acc : list N) : list N :=
  match fuel with
  | O => acc
  | S fuel' =>
      let acc' := (n mod 10)%N :: acc in
      if (n <? 10)%N then acc' else natDigitsL fuel' (n / 10) acc'
  end.

(** The digits [intToString] prints for [n]. *)
Definition digitsOf (n : N) : list N := natDigitsL (S (N.size_nat n)) n [].

(** A character that is a decimal digit. *)
Definition isDigit (c : ascii) : bool := bool_decide (is_Some (digitOf 10 c)).

(** * Theorems *)

(** ** The digits of a number *)

Lemma natDigits_digitString fuel n acc :
  natDigits fuel n (digitString acc) = digitString (natDigitsL fuel n acc).
Proof.
  revert n acc. induction fuel as [|fuel IH]; intros n acc; simpl; [done|].
  destruct (n <? 10)%N; [done|]. by rewrite <- IH.
Qed.

Lemma natDigitsL_app fuel n acc :
  natDigitsL fuel n acc = (natDigitsL fuel n [] ++ acc)%list.
Proof.
  revert n acc. induction fuel as [|fuel IH]; intros n acc; simpl; [done|].
  destruct (n <? 10)%N; [done|].
  by rewrite (IH _ (_ :: acc)), (IH _ [_]), <- app_assoc.
Qed.

Lemma natDigitsL_lt fuel n acc :
  Forall (fun d => (d < 10)%N) acc -> Forall (fun d => (d < 10)%N) (natDigitsL fuel n acc).
Proof.
  revert n acc. induction fuel as [|fuel IH]; intros n acc Hacc; simpl; [done|].
  assert (n mod 10 < 10)%N by (apply N.mod_lt; lia).
  destruct (n <? 10)%N; [by constructor|]. apply IH. by constructor.
Qed.

Lemma fromDigits_app base l l' :
  fromDigits base (l ++ l')%list
  = (fromDigits base l * base ^ N.of_nat (length l') + fromDigits base l')%N.
Proof.
  unfold fromDigits. rewrite foldl_app. generalize (foldl (fun acc d => acc * base + d)%N 0%N l).
  induction l' as [|d l' IH]; intros a; simpl foldl.
  - simpl. lia.
  - rewrite IH, (IH (0 * base + d)%N). rewrite length_cons, Nat2N.inj_succ, N.pow_succ_r'. lia.
Qed.

(** With fuel for its digits, the loop builds the digits of [n]. *)
Lemma fromDigits_natDigitsL fuel n :
  (n < 10 ^ N.of_nat fuel)%N -> (0 < fuel)%nat ->
  fromDigits 10 (natDigitsL fuel n []) = n.
Proof.
  revert n. induction fuel as [|fuel IH]; intros n Hn Hf; [lia|]. simpl.
  destruct (N.ltb_spec n 10) as [Hlt|Hge].
  - unfold fromDigits. simpl. rewrite N.mod_small by done. lia.
  - rewrite natDigitsL_app, fromDigits_app. simpl length.
    rewrite Nat2N.inj_succ, N.pow_succ_r' in Hn.
    rewrite IH.
    + unfold fromDigits. simpl. pose proof (N.div_mod n 10). lia.
    + apply N.Div0.div_lt_upper_bound. lia.
    + destruct fuel; [|lia]. simpl in Hn. lia.
Qed.

Lemma size_nat_gt (n : N) : (n < 2 ^ N.of_nat (N.size_nat n))%N.
Proof.
  destruct n as [|p]; [done|]. simpl N.size_nat.
  induction p as [p IH|p IH|]; simpl Pos.size_nat;
    rewrite ?Nat2N.inj_succ, ?N.pow_succ_r'; lia.
Qed.

(** [intToString] gives itself fuel enough. *)
Lemma intToString_fuel (n : N) : (n < 10 ^ N.of_nat (S (N.size_nat n)))%N.
Proof.
  pose proof (size_nat_gt n) as Hn. rewrite Nat2N.inj_succ, N.pow_succ_r'.
  assert (2 ^ N.of_nat (N.size_nat n) <= 10 ^ N.of_nat (N.size_nat n))%N
    by (apply N.pow_le_mono_l; lia).
  lia.
Qed.

(** ** Reading digits *)

Lemma digitOf_digitChar (d : N) : (d < 10)%N -> digitOf 10 (digitChar d) = Some d.
Proof.
  intros Hd. assert (exists k : nat, d = N.of_nat k /\ (k < 10)%nat) as (k & -> & Hk)
    by (exists (N.to_nat d); lia).
  clear Hd. do 10 (destruct k as [|k]; [done|]). lia.
Qed.

Lemma takeDigits_digitString (l : list N) (rest : string) :
  Forall (fun d => (d < 10)%N) l ->
  takeDigits 10 (digitString l ++ rest)
  = ((l ++ (takeDigits 10 rest).1)%list, (takeDigits 10 rest).2).
Proof.
  induction 1 as [|d l Hd _ IH]; simpl; [by destruct (takeDigits 10 rest)|].
  by rewrite digitOf_digitChar, IH.
Qed.

(** ** Trimming *)

Lemma revString_revString (s a b : string) :
  revString b (revString a s) = revString (s ++ b) a.
Proof.
  revert a b. induction s as [|c s IH]; intros a b; simpl; [done|]. by rewrite IH.
Qed.

Lemma allChars_revString P (s a : string) :
  allChars P (revString a s) = allChars P s && allChars P a.
Proof.
  revert a. induction s as [|c s IH]; intros a; simpl; [done|].
  rewrite IH. simpl. by destruct (P c), (allChars P s).
Qed.

Lemma trimStart_id (s : string) :
  allChars (fun c => negb (isWhiteSpace c)) s = true -> trimStart s = s.
Proof. destruct s as [|c s]; simpl; [done|]. by intros [->%negb_true_iff _]%andb_true_iff. Qed.

(** A string without white space is trimmed to itself. *)
Lemma trim_id (s : string) :
  allChars (fun c => negb (isWhiteSpace c)) s = true -> trim s = s.
Proof.
  intros Hs. unfold trim. rewrite (trimStart_id s Hs), trimStart_id.
  - by rewrite revString_revString, append_nil_r.
  - by rewrite allChars_revString, Hs.
Qed.

Lemma digitChar_isDigit (d : N) : (d < 10)%N -> isDigit (digitChar d) = true.
Proof.
  intros Hd. unfold isDigit. rewrite digitOf_digitChar by done.
  by apply bool_decide_eq_true_2.
Qed.

Lemma digitString_isDigit (l : list N) :
  Forall (fun d => (d < 10)%N) l -> allChars isDigit (digitString l) = true.
Proof. induction 1 as [|d l Hd _ IH]; simpl; [done|]. by rewrite digitChar_isDigit, IH. Qed.

Lemma isDigit_not_space (c : ascii) : isDigit c = true -> negb (isWhiteSpace c) = true.
Proof. by destruct c as [[] [] [] [] [] [] [] []]. Qed.

(** ** Reading a string of digits *)

Lemma parseDecimal_digitString (l : list N) :
  Forall (fun d => (d < 10)%N) l -> l <> [] ->
  exists q, parseDecimal (digitString l) = Some q
            /\ (q == inject_Z (Z.of_N (fromDigits 10 l)))%Q.
Proof.
  intros Hl Hne. unfold parseDecimal.
  rewrite <- (append_nil_r (digitString l)), takeDigits_digitString by done.
  simpl. rewrite app_nil_r. destruct l as [|d l]; [done|]. simpl.
  eexists. split; [done|]. simpl. ring.
Qed.

(** [Number(s)] of a string of digits reads it as a decimal literal:
    no digit is the [x], [o] or [b] of another base. *)
Lemma toNumber_digitString (l : list N) :
  Forall (fun d => (d < 10)%N) l -> l <> [] ->
  toNumber (digitString l) = parseDecimal (digitString l).
Proof.
  intros Hl Hne. unfold toNumber. rewrite trim_id.
  2:{ apply (allChars_impl isDigit); [apply isDigit_not_space|by apply digitString_isDigit]. }
  destruct Hl as [|d l Hd Hl]; [done|].
  assert (exists k : nat, d = N.of_nat k /\ (k < 10)%nat) as (k & -> & Hk)
    by (exists (N.to_nat d); lia).
  destruct k as [|k]; [|by do 9 (destruct k as [|k]; [done|]); lia].
  destruct Hl as [|d' l' Hd' _]; [done|].
  assert (exists k : nat, d' = N.of_nat k /\ (k < 10)%nat) as (k & -> & Hk')
    by (exists (N.to_nat d'); lia).
  do 10 (destruct k as [|k]; [done|]). lia.
Qed.

Lemma toNumber_minus (l : list N) :
  Forall (fun d => (d < 10)%N) l ->
  toNumber (String "-" (digitString l)) = Qopp <$> parseDecimal (digitString l).
Proof.
  intros Hl. unfold toNumber. rewrite trim_id; [done|]. simpl.
  apply (allChars_impl isDigit); [apply isDigit_not_space|by apply digitString_isDigit].
Qed.

(** ** Printing an integer *)

Lemma natDigitsL_nonempty fuel n acc : acc <> [] -> natDigitsL fuel n acc <> [].
Proof.
  revert n acc. induction fuel as [|fuel IH]; intros n acc Hacc; simpl; [done|].
  destruct (n <? 10)%N; [done|]. by apply IH.
Qed.

Lemma digitsOf_spec (n : N) :
  Forall (fun d => (d < 10)%N) (digitsOf n) /\ digitsOf n <> []
  /\ fromDigits 10 (digitsOf n) = n.
Proof.
  unfold digitsOf. split_and!.
  - by apply natDigitsL_lt.
  - simpl. destruct (n <? 10)%N; [done|]. by apply natDigitsL_nonempty.
  - apply fromDigits_natDigitsL; [apply intToString_fuel|lia].
Qed.

Lemma intToString_digits (z : Z) :
  intToString z
  = (if (z <? 0)%Z then String "-" (digitString (digitsOf (Z.abs_N z)))
     else digitString (digitsOf (Z.abs_N z))).
Proof.
  unfold intToString. cbv zeta.
  by rewrite (natDigits_digitString _ _ []).
Qed.

(** [Number(String(z))] is [z], for every integer [z]. *)
Theorem toNumber_intToString (z : Z) :
  exists q, toNumber (intToString z) = Some q /\ (q == inject_Z z)%Q.
Proof.
  rewrite intToString_digits.
  destruct (digitsOf_spec (Z.abs_N z)) as (Hlt & Hne & Hn).
  destruct (parseDecimal_digitString _ Hlt Hne) as (q & Hq & Eq). rewrite Hn in Eq.
  destruct (Z.ltb_spec z 0) as [Hz|Hz].
  - exists (- q)%Q. rewrite toNumber_minus, Hq by done. split; [done|].
    rewrite Eq, N2Z.inj_abs_N, Z.abs_neq by lia. by rewrite inject_Z_opp, Qopp_involutive.
  - exists q. rewrite toNumber_digitString, Hq by done. split; [done|].
    by rewrite Eq, N2Z.inj_abs_N, Z.abs_eq.
Qed.

(** So an integer is determined by its text. *)
Corollary intToString_inj (a b : Z) : intToString a = intToString b -> a = b.
Proof.
  intros E. destruct (toNumber_intToString a) as (q & Hq & Ea).
  destruct (toNumber_intToString b) as (q' & Hq' & Eb).
  rewrite E, Hq' in Hq. injection Hq as ->.
  apply inject_Z_injective. by rewrite <- Ea, <- Eb.
Qed.

(** A string of digits has no character that is not a digit. *)
Lemma digits_without (x : ascii) (s : string) :
  isDigit x = false -> allChars isDigit s = true ->
  allChars (fun c => negb (Ascii.eqb c x)) s = true.
Proof.
  intros Hx. apply allChars_impl. intros c Hc.
  apply negb_true_iff, Ascii.eqb_neq. intros ->. congruence.
Qed.

(** The string of a natural number is made of digits. *)
Lemma intToString_isDigit (z : Z) :
  (0 <= z)%Z -> allChars isDigit (intToString z) = true.
Proof.
  intros Hz. rewrite intToString_digits.
  destruct (Z.ltb_spec z 0); [lia|]. apply digitString_isDigit, digitsOf_spec.
Qed.

Example digitsOf_examples :
  digitsOf 0 = [0%N] /\ digitsOf 1907 = [1; 9; 0; 7]%N
  /\ toNumber (intToString (-1907)) = Some (-1907)%Q.
Proof. by vm_compute. Qed.
