(* ===== verification/Decimal.v ===== *)
(** * Decimal: the numbers with a finite decimal expansion

    The numbers a string converts to ([toNumber]) are integers and
    decimal literals: they have a finite decimal expansion, and
    [numberToString] prints every such number.  So the numbers the
    component prints with [String], which it takes from the text of
    an input or from the value of a select, always have a text.

    [decimal q] says that [q] is an integer over a power of ten.  The
    search of [numberToString] for the number of decimal places is
    bounded by the binary logarithm of the reduced denominator:
    [divide_pow10_log2] is why the bound is enough. *)

From Stdlib Require Import QArith Qround Qcanon Qpower ZArith NArith Ascii String Lia Lqa.
From stdpp Require Import base decidable list option.
From S2P Require Import Prelude JsText Digits.

#[local] Open Scope Z_scope.

Definition decimal (q : Q) : Prop :=
  exists (m : Z) (j : nat), (q == inject_Z m / inject_Z (10 ^ Z.of_nat j))%Q.

(** * Theorems *)

(** ** Divisors of a power of ten *)

Lemma pow10_succ (j : nat) : 10 ^ Z.of_nat (S j) = 10 * 10 ^ Z.of_nat j.
Proof. rewrite Nat2Z.inj_succ, Z.pow_succ_r by lia. done. Qed.

Lemma pow10_divide (a b : Z) : 0 <= a <= b -> (10 ^ a | 10 ^ b).
Proof.
  intros Hab. exists (10 ^ (b - a)). rewrite <- Z.pow_add_r by lia. f_equal. lia.
Qed.

(** A number prime to ten divides no power of ten but as 1. *)
Lemma pow10_coprime (d : Z) (j : nat) :
  0 < d -> Z.gcd d 10 = 1 -> (d | 10 ^ Z.of_nat j) -> d = 1.
Proof.
  intros Hd Hg. induction j as [|j IH].
  - intros Hdiv. apply Z.divide_1_r_nonneg in Hdiv; lia.
  - rewrite pow10_succ. intros Hdiv. by apply IH, (Z.gauss d 10).
Qed.

(** A divisor of a power of ten shares a factor with ten, and what is
    left divides the power before. *)
Lemma pow10_factor (d : Z) (j : nat) :
  1 < d -> (d | 10 ^ Z.of_nat j) ->
  let g := Z.gcd d 10 in
  2 <= g /\ d = g * (d / g) /\ 0 < d / g /\ (d / g | 10 ^ Z.of_nat (pred j)).
Proof.
  intros Hd Hdiv g.
  assert (0 <= g) as Hg0 by apply Z.gcd_nonneg.
  assert (g <> 0) as Hg by (intros E; apply Z.gcd_eq_0_r in E; lia).
  assert (g <> 1) as Hg1 by (intros E; apply (pow10_coprime d j) in E; [lia|lia|done]).
  destruct (Z.gcd_divide_l d 10) as [d' Ed]. fold g in Ed.
  destruct (Z.gcd_divide_r d 10) as [t Et]. fold g in Et.
  assert (d / g = d') as -> by (rewrite Ed; by apply Z.div_mul).
  assert (Z.gcd d' t = 1) as Hc.
  { replace d' with (d / g) by (rewrite Ed; by apply Z.div_mul).
    replace t with (10 / g) by (rewrite Et at 1; by apply Z.div_mul).
    by apply Z.gcd_div_gcd. }
  split_and!; [lia|lia|nia|].
  destruct j as [|j]; [apply Z.divide_1_r_nonneg in Hdiv; lia|].
  simpl. apply (Z.gauss d' t); [|done].
  apply (Z.mul_divide_cancel_l _ _ g); [done|].
  by rewrite Z.mul_assoc, (Z.mul_comm g t), <- Et, (Z.mul_comm g d'), <- Ed, <- pow10_succ.
Qed.

(** A divisor of a power of ten divides the power of its binary
    logarithm: it is [2^a * 5^b] with [a] and [b] no more than that. *)
Lemma divide_pow10_log2 (d : Z) (j : nat) :
  0 < d -> (d | 10 ^ Z.of_nat j) -> (d | 10 ^ Z.log2 d).
Proof.
  intros Hd. revert j.
  assert (forall n : nat, forall d, 0 < d <= Z.of_nat n ->
            forall j, (d | 10 ^ Z.of_nat j) -> (d | 10 ^ Z.log2 d)) as Hall;
    [|by apply (Hall (Z.to_nat d)); lia].
  clear d Hd. induction n as [|n IH]; intros d Hd j Hdiv; [lia|].
  destruct (decide (d = 1)) as [->|Hd1]; [by exists 1|].
  destruct (pow10_factor d j ltac:(lia) Hdiv) as (Hg & Ed & Hd' & Hdiv').
  set (g := Z.gcd d 10) in *. set (d' := d / g) in *.
  apply IH in Hdiv'; [|nia].
  apply Z.divide_trans with (10 ^ (Z.log2 d' + 1)).
  - rewrite Z.pow_add_r, Z.pow_1_r, Z.mul_comm, Ed by (pose proof (Z.log2_nonneg d'); lia).
    destruct (Z.gcd_divide_r d 10) as [a Ea], Hdiv' as [b Eb]. fold g in Ea.
    exists (a * b). transitivity ((a * g) * (b * d')); [by rewrite <- Ea, <- Eb|ring].
  - apply pow10_divide. pose proof (Z.log2_nonneg d').
    pose proof (Z.log2_double d' Hd'). pose proof (Z.log2_le_mono (2 * d') d). nia.
Qed.

(** ** Printing a decimal *)

Lemma decimalPlaces_complete (fuel : nat) (num : Z) (den : positive) (e e0 : nat) :
  (e <= e0 <= e + fuel)%nat -> (num * 10 ^ Z.of_nat e0) mod Zpos den = 0 ->
  is_Some (decimalPlaces fuel num den e).
Proof.
  revert e. induction fuel as [|fuel IH]; intros e He Hm; simpl; case_decide; eauto.
  - by replace e with e0 in * by lia.
  - destruct (decide (e0 = e)) as [->|Hne]; [done|]. apply IH; [lia|done].
Qed.

Lemma Qred_coprime (q : Q) : Z.gcd (Qnum (Qred q)) (Zpos (Qden (Qred q))) = 1.
Proof. apply Qred_iff, Qred_involutive. Qed.

Lemma pow10_pos (j : Z) : 0 < 10 ^ j \/ j < 0.
Proof. destruct (Z.le_gt_cases 0 j); [left; by apply Z.pow_pos_nonneg|by right]. Qed.

(** The reduced denominator of a decimal divides a power of ten. *)
Lemma decimal_den (q : Q) :
  decimal q -> (Zpos (Qden (Qred q)) | 10 ^ Z.log2 (Zpos (Qden (Qred q)))).
Proof.
  intros (m & j & E). rewrite <- (Qred_correct q) in E.
  pose proof (Qred_coprime q) as Hc. destruct (Qred q) as [num den]. cbn [Qnum Qden] in *.
  apply (divide_pow10_log2 _ j); [done|]. apply (Z.gauss _ num); [|by rewrite Z.gcd_comm].
  exists m. apply inject_Z_injective. rewrite !inject_Z_mult.
  assert (0 < 10 ^ Z.of_nat j) as Hp by (apply Z.pow_pos_nonneg; lia).
  assert (~ inject_Z (10 ^ Z.of_nat j) == 0)%Q as Hnz.
  { change 0%Q with (inject_Z 0). rewrite inject_Z_injective. lia. }
  assert (~ inject_Z (Zpos den) == 0)%Q as Hd.
  { change 0%Q with (inject_Z 0). by rewrite inject_Z_injective. }
  rewrite (Qmult_comm (inject_Z m)).
  transitivity ((num # den) * inject_Z (Zpos den) * inject_Z (10 ^ Z.of_nat j))%Q;
    [rewrite (Qmake_Qdiv num den); by field|rewrite E; by field].
Qed.

(** Every number with a finite decimal expansion has a text. *)
Theorem numberToString_decimal (q : Q) : decimal q -> is_Some (numberToString q).
Proof.
  intros Hd%decimal_den. unfold numberToString. cbv zeta.
  destruct (Qnum (Qred q) =? 0); [by eexists|].
  destruct (decimalPlaces_complete (Z.to_nat (Z.log2 (Zpos (Qden (Qred q)))))
              (Qnum (Qred q)) (Qden (Qred q)) 0 (Z.to_nat (Z.log2 (Zpos (Qden (Qred q))))))
    as [e ->]; [lia| |by eexists].
  rewrite Z2Nat.id by apply Z.log2_nonneg.
  apply Z.mod_divide; [done|]. by apply Z.divide_mul_r.
Qed.

Lemma numberToString_proper (p q : Q) : (p == q)%Q -> numberToString p = numberToString q.
Proof. intros E. unfold numberToString. by rewrite (Qred_complete _ _ E). Qed.

Lemma decimal_proper (p q : Q) : (q == p)%Q -> decimal p -> decimal q.
Proof. intros E (m & j & Ep). exists m, j. by rewrite E. Qed.

(** ** The numbers of a string *)

Lemma inject_pow10_nonzero (j : nat) : ~ (inject_Z (10 ^ Z.of_nat j) == 0)%Q.
Proof.
  change 0%Q with (inject_Z 0). rewrite inject_Z_injective.
  pose proof (Z.pow_pos_nonneg 10 (Z.of_nat j)). lia.
Qed.

Lemma decimal_inject_Z (z : Z) : decimal (inject_Z z).
Proof. exists z, 0%nat. change (10 ^ Z.of_nat 0) with 1. unfold Qdiv. by rewrite Qmult_1_r. Qed.

Lemma decimal_opp (q : Q) : decimal q -> decimal (- q).
Proof. intros (m & j & E). exists (- m), j. rewrite E, inject_Z_opp. field. apply inject_pow10_nonzero. Qed.

Lemma decimal_plus (p q : Q) : decimal p -> decimal q -> decimal (p + q).
Proof.
  intros (m & j & E) (m' & j' & E').
  exists (m * 10 ^ Z.of_nat j' + m' * 10 ^ Z.of_nat j), (j + j')%nat.
  rewrite E, E', Nat2Z.inj_add, Z.pow_add_r, inject_Z_plus, !inject_Z_mult by lia.
  field. split; apply inject_pow10_nonzero.
Qed.

(** A decimal times a power of ten, of either sign. *)
Lemma decimal_scale (q : Q) (e : Z) : decimal q -> decimal (q * Qpower 10 e).
Proof.
  intros (m & j & E). change 10%Q with (inject_Z 10).
  destruct (Z.le_gt_cases 0 e) as [He|He].
  - exists (m * 10 ^ e), j. rewrite E, inject_Z_mult, <- Zpower_Qpower by done.
    field. apply inject_pow10_nonzero.
  - exists m, (j + Z.to_nat (- e))%nat.
    replace e with (- Z.of_nat (Z.to_nat (- e))) at 1 by lia.
    rewrite E, Qpower_opp, <- Zpower_Qpower, Nat2Z.inj_add, Z.pow_add_r, inject_Z_mult by lia.
    field. split; apply inject_pow10_nonzero.
Qed.

#[export] Hint Resolve decimal_inject_Z decimal_opp decimal_plus decimal_scale : chart.

Lemma parseDecimal_decimal (s : string) (q : Q) : parseDecimal s = Some q -> decimal q.
Proof.
  unfold parseDecimal. destruct (takeDigits 10 s) as [ip r1].
  destruct (match r1 with String "." r => takeDigits 10 r | _ => ([], r1) end) as [fp r2].
  intros Hq.
  assert (exists e, q = ((inject_Z (Z.of_N (fromDigits 10 ip))
                          + inject_Z (Z.of_N (fromDigits 10 fp))
                            * Qpower 10 (- Z.of_nat (length fp))) * Qpower 10 e)%Q)
    as [e ->].
  { destruct ip, fp; try done; destruct (parseExponent r2) as [e|]; simplify_eq/=; eauto. }
  auto with chart.
Qed.

(** A string converts to a number with a finite decimal expansion. *)
Theorem toNumber_decimal (s : string) (q : Q) : toNumber s = Some q -> decimal q.
Proof.
  unfold toNumber, parseRadix. intros Hq.
  assert (q = 0%Q \/ (exists z, q = inject_Z z) \/ (exists t, parseDecimal t = Some q)
          \/ exists t q', parseDecimal t = Some q' /\ q = (- q')%Q) as Hc.
  { repeat case_match; simplify_eq/=; eauto 7.
    all: match goal with
         | H : Qopp <$> ?p = Some _ |- _ =>
             destruct p eqn:E; simplify_eq/=; eauto 10
         end. }
  destruct Hc as [->|[[z ->]|[[t Ht]|(t & q' & Ht & ->)]]].
  - apply (decimal_inject_Z 0).
  - auto with chart.
  - by eapply parseDecimal_decimal.
  - by eapply decimal_opp, parseDecimal_decimal.
Qed.

(** ** Integers *)

#[local] Open Scope string_scope.

Lemma zeros_succ (n : nat) : zeros (S n) = String "0" (zeros n).
Proof. done. Qed.

(** The zeros taken from the end of a string, put back. *)
Lemma stripZeros_zeros (s : string) :
  (String.length (stripZeros s) <= String.length s)%nat /\
  stripZeros s ++ zeros (String.length s - String.length (stripZeros s)) = s.
Proof.
  induction s as [|c r [Hl IH]]; [done|]. cbn [stripZeros String.length].
  destruct (stripZeros r) as [|d r'] eqn:E.
  - simpl in IH. rewrite Nat.sub_0_r in IH.
    destruct (Ascii.eqb_spec c "0") as [->|Hc]; simpl.
    + split; [lia|]. by rewrite IH.
    + split; [lia|]. by rewrite Nat.sub_0_r, IH.
  - cbn [String.length] in *. split; [lia|].
    transitivity (String c (String d r' ++ zeros (String.length r - S (String.length r'))));
      [done|by rewrite IH].
Qed.

Lemma digitString_length (l : list N) : String.length (digitString l) = length l.
Proof. induction l as [|d l IH]; simpl; [done|]. by rewrite IH. Qed.

(** A number below [10^k] has no more than [k] digits. *)
Lemma natDigitsL_length (fuel : nat) (n : N) (acc : list N) (k : nat) :
  (n < 10 ^ N.of_nat k)%N ->
  (length (natDigitsL fuel n acc) <= Nat.max 1 k + length acc)%nat.
Proof.
  revert n acc k. induction fuel as [|fuel IH]; intros n acc k Hn; simpl; [lia|].
  destruct (N.ltb_spec n 10) as [Hlt|Hge]; simpl; [lia|].
  destruct k as [|[|k]]; [simpl in Hn; lia..|].
  specialize (IH (n / 10)%N ((n mod 10)%N :: acc) (S k)). simpl in IH.
  assert (n / 10 < 10 ^ N.of_nat (S k))%N as Hq; [|specialize (IH Hq); lia].
  apply N.Div0.div_lt_upper_bound.
  rewrite <- N.pow_succ_r', <- Nat2N.inj_succ. done.
Qed.

Lemma decimalPlaces_now (fuel : nat) (num : Z) (den : positive) (e : nat) :
  ((num * 10 ^ Z.of_nat e) mod Zpos den = 0)%Z -> decimalPlaces fuel num den e = Some e.
Proof. intros Hm. destruct fuel; simpl; by rewrite decide_True. Qed.

(** An integer below [10^21] in absolute value is printed as its
    digits. *)
Theorem numberToString_inject_Z (z : Z) :
  (Z.abs z < 10 ^ 21)%Z -> numberToString (inject_Z z) = Some (intToString z).
Proof.
  intros Hz. unfold numberToString. cbv zeta.
  assert (Qred (inject_Z z) = inject_Z z) as -> by (apply Qred_iff, Z.gcd_1_r).
  cbn [Qnum Qden inject_Z]. destruct (Z.eqb_spec z 0) as [->|Hnz]; [done|].
  rewrite decimalPlaces_now by apply Z.mod_1_r.
  cbn [mbind option_bind Z.of_nat]. rewrite Z.pow_0_r, Z.mul_1_r, Z.div_1_r.
  set (ds := intToString (Z.abs z)).
  assert (intToString z = if (z <? 0)%Z then String "-" ds else ds) as ->.
  { subst ds. unfold intToString. cbv zeta.
    replace (Z.abs_N (Z.abs z)) with (Z.abs_N z) by (by destruct z).
    by rewrite (proj2 (Z.ltb_ge (Z.abs z) 0)) by lia. }
  change (Z.of_nat 0) with 0%Z. rewrite Z.sub_0_r.
  assert (layoutDigits (stripZeros ds) (Z.of_nat (String.length ds)) = ds) as ->; [|done].
  destruct (stripZeros_zeros ds) as [Hl E]. unfold layoutDigits. cbv zeta.
  rewrite decide_True, Nat2Z.id; [done|].
  split; [lia|]. subst ds. rewrite intToString_digits, (proj2 (Z.ltb_ge _ 0)) by lia.
  rewrite digitString_length. unfold digitsOf.
  pose proof (natDigitsL_length (S (N.size_nat (Z.abs_N (Z.abs z)))) (Z.abs_N (Z.abs z)) [] 21)
    as Hlen. change (length (@nil N)) with 0%nat in Hlen.
  assert (Z.abs_N (Z.abs z) < 10 ^ N.of_nat 21)%N as Hn by (simpl; lia).
  specialize (Hlen Hn). lia.
Qed.

(** What is printed converts back to the number. *)
Example numberToString_toNumber_examples :
  Forall (fun q => numberToString q ≫= toNumber ≡ Some q)
    [100; 1 # 2; - (25 # 2); 1 # 1000000; 1 # 10000000; 15 # 100000000;
     inject_Z (10 ^ 21); inject_Z (123 * 10 ^ 21)]%Q.
Proof.
  repeat (apply Forall_cons_2; [vm_compute; by constructor|]). apply Forall_nil_2.
Qed.
