(* ===== verification/JsDate.v ===== *)
(** * JsDate: the UTC arithmetic of the ECMAScript [Date] built-in

    A time value is an integer number of milliseconds since the epoch
    ([Z]).  The definitions follow ECMA-262, section 21.4.1 ("Time
    Values and Time Range", "Day Number and Time within Day", "Year
    Number", "Month Number", "Date Number", "Week Day", [MakeTime],
    [MakeDay], [MakeDate]), and the methods [setUTCDate],
    [setUTCHours], [setUTCMinutes], [setUTCSeconds], [setUTCMonth] and
    the getters that [alignToInterval] and [addInterval] call.

    [YearFromTime] is specified as the largest year whose first
    instant is not after the time value; it is computed here from the
    mean year length and corrected by at most one year, and
    [YearFromTime_spec] shows that this is that year.  [TimeClip] is
    the identity: time values are taken inside the time range. *)

From Stdlib Require Import ZArith Lia.
From stdpp Require Import base decidable numbers.

#[local] Open Scope Z_scope.

(** ** Constants *)

Definition msPerSecond : Z := 1000.
Definition msPerMinute : Z := 60000.
Definition msPerHour : Z := 3600000.
Definition msPerDay : Z := 86400000.

(** ** Day number and time within day *)

Definition Day (t : Z) : Z := t / msPerDay.
Definition TimeWithinDay (t : Z) : Z := t mod msPerDay.

(** ** Years *)

Definition isLeapYear (y : Z) : bool :=
  if decide (y mod 4 <> 0) then false
  else if decide (y mod 100 <> 0) then true
  else if decide (y mod 400 <> 0) then false
  else true.

Definition DaysInYear (y : Z) : Z := if isLeapYear y then 366 else 365.

Definition DayFromYear (y : Z) : Z :=
  365 * (y - 1970) + (y - 1969) / 4 - (y - 1901) / 100 + (y - 1601) / 400.

Definition TimeFromYear (y : Z) : Z := msPerDay * DayFromYear y.

Definition YearFromTime (t : Z) : Z :=
  let d := Day t in
  let y := 1970 + d * 400 / 146097 in
  if decide (d < DayFromYear y) then y - 1
  else if decide (DayFromYear (y + 1) <= d) then y + 1
  else y.

Definition InLeapYear (t : Z) : Z := if isLeapYear (YearFromTime t) then 1 else 0.

Definition DayWithinYear (t : Z) : Z := Day t - DayFromYear (YearFromTime t).

(** ** Months and dates *)

(** The number of days of the year before month [m] (0 = January),
    with [leap] 1 in a leap year. *)
Definition daysBeforeMonth (leap m : Z) : Z :=
  match m with
  | 0 => 0
  | 1 => 31
  | 2 => 59 + leap
  | 3 => 90 + leap
  | 4 => 120 + leap
  | 5 => 151 + leap
  | 6 => 181 + leap
  | 7 => 212 + leap
  | 8 => 243 + leap
  | 9 => 273 + leap
  | 10 => 304 + leap
  | 11 => 334 + leap
  | _ => 365 + leap
  end.

Definition monthOfDay (leap d : Z) : Z :=
  if decide (d < 31) then 0
  else if decide (d < 59 + leap) then 1
  else if decide (d < 90 + leap) then 2
  else if decide (d < 120 + leap) then 3
  else if decide (d < 151 + leap) then 4
  else if decide (d < 181 + leap) then 5
  else if decide (d < 212 + leap) then 6
  else if decide (d < 243 + leap) then 7
  else if decide (d < 273 + leap) then 8
  else if decide (d < 304 + leap) then 9
  else if decide (d < 334 + leap) then 10
  else 11.

Definition MonthFromTime (t : Z) : Z := monthOfDay (InLeapYear t) (DayWithinYear t).

Definition DateFromTime (t : Z) : Z :=
  DayWithinYear t - daysBeforeMonth (InLeapYear t) (MonthFromTime t) + 1.

(** ** Week day, hours, minutes, seconds *)

Definition WeekDay (t : Z) : Z := (Day t + 4) mod 7.
Definition HourFromTime (t : Z) : Z := (t / msPerHour) mod 24.
Definition MinFromTime (t : Z) : Z := (t / msPerMinute) mod 60.
Definition SecFromTime (t : Z) : Z := (t / msPerSecond) mod 60.
Definition msFromTime (t : Z) : Z := t mod msPerSecond.

(** ** Composition *)

Definition MakeTime (hour min sec ms : Z) : Z :=
  hour * msPerHour + min * msPerMinute + sec * msPerSecond + ms.

Definition MakeDay (year month date : Z) : Z :=
  let ym := year + month / 12 in
  let mn := month mod 12 in
  DayFromYear ym + daysBeforeMonth (if isLeapYear ym then 1 else 0) mn + date - 1.

Definition MakeDate (day time : Z) : Z := day * msPerDay + time.

(** ** The methods *)

Definition getUTCDay (t : Z) : Z := WeekDay t.
Definition getUTCDate (t : Z) : Z := DateFromTime t.
Definition getUTCMonth (t : Z) : Z := MonthFromTime t.
Definition getUTCMinutes (t : Z) : Z := MinFromTime t.

Definition setUTCDate (t dt : Z) : Z :=
  MakeDate (MakeDay (YearFromTime t) (MonthFromTime t) dt) (TimeWithinDay t).

Definition setUTCMonth (t month : Z) : Z :=
  MakeDate (MakeDay (YearFromTime t) month (DateFromTime t)) (TimeWithinDay t).

Definition setUTCHours (t hour min sec ms : Z) : Z :=
  MakeDate (Day t) (MakeTime hour min sec ms).

Definition setUTCMinutes (t min sec ms : Z) : Z :=
  MakeDate (Day t) (MakeTime (HourFromTime t) min sec ms).

Definition setUTCSeconds (t sec ms : Z) : Z :=
  MakeDate (Day t) (MakeTime (HourFromTime t) (MinFromTime t) sec ms).

(** * Theorems *)

Ltac zdiv := unfold msPerDay, msPerHour, msPerMinute, msPerSecond in *;
  Z.div_mod_to_equations; lia.

(** ** Years *)

Lemma DayFromYear_succ y : DayFromYear (y + 1) = DayFromYear y + DaysInYear y.
Proof.
  unfold DayFromYear, DaysInYear, isLeapYear. repeat case_decide; zdiv.
Qed.

Lemma DayFromYear_mono y y' : y <= y' -> DayFromYear y <= DayFromYear y'.
Proof. unfold DayFromYear. intros. zdiv. Qed.

Lemma DayFromYear_strict y y' : y < y' -> DayFromYear y < DayFromYear y'.
Proof. unfold DayFromYear. intros. zdiv. Qed.

(** [YearFromTime t] is the year whose days include the day of [t]. *)
Lemma YearFromTime_spec t :
  DayFromYear (YearFromTime t) <= Day t < DayFromYear (YearFromTime t + 1).
Proof.
  unfold YearFromTime. cbv zeta.
  set (d := Day t). set (y := 1970 + d * 400 / 146097).
  assert (146097 * (y - 1970) <= 400 * d < 146097 * (y - 1970) + 146097)
    by (unfold y; zdiv).
  repeat case_decide.
  - split; [|by replace (y - 1 + 1) with y by lia].
    unfold DayFromYear in *. zdiv.
  - split; [done|]. unfold DayFromYear in *. zdiv.
  - lia.
Qed.

(** It is the largest year that starts at or before [t], as ECMA-262
    defines it. *)
Lemma YearFromTime_largest t y :
  TimeFromYear y <= t <-> y <= YearFromTime t.
Proof.
  pose proof (YearFromTime_spec t) as [H1 H2]. unfold TimeFromYear. split.
  - intros Hy. destruct (decide (y <= YearFromTime t)); [done|].
    pose proof (DayFromYear_mono (YearFromTime t + 1) y ltac:(lia)).
    unfold Day in *. zdiv.
  - intros Hy. pose proof (DayFromYear_mono _ _ Hy). unfold Day in *. zdiv.
Qed.

Lemma DayWithinYear_range t :
  0 <= DayWithinYear t < DaysInYear (YearFromTime t).
Proof.
  pose proof (YearFromTime_spec t). rewrite DayFromYear_succ in *.
  unfold DayWithinYear. lia.
Qed.

(** ** Months and dates *)

Lemma InLeapYear_DaysInYear t : DaysInYear (YearFromTime t) = 365 + InLeapYear t.
Proof. unfold DaysInYear, InLeapYear. by destruct (isLeapYear _). Qed.

Lemma InLeapYear_range t : 0 <= InLeapYear t <= 1.
Proof. unfold InLeapYear. destruct (isLeapYear _); lia. Qed.

Lemma monthOfDay_range leap d : 0 <= monthOfDay leap d <= 11.
Proof. unfold monthOfDay. repeat case_decide; lia. Qed.

Lemma monthOfDay_spec leap d :
  0 <= leap <= 1 -> 0 <= d < 365 + leap ->
  daysBeforeMonth leap (monthOfDay leap d) <= d
  < daysBeforeMonth leap (monthOfDay leap d + 1).
Proof. unfold monthOfDay. intros. repeat case_decide; simpl; lia. Qed.

Lemma monthOfDay_unique leap d m :
  0 <= leap <= 1 -> 0 <= m <= 11 ->
  daysBeforeMonth leap m <= d < daysBeforeMonth leap (m + 1) ->
  monthOfDay leap d = m.
Proof.
  intros Hl Hm Hd. unfold monthOfDay.
  assert (m = 0 \/ m = 1 \/ m = 2 \/ m = 3 \/ m = 4 \/ m = 5 \/ m = 6 \/
          m = 7 \/ m = 8 \/ m = 9 \/ m = 10 \/ m = 11) as Hcases by lia.
  repeat (destruct Hcases as [->|Hcases]); try subst m; simpl in Hd;
    repeat case_decide; lia.
Qed.

Lemma MonthFromTime_range t : 0 <= MonthFromTime t <= 11.
Proof. apply monthOfDay_range. Qed.

Lemma DateFromTime_range t : 1 <= DateFromTime t <= 31.
Proof.
  pose proof (DayWithinYear_range t) as Hd.
  rewrite InLeapYear_DaysInYear in Hd. pose proof (InLeapYear_range t) as Hl.
  pose proof (monthOfDay_spec _ _ Hl Hd) as Hm. unfold DateFromTime, MonthFromTime.
  revert Hm. unfold monthOfDay. repeat case_decide; simpl; lia.
Qed.

Lemma MakeDate_Day_TimeWithinDay t : MakeDate (Day t) (TimeWithinDay t) = t.
Proof. unfold MakeDate, Day, TimeWithinDay. zdiv. Qed.

Lemma Day_MakeDate d tm : 0 <= tm < msPerDay -> Day (MakeDate d tm) = d.
Proof. unfold MakeDate, Day. intros. zdiv. Qed.

Lemma TimeWithinDay_MakeDate d tm :
  0 <= tm < msPerDay -> TimeWithinDay (MakeDate d tm) = tm.
Proof. unfold MakeDate, TimeWithinDay. intros. zdiv. Qed.

Lemma TimeWithinDay_range t : 0 <= TimeWithinDay t < msPerDay.
Proof. unfold TimeWithinDay. zdiv. Qed.

(** The fields of a time value compose back to its day. *)
Lemma MakeDay_fields t :
  MakeDay (YearFromTime t) (MonthFromTime t) (DateFromTime t) = Day t.
Proof.
  pose proof (MonthFromTime_range t) as Hm. unfold MakeDay. cbv zeta.
  rewrite Z.div_small, Z.add_0_r, Z.mod_small by lia.
  unfold DateFromTime, DayWithinYear. fold (InLeapYear t). lia.
Qed.

(** A time value built on day [date] of month [month] of year [year]
    reads back as that year, month and date. *)
Lemma fields_MakeDay year month date tm :
  0 <= month <= 11 -> 0 <= tm < msPerDay ->
  1 <= date <=
    daysBeforeMonth (if isLeapYear year then 1 else 0) (month + 1)
    - daysBeforeMonth (if isLeapYear year then 1 else 0) month ->
  let t := MakeDate (MakeDay year month date) tm in
  YearFromTime t = year /\ MonthFromTime t = month /\ DateFromTime t = date.
Proof.
  intros Hm Htm Hd t.
  assert (Day t = MakeDay year month date) as HD by (by apply Day_MakeDate).
  assert (MakeDay year month date
          = DayFromYear year
            + daysBeforeMonth (if isLeapYear year then 1 else 0) month
            + date - 1) as HM.
  { unfold MakeDay. cbv zeta. by rewrite Z.div_small, Z.add_0_r, Z.mod_small by lia. }
  set (leap := if isLeapYear year then 1 else 0) in *.
  assert (0 <= leap <= 1) as Hl by (unfold leap; destruct (isLeapYear year); lia).
  assert (0 <= daysBeforeMonth leap month /\
          daysBeforeMonth leap (month + 1) <= 365 + leap) as [Hb1 Hb2].
  { assert (month = 0 \/ month = 1 \/ month = 2 \/ month = 3 \/ month = 4 \/
            month = 5 \/ month = 6 \/ month = 7 \/ month = 8 \/ month = 9 \/
            month = 10 \/ month = 11) as Hc by lia.
    repeat (destruct Hc as [->|Hc]); try subst month; simpl; lia. }
  assert (YearFromTime t = year) as HY.
  { pose proof (YearFromTime_spec t) as [H1 H2].
    pose proof (DayFromYear_succ year) as Hs.
    assert (DaysInYear year = 365 + leap) as Hdy
      by (unfold DaysInYear, leap; by destruct (isLeapYear year)).
    destruct (Z.lt_trichotomy (YearFromTime t) year) as [Hlt|[->|Hgt]]; [|done|].
    - pose proof (DayFromYear_mono (YearFromTime t + 1) year ltac:(lia)). lia.
    - pose proof (DayFromYear_mono (year + 1) (YearFromTime t) ltac:(lia)). lia. }
  assert (InLeapYear t = leap) as HL by (unfold InLeapYear; by rewrite HY).
  assert (DayWithinYear t = daysBeforeMonth leap month + date - 1) as HW
    by (unfold DayWithinYear; rewrite HY; lia).
  assert (MonthFromTime t = month) as HMo.
  { unfold MonthFromTime. rewrite HL, HW. apply monthOfDay_unique; lia. }
  split; [done|]. split; [done|]. unfold DateFromTime. rewrite HMo, HL, HW. lia.
Qed.

Lemma WeekDay_range t : 0 <= WeekDay t <= 6.
Proof. unfold WeekDay. zdiv. Qed.

(** ** Month lengths *)

(** Case analysis on a month number known to lie in 0 .. 11. *)
Ltac month_cases m :=
  let H := fresh "Hcases" in
  assert (m = 0 \/ m = 1 \/ m = 2 \/ m = 3 \/ m = 4 \/ m = 5 \/ m = 6 \/
          m = 7 \/ m = 8 \/ m = 9 \/ m = 10 \/ m = 11) as H by lia;
  repeat (destruct H as [H|H]); rewrite H in *.

(** Evaluates the carry [(m + 1) / 12] and the month [(m + 1) mod 12]
    of a constant month. *)
Ltac norm_month :=
  repeat match goal with
  | |- context [(?a + 1) / 12] =>
      let v := eval vm_compute in ((a + 1) / 12) in change ((a + 1) / 12) with v
  | |- context [(?a + 1) mod 12] =>
      let v := eval vm_compute in ((a + 1) mod 12) in
      change ((a + 1) mod 12) with v
  | |- context [?a / 12] =>
      let v := eval vm_compute in (a / 12) in progress change (a / 12) with v
  | |- context [?a mod 12] =>
      let v := eval vm_compute in (a mod 12) in progress change (a mod 12) with v
  end; rewrite ?Z.add_0_r.

Lemma MakeDay_date_shift year month date k :
  MakeDay year month (date + k) = MakeDay year month date + k.
Proof. unfold MakeDay. lia. Qed.

(** Moving to the next month moves the day number by the length of
    the month, between 28 and 31 days. *)
Lemma MakeDay_next_month year month date :
  0 <= month <= 11 ->
  28 <= MakeDay year (month + 1) date - MakeDay year month date <= 31.
Proof.
  intros Hm. pose proof (DayFromYear_succ year) as Hs.
  unfold DaysInYear in Hs. unfold MakeDay. cbv zeta.
  month_cases month; norm_month; destruct (isLeapYear year); simpl; lia.
Qed.

(** The first of the month after month [month] of [year]. *)
Lemma MakeDay_month_carry year month date :
  0 <= month <= 11 ->
  MakeDay year (month + 1) date
  = MakeDay (year + (month + 1) / 12) ((month + 1) mod 12) date.
Proof.
  intros Hm. unfold MakeDay. cbv zeta.
  by month_cases month; norm_month.
Qed.
