(* ===== verification/Series.v ===== *)
(** * Series: price points, the proxy, the client fetch and the start filter

    [PricePoint] and series as the component passes them around; the
    proxy's [handler] ([src/unnamed/part_000]); the normalisation of
    [fetchYahooSPX], the start filter [filteredData] and [fullDomain]
    ([src/src/LiveSP500Canvas.jsx]).  A JSON value that is not a
    finite number is [None]: a close the proxy filters out, a time the
    proxy keeps and the client filters out. *)

From Stdlib Require Import QArith Qminmax Lqa Lia ZArith.
From stdpp Require Import base decidable list option strings sorting.
From S2P Require Import Prelude.

#[local] Open Scope Q_scope.

(** ** Data *)

Record PricePoint := mkPoint { time : Q; value : Q }.

Notation "t ↦ v" := (mkPoint t v) (at level 65, no associativity) : chart_scope.
#[local] Open Scope chart_scope.

#[export] Instance PricePoint_equiv : Equiv PricePoint :=
  fun p q => time p == time q /\ value p == value q.

#[export] Instance PricePoint_equivalence : Equivalence (≡@{PricePoint}).
Proof.
  split.
  - by intros p.
  - by intros p q [??].
  - intros p q r [E1 E2] [E3 E4]. split; [by rewrite E1|by rewrite E2].
Qed.

#[export] Instance time_proper : Proper ((≡) ==> Qeq) time.
Proof. by intros p q [??]. Qed.
#[export] Instance value_proper : Proper ((≡) ==> Qeq) value.
Proof. by intros p q [??]. Qed.
#[export] Instance mkPoint_proper : Proper (Qeq ==> Qeq ==> (≡)) mkPoint.
Proof. by intros t t' Et v v' Ev. Qed.

Definition Series := list PricePoint.

(** The visible window. *)
Record Domain := mkDomain { x0 : Q; x1 : Q }.

#[export] Instance Domain_equiv : Equiv Domain :=
  fun d e => x0 d == x0 e /\ x1 d == x1 e.

#[export] Instance Domain_equivalence : Equivalence (≡@{Domain}).
Proof.
  split.
  - by intros d.
  - by intros d e [??].
  - intros d e f [E1 E2] [E3 E4]. split; [by rewrite E1|by rewrite E2].
Qed.

(** The data model's invariant: timestamps never decrease. *)
Definition time_le (p q : PricePoint) : Prop := time p <= time q.
Definition time_sorted (s : Series) : Prop := StronglySorted time_le s.

#[export] Instance time_le_decision p q : Decision (time_le p q) := _.

(** A JSON field that should hold an array: absent (or another falsy
    value), present but not an array, or an array. *)
Inductive JField (A : Type) :=
| JMissing
| JMalformed
| JArray (l : list A).
Arguments JMissing {A}.
Arguments JMalformed {A}.
Arguments JArray {A} l.

(** ** The proxy ([api/spx.js]) *)

(** What [fetch] and [upstream.json()] produce: an exception, a
    response that is not [ok], or a body of which the handler reads
    [chart.result[0].timestamp] and
    [chart.result[0].indicators.quote[0].close]; [None] stands for a
    body where [chart.result[0]] is absent.  The handler calls
    [ts.map], which throws on a value that is not an array, but only
    indexes [close]: a truthy [close] is the list of its entries
    [close[i]], a falsy one is [None].

    The handler multiplies a timestamp and tests a close with
    [Number.isFinite]: an entry of [timestamp] is the number the
    multiplication converts it to, [None] when that is not a finite
    number (a text that is not a number, an object); an entry of
    [close] is its value if it is a finite number, [None]
    otherwise. *)
Record UpstreamResult := mkUpstreamResult {
  timestamp : JField (option Q);
  close : option (list (option Q))
}.

(** A point of the proxy's series: its time is a finite number or
    not ([None]), its value is a finite number. *)
Record ProxyPoint := mkProxyPoint { ptime : option Q; pvalue : Q }.

Inductive Upstream :=
| UpThrow
| UpNotOk (status : Z)
| UpBody (result : option UpstreamResult).

Inductive Response :=
| Resp200 (series : list ProxyPoint)
| Resp502 (msg : string) (status : Z)
| Resp500 (msg : string).

(** [ts.map((t, i) => ({ time: t * 1000, value: close[i] }))]: a
    missing [close[i]] is [undefined], and [NaN * 1000] is [NaN]. *)
Definition toMs (t : option Q) : option Q := (fun x => x * 1000) <$> t.

Definition zipClose (ts : list (option Q)) (close : list (option Q))
  : list (option Q * option Q) :=
  imap (fun i t => (toMs t, mjoin (close !! i))) ts.

(** [.filter((p) => Number.isFinite(p.value))] *)
Definition finitePoints (ps : list (option Q * option Q)) : list ProxyPoint :=
  omap (fun p => mkProxyPoint p.1 <$> p.2) ps.

Definition handler (up : Upstream) : Response :=
  match up with
  | UpThrow => Resp500 "Internal error"
  | UpNotOk status => Resp502 "Upstream failed" status
  | UpBody None => Resp500 "Bad upstream data"
  | UpBody (Some result) =>
      match timestamp result, close result with
      | JMissing, _ | _, None => Resp500 "Bad upstream data"
      | JMalformed, Some _ => Resp500 "Internal error"
      | JArray ts, Some cl => Resp200 (finitePoints (zipClose ts cl))
      end
  end.

(** ** The client fetch ([fetchYahooSPX]) *)

(** A point of the response body as parsed: a field that is not a
    number is [None]. *)
Record RawPoint := mkRaw { rtime : option Q; rvalue : option Q }.

(** The response the client sees: [r.ok], [r.status] and the [series]
    field of the body ([None] when it is absent or is not an array). *)
Record ClientResponse := mkClientResponse {
  ok : bool;
  status : Z;
  body_series : option (list RawPoint)
}.

Inductive FetchError :=
| BackendFailed (status : Z)
| MissingSeries.

(** [.map(p => ({time: p.time, value: p.value}))
     .filter(p => Number.isFinite(p.value) && typeof p.time === "number")] *)
Definition normalise (ps : list RawPoint) : Series :=
  omap (fun p => v ← rvalue p; t ← rtime p; Some (t ↦ v)) ps.

Definition fetchYahooSPX (r : ClientResponse) : FetchError + Series :=
  if negb (ok r) then inl (BackendFailed (status r))
  else match body_series r with
       | None => inl MissingSeries
       | Some ps => inr (normalise ps)
       end.

(** [res.status(n).json(body)] as the client receives it:
    [JSON.stringify] writes a number that is not finite as [null],
    which the client reads back as a value that is not a number. *)
Definition wire (resp : Response) : ClientResponse :=
  match resp with
  | Resp200 s =>
      mkClientResponse true 200
        (Some ((fun p => mkRaw (ptime p) (Some (pvalue p))) <$> s))
  | Resp502 _ _ => mkClientResponse false 502 None
  | Resp500 _ => mkClientResponse false 500 None
  end.

(** The points of the proxy's series whose time is a number, as
    price points. *)
Definition timedPoints (s : list ProxyPoint) : Series :=
  omap (fun p => t ← ptime p; Some (t ↦ pvalue p)) s.

(** ** The start filter ([filteredData]) *)

(** [startTs] is [undefined] ([None]) or a timestamp; the tests
    [!startTs] also take the timestamp 0 for absent. *)
Definition filteredData (rawData : Series) (startTs : option Q) : Series :=
  match rawData, startTs with
  | [], _ => rawData
  | _, None => rawData
  | p0 :: _, Some start =>
      if decide (start == 0) then rawData
      else
        let minTs := time p0 in
        let maxTs := time (default p0 (last rawData)) in
        if decide (maxTs < start) then []
        else
          let effectiveStart := Qmax start minTs in
          filter (fun p => effectiveStart <= time p) rawData
  end.

(** ** The full extent ([fullDomain]) *)

Definition fullDomain (synth : Series) : Domain :=
  {| x0 := match head synth with Some p => time p | None => 0 end;
     x1 := match last synth with Some p => time p | None => 1 end |}.

(** [domain || fullDomain] *)
Definition activeDomain (domain : option Domain) (synth : Series) : Domain :=
  default (fullDomain synth) domain.

(** ** The demo fallback ([buildDemoSPX]) *)

Section Demo.
(** [Math.sin], the successive results of [Math.random()] and
    [Date.now()]. *)
Variables (Math_sin : Q -> Q) (Math_random : nat -> Q) (now : Q).

(** One iteration of the loop: the state is [price] and [out]. *)
Definition demoStep (start : Q) (acc : Q * Series) (i : nat) : Q * Series :=
  let drift := 2 # 10000 in
  let shock :=
    (Math_sin (inject_Z (Z.of_nat i) / 12) + Math_random i - (1 # 2)) * 5 in
  let price := Qmax 1 (acc.1 * (1 + drift) + shock) in
  (price, acc.2 ++ [start + inject_Z (Z.of_nat i) * 60 * 60 * 1000 ↦ price]).

(** [buildDemoSPX(n)]; a call without argument is [buildDemoSPX 0]. *)
Definition buildDemoSPX (n : nat) : Series :=
  let n := if decide (n = 0%nat) then 240%nat else n in
  let start := now - inject_Z (Z.of_nat n) * 60 * 60 * 1000 in
  (foldl (demoStep start) (4500, []) (seq 0 n)).2.

End Demo.

#[global] Arguments buildDemoSPX : simpl never.

(** * Theorems *)

(** ** The proxy *)

Lemma zipClose_lookup ts cl i :
  zipClose ts cl !! i
  = (fun t => (toMs t, mjoin (cl !! i))) <$> ts !! i.
Proof. unfold zipClose. by rewrite list_lookup_imap. Qed.

Lemma zipClose_length ts cl : length (zipClose ts cl) = length ts.
Proof. unfold zipClose. by rewrite length_imap. Qed.

Lemma zipClose_times ts cl :
  fst <$> zipClose ts cl = toMs <$> ts.
Proof.
  apply list_eq. intros i. rewrite !list_lookup_fmap, zipClose_lookup.
  by destruct (ts !! i).
Qed.

Lemma finitePoints_times ps : ptime <$> finitePoints ps `sublist_of` fst <$> ps.
Proof.
  induction ps as [|[t [v|]] ps IH]; simpl; [done|..].
  - by apply sublist_skip.
  - by apply sublist_cons.
Qed.

Lemma finitePoints_all ps :
  Forall (fun p => is_Some p.2) ps ->
  ptime <$> finitePoints ps = fst <$> ps.
Proof.
  unfold finitePoints.
  induction 1 as [|[t v] ps [v' Hv] _ IH]; [done|].
  simpl in Hv. subst v. simpl. by f_equal.
Qed.

Lemma time_sorted_alt s : time_sorted s <-> StronglySorted Qle (time <$> s).
Proof.
  unfold time_sorted. induction s as [|p s IH]; simpl.
  - split; constructor.
  - rewrite !StronglySorted_cons, IH, Forall_fmap. done.
Qed.

(** The times of the points with a time are the times that are
    numbers. *)
Lemma timedPoints_times s : time <$> timedPoints s = omap id (ptime <$> s).
Proof.
  induction s as [|[[t|] v] s IH]; simpl; [done| |done]. by f_equal.
Qed.

Lemma timedPoints_all s :
  Forall (fun p => is_Some (ptime p)) s -> length (timedPoints s) = length s.
Proof.
  induction 1 as [|[t v] s [t' Ht] _ IH]; [done|].
  simpl in Ht. subst t. simpl. by f_equal.
Qed.

(** a point is in the proxy's series exactly when it pairs a
    timestamp, scaled to milliseconds, with the finite close at the
    same index. *)
Theorem handler_series_elem ts cl p :
  p ∈ finitePoints (zipClose ts cl) <->
  exists i t v, ts !! i = Some t /\ cl !! i = Some (Some v)
    /\ p = mkProxyPoint (toMs t) v.
Proof.
  unfold finitePoints. rewrite list_elem_of_omap. split.
  - intros ([t' [v|]] & Hin & Hp); simplify_eq/=.
    apply list_elem_of_lookup in Hin as [i Hi].
    rewrite zipClose_lookup in Hi.
    destruct (ts !! i) as [t|] eqn:Ht; simplify_eq/=.
    destruct (cl !! i) as [[w|]|] eqn:Hc; simplify_eq/=. by exists i, t, v.
  - intros (i & t & v & Ht & Hc & ->). exists (toMs t, Some v).
    split; [|done].
    apply list_elem_of_lookup. exists i. by rewrite zipClose_lookup, Ht, Hc.
Qed.

Lemma handler_Resp200 up s :
  handler up = Resp200 s <->
  exists ts cl, up = UpBody (Some (mkUpstreamResult (JArray ts) (Some cl)))
    /\ s = finitePoints (zipClose ts cl).
Proof.
  split.
  - destruct up as [| |[[[| |ts] [cl|]]|]]; intros; simplify_eq/=. eauto.
  - by intros (ts & cl & -> & ->).
Qed.

(** The handler answers 200 exactly on a body with both arrays, and
    then with the finite points. *)
Theorem handler_ok_iff up s :
  handler up = Resp200 s <->
  exists ts cl, up = UpBody (Some (mkUpstreamResult (JArray ts) (Some cl)))
    /\ s = finitePoints (zipClose ts cl).
Proof. apply handler_Resp200. Qed.

Lemma omap_id_sublist {A} (l k : list (option A)) :
  l `sublist_of` k -> omap id l `sublist_of` omap id k.
Proof.
  induction 1 as [|[x|] l k _ IH|[x|] l k _ IH]; simpl; try done.
  - by apply sublist_skip.
  - by apply sublist_cons.
Qed.

Lemma omap_id_scaled (ts : list (option Q)) :
  omap id (toMs <$> ts) = (fun x => x * 1000) <$> omap id ts.
Proof. induction ts as [|[t|] ts IH]; simpl; [done| |done]. by f_equal. Qed.

(** The points of a response 200 that have a time are in the order of
    the timestamps that are numbers. *)
Lemma finitePoints_sorted ts cl :
  StronglySorted Qle (omap id ts) ->
  time_sorted (timedPoints (finitePoints (zipClose ts cl))).
Proof.
  intros Hts. apply time_sorted_alt. rewrite timedPoints_times.
  eapply StronglySorted_sublist; [apply omap_id_sublist, finitePoints_times|].
  rewrite zipClose_times, omap_id_scaled. eapply StronglySorted_fmap; [|done].
  intros x y Hxy. simpl. lra.
Qed.

(** The proxy keeps the order of the upstream timestamps. *)
Theorem handler_sorted ts cl :
  StronglySorted Qle (omap id ts) ->
  time_sorted (timedPoints (finitePoints (zipClose ts cl))).
Proof. apply finitePoints_sorted. Qed.

(** When every close is finite nothing is dropped. *)
Theorem handler_all_finite ts vs :
  length vs = length ts ->
  ptime <$> finitePoints (zipClose ts (Some <$> vs)) = toMs <$> ts.
Proof.
  intros Hlen. rewrite finitePoints_all, zipClose_times; [done|].
  apply Forall_lookup. intros i [t v] Hi. rewrite zipClose_lookup in Hi.
  destruct (ts !! i) as [t'|] eqn:Ht; simplify_eq/=.
  rewrite list_lookup_fmap.
  destruct (lookup_lt_is_Some_2 vs i) as [v Hv]; [|by rewrite Hv].
  rewrite Hlen. by eapply lookup_lt_Some.
Qed.

(** The specification's scenario: timestamps [1000, 2000] seconds and
    closes [50, NaN] give the single point at 1000000 ms. *)
Example handler_scenario :
  handler (UpBody (Some (mkUpstreamResult (JArray [Some 1000; Some 2000])
                                          (Some [Some 50; None]))))
  = Resp200 [mkProxyPoint (Some (1000 * 1000)) 50].
Proof. reflexivity. Qed.

(** ** The client fetch *)

Lemma normalise_wire s :
  normalise ((fun p => mkRaw (ptime p) (Some (pvalue p))) <$> s) = timedPoints s.
Proof.
  unfold normalise, timedPoints. induction s as [|[[t|] v] s IH]; [done|..]; simpl;
    by f_equal.
Qed.

(** A point survives the client's filter exactly when both its fields
    are numbers. *)
Theorem normalise_elem ps p :
  p ∈ normalise ps <->
  exists r, r ∈ ps /\ rtime r = Some (time p) /\ rvalue r = Some (value p).
Proof.
  unfold normalise. rewrite list_elem_of_omap. destruct p as [t v]. split.
  - intros ([[t'|] [v'|]] & Hin & Hr); simplify_eq/=. eauto.
  - intros ([t' v'] & Hin & Ht & Hv); simplify_eq/=. eauto.
Qed.

(** What the client makes of a response of the proxy. *)
Lemma fetchYahooSPX_wire resp :
  fetchYahooSPX (wire resp) =
  match resp with
  | Resp200 s => inr (timedPoints s)
  | Resp502 _ _ => inl (BackendFailed 502)
  | Resp500 _ => inl (BackendFailed 500)
  end.
Proof.
  destruct resp; simpl; [|done..].
  unfold fetchYahooSPX. simpl. by rewrite normalise_wire.
Qed.

(** C35: End to end, the client recovers the points of the series the
    proxy answered with that have a time: a point whose timestamp the
    proxy could not multiply travels as [null] and is dropped by the
    client, not by the proxy.  Otherwise the client fails with the
    proxy's status. *)
Theorem fetch_after_proxy up :
  fetchYahooSPX (wire (handler up)) =
  match handler up with
  | Resp200 s => inr (timedPoints s)
  | Resp502 _ _ => inl (BackendFailed 502)
  | Resp500 _ => inl (BackendFailed 500)
  end.
Proof. apply fetchYahooSPX_wire. Qed.

(** A timestamp that is not a number passes the proxy and stops at the
    client. *)
Example fetch_drops_untimed :
  let up := UpBody (Some (mkUpstreamResult (JArray [Some 1000; None; Some 3000])
                                           (Some [Some 50; Some 51; Some 52]))) in
  handler up = Resp200 [mkProxyPoint (Some (1000 * 1000)) 50; mkProxyPoint None 51;
                        mkProxyPoint (Some (3000 * 1000)) 52] /\
  fetchYahooSPX (wire (handler up)) = inr [1000 * 1000 ↦ 50; 3000 * 1000 ↦ 52].
Proof. done. Qed.

(** ** The start filter *)

Lemma time_sorted_head_le p s q :
  time_sorted (p :: s) -> q ∈ p :: s -> time p <= time q.
Proof.
  intros [Hp _]%StronglySorted_cons [->|Hq]%elem_of_cons; [lra|].
  by eapply Forall_forall in Hp.
Qed.

Lemma last_cons_Some_ex (p : PricePoint) s : exists pl, last (p :: s) = Some pl.
Proof. by apply (last_is_Some (p :: s)). Qed.

Lemma time_sorted_le_last s q pl :
  time_sorted s -> q ∈ s -> last s = Some pl -> time q <= time pl.
Proof.
  intros Hs Hq [s' ->]%last_Some.
  apply elem_of_app in Hq as [Hq|Hq%list_elem_of_singleton]; [|subst; lra].
  eapply (StronglySorted_app_1_elem_of _ _ _ _ _ Hs); [done|]. by left.
Qed.

(** on a sorted series the start filter cuts a prefix: what it
    returns is a suffix of the raw data. *)
Theorem filteredData_suffix rawData startTs :
  time_sorted rawData -> filteredData rawData startTs `suffix_of` rawData.
Proof.
  intros Hs. unfold filteredData.
  destruct rawData as [|p0 raw], startTs as [start|]; try done.
  repeat case_decide; try done; [apply suffix_nil|].
  apply (filter_upward_suffix time_le); [|done].
  unfold time_le. intros x y ??. lra.
Qed.

(** Every point kept lies at or after the requested start. *)
Theorem filteredData_after_start rawData start :
  ~ start == 0 ->
  Forall (fun p => start <= time p) (filteredData rawData (Some start)).
Proof.
  intros Hne. unfold filteredData. destruct rawData as [|p0 raw]; [done|].
  repeat case_decide; try done.
  apply Forall_forall. intros p [Hp _]%list_elem_of_filter. qlra.
Qed.

(** No point at or after the start is lost. *)
Theorem filteredData_complete rawData start p :
  time_sorted rawData -> ~ start == 0 ->
  p ∈ rawData -> start <= time p -> p ∈ filteredData rawData (Some start).
Proof.
  intros Hs Hne Hin Hp. unfold filteredData.
  destruct rawData as [|p0 raw]; [done|]. case_decide; [done|].
  pose proof (time_sorted_head_le _ _ _ Hs Hin).
  destruct (last_cons_Some_ex p0 raw) as [pl Hl]. rewrite Hl. simpl.
  pose proof (time_sorted_le_last _ _ _ Hs Hin Hl).
  case_decide; [lra|]. apply list_elem_of_filter. split; [qlra|done].
Qed.

(** A start after the last point empties the series. *)
Theorem filteredData_start_after_last rawData start pl :
  ~ start == 0 -> last rawData = Some pl -> time pl < start ->
  filteredData rawData (Some start) = [].
Proof.
  intros Hne Hl Hlt. unfold filteredData. destruct rawData as [|p0 raw]; [done|].
  rewrite Hl. simpl. by repeat case_decide.
Qed.

(** The start 0 (the epoch itself) is taken for no start at all: the
    filter keeps points before it. *)
Theorem filteredData_epoch_start_ignored rawData :
  filteredData rawData (Some 0) = rawData.
Proof. by destruct rawData. Qed.

(** A start before the first point keeps everything. *)
Theorem filteredData_start_before_first p0 raw start :
  time_sorted (p0 :: raw) -> start <= time p0 ->
  filteredData (p0 :: raw) (Some start) = p0 :: raw.
Proof.
  intros Hs Hle. unfold filteredData. case_decide; [done|].
  destruct (last_cons_Some_ex p0 raw) as [pl Hl]. rewrite Hl. simpl.
  assert (time p0 <= time pl).
  { eapply time_sorted_le_last; [done| |done]. by left. }
  case_decide; [lra|]. apply filter_Forall_id, Forall_forall.
  intros q Hq. pose proof (time_sorted_head_le _ _ _ Hs Hq). qlra.
Qed.

(** ** The full extent *)

(** the full extent of a sorted series contains every point, so
    it is never inverted. *)
Theorem fullDomain_bounds synth p :
  time_sorted synth -> p ∈ synth ->
  x0 (fullDomain synth) <= time p <= x1 (fullDomain synth).
Proof.
  intros Hs Hp. destruct synth as [|p0 s]; [by apply elem_of_nil in Hp|].
  unfold fullDomain. simpl head.
  destruct (last_cons_Some_ex p0 s) as [pl Hl]. rewrite Hl. simpl. split.
  - by eapply time_sorted_head_le.
  - by eapply time_sorted_le_last.
Qed.

Theorem fullDomain_empty : fullDomain [] = mkDomain 0 1.
Proof. reflexivity. Qed.

(** ** The demo fallback *)

Section DemoFacts.
Variables (Math_sin : Q -> Q) (Math_random : nat -> Q) (now : Q).

#[local] Abbreviation demoStep := (demoStep Math_sin Math_random).
#[local] Abbreviation buildDemoSPX := (buildDemoSPX Math_sin Math_random now).

(** What the loop has produced after [k] iterations from [i0]: the
    points already there, then one point an hour after another, each
    at least 1. *)
Lemma foldl_demoStep start k i0 price out :
  let r := foldl (demoStep start) (price, out) (seq i0 k) in
  length r.2 = (length out + k)%nat /\
  (forall j, (j < length out)%nat -> r.2 !! j = out !! j) /\
  (forall j p, (j < k)%nat -> r.2 !! (length out + j)%nat = Some p ->
     time p = start + inject_Z (Z.of_nat (i0 + j)) * 60 * 60 * 1000 /\ 1 <= value p).
Proof.
  revert i0 price out. induction k as [|k IH]; intros i0 price out; cbn zeta.
  - simpl. split_and!; [lia|done|lia].
  - cbn [seq foldl]. remember (demoStep start (price, out) i0) as acc eqn:Ea.
    unfold Series.demoStep in Ea. cbn [fst snd] in Ea.
    set (price' := Qmax 1 _) in Ea. set (pt := _ ↦ price') in Ea. subst acc.
    destruct (IH (S i0) price' (out ++ [pt])) as (Hl & Hold & Hnew).
    unfold Series in *. rewrite length_app in *. cbn [length] in *.
    split_and!; [lia| |].
    + intros j Hj. rewrite Hold by lia. by apply lookup_app_l.
    + intros [|j] p Hj Hp.
      * rewrite Nat.add_0_r, Hold, list_lookup_middle in Hp by (done || lia).
        injection Hp as <-. rewrite Nat.add_0_r. subst pt price'. simpl. split; [done|qlra].
      * replace (i0 + S j)%nat with (S i0 + j)%nat by lia.
        apply Hnew; [lia|]. by replace (length out + 1 + j)%nat with (length out + S j)%nat by lia.
Qed.

(** The demo series has [n] points (240 when [n] is 0), an hour
    apart, the last one an hour before now, every value at least 1. *)
Theorem buildDemoSPX_spec n :
  let m := if decide (n = 0%nat) then 240%nat else n in
  length (buildDemoSPX n) = m /\
  forall j p, buildDemoSPX n !! j = Some p ->
    time p = now - inject_Z (Z.of_nat m) * 60 * 60 * 1000
             + inject_Z (Z.of_nat j) * 60 * 60 * 1000 /\
    1 <= value p.
Proof.
  cbv zeta. unfold buildDemoSPX. cbv zeta. set (m := if decide _ then _ else _).
  set (start := now - _).
  destruct (foldl_demoStep start m 0 4500 []) as (Hl & _ & Hnew).
  unfold Series in *. simpl in Hl, Hnew. split; [done|]. intros j p Hp.
  apply Hnew; [|done]. apply lookup_lt_Some in Hp. lia.
Qed.

(** The demo series is ordered by time, whatever the random numbers. *)
Lemma buildDemoSPX_sorted n : time_sorted (buildDemoSPX n).
Proof.
  unfold buildDemoSPX. cbv zeta. set (m := if decide _ then _ else _).
  set (start := now - _).
  destruct (foldl_demoStep start m 0 4500 []) as (Hl & _ & Hnew).
  unfold Series in *. simpl in Hl, Hnew.
  apply StronglySorted_lookup_2. intros i j x y Hij Hi Hj. unfold time_le.
  pose proof (lookup_lt_Some _ _ _ Hj) as Hjm.
  destruct (Hnew i x ltac:(lia) Hi) as [-> _]. destruct (Hnew j y ltac:(lia) Hj) as [-> _].
  assert (inject_Z (Z.of_nat i) <= inject_Z (Z.of_nat j)) by (rewrite <- Zle_Qle; lia).
  lra.
Qed.

End DemoFacts.

(** ** The start filter and equal timestamps *)

(** A start that is the same number gives the same filtered series. *)
Lemma filteredData_same_start rawData a b :
  a == b -> filteredData rawData (Some a) = filteredData rawData (Some b).
Proof.
  intros E. unfold filteredData. destruct rawData as [|p0 l]; [done|].
  set (maxTs := time (default p0 (last (p0 :: l)))).
  destruct (decide (a == 0)), (decide (b == 0)); try (rewrite E in *; done); try done.
  destruct (decide (maxTs < a)), (decide (maxTs < b)); try (rewrite E in *; done); try done.
  apply list_filter_iff. intros p. by rewrite E.
Qed.

(** ** Instances *)

Lemma handler_sorted_witness :
  time_sorted (timedPoints (finitePoints (zipClose [Some 1000; Some 2000] [Some 50; None]))).
Proof.
  apply (handler_sorted [Some 1000; Some 2000] [Some 50; None]).
  repeat constructor; by vm_compute.
Defined.

Lemma filteredData_complete_witness :
  (1000 ↦ 110) ∈ filteredData [0 ↦ 100; 1000 ↦ 110] (Some 500).
Proof.
  apply (filteredData_complete [0 ↦ 100; 1000 ↦ 110] 500 (1000 ↦ 110));
    [repeat constructor; by vm_compute|by vm_compute|in_list|by vm_compute].
Defined.
