(* ===== verification/Leverage.v ===== *)
(** * Leverage: the preset strings and the leverage simulator

    [buildSyntheticOptions], [isSynthetic], [parseLeverage] and
    [buildSyntheticSeries] of [src/src/LiveSP500Canvas.jsx], and the
    expression [parseLeverage(preset) || 1] of the component.

    The simulator is translated as the index loop it is
    ([synthStep] is the loop body, run over the indices [0 .. length-1]
    with the accumulator [(base, out)]); [simulate] is the structural
    recurrence it implements, and the theorems about the simulator are
    proved on [simulate] and carried over by the refinement
    [buildSyntheticSeries_unfold]. *)

From Stdlib Require Import QArith Qminmax Lqa Lia ZArith Ascii.
From stdpp Require Import base decidable list option strings.
From S2P Require Import Prelude JsText Digits Series.

#[local] Open Scope Q_scope.
#[local] Open Scope chart_scope.

(** ** The presets *)

Record PresetOption := mkOption { opt_label : string; opt_value : string }.

(** One turn of either [for] loop: the option for the multiple [k]
    with the given sign character. *)
Definition presetOption (sign : string) (k : Z) : PresetOption :=
  {| opt_label := sign +:+ intToString k +:+ "x SPX";
     opt_value := "SYNTHETIC:" +:+ sign +:+ intToString k |}.

Definition buildSyntheticOptions : list PresetOption :=
  (presetOption "+" <$> seqZ 1 10) ++ (presetOption "-" <$> seqZ 1 10).

Definition isSynthetic (value : string) : bool :=
  bool_decide (indexOf value "SYNTHETIC:" = 0%Z).

(** [null] is [None]. *)
Definition parseLeverage (value : string) : option Q :=
  if negb (isSynthetic value) then None
  else
    let sign : Q := if bool_decide (indexOf value ":-" <> (-1)%Z) then -1 else 1 in
    let raw := default "" (split ":"%char value !! 1%nat) in
    let raw := replace "-" "" (replace "+" "" raw) in
    n ← toNumber raw;
    Some (sign * n).

(** [parseLeverage(preset) || 1]: [null] and 0 both give 1. *)
Definition leverageOf (preset : string) : Q :=
  match parseLeverage preset with
  | Some n => if decide (n == 0) then 1 else n
  | None => 1
  end.

(** ** The simulator *)

(** [prev ? (curr - prev) / prev : 0] *)
Definition simpleReturn (prev curr : Q) : Q :=
  if decide (prev == 0) then 0 else (curr - prev) / prev.

(** The body of the loop at index [i], on the accumulator
    [(base, out)]. *)
Definition synthStep (spx : Series) (leverage : Q) (st : Q * Series) (i : nat)
    : Q * Series :=
  let '(base, out) := st in
  match spx !! i with
  | None => st
  | Some cur =>
      match i with
      | O => (base, out ++ [time cur ↦ base])
      | S j =>
          let prev := from_option value 0 (spx !! j) in
          let curr := value cur in
          let r := simpleReturn prev curr in
          let base' := base * (1 + leverage * r) in
          (base', out ++ [time cur ↦ base'])
      end
  end.

(** [baseStart] is [None] when the argument is not a number. *)
Definition buildSyntheticSeries (spx : Series) (leverage : Q)
    (baseStart : option Q) : Series :=
  match spx with
  | [] => []
  | _ =>
      let base := default 100 baseStart in
      (foldl (synthStep spx leverage) (base, []) (seq 0 (length spx))).2
  end.

(** ** The recurrence the loop implements *)

Fixpoint synthFrom (leverage prev base : Q) (rest : Series) : Series :=
  match rest with
  | [] => []
  | p :: rest' =>
      let base' := base * (1 + leverage * simpleReturn prev (value p)) in
      (time p ↦ base') :: synthFrom leverage (value p) base' rest'
  end.

Definition simulate (spx : Series) (leverage base : Q) : Series :=
  match spx with
  | [] => []
  | p0 :: rest => (time p0 ↦ base) :: synthFrom leverage (value p0) base rest
  end.

(** * Theorems *)

(** ** The loop and the recurrence *)

Lemma synthStep_succ pre p q rest k base out :
  synthStep (pre ++ p :: q :: rest) k (base, out) (S (length pre)) =
  let base' := base * (1 + k * simpleReturn (value p) (value q)) in
  (base', out ++ [time q ↦ base']).
Proof.
  unfold synthStep.
  rewrite (lookup_app_r pre), (lookup_app_r pre) by lia.
  replace (S (length pre) - length pre)%nat with 1%nat by lia.
  by rewrite Nat.sub_diag.
Qed.

Lemma foldl_synthStep_rest k rest : forall pre p base out,
  (foldl (synthStep (pre ++ p :: rest) k) (base, out)
         (seq (S (length pre)) (length rest))).2
  = out ++ synthFrom k (value p) base rest.
Proof.
  induction rest as [|q rest IH]; intros pre p base out; cbn [length seq foldl].
  - simpl. by rewrite app_nil_r.
  - rewrite synthStep_succ. cbn zeta.
    replace (pre ++ p :: q :: rest) with ((pre ++ [p]) ++ q :: rest)
      by (by rewrite <- app_assoc).
    replace (S (S (length pre))) with (S (length (pre ++ [p])))
      by (rewrite length_app; simpl; lia).
    rewrite IH. by rewrite <- app_assoc.
Qed.

Lemma buildSyntheticSeries_unfold spx leverage baseStart :
  buildSyntheticSeries spx leverage baseStart
  = simulate spx leverage (default 100 baseStart).
Proof.
  destruct spx as [|p0 rest]; [done|].
  unfold buildSyntheticSeries, simulate. simpl.
  by rewrite (foldl_synthStep_rest leverage rest [] p0).
Qed.

(** C1: the index loop of [buildSyntheticSeries] computes the
    recurrence [simulate], with the base defaulting to 100. *)
Theorem buildSyntheticSeries_simulate spx leverage baseStart :
  buildSyntheticSeries spx leverage baseStart
  = simulate spx leverage (default 100 baseStart).
Proof. apply buildSyntheticSeries_unfold. Qed.

(** ** Numbers up to [==] *)

#[export] Instance simpleReturn_proper : Proper (Qeq ==> Qeq ==> Qeq) simpleReturn.
Proof.
  intros p p' Ep c c' Ec. unfold simpleReturn.
  destruct (decide (p == 0)), (decide (p' == 0)); try lra. by rewrite Ep, Ec.
Qed.

#[export] Instance synthFrom_proper :
  Proper (Qeq ==> Qeq ==> Qeq ==> (≡) ==> (≡)) synthFrom.
Proof.
  intros k k' Ek prev prev' Ep base base' Eb rest rest' Er.
  revert prev prev' Ep base base' Eb.
  induction Er as [|p q rest rest' [Et Ev] _ IH]; intros; simpl; [done|].
  assert (base * (1 + k * simpleReturn prev (value p))
          == base' * (1 + k' * simpleReturn prev' (value q))) as E
    by (by rewrite Ek, Ep, Eb, Ev).
  constructor; [by split|]. by apply IH.
Qed.

#[export] Instance simulate_proper :
  Proper ((≡) ==> Qeq ==> Qeq ==> (≡)) simulate.
Proof.
  intros spx spx' Es k k' Ek b b' Eb.
  destruct Es as [|p q rest rest' [Et Ev] Er]; simpl; [done|].
  constructor; [by split|]. by apply synthFrom_proper.
Qed.

(** ** Shape: first value, timestamps *)

Lemma synthFrom_times k prev base rest :
  time <$> synthFrom k prev base rest = time <$> rest.
Proof.
  revert prev base. induction rest as [|p rest IH]; intros; simpl; [done|].
  by rewrite IH.
Qed.

(** C12: the first synthetic point carries the first timestamp and
    exactly the base. *)
Theorem buildSyntheticSeries_first spx leverage base p0 :
  head spx = Some p0 ->
  head (buildSyntheticSeries spx leverage (Some base)) = Some (time p0 ↦ base).
Proof.
  rewrite buildSyntheticSeries_unfold.
  destruct spx as [|p rest]; intros; by simplify_eq/=.
Qed.

(** the synthetic series has the timestamps of the input, in
    order (so it has its length, too). *)
Theorem buildSyntheticSeries_times spx leverage baseStart :
  time <$> buildSyntheticSeries spx leverage baseStart = time <$> spx.
Proof.
  rewrite buildSyntheticSeries_unfold. destruct spx as [|p rest]; [done|].
  simpl. by rewrite synthFrom_times.
Qed.

Corollary buildSyntheticSeries_length spx leverage baseStart :
  length (buildSyntheticSeries spx leverage baseStart) = length spx.
Proof.
  rewrite <- (length_fmap time), buildSyntheticSeries_times.
  apply length_fmap.
Qed.

Corollary buildSyntheticSeries_sorted spx leverage baseStart :
  time_sorted spx -> time_sorted (buildSyntheticSeries spx leverage baseStart).
Proof. rewrite !time_sorted_alt. by rewrite buildSyntheticSeries_times. Qed.

(** The synthetic series has the full extent of the input. *)
Corollary fullDomain_buildSyntheticSeries spx leverage baseStart :
  fullDomain (buildSyntheticSeries spx leverage baseStart) = fullDomain spx.
Proof.
  pose proof (buildSyntheticSeries_times spx leverage baseStart) as E.
  unfold fullDomain. f_equal.
  - apply (f_equal head) in E. rewrite !head_fmap in E.
    by destruct (head _), (head spx); simplify_eq/=.
  - apply (f_equal last) in E. rewrite !last_fmap in E.
    by destruct (last _), (last spx); simplify_eq/=.
Qed.

(** ** The recurrence, point by point *)

Lemma synthFrom_step k j : forall rest prev base p q o,
  rest !! j = Some p -> rest !! S j = Some q ->
  synthFrom k prev base rest !! j = Some o ->
  synthFrom k prev base rest !! S j
  = Some (time q ↦ value o * (1 + k * simpleReturn (value p) (value q))).
Proof.
  induction j as [|j IH]; intros [|x [|y rest]] prev base p q o ???;
    simplify_eq/=; [done|]. by eapply (IH (y :: rest)).
Qed.

(** each synthetic value is the previous one times
    [1 + leverage * r], with [r] the simple return of the input over
    the same step. *)
Theorem buildSyntheticSeries_step spx leverage baseStart i p q o :
  spx !! i = Some p -> spx !! S i = Some q ->
  buildSyntheticSeries spx leverage baseStart !! i = Some o ->
  buildSyntheticSeries spx leverage baseStart !! S i
  = Some (time q ↦ value o * (1 + leverage * simpleReturn (value p) (value q))).
Proof.
  rewrite buildSyntheticSeries_unfold. destruct spx as [|p0 rest]; [done|].
  destruct i as [|i]; intros ???; simplify_eq/=.
  - by destruct rest; simplify_eq/=.
  - by eapply synthFrom_step.
Qed.

(** ** Flat input, zero leverage *)

Lemma simpleReturn_same c c' : c == c' -> simpleReturn c c' == 0.
Proof.
  intros E. unfold simpleReturn. case_decide; [done|].
  rewrite E. field. by rewrite <- E.
Qed.

Lemma synthFrom_flat k c rest : forall prev base,
  prev == c -> Forall (fun p => value p == c) rest ->
  Forall (fun o => value o == base) (synthFrom k prev base rest).
Proof.
  induction rest as [|p rest IH]; intros prev base Ep Hall; simpl; [done|].
  apply Forall_cons in Hall as [Hp Hall].
  assert (base * (1 + k * simpleReturn prev (value p)) == base) as E.
  { rewrite simpleReturn_same by (by rewrite Hp). ring. }
  constructor; [done|].
  eapply Forall_impl; [by apply IH|]. intros o Ho. simpl in Ho. by rewrite Ho.
Qed.

(** on an input without returns every synthetic value is the
    base, whatever the leverage: the sign of the leverage is
    irrelevant there. *)
Theorem buildSyntheticSeries_flat spx leverage base c :
  Forall (fun p => value p == c) spx ->
  Forall (fun o => value o == base)
         (buildSyntheticSeries spx leverage (Some base)).
Proof.
  rewrite buildSyntheticSeries_unfold. destruct spx as [|p0 rest]; [done|].
  intros [Hp Hall]%Forall_cons. simpl. constructor; [done|].
  by apply (synthFrom_flat _ c).
Qed.

(** C37: On a flat input the sign of the leverage does not matter. *)
Corollary buildSyntheticSeries_flat_sign spx leverage base c :
  Forall (fun p => value p == c) spx ->
  buildSyntheticSeries spx leverage (Some base)
  ≡ buildSyntheticSeries spx (- leverage) (Some base).
Proof.
  intros Hflat.
  pose proof (buildSyntheticSeries_flat spx leverage base c Hflat) as H1.
  pose proof (buildSyntheticSeries_flat spx (- leverage) base c Hflat) as H2.
  pose proof (buildSyntheticSeries_times spx leverage (Some base)) as T1.
  pose proof (buildSyntheticSeries_times spx (- leverage) (Some base)) as T2.
  revert H1 H2 T1 T2.
  generalize (buildSyntheticSeries spx leverage (Some base)).
  generalize (buildSyntheticSeries spx (- leverage) (Some base)).
  intros l2 l1 H1 H2 T1 T2. rewrite <- T2 in T1. clear T2.
  revert l2 H2 T1. induction H1 as [|o l1 Ho _ IH]; intros [|o2 l2] H2 T;
    simplify_eq/=; [done|].
  apply Forall_cons in H2 as [Ho2 H2]. constructor; [|by apply IH].
  split; [by rewrite H|by rewrite Ho, Ho2].
Qed.

Lemma synthFrom_zero_leverage rest : forall prev base,
  Forall (fun o => value o == base) (synthFrom 0 prev base rest).
Proof.
  induction rest as [|p rest IH]; intros prev base; simpl; [done|].
  assert (base * (1 + 0 * simpleReturn prev (value p)) == base) as E by ring.
  constructor; [done|].
  eapply Forall_impl; [by apply IH|]. intros o Ho. simpl in Ho. by rewrite Ho.
Qed.

(** Leverage 0 degenerates to a flat line at the base. *)
Theorem buildSyntheticSeries_zero_leverage spx base :
  Forall (fun o => value o == base) (buildSyntheticSeries spx 0 (Some base)).
Proof.
  rewrite buildSyntheticSeries_unfold. destruct spx as [|p0 rest]; [done|].
  simpl. constructor; [done|]. apply synthFrom_zero_leverage.
Qed.

(** ** Unit leverage, scaling, sign *)

Lemma synthFrom_unit c rest : forall prev base,
  ~ prev == 0 -> Forall (fun p => ~ value p == 0) rest -> base == c * prev ->
  Forall2 (fun o p => value o == c * value p) (synthFrom 1 prev base rest) rest.
Proof.
  induction rest as [|p rest IH]; intros prev base Hprev Hall Eb; simpl; [done|].
  apply Forall_cons in Hall as [Hp Hall].
  assert (base * (1 + 1 * simpleReturn prev (value p)) == c * value p) as E.
  { unfold simpleReturn. case_decide; [done|]. rewrite Eb. by field. }
  constructor; [done|]. by apply IH.
Qed.

(** at leverage 1 the synthetic series is the input rescaled
    to start at the base: it tracks the index exactly. *)
Theorem buildSyntheticSeries_unit_leverage spx base p0 :
  head spx = Some p0 -> Forall (fun p => ~ value p == 0) spx ->
  Forall2 (fun o p => value o == base * value p / value p0)
          (buildSyntheticSeries spx 1 (Some base)) spx.
Proof.
  rewrite buildSyntheticSeries_unfold.
  destruct spx as [|p rest]; intros ? Hall; simplify_eq/=.
  apply Forall_cons in Hall as [Hp Hall]. constructor; [simpl; by field|].
  eapply Forall2_impl.
  - apply (synthFrom_unit (base / value p0)); [done..|by field].
  - intros o q Ho. simpl in Ho. rewrite Ho. by field.
Qed.

Lemma synthFrom_scale k c rest : forall prev base base',
  base' == c * base ->
  Forall2 (fun o' o => value o' == c * value o /\ time o' = time o)
          (synthFrom k prev base' rest) (synthFrom k prev base rest).
Proof.
  induction rest as [|p rest IH]; intros prev base base' Eb; simpl; [done|].
  constructor; [split; [simpl; rewrite Eb; ring|done]|].
  apply IH. rewrite Eb. ring.
Qed.

(** The simulator is linear in the base: scaling the base scales
    every value. *)
Theorem buildSyntheticSeries_scale spx leverage base c :
  Forall2 (fun o' o => value o' == c * value o /\ time o' = time o)
          (buildSyntheticSeries spx leverage (Some (c * base)))
          (buildSyntheticSeries spx leverage (Some base)).
Proof.
  rewrite !buildSyntheticSeries_unfold. destruct spx as [|p rest]; [done|].
  simpl. constructor; [done|]. by apply synthFrom_scale.
Qed.

Lemma synthFrom_positive k rest : forall pp base,
  0 < base ->
  (forall i p q, (pp :: rest) !! i = Some p -> (pp :: rest) !! S i = Some q ->
     0 < 1 + k * simpleReturn (value p) (value q)) ->
  Forall (fun o => 0 < value o) (synthFrom k (value pp) base rest).
Proof.
  induction rest as [|p rest IH]; intros pp base Hb Hstep; simpl; [done|].
  pose proof (Hstep 0%nat pp p eq_refl eq_refl) as H0.
  constructor; [simpl; nra|]. apply IH; [nra|].
  intros i. apply (Hstep (S i)).
Qed.

(** the series stays positive as long as no leveraged step
    return reaches -100%: then the logarithmic axis applies to it. *)
Theorem buildSyntheticSeries_positive spx leverage base :
  0 < base ->
  (forall i p q, spx !! i = Some p -> spx !! S i = Some q ->
     0 < 1 + leverage * simpleReturn (value p) (value q)) ->
  Forall (fun o => 0 < value o) (buildSyntheticSeries spx leverage (Some base)).
Proof.
  rewrite buildSyntheticSeries_unfold. destruct spx as [|p0 rest]; [done|].
  intros Hb Hstep. simpl. constructor; [done|]. by apply synthFrom_positive.
Qed.

(** ** Scenarios *)

(** The specification's scenario: prices 100, 110, 99 at leverage 2
    from base 100 give 100, 120, 96. *)
Example buildSyntheticSeries_scenario :
  buildSyntheticSeries [0 ↦ 100; 1 ↦ 110; 2 ↦ 99] 2 (Some 100)
  ≡ [0 ↦ 100; 1 ↦ 120; 2 ↦ 96].
Proof. repeat constructor. Qed.

(** A 10% drop at leverage 10 takes the value to 0, where it stays
    whatever the index does next. *)
Example buildSyntheticSeries_wipeout :
  buildSyntheticSeries [0 ↦ 100; 1 ↦ 90; 2 ↦ 180; 3 ↦ 360] 10 (Some 100)
  ≡ [0 ↦ 100; 1 ↦ 0; 2 ↦ 0; 3 ↦ 0].
Proof. repeat constructor. Qed.

(** A larger drop takes it below 0: the series is not positive, and
    the logarithmic axis does not apply. *)
Example buildSyntheticSeries_negative :
  buildSyntheticSeries [0 ↦ 100; 1 ↦ 80] 10 (Some 100) ≡ [0 ↦ 100; 1 ↦ -100].
Proof. repeat constructor. Qed.

(** The argument that is not a number gives the base 100. *)
Example buildSyntheticSeries_default_base :
  buildSyntheticSeries [5 ↦ 40; 6 ↦ 50] 1 None ≡ [5 ↦ 100; 6 ↦ 125].
Proof. repeat constructor. Qed.

(** ** The presets *)

(** every preset the selector offers parses back to its signed
    multiple: +1 .. +10, then -1 .. -10. *)
Theorem parseLeverage_presets :
  parseLeverage <$> (opt_value <$> buildSyntheticOptions)
  ≡ Some <$> (inject_Z <$> seqZ 1 10 ++ (Z.opp <$> seqZ 1 10)).
Proof. repeat constructor. Qed.

(** So the leverage in use is a non-zero integer between -10 and 10
    for every preset. *)
Theorem leverageOf_presets :
  Forall (fun o => exists k : Z,
            leverageOf (opt_value o) == inject_Z k /\ (k <> 0 /\ -10 <= k <= 10)%Z)
         buildSyntheticOptions.
Proof.
  let l := eval vm_compute in buildSyntheticOptions in
  change buildSyntheticOptions with l.
  repeat (apply Forall_cons; split;
    [match goal with
     | |- context [leverageOf ?s] =>
         let z := eval vm_compute in (Qnum (Qred (leverageOf s))) in
         exists z; split; [by vm_compute|lia]
     end|]).
  by apply Forall_nil.
Qed.

(** A string that is not a preset gives [null], and the component
    falls back to leverage 1. *)
Theorem parseLeverage_not_synthetic value :
  isSynthetic value = false ->
  parseLeverage value = None /\ leverageOf value = 1.
Proof. intros H. unfold leverageOf, parseLeverage. by rewrite H. Qed.

(** [parseLeverage] does not validate the multiple: an empty one is
    0 (which [|| 1] turns into 1), and fractions, large values and
    other numeric literals pass. *)
Example parseLeverage_unvalidated :
  parseLeverage "SYNTHETIC:" ≡ Some 0 /\ leverageOf "SYNTHETIC:" == 1 /\
  parseLeverage "SYNTHETIC:+1.5" ≡ Some (3 # 2) /\
  parseLeverage "SYNTHETIC:+100" ≡ Some 100 /\
  parseLeverage "SYNTHETIC:-0x10" ≡ Some (-16).
Proof. repeat split; repeat constructor. Qed.

(** ** The values of the presets, for every multiple *)

Section PresetValues.
Variable k : Z.
Hypothesis nonneg : (0 <= k)%Z.

#[local] Abbreviation digits := (intToString k).

Lemma digits_no (x : ascii) :
  isDigit x = false -> allChars (fun c => negb (Ascii.eqb c x)) digits = true.
Proof. intros Hx. by apply digits_without, intToString_isDigit. Qed.

(** The part after the colon is the sign and the digits. *)
Lemma split_preset (sign : ascii) :
  sign <> ":"%char -> isDigit sign = false ->
  split ":" ("SYNTHETIC:" +:+ String sign digits) !! 1%nat = Some (String sign digits).
Proof.
  intros Hs Hd.
  change ("SYNTHETIC:" +:+ ?s) with ("SYNTHETIC" +:+ String ":" s).
  rewrite split_app_sep by done. rewrite split_no_sep; [done|].
  simpl. rewrite (digits_no ":") by done. by apply andb_true_iff, conj; [apply negb_true_iff, Ascii.eqb_neq|].
Qed.

(** What is left of it when the signs are removed. *)
Lemma raw_plus : replace "-" "" (replace "+" "" (String "+" digits)) = digits.
Proof.
  simpl. rewrite prefix_empty. by apply replace_absent, digits_no.
Qed.

Lemma raw_minus : replace "-" "" (replace "+" "" (String "-" digits)) = digits.
Proof.
  rewrite (replace_absent "+") by (simpl; by apply digits_no).
  simpl. by rewrite prefix_empty.
Qed.

Lemma isSynthetic_preset (s : string) : isSynthetic ("SYNTHETIC:" +:+ s) = true.
Proof. unfold isSynthetic, indexOf. simpl. by rewrite prefix_empty. Qed.

Lemma sign_plus : indexOf ("SYNTHETIC:" +:+ String "+" digits) ":-" = (-1)%Z.
Proof.
  unfold indexOf. simpl. by rewrite (index_absent ":" "-" digits) by by apply digits_no.
Qed.

Lemma sign_minus : indexOf ("SYNTHETIC:" +:+ String "-" digits) ":-" = 9%Z.
Proof. unfold indexOf. simpl. by rewrite prefix_empty. Qed.

End PresetValues.

Lemma parseLeverage_preset_values (k : Z) :
  (0 <= k)%Z ->
  (exists q, parseLeverage (opt_value (presetOption "+" k)) = Some q /\ q == inject_Z k) /\
  (exists q, parseLeverage (opt_value (presetOption "-" k)) = Some q
             /\ q == - inject_Z k).
Proof.
  intros Hk. destruct (toNumber_intToString k) as (q & Hq & Eq).
  unfold presetOption, opt_value, parseLeverage.
  change ("SYNTHETIC:" +:+ "+" +:+ ?d) with ("SYNTHETIC:" +:+ String "+" d).
  change ("SYNTHETIC:" +:+ "-" +:+ ?d) with ("SYNTHETIC:" +:+ String "-" d).
  rewrite !isSynthetic_preset, !split_preset, sign_plus, sign_minus by done.
  cbn [negb default from_option]. unfold id. rewrite raw_plus, raw_minus, Hq by done. simpl.
  split; eexists; (split; [done|]); rewrite Eq; ring.
Qed.

(** C18: [parseLeverage] reads the value of the option of every multiple
    back: what [presetOption] prints after the colon, sign and digits,
    is the number [parseLeverage] returns. *)
Theorem parseLeverage_presetOption (k : Z) :
  (0 <= k)%Z ->
  (exists q, parseLeverage (opt_value (presetOption "+" k)) = Some q /\ q == inject_Z k) /\
  (exists q, parseLeverage (opt_value (presetOption "-" k)) = Some q
             /\ q == - inject_Z k).
Proof. apply parseLeverage_preset_values. Qed.

(** So the leverage of the option of a multiple is the multiple, with
    its sign, and 1 for the multiple 0. *)
Corollary leverageOf_presetOption (k : Z) :
  (0 <= k)%Z ->
  leverageOf (opt_value (presetOption "+" k))
  == (if decide (k = 0%Z) then 1 else inject_Z k) /\
  leverageOf (opt_value (presetOption "-" k))
  == (if decide (k = 0%Z) then 1 else - inject_Z k).
Proof.
  intros [(q & Hq & Eq) (q' & Hq' & Eq')]%parseLeverage_preset_values.
  unfold leverageOf. rewrite Hq, Hq'. destruct (decide (k = 0%Z)) as [->|Hk0].
  - assert (q == 0 /\ q' == 0) as [E0 E0'] by (by rewrite Eq, Eq').
    by rewrite !decide_True by done.
  - assert (~ inject_Z k == 0) as Hz by (intros E; by apply Hk0, inject_Z_injective).
    assert (~ q == 0 /\ ~ q' == 0) as [E0 E0'] by (rewrite Eq, Eq'; split; lra).
    by rewrite !decide_False by done.
Qed.

(** ** Witnesses *)

Lemma buildSyntheticSeries_first_witness :
  head (buildSyntheticSeries [0 ↦ 100; 1 ↦ 110; 2 ↦ 99] 2 (Some 100))
  = Some (0 ↦ 100).
Proof.
  apply (buildSyntheticSeries_first [0 ↦ 100; 1 ↦ 110; 2 ↦ 99] 2 100 (0 ↦ 100)).
  reflexivity.
Defined.

Lemma buildSyntheticSeries_flat_sign_witness :
  buildSyntheticSeries [0 ↦ 50; 1 ↦ 50; 2 ↦ 50] 3 (Some 100)
  ≡ buildSyntheticSeries [0 ↦ 50; 1 ↦ 50; 2 ↦ 50] (- 3) (Some 100).
Proof.
  apply (buildSyntheticSeries_flat_sign [0 ↦ 50; 1 ↦ 50; 2 ↦ 50] 3 100 50).
  repeat constructor.
Defined.

Lemma buildSyntheticSeries_unit_leverage_witness :
  Forall2 (fun o p => value o == 100 * value p / value (0 ↦ 50))
          (buildSyntheticSeries [0 ↦ 50; 1 ↦ 60] 1 (Some 100)) [0 ↦ 50; 1 ↦ 60].
Proof.
  apply (buildSyntheticSeries_unit_leverage [0 ↦ 50; 1 ↦ 60] 100 (0 ↦ 50)); [done|].
  repeat constructor; by vm_compute.
Defined.

Lemma parseLeverage_presetOption_witness :
  (exists q, parseLeverage (opt_value (presetOption "+" 250)) = Some q
             /\ q == inject_Z 250) /\
  (exists q, parseLeverage (opt_value (presetOption "-" 250)) = Some q
             /\ q == - inject_Z 250).
Proof. apply (parseLeverage_presetOption 250). lia. Defined.
