(* ===== verification/Interval.v ===== *)
(** * Interval: interval tokens, alignment and stepping

    [intervalToStepMs], [alignToInterval], [addInterval], [tickLabel]
    and [clamp] of [src/src/LiveSP500Canvas.jsx] (the "Axis + scale
    utilities"), the provider's interval table [YAHOO_INTERVAL_MAP] and
    the range policy of the fetch effect.  The lookup
    [YAHOO_INTERVAL_MAP[interval]] is a lookup in an object literal:
    for a key the literal does not have it gives the property of
    that name the object inherits from [Object.prototype], where there
    is one ([objectPrototype]).

    An interval token is the string the code compares with [===]; the
    branches for an unrecognised token are kept.  [new Date(ts)]
    truncates [ts] to an integer time value ([Qtrunc]); the [Date]
    methods are those of [JsDate].  A formatted tick label is the
    format and the instant it formats: the text depends on the host's
    locale. *)

From Stdlib Require Import QArith Qminmax Qround Lqa Lia ZArith.
From stdpp Require Import base decidable list option strings numbers.
From S2P Require Import Prelude JsDate.

#[local] Open Scope Q_scope.

(** ** Steps *)

(** [null] is [None]. *)
Definition intervalToStepMs (interval : string) : option Z :=
  if decide (interval = "1") then Some (60 * 1000)%Z
  else if decide (interval = "5") then Some (5 * 60 * 1000)%Z
  else if decide (interval = "15") then Some (15 * 60 * 1000)%Z
  else if decide (interval = "60") then Some (60 * 60 * 1000)%Z
  else if decide (interval = "D") then Some (24 * 60 * 60 * 1000)%Z
  else if decide (interval = "W") then Some (7 * 24 * 60 * 60 * 1000)%Z
  else if decide (interval = "M") then None
  else Some (24 * 60 * 60 * 1000)%Z.

(** [INTERVAL_OPTIONS]: label and value of each option. *)
Definition INTERVAL_OPTIONS : list (string * string) :=
  [("1m", "1"); ("5m", "5"); ("15m", "15"); ("1h", "60");
   ("1D", "D"); ("1W", "W"); ("1M", "M")].

(** ** Alignment *)

Definition alignToInterval (ts : Q) (interval : string) : Z :=
  let d := Qtrunc ts in
  if decide (interval = "M") then
    let d := setUTCDate d 1 in
    setUTCHours d 0 0 0 0
  else if decide (interval = "W") then
    let day := getUTCDay d in
    let diff := ((day + 6) mod 7)%Z in
    let d := setUTCDate d (getUTCDate d - diff) in
    setUTCHours d 0 0 0 0
  else if decide (interval = "D") then setUTCHours d 0 0 0 0
  else if decide (interval = "60") then setUTCMinutes d 0 0 0
  else if decide (interval = "15") then
    setUTCMinutes d (getUTCMinutes d / 15 * 15) 0 0
  else if decide (interval = "5") then
    setUTCMinutes d (getUTCMinutes d / 5 * 5) 0 0
  else if decide (interval = "1") then setUTCSeconds d 0 0
  else d.

(** ** Stepping *)

(** [if (!step) step = 24 * 60 * 60 * 1000]: [null] and 0. *)
Definition stepOrDay (step : option Z) : Z :=
  match step with
  | Some s => if decide (s = 0%Z) then (24 * 60 * 60 * 1000)%Z else s
  | None => (24 * 60 * 60 * 1000)%Z
  end.

Definition addInterval (ts : Q) (interval : string) : Q :=
  if decide (interval = "M") then
    let d := Qtrunc ts in
    inject_Z (setUTCMonth d (getUTCMonth d + 1))
  else ts + inject_Z (stepOrDay (intervalToStepMs interval)).

(** ** Labels and clamping *)

Inductive TickFormat :=
| HourMinute
| MonthDay
| MonthYear.

(** The format [tickLabel] asks the locale for, and the instant. *)
Definition tickLabel (ts : Q) (interval : string) : TickFormat * Z :=
  let d := Qtrunc ts in
  if decide (interval = "1" \/ interval = "5" \/ interval = "15" \/ interval = "60")
  then (HourMinute, d)
  else if decide (interval = "D" \/ interval = "W") then (MonthDay, d)
  else (MonthYear, d).

Definition clamp (n min max : Q) : Q := Qmax min (Qmin max n).

(** ** The provider's tokens and the range policy *)

(** [YAHOO_INTERVAL_MAP] (lines 101-109): the properties of the
    object literal. *)
Definition YAHOO_INTERVAL_MAP : list (string * string) :=
  [("1", "1m"); ("5", "5m"); ("15", "15m"); ("60", "60m");
   ("D", "1d"); ("W", "1wk"); ("M", "1mo")].

(** What an object literal inherits from [Object.prototype]: each
    name with the text its value has when [encodeURIComponent]
    converts it to a string.  The values are built-in functions, and
    the prototype itself under [__proto__]; the text of a built-in
    function is the host's, here the one of V8. *)
Definition objectPrototype : list (string * string) :=
  [("constructor", "function Object() { [native code] }");
   ("__defineGetter__", "function __defineGetter__() { [native code] }");
   ("__defineSetter__", "function __defineSetter__() { [native code] }");
   ("hasOwnProperty", "function hasOwnProperty() { [native code] }");
   ("__lookupGetter__", "function __lookupGetter__() { [native code] }");
   ("__lookupSetter__", "function __lookupSetter__() { [native code] }");
   ("isPrototypeOf", "function isPrototypeOf() { [native code] }");
   ("propertyIsEnumerable", "function propertyIsEnumerable() { [native code] }");
   ("toString", "function toString() { [native code] }");
   ("valueOf", "function valueOf() { [native code] }");
   ("__proto__", "[object Object]");
   ("toLocaleString", "function toLocaleString() { [native code] }")].

(** [YAHOO_INTERVAL_MAP[interval] || "1d"] (line 459), as the text the
    URL of the request is built from: the property of the object, or
    the one it inherits, which is truthy too, or "1d". *)
Definition yahooInterval (interval : string) : string :=
  match assoc YAHOO_INTERVAL_MAP interval with
  | Some token => token
  | None => default "1d" (assoc objectPrototype interval)
  end.

Definition msPerYear : Q := 365 * 24 * 60 * 60 * 1000.

(** The range the effect requests: [startTs] is [None] when no start
    is set; the test [!startTs] also takes 0 for unset. *)
Definition selectRange (interval : string) (startTs : option Q) (now : Q) : string :=
  if decide (interval = "1" \/ interval = "5" \/ interval = "15" \/ interval = "60")
  then "5d"
  else match startTs with
       | None => "10y"
       | Some start =>
           if decide (start == 0) then "10y"
           else
             let diffYears := (now - start) / msPerYear in
             if decide (10 < diffYears) then "max"
             else if decide (5 < diffYears) then "10y"
             else if decide (2 < diffYears) then "5y"
             else "2y"
       end.

(** ** The span of a range

    What the provider takes a range token for, in years of 365 days;
    [None] is the whole history ("max"). *)
Definition rangeYears (range : string) : option Q :=
  if decide (range = "5d") then Some (5 / 365)
  else if decide (range = "2y") then Some 2
  else if decide (range = "5y") then Some 5
  else if decide (range = "10y") then Some 10
  else None.

(** The range reaches back [years] years. *)
Definition covers (range : string) (years : Q) : Prop :=
  match rangeYears range with
  | Some y => years <= y
  | None => True
  end.

Definition intraday (interval : string) : Prop :=
  interval = "1" \/ interval = "5" \/ interval = "15" \/ interval = "60".

#[export] Instance intraday_decision interval : Decision (intraday interval) := _.

(** ** Boundaries

    An instant on a boundary of the interval: an integer that
    [alignToInterval] leaves in place. *)
Definition aligned (interval : string) (t : Q) : Prop :=
  t == inject_Z (alignToInterval t interval).

(** * Theorems *)

(** ** Tokens *)

Definition fixedStep (interval : string) : Prop :=
  interval = "1" \/ interval = "5" \/ interval = "15" \/ interval = "60"
  \/ interval = "D".

#[export] Instance fixedStep_decision interval : Decision (fixedStep interval) := _.

(** What a boundary is on the calendar: a multiple of the step for the
    tokens with a fixed step, a Monday at 00:00 UTC for the week, the
    first of a month at 00:00 UTC for the month. *)
Definition onCalendar (interval : string) (z : Z) : Prop :=
  if decide (interval = "M") then DateFromTime z = 1%Z /\ TimeWithinDay z = 0%Z
  else if decide (interval = "W") then WeekDay z = 1%Z /\ TimeWithinDay z = 0%Z
  else if decide (fixedStep interval)
       then (stepOrDay (intervalToStepMs interval) | z)%Z
       else True.

Ltac token_cases H :=
  unfold fixedStep in H;
  repeat (destruct H as [->|H]); try subst.

Lemma stepOrDay_pos interval : (0 < stepOrDay (intervalToStepMs interval))%Z.
Proof.
  unfold intervalToStepMs, stepOrDay. repeat case_decide; try done; lia.
Qed.

Lemma intervalToStepMs_pos interval step :
  intervalToStepMs interval = Some step -> (0 < step)%Z.
Proof.
  unfold intervalToStepMs. repeat case_decide; intros; simplify_eq; lia.
Qed.

(** ** Alignment of the fixed-step tokens *)

(** For the minute, hour and day tokens the [Date] manipulation
    amounts to rounding the time value down to a multiple of the
    step. *)
Theorem alignToInterval_fixed ts interval step :
  fixedStep interval -> intervalToStepMs interval = Some step ->
  alignToInterval ts interval = (step * (Qtrunc ts / step))%Z.
Proof.
  intros Hf Hs. token_cases Hf; vm_compute in Hs; simplify_eq;
    unfold alignToInterval; simpl;
    unfold setUTCSeconds, setUTCMinutes, setUTCHours, getUTCMinutes, MakeDate,
      MakeTime, Day, HourFromTime, MinFromTime; zdiv.
Qed.

Corollary alignToInterval_fixed_le ts interval step :
  fixedStep interval -> intervalToStepMs interval = Some step ->
  (alignToInterval ts interval <= Qtrunc ts < alignToInterval ts interval + step)%Z.
Proof.
  intros Hf Hs. rewrite (alignToInterval_fixed _ _ _ Hf Hs).
  pose proof (intervalToStepMs_pos _ _ Hs). zdiv.
Qed.

(** Aligning an aligned instant changes nothing, for the tokens with a
    fixed step. *)
Corollary alignToInterval_fixed_idem ts interval step :
  fixedStep interval -> intervalToStepMs interval = Some step ->
  alignToInterval (inject_Z (alignToInterval ts interval)) interval
  = alignToInterval ts interval.
Proof.
  intros Hf Hs. rewrite !(alignToInterval_fixed _ _ _ Hf Hs), Qtrunc_inject_Z.
  pose proof (intervalToStepMs_pos _ _ Hs).
  set (q := (Qtrunc ts / step)%Z).
  rewrite (Z.mul_comm step q), Z.div_mul by lia. lia.
Qed.

(** ** Alignment to the week and to the month *)

Lemma setUTCDate_day d dt :
  setUTCDate d dt = MakeDate (Day d + dt - DateFromTime d) (TimeWithinDay d).
Proof.
  unfold setUTCDate. f_equal.
  replace dt with (DateFromTime d + (dt - DateFromTime d))%Z at 1 by lia.
  rewrite MakeDay_date_shift, MakeDay_fields. lia.
Qed.

Lemma setUTCHours_midnight d : setUTCHours d 0 0 0 0 = (Day d * msPerDay)%Z.
Proof. unfold setUTCHours, MakeDate, MakeTime. lia. Qed.

Lemma alignToInterval_week_day ts :
  alignToInterval ts "W"
  = ((Day (Qtrunc ts) - (WeekDay (Qtrunc ts) + 6) mod 7) * msPerDay)%Z.
Proof.
  unfold alignToInterval. simpl. unfold getUTCDay, getUTCDate.
  rewrite setUTCHours_midnight, setUTCDate_day, Day_MakeDate
    by apply TimeWithinDay_range.
  f_equal. lia.
Qed.

(** The week token aligns to the most recent Monday, 00:00 UTC. *)
Theorem alignToInterval_week ts :
  let r := alignToInterval ts "W" in
  WeekDay r = 1%Z /\ TimeWithinDay r = 0%Z /\
  (r <= Qtrunc ts < r + 7 * msPerDay)%Z.
Proof.
  cbv zeta. rewrite alignToInterval_week_day.
  unfold WeekDay, TimeWithinDay, Day. zdiv.
Qed.

Lemma alignToInterval_month_day ts :
  alignToInterval ts "M"
  = MakeDate (MakeDay (YearFromTime (Qtrunc ts)) (MonthFromTime (Qtrunc ts)) 1) 0.
Proof.
  unfold alignToInterval. simpl.
  rewrite setUTCHours_midnight. unfold setUTCDate.
  rewrite Day_MakeDate by apply TimeWithinDay_range. unfold MakeDate. lia.
Qed.

Lemma alignToInterval_month_fields ts :
  let d := Qtrunc ts in
  let r := alignToInterval ts "M" in
  YearFromTime r = YearFromTime d /\ MonthFromTime r = MonthFromTime d /\
  DateFromTime r = 1%Z /\ TimeWithinDay r = 0%Z /\
  (r <= d < r + 31 * msPerDay)%Z.
Proof.
  cbv zeta. rewrite alignToInterval_month_day.
  set (d := Qtrunc ts). pose proof (MonthFromTime_range d) as Hm.
  destruct (fields_MakeDay (YearFromTime d) (MonthFromTime d) 1 0 Hm)
    as (HY & HM & HD); [by unfold msPerDay| |].
  { month_cases (MonthFromTime d); destruct (isLeapYear _); simpl; lia. }
  rewrite HY, HM, HD. repeat split; try done.
  - by apply TimeWithinDay_MakeDate.
  - pose proof (DateFromTime_range d). pose proof (MakeDay_fields d) as HF.
    replace (DateFromTime d) with (1 + (DateFromTime d - 1))%Z in HF by lia.
    rewrite MakeDay_date_shift in HF. unfold MakeDate, Day in *. zdiv.
  - pose proof (DateFromTime_range d). pose proof (MakeDay_fields d) as HF.
    replace (DateFromTime d) with (1 + (DateFromTime d - 1))%Z in HF by lia.
    rewrite MakeDay_date_shift in HF. unfold MakeDate, Day in *. zdiv.
Qed.

(** The month token aligns to the first of the month of [ts], 00:00
    UTC. *)
Theorem alignToInterval_month ts :
  let d := Qtrunc ts in
  let r := alignToInterval ts "M" in
  YearFromTime r = YearFromTime d /\ MonthFromTime r = MonthFromTime d /\
  DateFromTime r = 1%Z /\ TimeWithinDay r = 0%Z /\
  (r <= d < r + 31 * msPerDay)%Z.
Proof. apply alignToInterval_month_fields. Qed.

(** Whatever the token, alignment moves an instant back, by less than
    31 days. *)
Lemma alignToInterval_near ts interval :
  (alignToInterval ts interval <= Qtrunc ts
   < alignToInterval ts interval + 31 * 86400000)%Z.
Proof.
  destruct (decide (fixedStep interval)) as [Hf|Hn].
  - assert (exists step, intervalToStepMs interval = Some step /\ (step <= 86400000)%Z)
      as (step & Hs & Hle).
    { token_cases Hf; eexists; (split; [by vm_compute|lia]). }
    pose proof (alignToInterval_fixed_le ts _ _ Hf Hs). lia.
  - destruct (decide (interval = "M")) as [->|].
    { pose proof (alignToInterval_month_fields ts) as (_ & _ & _ & _ & Hr).
      by change msPerDay with 86400000%Z in Hr. }
    destruct (decide (interval = "W")) as [->|].
    { pose proof (alignToInterval_week ts) as (_ & _ & Hr).
      change msPerDay with 86400000%Z in Hr. lia. }
    unfold alignToInterval.
    rewrite !decide_False by (unfold fixedStep in Hn; tauto). lia.
Qed.

(** ** Aligning twice *)

Lemma alignToInterval_week_idem ts :
  alignToInterval (inject_Z (alignToInterval ts "W")) "W" = alignToInterval ts "W".
Proof.
  rewrite (alignToInterval_week_day (inject_Z _)), Qtrunc_inject_Z.
  rewrite alignToInterval_week_day. unfold WeekDay, Day. zdiv.
Qed.

Lemma alignToInterval_month_idem ts :
  alignToInterval (inject_Z (alignToInterval ts "M")) "M" = alignToInterval ts "M".
Proof.
  destruct (alignToInterval_month_fields ts) as (HY & HM & _).
  rewrite (alignToInterval_month_day (inject_Z _)), Qtrunc_inject_Z, HY, HM.
  by rewrite alignToInterval_month_day.
Qed.

(** An aligned instant is its own alignment, for every token. *)
Theorem alignToInterval_idem ts interval :
  alignToInterval (inject_Z (alignToInterval ts interval)) interval
  = alignToInterval ts interval.
Proof.
  destruct (decide (interval = "M")) as [->|HM]; [apply alignToInterval_month_idem|].
  destruct (decide (interval = "W")) as [->|HW]; [apply alignToInterval_week_idem|].
  destruct (decide (fixedStep interval)) as [Hf|Hf].
  - destruct (intervalToStepMs interval) as [step|] eqn:Hs;
      [by eapply alignToInterval_fixed_idem|].
    token_cases Hf; by vm_compute in Hs.
  - unfold fixedStep in Hf. unfold alignToInterval.
    repeat case_decide; try (exfalso; tauto). by rewrite Qtrunc_inject_Z.
Qed.

(** ** Stepping *)

(** A step moves strictly forward, for every token. *)
Theorem addInterval_gt ts interval : ts < addInterval ts interval.
Proof.
  unfold addInterval. case_decide as Hi.
  - cbv zeta. set (d := Qtrunc ts). unfold setUTCMonth, getUTCMonth.
    pose proof (MakeDay_next_month (YearFromTime d) (MonthFromTime d)
                  (DateFromTime d) (MonthFromTime_range d)) as Hn.
    rewrite MakeDay_fields in Hn.
    pose proof (TimeWithinDay_range d) as Hw. pose proof (Qtrunc_bound ts) as Hb.
    assert (d + 1 <= MakeDate (MakeDay (YearFromTime d) (MonthFromTime d + 1)
                                (DateFromTime d)) (TimeWithinDay d))%Z as Hle
      by (unfold MakeDate, Day in *; zdiv).
    rewrite Zle_Qle, inject_Z_plus in Hle. fold d in Hb.
    change (inject_Z 1) with 1 in Hle. lra.
  - pose proof (stepOrDay_pos interval) as Hp.
    rewrite Zlt_Qlt in Hp. change (inject_Z 0) with 0 in Hp. lra.
Qed.

(** From the first of a month, the month step leads to the first of
    the next month. *)
Theorem addInterval_month_aligned ts :
  let r := alignToInterval ts "M" in
  let n := Qtrunc (addInterval (inject_Z r) "M") in
  YearFromTime n = (YearFromTime r + (MonthFromTime r + 1) / 12)%Z /\
  MonthFromTime n = ((MonthFromTime r + 1) mod 12)%Z /\
  DateFromTime n = 1%Z /\ TimeWithinDay n = 0%Z.
Proof.
  cbv zeta. destruct (alignToInterval_month_fields ts) as (_ & _ & HD & HT & _).
  set (r := alignToInterval ts "M") in *.
  unfold addInterval. simpl. rewrite !Qtrunc_inject_Z.
  unfold setUTCMonth, getUTCMonth. rewrite HD, HT.
  pose proof (MonthFromTime_range r) as Hm.
  rewrite MakeDay_month_carry by done.
  destruct (fields_MakeDay (YearFromTime r + (MonthFromTime r + 1) / 12)
              ((MonthFromTime r + 1) mod 12) 1 0) as (HY' & HM' & HD').
  - zdiv.
  - by unfold msPerDay.
  - assert (0 <= (MonthFromTime r + 1) mod 12 <= 11)%Z as Hm' by zdiv.
    month_cases ((MonthFromTime r + 1) mod 12)%Z; destruct (isLeapYear _);
      simpl; lia.
  - repeat split; try done. by apply TimeWithinDay_MakeDate.
Qed.

(** ** The range policy and equal timestamps *)

Lemma selectRange_same_start interval a b now :
  a == b -> selectRange interval (Some a) now = selectRange interval (Some b) now.
Proof.
  intros E. unfold selectRange. case_decide; [done|].
  destruct (decide (a == 0)), (decide (b == 0)); try (rewrite E in *; done); try done.
  cbv zeta. assert ((now - a) / msPerYear == (now - b) / msPerYear) as Ed by (by rewrite E).
  repeat case_decide; try done; rewrite Ed in *; done.
Qed.

(** ** The range reaches the start *)

Section RangePolicy.
Variables (interval : string) (start now : Q).
Hypothesis daily : ~ intraday interval.
Hypothesis started : ~ start == 0.

#[local] Abbreviation years := ((now - start) / msPerYear).

Ltac range_cases :=
  unfold selectRange, covers, intraday in *;
  rewrite (decide_False (P := _ \/ _)) by done;
  rewrite (decide_False (P := start == 0)) by done; cbv zeta;
  repeat case_decide.

(** For the day, week and month intervals the range requested reaches
    back to the start. *)
Theorem selectRange_covers : covers (selectRange interval (Some start) now) years.
Proof. range_cases; simpl; lra. Qed.

(** And it is the shortest of the four that does. *)
Theorem selectRange_least range y :
  range ∈ ["2y"; "5y"; "10y"; "max"] -> rangeYears range = Some y -> years <= y ->
  exists y', rangeYears (selectRange interval (Some start) now) = Some y' /\ y' <= y.
Proof.
  intros Hr Hy Hc.
  repeat (apply elem_of_cons in Hr as [->|Hr]); [..|by apply elem_of_nil in Hr];
    vm_compute in Hy; simplify_eq; range_cases;
    try (eexists; split; [reflexivity|lra]); lra.
Qed.

End RangePolicy.

(** With an intraday interval the range is five days, whatever the
    start. *)
Theorem selectRange_intraday interval startTs now :
  intraday interval -> selectRange interval startTs now = "5d".
Proof. intros Hi. unfold selectRange, intraday in *. by rewrite decide_True. Qed.

(** ** The interval options *)

(** Each option of the interval control has a provider token of its
    own, and every one but the month a fixed step. *)
Theorem INTERVAL_OPTIONS_tokens :
  yahooInterval <$> INTERVAL_OPTIONS.*2 = ["1m"; "5m"; "15m"; "60m"; "1d"; "1wk"; "1mo"] /\
  intervalToStepMs <$> INTERVAL_OPTIONS.*2
  = [Some 60000; Some 300000; Some 900000; Some 3600000; Some 86400000;
     Some 604800000; None]%Z.
Proof. done. Qed.

(** ** Progress of a step *)

Lemma stepOrDay_ge interval : (60000 <= stepOrDay (intervalToStepMs interval))%Z.
Proof.
  unfold intervalToStepMs, stepOrDay. repeat case_decide; try done; lia.
Qed.

(** Every step moves forward by a minute at least. *)
Theorem addInterval_ge ts interval : ts + 60000 <= addInterval ts interval.
Proof.
  unfold addInterval. case_decide as Hi.
  - cbv zeta. set (d := Qtrunc ts). unfold setUTCMonth, getUTCMonth.
    pose proof (MakeDay_next_month (YearFromTime d) (MonthFromTime d)
                  (DateFromTime d) (MonthFromTime_range d)) as Hn.
    rewrite MakeDay_fields in Hn.
    pose proof (TimeWithinDay_range d) as Hw. pose proof (Qtrunc_bound ts) as Hb.
    assert (d + 60001 <= MakeDate (MakeDay (YearFromTime d) (MonthFromTime d + 1)
                                    (DateFromTime d)) (TimeWithinDay d))%Z as Hle
      by (unfold MakeDate, Day in *; zdiv).
    rewrite Zle_Qle, inject_Z_plus in Hle. fold d in Hb.
    change (inject_Z 60001) with 60001 in Hle. lra.
  - pose proof (stepOrDay_ge interval) as Hp.
    rewrite Zle_Qle in Hp. change (inject_Z 60000) with 60000 in Hp. lra.
Qed.

(** ** Instants on a boundary *)

#[export] Instance alignToInterval_proper : Proper (Qeq ==> eq ==> eq) alignToInterval.
Proof.
  intros t t' E i ? <-. unfold alignToInterval. by rewrite (Qtrunc_proper _ _ E).
Qed.

#[export] Instance addInterval_proper : Proper (Qeq ==> eq ==> Qeq) addInterval.
Proof.
  intros t t' E i ? <-. unfold addInterval. rewrite (Qtrunc_proper _ _ E).
  case_decide; [done|]. by apply Qplus_comp.
Qed.

#[export] Instance aligned_proper : Proper (eq ==> Qeq ==> iff) aligned.
Proof.
  intros i ? <- t t' E. unfold aligned.
  by rewrite (alignToInterval_proper _ _ E i i eq_refl), E.
Qed.

Lemma aligned_inject_Z interval z :
  alignToInterval (inject_Z z) interval = z -> aligned interval (inject_Z z).
Proof. unfold aligned. by intros ->. Qed.

Lemma aligned_inv interval t :
  aligned interval t ->
  exists z, t == inject_Z z /\ alignToInterval (inject_Z z) interval = z.
Proof.
  unfold aligned. intros E. exists (alignToInterval t interval).
  split; [done|]. by rewrite <- E.
Qed.

Lemma onCalendar_align z interval :
  alignToInterval (inject_Z z) interval = z <-> onCalendar interval z.
Proof.
  unfold onCalendar. destruct (decide (interval = "M")) as [->|HM].
  { split.
    - intros E. pose proof (alignToInterval_month_fields (inject_Z z)) as (_ & _ & HD & HT & _).
      by rewrite E in HD, HT.
    - intros [HD HT]. rewrite alignToInterval_month_day, Qtrunc_inject_Z.
      rewrite <- HD, MakeDay_fields. clear HD.
      unfold MakeDate, Day, TimeWithinDay in *. zdiv. }
  destruct (decide (interval = "W")) as [->|HW].
  { rewrite alignToInterval_week_day, Qtrunc_inject_Z.
    unfold WeekDay, TimeWithinDay, Day. zdiv. }
  destruct (decide (fixedStep interval)) as [Hf|Hf].
  - assert (exists step, intervalToStepMs interval = Some step) as [step Hs].
    { token_cases Hf; eexists; by vm_compute. }
    pose proof (intervalToStepMs_pos _ _ Hs).
    rewrite Hs, (alignToInterval_fixed _ _ _ Hf Hs), Qtrunc_inject_Z.
    simpl. rewrite decide_False by lia. split.
    + intros E. exists (z / step)%Z. lia.
    + intros [k ->]. rewrite Z.div_mul by lia. lia.
  - unfold fixedStep in Hf. unfold alignToInterval.
    rewrite !decide_False by tauto. by rewrite Qtrunc_inject_Z.
Qed.

(** An instant is on a boundary exactly when it is an integer on a
    boundary of the calendar. *)
Theorem aligned_calendar interval t :
  aligned interval t <-> exists z, t == inject_Z z /\ onCalendar interval z.
Proof.
  split.
  - intros (z & Et & E)%aligned_inv. exists z. by rewrite <- onCalendar_align.
  - intros (z & Et & E). rewrite Et. by apply aligned_inject_Z, onCalendar_align.
Qed.

(** The alignment of any instant is on a boundary. *)
Theorem alignToInterval_aligned ts interval :
  aligned interval (inject_Z (alignToInterval ts interval)).
Proof. apply aligned_inject_Z, alignToInterval_idem. Qed.

Lemma addInterval_step z interval :
  interval <> "M" ->
  addInterval (inject_Z z) interval
  == inject_Z (z + stepOrDay (intervalToStepMs interval)).
Proof.
  intros HM. unfold addInterval. rewrite decide_False by done.
  by rewrite inject_Z_plus.
Qed.

Lemma addInterval_aligned_week z :
  let step := stepOrDay (intervalToStepMs "W") in
  alignToInterval (inject_Z z) "W" = z ->
  alignToInterval (inject_Z (z + step)) "W" = (z + step)%Z.
Proof.
  cbv zeta. replace (stepOrDay (intervalToStepMs "W")) with (7 * msPerDay)%Z by done.
  rewrite !alignToInterval_week_day, !Qtrunc_inject_Z. unfold WeekDay, Day. zdiv.
Qed.

Lemma addInterval_aligned_fixed z interval step :
  fixedStep interval -> intervalToStepMs interval = Some step ->
  alignToInterval (inject_Z z) interval = z ->
  alignToInterval (inject_Z (z + step)) interval = (z + step)%Z.
Proof.
  intros Hf Hs. rewrite !(alignToInterval_fixed _ _ _ Hf Hs), !Qtrunc_inject_Z.
  token_cases Hf; vm_compute in Hs; simplify_eq; zdiv.
Qed.

Lemma addInterval_aligned_month z :
  alignToInterval (inject_Z z) "M" = z ->
  aligned "M" (addInterval (inject_Z z) "M").
Proof.
  intros E. pose proof (addInterval_month_aligned (inject_Z z)) as (_ & _ & HD & HT).
  cbv zeta in HD, HT. rewrite E in HD, HT. unfold addInterval in *. simpl in *.
  rewrite !Qtrunc_inject_Z in HD, HT. rewrite Qtrunc_inject_Z.
  set (n := setUTCMonth z _) in *. clearbody n.
  apply aligned_inject_Z. rewrite alignToInterval_month_day, Qtrunc_inject_Z.
  transitivity (MakeDate (MakeDay (YearFromTime n) (MonthFromTime n) (DateFromTime n))
                         (TimeWithinDay n)); [by rewrite HD, HT|].
  rewrite MakeDay_fields. apply MakeDate_Day_TimeWithinDay.
Qed.

(** A step from a boundary leads to a boundary. *)
Theorem addInterval_aligned interval t :
  aligned interval t -> aligned interval (addInterval t interval).
Proof.
  intros (z & Et & E)%aligned_inv. rewrite Et. clear t Et.
  destruct (decide (interval = "M")) as [->|HM]; [by apply addInterval_aligned_month|].
  rewrite addInterval_step by done. apply aligned_inject_Z.
  destruct (decide (interval = "W")) as [->|HW]; [by apply addInterval_aligned_week|].
  destruct (decide (fixedStep interval)) as [Hf|Hf].
  - destruct (intervalToStepMs interval) as [step|] eqn:Hs.
    + pose proof (intervalToStepMs_pos _ _ Hs). unfold stepOrDay.
      rewrite decide_False by lia. by apply addInterval_aligned_fixed.
    + token_cases Hf; by vm_compute in Hs.
  - unfold fixedStep in Hf. unfold alignToInterval.
    repeat case_decide; try (exfalso; tauto). by rewrite Qtrunc_inject_Z.
Qed.

(** ** Instances *)

Lemma alignToInterval_fixed_idem_witness :
  alignToInterval (inject_Z (alignToInterval 1700000123456 "15")) "15"
  = alignToInterval 1700000123456 "15".
Proof.
  apply (alignToInterval_fixed_idem 1700000123456 "15" 900000); [|reflexivity].
  apply (bool_decide_unpack _). by vm_compute.
Defined.

Lemma addInterval_aligned_witness :
  aligned "W" (addInterval 345600000 "W").
Proof. apply (addInterval_aligned "W" 345600000). by vm_compute. Defined.

Lemma selectRange_covers_witness :
  covers (selectRange "D" (Some 1600000000000) 1700000000000)
         ((1700000000000 - 1600000000000) / msPerYear).
Proof.
  apply (selectRange_covers "D" 1600000000000 1700000000000);
    apply (bool_decide_unpack _); by vm_compute.
Defined.
