(* ===== verification/Scale.v ===== *)
(** * Scale: the axis and scale engine

    [useChartPath] of [src/src/LiveSP500Canvas.jsx] (lines 266-416):
    the window of the series that is drawn, the value transform of the
    Y mode and its inverse, the padded range, the two pixel scales, the
    path, the X ticks with their labels and the six Y ticks.

    The closure of [useChartPath] is the section [Geometry]: its
    variables are the arguments of the function, with the data already
    known to be [p0 :: ps] (the early return of line 269 is taken by
    [useChartPath] itself), and each [var] of the body is a definition
    of the section under the name it has in the source.

    The path is kept as the list of its commands and a label of the X
    axis as the format and the instant handed to the locale; the labels
    of the Y axis are the strings [toFixed] prints.  [Math.min.apply]
    and [Math.max.apply] answer [None] for the infinities they return
    on an empty array, which is the one way the [isFinite] test of line
    320 can fail on rational values. *)

From Stdlib Require Import QArith Qminmax Qround Qabs Lqa Lia ZArith.
From stdpp Require Import base decidable list option strings numbers sorting.
From S2P Require Import Prelude JsText JsDate Series Interval.

#[local] Open Scope Q_scope.
#[local] Open Scope chart_scope.

(** ** Data *)

Inductive YMode := Linear | Log | Percent.

#[export] Instance YMode_eq_dec : EqDecision YMode.
Proof. solve_decision. Defined.

(** [toYMode]: the three tokens are kept, anything else is linear. *)
Definition toYMode (v : string) : YMode :=
  if decide (v = "log") then Log
  else if decide (v = "percent") then Percent
  else Linear.

(** [Y_SCALE_OPTIONS]: label and value of each option. *)
Definition Y_SCALE_OPTIONS : list (string * string) :=
  [("Linear", "linear"); ("Log", "log"); ("% (from left)", "percent")].

Record Tick := mkTick { tick_x : Q; tick_ts : Q }.
Record XLabel := mkXLabel { label_x : Q; label_text : TickFormat * Z }.
Record YTick := mkYTick { ytick_y : Q; ytick_label : string }.

Inductive PathCmd :=
| MoveTo (x y : Q)
| LineTo (x y : Q).

(** The abscissa of a command. *)
Definition cmd_x (c : PathCmd) : Q :=
  match c with MoveTo x _ | LineTo x _ => x end.

Record ChartGeometry := mkChart {
  chart_path : list PathCmd;
  chart_xTicks : list Tick;
  chart_xLabels : list XLabel;
  chart_yTicks : list YTick;
  chart_xScale : Q -> Q;
  chart_yScale : Q -> Q;
  chart_last : option PricePoint;
  chart_anchor : Q
}.

(** [Math.min.apply(null, l)] and [Math.max.apply(null, l)]. *)
Definition mathMin (l : list Q) : option Q :=
  match l with
  | [] => None
  | v :: vs => Some (foldl Qmin v vs)
  end.

Definition mathMax (l : list Q) : option Q :=
  match l with
  | [] => None
  | v :: vs => Some (foldl Qmax v vs)
  end.

(** The literal [1e-9]. *)
Definition eps : Q := 1 # 1000000000.

Definition MIN_GAP : Q := 80.
Definition guard : nat := 5000.

#[global] Arguments guard : simpl never.
Definition tickCount : nat := 6.

(** The result for no data (lines 269-280). *)
Definition emptyChart : ChartGeometry :=
  mkChart [] [] [] [] (fun t => t) (fun v => v) None 0.

(** ** The body of [useChartPath] *)

Section Geometry.
Context `{ExpLog}.
Variables (p0 : PricePoint) (ps : Series).
Variables (width height padLeft : Q) (interval : string).
Variables (domain : Domain) (yMode : YMode) (rightMargin : Q).

Definition dataXMin : Q := time p0.
Definition dataXMax : Q := time (default p0 (last ps)).
Definition xMin : Q := Qmax (x0 domain) dataXMin.
Definition xMax : Q := Qmin (x1 domain) dataXMax.

Definition inWindow (d : PricePoint) : Prop := xMin <= time d /\ time d <= xMax.

#[export] Instance inWindow_decision d : Decision (inWindow d) := _.

Definition slice : Series :=
  match filter inWindow (p0 :: ps) with
  | [] => p0 :: ps
  | s => s
  end.

Definition anchor : Q := value (default p0 (head slice)).

Definition values : list Q := value <$> slice.

Definition useLog : bool :=
  bool_decide (yMode = Log) && bool_decide (Forall (fun v => 0 < v) values).

Definition tf (v : Q) : Q :=
  if useLog then Ln v
  else if decide (yMode = Percent) then
    let ref := Qmax eps anchor in (v / ref - 1) * 100
  else v.

Definition invf (p : Q) : Q :=
  if useLog then Exp p
  else if decide (yMode = Percent) then
    let ref := Qmax eps anchor in ref * (1 + p / 100)
  else p.

Definition tVals : list Q := tf <$> values.

(** Lines 318-330: the extremes, the default range, the widening of a
    flat range and the padding. *)
Definition padRange (lo hi : option Q) : Q * Q :=
  let '(tMin, tMax) :=
    match lo, hi with
    | Some lo, Some hi => (lo, hi)
    | _, _ => (0, 1)
    end in
  let '(tMin, tMax) :=
    if decide (tMin == tMax) then (tMin - 1, tMax + 1) else (tMin, tMax) in
  let padTopBottom := (tMax - tMin) * (1 # 10) in
  (tMin - padTopBottom, tMax + padTopBottom).

Definition tMin : Q := fst (padRange (mathMin tVals) (mathMax tVals)).
Definition tMax : Q := snd (padRange (mathMin tVals) (mathMax tVals)).

Definition xScale (t : Q) : Q :=
  padLeft + ((t - xMin) / Qmax 1 (xMax - xMin)) * (width - padLeft - rightMargin).

Definition yScale (v : Q) : Q :=
  height - padLeft
  - ((tf v - tMin) / Qmax eps (tMax - tMin)) * (height - 2 * padLeft).

Definition dPath : list PathCmd :=
  imap (fun i s =>
          let x := xScale (time s) in
          let y := yScale (value s) in
          if decide (i = 0%nat) then MoveTo x y else LineTo x y) slice.

(** The loop of lines 356-360, with [n] the iterations the guard still
    allows. *)
Fixpoint tickLoop (n : nat) (t : Q) : list Tick :=
  match n with
  | O => []
  | S n' =>
      if decide (t <= xMax)
      then mkTick (xScale t) t :: tickLoop n' (addInterval t interval)
      else []
  end.

Definition xTicks : list Tick :=
  let ticks := tickLoop guard (inject_Z (alignToInterval xMin interval)) in
  if decide (length ticks < 2)%nat
  then ticks ++ [mkTick (xScale xMin) xMin; mkTick (xScale xMax) xMax]
  else ticks.

Definition labelOf (tick : Tick) : XLabel :=
  mkXLabel (tick_x tick) (tickLabel (tick_ts tick) interval).

(** One call of the [forEach] of lines 369-374; the second component is
    [lastLabeledX], with [None] for its initial minus infinity. *)
Definition labelStep (acc : list XLabel * option Q) (tick : Tick)
  : list XLabel * option Q :=
  let far :=
    match acc.2 with
    | None => true
    | Some lastLabeledX => bool_decide (MIN_GAP <= tick_x tick - lastLabeledX)
    end in
  if far then (acc.1 ++ [labelOf tick], Some (tick_x tick)) else acc.

(** Lines 366-374: the labels the minimum gap keeps. *)
Definition labelTicks (ticks : list Tick) : list XLabel :=
  (foldl labelStep ([], None) ticks).1.

(** Lines 375-382: the labels of the first and of the last tick, added
    when the nearest label kept is more than half the gap away. *)
Definition labelEnds (labels : list XLabel) (ticks : list Tick) : list XLabel :=
  match head labels, last labels, head ticks, last ticks with
  | Some first, Some lastLabel, Some t0, Some tn =>
      let wantsFirst := bool_decide (MIN_GAP / 2 < Qabs (label_x first - tick_x t0)) in
      let wantsLast := bool_decide (MIN_GAP / 2 < Qabs (label_x lastLabel - tick_x tn)) in
      (if wantsFirst then [labelOf t0] else [])
      ++ labels ++ (if wantsLast then [labelOf tn] else [])
  | _, _, _, _ => labels
  end.

Definition xLabels : list XLabel := labelEnds (labelTicks xTicks) xTicks.

Definition yTickAt (j : nat) : YTick :=
  let tv := tMin + ((tMax - tMin) / (inject_Z (Z.of_nat tickCount) - 1))
                   * inject_Z (Z.of_nat j) in
  let raw := invf tv in
  let label :=
    if decide (yMode = Percent) then
      let pct := (raw / Qmax eps anchor - 1) * 100 in
      (toFixed pct 1 ++ "%")%string
    else toFixed raw 2 in
  let yTick :=
    height - padLeft
    - ((tv - tMin) / Qmax eps (tMax - tMin)) * (height - 2 * padLeft) in
  mkYTick yTick label.

Definition yTicks : list YTick := yTickAt <$> seq 0 tickCount.

Definition geometry : ChartGeometry :=
  mkChart dPath xTicks xLabels yTicks xScale yScale (last slice) anchor.

End Geometry.

Definition useChartPath `{ExpLog} (data : Series) (width height padLeft : Q)
    (interval : string) (domain : Domain) (yMode : YMode) (rightMargin : Q)
  : ChartGeometry :=
  match data with
  | [] => emptyChart
  | p0 :: ps =>
      geometry p0 ps width height padLeft interval domain yMode rightMargin
  end.

(** ** The Y mode *)

(** The options of the Y scale control are the three modes. *)
Theorem Y_SCALE_OPTIONS_modes : toYMode <$> Y_SCALE_OPTIONS.*2 = [Linear; Log; Percent].
Proof. done. Qed.

(** Anything that is not one of the tokens is linear. *)
Theorem toYMode_default v : v <> "log" -> v <> "percent" -> toYMode v = Linear.
Proof. intros. unfold toYMode. by rewrite !decide_False. Qed.

(** ** The window and the slice *)

Section Window.
Variables (p0 : PricePoint) (ps : Series) (domain : Domain).

#[local] Abbreviation data := (p0 :: ps).
#[local] Abbreviation xMin := (xMin p0 domain).
#[local] Abbreviation xMax := (xMax p0 ps domain).
#[local] Abbreviation inWindow := (inWindow p0 ps domain).
#[local] Abbreviation slice := (slice p0 ps domain).
#[local] Abbreviation anchor := (anchor p0 ps domain).
#[local] Abbreviation values := (values p0 ps domain).

Lemma slice_cases :
  filter inWindow data = [] /\ slice = data \/
  filter inWindow data <> [] /\ slice = filter inWindow data.
Proof. unfold slice. destruct (filter _ _); [by left|by right]. Qed.

Lemma slice_nonempty : slice <> [].
Proof. by destruct slice_cases as [[_ ->]|[? ->]]. Qed.

Lemma slice_sublist : slice `sublist_of` data.
Proof. destruct slice_cases as [[_ ->]|[_ ->]]; [done|apply sublist_filter]. Qed.

Lemma slice_elem_of d : d ∈ slice -> d ∈ data.
Proof. intros Hd. eapply elem_of_sublist, slice_sublist. done. Qed.

Lemma slice_sorted : time_sorted data -> time_sorted slice.
Proof. apply StronglySorted_sublist, slice_sublist. Qed.

(** A point of the data inside the window is drawn. *)
Lemma slice_complete d : d ∈ data -> inWindow d -> d ∈ slice.
Proof.
  intros Hd Hw. destruct slice_cases as [[_ ->]|[_ ->]]; [done|].
  by apply list_elem_of_filter.
Qed.

(** Unless the fallback applies, every drawn point is inside the
    window. *)
Lemma slice_inWindow : filter inWindow data <> [] -> Forall inWindow slice.
Proof.
  intros Hne. destruct slice_cases as [[? _]|[_ ->]]; [done|].
  apply Forall_forall. by intros d [? _]%list_elem_of_filter.
Qed.

Lemma slice_fallback : Forall (fun d => ~ inWindow d) data -> slice = data.
Proof.
  intros Hall. destruct slice_cases as [[_ ?]|[Hne _]]; [done|].
  destruct Hne. by apply filter_Forall_not.
Qed.

(** On the full extent of sorted data, the window is the extent and
    every point is drawn. *)
Lemma window_full_extent :
  time_sorted data -> domain ≡ fullDomain data ->
  xMin == time p0 /\ xMax == dataXMax p0 ps /\ slice = data.
Proof.
  intros Hs [E0 E1]. simpl in E0, E1. rewrite last_cons_default in E1.
  assert (forall d, d ∈ data -> time p0 <= time d <= dataXMax p0 ps) as Hle.
  { intros d Hd. split; [by eapply time_sorted_head_le|].
    eapply time_sorted_le_last, last_cons_default; done. }
  pose proof (Hle p0 ltac:(left)) as H0.
  unfold Scale.xMin, Scale.xMax, dataXMin in *. fold (dataXMax p0 ps) in E1.
  split_and!; [rewrite E0; qlra|rewrite E1; qlra|].
  unfold slice. rewrite filter_Forall_id; [done|].
  apply Forall_forall. intros d Hd%Hle.
  unfold inWindow, Scale.xMin, Scale.xMax, dataXMin. rewrite E0, E1. split; qlra.
Qed.

Lemma anchor_head p : head slice = Some p -> anchor = value p.
Proof. unfold anchor. by intros ->. Qed.

Lemma anchor_elem_of : anchor ∈ values.
Proof.
  unfold anchor, values. pose proof slice_nonempty.
  destruct slice as [|p l]; [done|]. simpl. left.
Qed.

End Window.

(** ** The value transform *)

Section Transform.
Context `{ExpLog}.
Variables (p0 : PricePoint) (ps : Series) (domain : Domain) (yMode : YMode).

#[local] Abbreviation values := (values p0 ps domain).
#[local] Abbreviation anchor := (anchor p0 ps domain).
#[local] Abbreviation useLog := (useLog p0 ps domain yMode).
#[local] Abbreviation tf := (tf p0 ps domain yMode).
#[local] Abbreviation invf := (invf p0 ps domain yMode).

Lemma useLog_spec : useLog = true <-> yMode = Log /\ Forall (fun v => 0 < v) values.
Proof.
  unfold useLog. by rewrite andb_true_iff, !bool_decide_eq_true.
Qed.

Lemma ref_pos : 0 < Qmax eps anchor.
Proof. unfold eps. qlra. Qed.

#[export] Instance tf_proper : Proper (Qeq ==> Qeq) tf.
Proof.
  intros v w E. unfold tf. destruct useLog; [by rewrite E|].
  case_decide; [|done]. cbv zeta. by rewrite E.
Qed.

#[export] Instance invf_proper : Proper (Qeq ==> Qeq) invf.
Proof.
  intros v w E. unfold invf. destruct useLog; [by rewrite E|].
  case_decide; [|done]. cbv zeta. by rewrite E.
Qed.

Lemma useLog_false :
  yMode <> Log \/ Exists (fun v => v <= 0) values -> useLog = false.
Proof.
  intros Hn. apply not_true_is_false. intros [HL Hall]%useLog_spec.
  destruct Hn as [?|(w & Hw & Hle)%Exists_exists]; [done|].
  eapply Forall_forall in Hall; [|done]. lra.
Qed.

(** C7: Log mode with a visible value that is not positive is linear
    mode. *)
Theorem tf_log_degrades v :
  yMode = Log -> Exists (fun v => v <= 0) values -> tf v = v /\ invf v = v.
Proof.
  intros HM Hex. unfold tf, invf. rewrite useLog_false by auto.
  by case_decide; [congruence|].
Qed.

Theorem tf_linear v : yMode = Linear -> tf v = v /\ invf v = v.
Proof.
  intros HM. unfold tf, invf. rewrite useLog_false by (left; congruence).
  by case_decide; [congruence|].
Qed.

Lemma tf_percent v :
  yMode = Percent -> tf v = (v / Qmax eps anchor - 1) * 100.
Proof.
  intros HM. unfold tf. rewrite useLog_false by (left; congruence).
  by case_decide.
Qed.

(** C30: The inverse undoes the transform; in log mode on the positive
    values, which are the only ones the logarithm is asked for. *)
Theorem invf_tf v : (useLog = true -> 0 < v) -> invf (tf v) == v.
Proof.
  intros Hv. unfold tf, invf. destruct useLog; [by apply Exp_Ln, Hv|].
  case_decide; [|done]. cbv zeta. pose proof ref_pos. field. lra.
Qed.

Theorem tf_invf p : tf (invf p) == p.
Proof.
  unfold tf, invf. destruct useLog; [apply Ln_Exp|].
  case_decide; [|done]. cbv zeta. pose proof ref_pos. field. lra.
Qed.

(** The transform keeps the order of the values. *)
Theorem tf_mono v w : (useLog = true -> 0 < v) -> v < w -> tf v < tf w.
Proof.
  intros Hv Hlt. unfold tf. destruct useLog; [by apply Ln_mono; auto|].
  case_decide; [|done]. cbv zeta. pose proof ref_pos.
  pose proof (Qdiv_lt_mono v w _ ref_pos Hlt). lra.
Qed.

Lemma tf_mono_le v w : (useLog = true -> 0 < v) -> v <= w -> tf v <= tf w.
Proof.
  intros Hv [Hlt|E]%Qle_lt_or_eq; [by apply Qlt_le_weak, tf_mono|].
  rewrite E. lra.
Qed.

(** In percent mode the anchor is the zero of the axis, when it is at
    least the floor [1e-9] of the reference. *)
Theorem tf_percent_anchor : yMode = Percent -> eps <= anchor -> tf anchor == 0.
Proof.
  intros HP Ha. rewrite tf_percent by done.
  assert (Qmax eps anchor == anchor) as -> by qlra.
  unfold eps in Ha. field. lra.
Qed.

End Transform.

(** ** The padded range *)

Lemma foldl_Qmin_spec v vs :
  (forall w, w ∈ v :: vs -> foldl Qmin v vs <= w) /\
  (exists w, w ∈ v :: vs /\ foldl Qmin v vs == w).
Proof.
  revert v. induction vs as [|u vs IH]; intros v; simpl.
  - split; [intros w ->%list_elem_of_singleton; lra|exists v; by split; [left|]].
  - destruct (IH (Qmin v u)) as [Hle (w & Hw & E)]. split.
    + intros w' Hw'. assert (foldl Qmin (Qmin v u) vs <= Qmin v u) by (apply Hle; left).
      apply elem_of_cons in Hw' as [->|[->|?]%elem_of_cons]; [qlra|qlra|].
      apply Hle. by right.
    + apply elem_of_cons in Hw as [->|?]; [|exists w; by split; [do 2 right|]].
      destruct (Q.min_spec v u) as [[_ Em]|[_ Em]].
      * exists v. split; [left|by rewrite E].
      * exists u. split; [right; left|by rewrite E].
Qed.

Lemma foldl_Qmax_spec v vs :
  (forall w, w ∈ v :: vs -> w <= foldl Qmax v vs) /\
  (exists w, w ∈ v :: vs /\ foldl Qmax v vs == w).
Proof.
  revert v. induction vs as [|u vs IH]; intros v; simpl.
  - split; [intros w ->%list_elem_of_singleton; lra|exists v; by split; [left|]].
  - destruct (IH (Qmax v u)) as [Hle (w & Hw & E)]. split.
    + intros w' Hw'. assert (Qmax v u <= foldl Qmax (Qmax v u) vs) by (apply Hle; left).
      apply elem_of_cons in Hw' as [->|[->|?]%elem_of_cons]; [qlra|qlra|].
      apply Hle. by right.
    + apply elem_of_cons in Hw as [->|?]; [|exists w; by split; [do 2 right|]].
      destruct (Q.max_spec v u) as [[_ Em]|[_ Em]].
      * exists u. split; [right; left|by rewrite E].
      * exists v. split; [left|by rewrite E].
Qed.

(** [Math.min.apply] and [Math.max.apply] on an array that is not
    empty: the least and the greatest element. *)
Lemma mathMin_mathMax l :
  l <> [] ->
  exists lo hi, mathMin l = Some lo /\ mathMax l = Some hi /\
    (forall w, w ∈ l -> lo <= w <= hi) /\
    (exists w, w ∈ l /\ lo == w) /\ (exists w, w ∈ l /\ hi == w).
Proof.
  destruct l as [|v vs]; [done|]. intros _.
  destruct (foldl_Qmin_spec v vs) as [Hlo Elo].
  destruct (foldl_Qmax_spec v vs) as [Hhi Ehi].
  exists (foldl Qmin v vs), (foldl Qmax v vs). split_and!; [done..| |done|done].
  intros w Hw. split; [by apply Hlo|by apply Hhi].
Qed.

(** The padded range contains the extremes strictly, whatever they
    are. *)
Lemma padRange_bounds lo hi :
  lo <= hi ->
  (padRange (Some lo) (Some hi)).1 < lo /\ hi < (padRange (Some lo) (Some hi)).2.
Proof. intros Hle. unfold padRange. case_decide; simpl; lra. Qed.

(** Its width: 2.4 for a flat series, otherwise 1.2 times the spread. *)
Lemma padRange_span lo hi :
  let r := padRange (Some lo) (Some hi) in
  r.2 - r.1 == if decide (lo == hi) then 12 # 5 else (hi - lo) * (6 # 5).
Proof. cbv zeta. unfold padRange. case_decide; simpl; lra. Qed.

Lemma padRange_infinite lo hi :
  lo = None \/ hi = None -> padRange lo hi = (0 - (1 - 0) * (1 # 10), 1 + (1 - 0) * (1 # 10)).
Proof. by destruct lo, hi; intros [?|?]. Qed.

Section Range.
Context `{ExpLog}.
Variables (p0 : PricePoint) (ps : Series) (domain : Domain) (yMode : YMode).

#[local] Abbreviation values := (values p0 ps domain).
#[local] Abbreviation tVals := (tVals p0 ps domain yMode).
#[local] Abbreviation tf := (tf p0 ps domain yMode).
#[local] Abbreviation tMin := (tMin p0 ps domain yMode).
#[local] Abbreviation tMax := (tMax p0 ps domain yMode).

Lemma tVals_nonempty : tVals <> [].
Proof.
  unfold tVals, Scale.values. pose proof (slice_nonempty p0 ps domain).
  by destruct (slice _ _ _).
Qed.

(** Every transformed value of the slice is strictly inside the padded
    range; the range is never degenerate. *)
Theorem tVals_in_range t : t ∈ tVals -> tMin < t < tMax.
Proof.
  intros Ht. unfold tMin, tMax.
  destruct (mathMin_mathMax tVals tVals_nonempty) as (lo & hi & -> & -> & Hb & _).
  destruct (Hb t Ht). destruct (padRange_bounds lo hi); lra.
Qed.

Theorem tMin_lt_tMax : tMin < tMax.
Proof.
  pose proof tVals_nonempty. destruct tVals as [|t l] eqn:E; [done|].
  assert (t ∈ tVals) as Ht%tVals_in_range by (rewrite E; left). lra.
Qed.

Lemma tf_value_in_range v : v ∈ values -> tMin < tf v < tMax.
Proof. intros Hv. apply tVals_in_range. by apply list_elem_of_fmap_2. Qed.

End Range.

(** ** The pixel scales *)

Section Scales.
Context `{ExpLog}.
Variables (p0 : PricePoint) (ps : Series).
Variables (width height padLeft : Q).
Variables (domain : Domain) (yMode : YMode) (rightMargin : Q).

#[local] Abbreviation xMin := (xMin p0 domain).
#[local] Abbreviation xMax := (xMax p0 ps domain).
#[local] Abbreviation values := (values p0 ps domain).
#[local] Abbreviation useLog := (useLog p0 ps domain yMode).
#[local] Abbreviation tf := (tf p0 ps domain yMode).
#[local] Abbreviation invf := (invf p0 ps domain yMode).
#[local] Abbreviation tMin := (tMin p0 ps domain yMode).
#[local] Abbreviation tMax := (tMax p0 ps domain yMode).
#[local] Abbreviation xScale := (xScale p0 ps width padLeft domain rightMargin).
#[local] Abbreviation yScale := (yScale p0 ps height padLeft domain yMode).

#[export] Instance xScale_proper : Proper (Qeq ==> Qeq) xScale.
Proof. intros t u E. unfold xScale. by rewrite E. Qed.

#[export] Instance yScale_proper : Proper (Qeq ==> Qeq) yScale.
Proof. intros t u E. unfold yScale. by rewrite E. Qed.

(** The left end of the window is drawn at the left pad. *)
Theorem xScale_xMin : xScale xMin == padLeft.
Proof. unfold xScale, Qdiv. ring. Qed.

(** The right end is drawn at the right margin once the window is a
    millisecond wide. *)
Theorem xScale_xMax : 1 <= xMax - xMin -> xScale xMax == width - rightMargin.
Proof.
  intros Hw. unfold xScale.
  assert (Qmax 1 (xMax - xMin) == xMax - xMin) as -> by qlra. field. lra.
Qed.

(** A narrower window is scaled as if it were a millisecond wide. *)
Lemma xScale_narrow t :
  xMax - xMin <= 1 -> xScale t == padLeft + (t - xMin) * (width - padLeft - rightMargin).
Proof.
  intros Hw. unfold xScale.
  assert (Qmax 1 (xMax - xMin) == 1) as -> by qlra. field.
Qed.

Theorem xScale_mono t u :
  padLeft + rightMargin < width -> t < u -> xScale t < xScale u.
Proof.
  intros Hw Hlt. unfold xScale.
  assert (0 < Qmax 1 (xMax - xMin)) as Hd by qlra.
  pose proof (Qdiv_lt_mono (t - xMin) (u - xMin) _ Hd ltac:(lra)). nra.
Qed.

(** Instants of the window are drawn between the pad and the margin. *)
Theorem xScale_bounds t :
  padLeft + rightMargin <= width -> xMin <= t <= xMax ->
  padLeft <= xScale t <= width - rightMargin.
Proof.
  intros Hw [Hlo Hhi]. unfold xScale.
  assert (0 < Qmax 1 (xMax - xMin)) as Hd by qlra.
  pose proof (Qdiv_nonneg (t - xMin) _ Hd ltac:(lra)).
  pose proof (Qdiv_le_1 (t - xMin) _ Hd ltac:(qlra)). nra.
Qed.

(** The share of the plot height below a transformed value. *)
Lemma yShare_bounds t :
  tMin < t < tMax -> 0 < (t - tMin) / Qmax eps (tMax - tMin) < 1.
Proof.
  intros [Hlo Hhi]. set (d := Qmax eps (tMax - tMin)).
  assert (0 < d) as Hd by (unfold d, eps; qlra).
  assert (t - tMin < d) as Hn by (unfold d; qlra).
  assert (0 < t - tMin) as Hp by lra.
  pose proof (Qdiv_lt_mono _ _ _ Hd Hp) as H0.
  pose proof (Qdiv_lt_mono _ _ _ Hd Hn) as H1.
  assert (0 / d == 0) as E0 by (field; lra).
  assert (d / d == 1) as E1 by (field; lra).
  rewrite E0 in H0. rewrite E1 in H1. done.
Qed.

Lemma yScale_range v :
  2 * padLeft < height -> v ∈ values ->
  padLeft < yScale v < height - padLeft.
Proof.
  intros Hh Hv%(tf_value_in_range _ _ _ yMode)%yShare_bounds. unfold yScale.
  set (f := _ / _) in *. clearbody f. split; nra.
Qed.

(** C8: Every value of the slice is drawn strictly inside the plot
    area. *)
Theorem yScale_bounds v :
  2 * padLeft < height -> v ∈ values ->
  padLeft < yScale v < height - padLeft.
Proof. apply yScale_range. Qed.

(** Larger values are drawn higher. *)
Theorem yScale_antitone v w :
  2 * padLeft < height -> (useLog = true -> 0 < v) -> v < w ->
  yScale w < yScale v.
Proof.
  intros Hh Hv Hlt%(tf_mono p0 ps domain yMode); [|done]. unfold yScale.
  assert (0 < Qmax eps (tMax - tMin)) as Hd by (unfold eps; qlra).
  assert (tf v - tMin < tf w - tMin) as Hn by lra.
  pose proof (Qdiv_lt_mono _ _ _ Hd Hn). nra.
Qed.

(** The raw value of a transformed level [t] is drawn at the share of
    [t] in the padded range. *)
Lemma yScale_invf t :
  yScale (invf t)
  == height - padLeft - ((t - tMin) / Qmax eps (tMax - tMin)) * (height - 2 * padLeft).
Proof. unfold yScale. by rewrite tf_invf. Qed.

End Scales.

(** ** The path *)

Section Path.
Context `{ExpLog}.
Variables (p0 : PricePoint) (ps : Series).
Variables (width height padLeft : Q).
Variables (domain : Domain) (yMode : YMode) (rightMargin : Q).

#[local] Abbreviation slice := (slice p0 ps domain).
#[local] Abbreviation xScale := (xScale p0 ps width padLeft domain rightMargin).
#[local] Abbreviation yScale := (yScale p0 ps height padLeft domain yMode).
#[local] Abbreviation dPath :=
  (dPath p0 ps width height padLeft domain yMode rightMargin).

(** One command for each point of the slice: a move to the first, a
    line to each of the others. *)
Theorem dPath_lookup i :
  dPath !! i =
  (fun s => (if decide (i = 0%nat) then MoveTo else LineTo)
              (xScale (time s)) (yScale (value s))) <$> slice !! i.
Proof.
  unfold dPath. rewrite list_lookup_imap.
  by destruct i.
Qed.

Lemma dPath_length : length dPath = length slice.
Proof. unfold dPath. apply length_imap. Qed.

(** The line runs from left to right: the commands are in the order of
    the points, whose instants do not decrease. *)
Theorem dPath_left_to_right i j c c' :
  padLeft + rightMargin < width -> time_sorted (p0 :: ps) -> (i < j)%nat ->
  dPath !! i = Some c -> dPath !! j = Some c' -> cmd_x c <= cmd_x c'.
Proof.
  intros Hw Hs%(slice_sorted p0 ps domain) Hij. rewrite !dPath_lookup.
  intros (s & Hi & ->)%fmap_Some (s' & Hj & ->)%fmap_Some.
  pose proof (StronglySorted_lookup_1 _ _ _ _ _ _ Hs Hij Hi Hj) as Hle.
  unfold time_le in Hle.
  assert (forall (k : nat) x y,
            cmd_x ((if decide (k = 0%nat) then MoveTo else LineTo) x y) = x) as Hx
    by (intros; by case_decide).
  rewrite !Hx.
  destruct (Qlt_le_dec (time s) (time s')) as [Hlt|Hge].
  - by apply Qlt_le_weak, xScale_mono.
  - assert (time s == time s') as E by (apply Qle_antisym; lra).
    rewrite E. apply Qle_refl.
Qed.

End Path.

(** ** The hook *)

Section Hook.
Context `{ExpLog}.
Variables (width height padLeft : Q) (interval : string).
Variables (domain : Domain) (yMode : YMode) (rightMargin : Q).

#[local] Abbreviation chart data :=
  (useChartPath data width height padLeft interval domain yMode rightMargin).

(** Without data the result is the placeholder: no path, no tick, the
    identity scales. *)
Theorem useChartPath_empty : chart [] = emptyChart.
Proof. done. Qed.

(** The last point and the anchor are the two ends of the slice. *)
Theorem useChartPath_ends p0 ps :
  chart_last (chart (p0 :: ps)) = last (slice p0 ps domain) /\
  Some (chart_anchor (chart (p0 :: ps))) = value <$> head (slice p0 ps domain) /\
  is_Some (chart_last (chart (p0 :: ps))).
Proof.
  simpl. pose proof (slice_nonempty p0 ps domain) as Hne.
  unfold anchor. destruct (slice p0 ps domain) as [|q l] eqn:E; [done|].
  split_and!; [done..|]. by rewrite last_cons_default.
Qed.

End Hook.

(** ** Instances *)

Lemma tf_log_degrades_witness :
  tf (0 ↦ 100) [1 ↦ -5] (mkDomain 0 1) Log 7 = 7 /\
  invf (0 ↦ 100) [1 ↦ -5] (mkDomain 0 1) Log 7 = 7.
Proof.
  apply (tf_log_degrades (0 ↦ 100) [1 ↦ -5] (mkDomain 0 1) Log 7); [done|].
  evaluate (values (0 ↦ 100) [1 ↦ -5] (mkDomain 0 1)).
  apply Exists_exists. exists (-5). split; [in_list|done].
Defined.

Lemma invf_tf_witness :
  invf (0 ↦ 100) [1 ↦ 110] (mkDomain 0 1) Log
    (tf (0 ↦ 100) [1 ↦ 110] (mkDomain 0 1) Log 110) == 110.
Proof.
  apply (invf_tf (0 ↦ 100) [1 ↦ 110] (mkDomain 0 1) Log 110). intros _. lra.
Defined.

Lemma yScale_bounds_witness :
  40 < yScale (0 ↦ 100) [1 ↦ 110] 640 40 (mkDomain 0 1) Percent 110 < 640 - 40.
Proof.
  apply (yScale_bounds (0 ↦ 100) [1 ↦ 110] 640 40 (mkDomain 0 1) Percent 110); [lra|].
  evaluate (values (0 ↦ 100) [1 ↦ 110] (mkDomain 0 1)). in_list.
Defined.

Lemma tVals_in_range_witness :
  tMin (0 ↦ 100) [1 ↦ 110] (mkDomain 0 1) Percent
  < tf (0 ↦ 100) [1 ↦ 110] (mkDomain 0 1) Percent 110
  < tMax (0 ↦ 100) [1 ↦ 110] (mkDomain 0 1) Percent.
Proof.
  apply (tVals_in_range (0 ↦ 100) [1 ↦ 110] (mkDomain 0 1) Percent).
  apply list_elem_of_fmap_2.
  evaluate (values (0 ↦ 100) [1 ↦ 110] (mkDomain 0 1)). in_list.
Defined.

Lemma xScale_bounds_witness :
  40 <= xScale (0 ↦ 100) [1000 ↦ 110] 1200 40 (mkDomain 0 1000) 90 250 <= 1200 - 90.
Proof.
  apply (xScale_bounds (0 ↦ 100) [1000 ↦ 110] 1200 40 (mkDomain 0 1000) 90 250);
    [lra|by vm_compute].
Defined.

Lemma yScale_antitone_witness :
  yScale (0 ↦ 100) [1 ↦ 110] 640 40 (mkDomain 0 1) Log 110
  < yScale (0 ↦ 100) [1 ↦ 110] 640 40 (mkDomain 0 1) Log 100.
Proof.
  apply (yScale_antitone (0 ↦ 100) [1 ↦ 110] 640 40 (mkDomain 0 1) Log 100 110);
    [lra|intros _; lra|lra].
Defined.

Lemma window_full_extent_witness :
  xMin (0 ↦ 100) (mkDomain 0 2) == 0 /\
  xMax (0 ↦ 100) [1 ↦ 110; 2 ↦ 99] (mkDomain 0 2) == dataXMax (0 ↦ 100) [1 ↦ 110; 2 ↦ 99] /\
  slice (0 ↦ 100) [1 ↦ 110; 2 ↦ 99] (mkDomain 0 2) = [0 ↦ 100; 1 ↦ 110; 2 ↦ 99].
Proof.
  apply (window_full_extent (0 ↦ 100) [1 ↦ 110; 2 ↦ 99] (mkDomain 0 2)); [|done].
  repeat constructor; by vm_compute.
Defined.
