(* ===== verification/Ticks.v ===== *)
(** * Ticks: the ticks and the labels of the two axes

    Theorems on the second half of [useChartPath]
    ([src/src/LiveSP500Canvas.jsx], lines 352-399), whose definitions
    are in [Scale]: the tick loop with its guard and the two forced
    ticks, the labels kept by the minimum gap and the two that are
    added at the ends, the six ticks of the Y axis.

    The instants the loop visits are [tickInstant t k], the [k]-th
    iterate of [addInterval]; the labels the [forEach] keeps are
    [pick], its definition by recursion on the ticks. *)

From Stdlib Require Import QArith Qminmax Qround Qabs Lqa Lia ZArith.
From stdpp Require Import base decidable list option strings numbers sorting.
From S2P Require Import Prelude JsText JsDate Series Interval Scale.

#[local] Open Scope Q_scope.

(** ** Reference definitions *)

(** The instant of the [k]-th iteration of the loop started at [t]. *)
Definition tickInstant (interval : string) (t : Q) (k : nat) : Q :=
  Nat.iter k (fun t => addInterval t interval) t.

#[global] Arguments tickInstant : simpl never.

(** The test of the [forEach]: far enough from the last label. *)
Definition farFrom (lastLabeledX : option Q) (tick : Tick) : bool :=
  match lastLabeledX with
  | None => true
  | Some x => bool_decide (MIN_GAP <= tick_x tick - x)
  end.

(** The labels kept from a list of ticks, by recursion on the list. *)
Fixpoint pick (interval : string) (lastLabeledX : option Q) (ticks : list Tick)
  : list XLabel :=
  match ticks with
  | [] => []
  | tick :: rest =>
      if farFrom lastLabeledX tick
      then labelOf interval tick :: pick interval (Some (tick_x tick)) rest
      else pick interval lastLabeledX rest
  end.

(** Labels at least the minimum gap after one another, and after
    [lastLabeledX]. *)
Fixpoint gapped (lastLabeledX : option Q) (labels : list XLabel) : Prop :=
  match labels with
  | [] => True
  | l :: rest =>
      match lastLabeledX with
      | None => True
      | Some x => MIN_GAP <= label_x l - x
      end /\ gapped (Some (label_x l)) rest
  end.

(** The level of tick [j] of the Y axis on the transformed axis. *)
Definition yLevel (tMin tMax : Q) (j : nat) : Q :=
  tMin + (tMax - tMin) / 5 * inject_Z (Z.of_nat j).

(** ** The tick loop *)

Section XTicks.
Variables (p0 : PricePoint) (ps : Series).
Variables (width padLeft : Q) (interval : string).
Variables (domain : Domain) (rightMargin : Q).

#[local] Abbreviation xMin := (xMin p0 domain).
#[local] Abbreviation xMax := (xMax p0 ps domain).
#[local] Abbreviation xScale := (xScale p0 ps width padLeft domain rightMargin).
#[local] Abbreviation tickLoop :=
  (tickLoop p0 ps width padLeft interval domain rightMargin).
#[local] Abbreviation xTicks :=
  (xTicks p0 ps width padLeft interval domain rightMargin).
#[local] Abbreviation tickAt t := (mkTick (xScale t) t).
#[local] Abbreviation instant := (tickInstant interval).

Lemma tickInstant_succ t k :
  instant t (S k) = instant (addInterval t interval) k.
Proof. unfold tickInstant. by rewrite Nat.iter_succ_r. Qed.

Lemma tickInstant_lt t k m : (k < m)%nat -> instant t k < instant t m.
Proof.
  induction 1 as [|m _ IH].
  - apply addInterval_gt.
  - etrans; [done|]. apply addInterval_gt.
Qed.

Lemma tickLoop_length_le n t : (length (tickLoop n t) <= n)%nat.
Proof.
  revert t. induction n as [|n IH]; intros t; simpl; [done|].
  case_decide; simpl; [|lia]. specialize (IH (addInterval t interval)). lia.
Qed.

(** The [k]-th tick is the [k]-th instant, on the scale, and it is not
    after the end of the window. *)
Theorem tickLoop_lookup n t k tick :
  tickLoop n t !! k = Some tick ->
  tick = tickAt (instant t k) /\ instant t k <= xMax /\ (k < n)%nat.
Proof.
  revert t k. induction n as [|n IH]; intros t k; simpl; [done|].
  case_decide; [|done]. destruct k as [|k]; simpl.
  - intros [= <-]. split_and!; [done..|lia].
  - intros (-> & ? & ?)%IH. rewrite tickInstant_succ. split_and!; [done..|lia].
Qed.

(** A loop that ends before the guard ends because the next instant is
    after the end of the window. *)
Theorem tickLoop_stops n t :
  (length (tickLoop n t) < n)%nat -> xMax < instant t (length (tickLoop n t)).
Proof.
  revert t. induction n as [|n IH]; intros t; simpl; [lia|].
  case_decide as Hle; simpl.
  - intros Hlt. rewrite tickInstant_succ. apply IH. lia.
  - intros _. by apply Qnot_le_lt.
Qed.

(** A loop whose last allowed instant is still inside the window uses
    up the guard. *)
Lemma tickLoop_full n t :
  (forall k, (k < n)%nat -> instant t k <= xMax) -> length (tickLoop n t) = n.
Proof.
  revert t. induction n as [|n IH]; intros t Hall; simpl; [done|].
  rewrite decide_True by (apply (Hall 0%nat); lia). simpl. f_equal.
  apply IH. intros k Hk. rewrite <- tickInstant_succ. apply Hall. lia.
Qed.

Lemma tickLoop_sorted n t :
  StronglySorted (fun a b => tick_ts a < tick_ts b) (tickLoop n t).
Proof.
  revert t. induction n as [|n IH]; intros t; simpl; [constructor|].
  case_decide; constructor; [apply IH|].
  apply Forall_lookup. intros k tick (-> & _ & _)%tickLoop_lookup. simpl.
  rewrite <- tickInstant_succ. apply (tickInstant_lt t 0). lia.
Qed.

(** ** The ticks of the X axis *)

(** C4: At least two ticks, and no more than the guard allows. *)
Theorem xTicks_length : (2 <= length xTicks <= guard)%nat.
Proof.
  unfold xTicks. cbv zeta.
  pose proof (tickLoop_length_le guard (inject_Z (alignToInterval xMin interval))).
  assert (3 <= guard)%nat by (unfold guard; lia).
  case_decide; [|lia]. rewrite length_app. cbn [length]. lia.
Qed.

Lemma xTicks_two : (2 <= length xTicks)%nat.
Proof.
  unfold xTicks. cbv zeta. case_decide; [|lia]. rewrite length_app. cbn [length]. lia.
Qed.

Lemma xTicks_nonempty : xTicks <> [].
Proof. intros E. pose proof xTicks_two as Hl. rewrite E in Hl. simpl in Hl. lia. Qed.

(** Each tick is drawn where the scale puts its instant. *)
Theorem xTicks_on_scale tick : tick ∈ xTicks -> tick_x tick = xScale (tick_ts tick).
Proof.
  assert (forall tk, tk ∈ tickLoop guard (inject_Z (alignToInterval xMin interval)) ->
                     tick_x tk = xScale (tick_ts tk)) as Hloop.
  { by intros tk [k (-> & _)%tickLoop_lookup]%list_elem_of_lookup. }
  unfold xTicks. cbv zeta. case_decide; [|by auto].
  intros [?|Hf]%elem_of_app; [by auto|].
  by repeat (apply elem_of_cons in Hf as [->|Hf]); [..|apply elem_of_nil in Hf].
Qed.

(** When the window is not empty, no tick is after its end. *)
Theorem xTicks_le_xMax tick : xMin <= xMax -> tick ∈ xTicks -> tick_ts tick <= xMax.
Proof.
  intros Hw.
  assert (forall tk, tk ∈ tickLoop guard (inject_Z (alignToInterval xMin interval)) ->
                     tick_ts tk <= xMax) as Hloop.
  { by intros tk [k (-> & ? & _)%tickLoop_lookup]%list_elem_of_lookup. }
  unfold xTicks. cbv zeta. case_decide; [|by auto].
  intros [?|Hf]%elem_of_app; [by auto|].
  repeat (apply elem_of_cons in Hf as [->|Hf]); simpl; [done|lra|].
  by apply elem_of_nil in Hf.
Qed.

(** When the window is not empty, every tick is an instant of the
    window or of the 31 days before it: alignment moves the start back
    by less than a month, and the loop only moves forward. *)
Theorem xTicks_window tick :
  xMin <= xMax -> tick ∈ xTicks ->
  xMin - 31 * 86400000 - 1 < tick_ts tick <= xMax.
Proof.
  intros Hw Hin. split; [|by apply xTicks_le_xMax].
  pose proof (alignToInterval_near xMin interval) as [_ Hs].
  pose proof (Qtrunc_bound xMin) as [_ Ht].
  rewrite Zlt_Qlt, inject_Z_plus in Hs.
  change (inject_Z (31 * 86400000)) with (31 * 86400000) in Hs.
  assert (forall tk, tk ∈ tickLoop guard (inject_Z (alignToInterval xMin interval)) ->
                     xMin - 31 * 86400000 - 1 < tick_ts tk) as Hloop.
  { intros tk [k (-> & _)%tickLoop_lookup]%list_elem_of_lookup. simpl.
    destruct k as [|k]; [change (instant ?t 0) with t; lra|].
    pose proof (tickInstant_lt (inject_Z (alignToInterval xMin interval)) 0 (S k)) as Hk.
    change (instant ?t 0) with t in Hk. specialize (Hk ltac:(lia)). lra. }
  revert Hin. unfold Scale.xTicks. cbv zeta. case_decide; [|by auto].
  intros [?|Hf]%elem_of_app; [by auto|].
  repeat (apply elem_of_cons in Hf as [->|Hf]); simpl; [lra|lra|].
  by apply elem_of_nil in Hf.
Qed.

(** C34: The guard cuts the ticks short: when the instant of iteration
    [guard] is still inside the window, there are [guard] ticks, all
    before that instant, and the instant itself has no tick. *)
Theorem xTicks_truncated :
  let t0 := inject_Z (alignToInterval xMin interval) in
  instant t0 guard <= xMax ->
  length xTicks = guard /\
  Forall (fun tick => tick_ts tick < instant t0 guard) xTicks.
Proof.
  cbv zeta. set (t0 := inject_Z _). intros Hin.
  assert (length (tickLoop guard t0) = guard) as Hlen.
  { apply tickLoop_full. intros k Hk.
    pose proof (tickInstant_lt t0 k guard Hk). lra. }
  unfold xTicks. cbv zeta. fold t0. rewrite Hlen.
  rewrite decide_False by (unfold guard; lia). split; [done|].
  apply Forall_lookup. intros k tick (-> & _ & Hk)%tickLoop_lookup.
  by apply tickInstant_lt.
Qed.

(** C33: Without the guard in the way, the ticks of the loop are all the
    instants up to the end of the window. *)
Theorem xTicks_complete k :
  let t0 := inject_Z (alignToInterval xMin interval) in
  (length (tickLoop guard t0) < guard)%nat ->
  instant t0 k <= xMax -> tickAt (instant t0 k) ∈ xTicks.
Proof.
  cbv zeta. set (t0 := inject_Z _). intros Hlen%tickLoop_stops Hk.
  assert (k < length (tickLoop guard t0))%nat as Hlt.
  { apply Nat.nle_gt. intros [E|Hlt]%Nat.lt_eq_cases%or_comm; [subst; lra|].
    pose proof (tickInstant_lt t0 _ k Hlt). lra. }
  apply lookup_lt_is_Some in Hlt as [tick Htick].
  pose proof Htick as (-> & _)%tickLoop_lookup.
  unfold xTicks. cbv zeta. fold t0.
  case_decide; [apply elem_of_app; left|]; by eapply list_elem_of_lookup_2.
Qed.

(** From a boundary the loop visits boundaries. *)
Lemma tickInstant_aligned t k : aligned interval t -> aligned interval (instant t k).
Proof.
  intros Ht. induction k as [|k IH]; [done|].
  unfold tickInstant. rewrite Nat.iter_succ. by apply addInterval_aligned.
Qed.

(** C16: Every tick of the loop is on a boundary of the interval; the two
    ticks added when the loop gives fewer than two are at the ends of
    the window, wherever those are. *)
Theorem xTicks_aligned :
  (2 <= length (tickLoop guard (inject_Z (alignToInterval xMin interval))))%nat ->
  Forall (fun tick => aligned interval (tick_ts tick)) xTicks.
Proof.
  intros Hl. unfold Scale.xTicks. cbv zeta. rewrite decide_False by lia.
  apply Forall_lookup. intros k tick (-> & _)%tickLoop_lookup. simpl.
  apply tickInstant_aligned, alignToInterval_aligned.
Qed.

End XTicks.

(** ** The labels of the X axis *)

Section XLabels.
Variable interval : string.

#[local] Abbreviation labelOf := (labelOf interval).
#[local] Abbreviation labelStep := (labelStep interval).
#[local] Abbreviation labelTicks := (labelTicks interval).
#[local] Abbreviation labelEnds := (labelEnds interval).
#[local] Abbreviation pick := (pick interval).

(** The [forEach] computes [pick]. *)
Lemma foldl_labelStep acc ticks :
  (foldl labelStep acc ticks).1 = acc.1 ++ pick acc.2 ticks.
Proof.
  revert acc. induction ticks as [|tick rest IH]; intros [labels lx]; simpl.
  - by rewrite app_nil_r.
  - rewrite IH. unfold Scale.labelStep, farFrom. simpl.
    destruct lx as [x|]; [case_bool_decide|]; simpl; by rewrite <- ?app_assoc.
Qed.

Lemma labelTicks_eq_pick ticks : labelTicks ticks = pick None ticks.
Proof. unfold labelTicks. by rewrite foldl_labelStep. Qed.

(** C31: The [forEach] of the labels, with its accumulated list and
    [lastLabeledX], is the recursive selection [pick]. *)
Theorem labelTicks_pick ticks : labelTicks ticks = pick None ticks.
Proof. apply labelTicks_eq_pick. Qed.

Lemma pick_gapped lx ticks : gapped lx (pick lx ticks).
Proof.
  revert lx. induction ticks as [|tick rest IH]; intros lx; simpl; [done|].
  unfold farFrom. destruct lx as [x|]; [case_bool_decide|]; simpl; auto.
Qed.

Lemma pick_sublist lx ticks : pick lx ticks `sublist_of` labelOf <$> ticks.
Proof.
  revert lx. induction ticks as [|tick rest IH]; intros lx; simpl; [done|].
  destruct (farFrom lx tick); [by apply sublist_skip|by apply sublist_cons].
Qed.

Lemma gapped_lookup lx labels i a b :
  gapped lx labels -> labels !! i = Some a -> labels !! S i = Some b ->
  MIN_GAP <= label_x b - label_x a.
Proof.
  revert lx i. induction labels as [|l rest IH]; intros lx i; [done|].
  intros [_ Hg]. destruct i as [|i]; simpl; [|by eauto].
  intros [= ->]. destruct rest as [|l' rest']; [done|]. intros [= ->]. apply Hg.
Qed.

(** Two labels kept one after the other are at least the minimum gap
    apart. *)
Theorem labelTicks_gap ticks i a b :
  labelTicks ticks !! i = Some a -> labelTicks ticks !! S i = Some b ->
  MIN_GAP <= label_x b - label_x a.
Proof. rewrite labelTicks_eq_pick. eapply gapped_lookup, pick_gapped. Qed.

(** Every label kept is the label of a tick, in the order of the
    ticks. *)
Theorem labelTicks_sublist ticks : labelTicks ticks `sublist_of` labelOf <$> ticks.
Proof. rewrite labelTicks_eq_pick. apply pick_sublist. Qed.

(** The first tick always gets a label. *)
Theorem labelTicks_head ticks : head (labelTicks ticks) = labelOf <$> head ticks.
Proof. rewrite labelTicks_eq_pick. by destruct ticks. Qed.

Lemma half_gap : MIN_GAP / 2 == 40.
Proof. done. Qed.

Lemma labelEnds_cases t0 rest :
  let ticks := t0 :: rest in
  exists lastLabel tn,
    last (labelTicks ticks) = Some lastLabel /\ last ticks = Some tn /\
    labelEnds (labelTicks ticks) ticks
    = labelTicks ticks ++
      (if bool_decide (MIN_GAP / 2 < Qabs (label_x lastLabel - tick_x tn))
       then [labelOf tn] else []).
Proof.
  cbv zeta. pose proof (labelTicks_head (t0 :: rest)) as Hh.
  unfold Scale.labelEnds. set (sp := labelTicks _) in *. clearbody sp.
  rewrite last_cons_default. destruct (last sp) as [lastLabel|] eqn:El.
  2: { apply last_None in El. by rewrite El in Hh. }
  exists lastLabel, (default t0 (last rest)). split_and!; [done..|].
  rewrite Hh. unfold Scale.labelOf. cbn [head fmap option_fmap option_map label_x].
  rewrite bool_decide_false; [done|]. rewrite half_gap. qlra.
Qed.

(** C38: So the test [wantsFirst] never holds: of the two ends only the
    label of the last tick is ever added, when the last label kept is
    more than half the gap from it. *)
Theorem labelEnds_labelTicks t0 rest :
  let ticks := t0 :: rest in
  exists lastLabel tn,
    last (labelTicks ticks) = Some lastLabel /\ last ticks = Some tn /\
    labelEnds (labelTicks ticks) ticks
    = labelTicks ticks ++
      (if bool_decide (MIN_GAP / 2 < Qabs (label_x lastLabel - tick_x tn))
       then [labelOf tn] else []).
Proof. apply labelEnds_cases. Qed.

(** The last tick is labelled, or is within half the gap of a label. *)
Theorem labelEnds_last t0 rest :
  let ticks := t0 :: rest in
  exists l tn, last ticks = Some tn /\
    last (labelEnds (labelTicks ticks) ticks) = Some l /\
    Qabs (label_x l - tick_x tn) <= MIN_GAP / 2.
Proof.
  cbv zeta. destruct (labelEnds_cases t0 rest) as (lastLabel & tn & El & Hn & ->).
  case_bool_decide as Hfar.
  - exists (labelOf tn), tn. rewrite last_snoc. split_and!; [done..|].
    unfold Scale.labelOf. cbn [label_x]. rewrite half_gap. qlra.
  - exists lastLabel, tn. rewrite app_nil_r. split_and!; [done..|lra].
Qed.

End XLabels.

Section ChartLabels.
Variables (p0 : PricePoint) (ps : Series).
Variables (width padLeft : Q) (interval : string).
Variables (domain : Domain) (rightMargin : Q).

#[local] Abbreviation xTicks :=
  (xTicks p0 ps width padLeft interval domain rightMargin).
#[local] Abbreviation xLabels :=
  (xLabels p0 ps width padLeft interval domain rightMargin).
#[local] Abbreviation labelOf := (labelOf interval).
#[local] Abbreviation labelTicks := (labelTicks interval).

(** The labels of the chart: the ones the gap keeps, the first of them
    on the first tick, and at most one more, on the last tick. *)
Theorem xLabels_spec :
  exists lastLabel tn,
    last (labelTicks xTicks) = Some lastLabel /\ last xTicks = Some tn /\
    xLabels = labelTicks xTicks ++
      (if bool_decide (MIN_GAP / 2 < Qabs (label_x lastLabel - tick_x tn))
       then [labelOf tn] else []).
Proof.
  pose proof (xTicks_nonempty p0 ps width padLeft interval domain rightMargin) as Hl.
  unfold xLabels. set (tk := xTicks) in *. clearbody tk.
  destruct tk as [|t0 rest]; [done|].
  apply labelEnds_cases.
Qed.

Theorem xLabels_nonempty : (1 <= length xLabels)%nat.
Proof.
  destruct xLabels_spec as (l & tn & [sp ->]%last_Some & _ & ->).
  rewrite !length_app. cbn [length]. lia.
Qed.

End ChartLabels.

(** ** The ticks of the Y axis *)

Section YTicks.
Context `{ExpLog}.
Variables (p0 : PricePoint) (ps : Series).
Variables (height padLeft : Q).
Variables (domain : Domain) (yMode : YMode).

#[local] Abbreviation anchor := (anchor p0 ps domain).
#[local] Abbreviation invf := (invf p0 ps domain yMode).
#[local] Abbreviation tMin := (tMin p0 ps domain yMode).
#[local] Abbreviation tMax := (tMax p0 ps domain yMode).
#[local] Abbreviation yScale := (yScale p0 ps height padLeft domain yMode).
#[local] Abbreviation yTickAt := (yTickAt p0 ps height padLeft domain yMode).
#[local] Abbreviation yTicks := (yTicks p0 ps height padLeft domain yMode).

#[local] Abbreviation yLevel := (yLevel tMin tMax).

Lemma yTickAt_level j :
  yLevel j == tMin + ((tMax - tMin) / (inject_Z (Z.of_nat tickCount) - 1))
                     * inject_Z (Z.of_nat j).
Proof. unfold Ticks.yLevel. by change (inject_Z (Z.of_nat tickCount) - 1) with (6 - 1). Qed.

(** Six ticks, the [j]-th one computed for index [j]. *)
Theorem yTicks_lookup j :
  yTicks !! j = if decide (j < 6)%nat then Some (yTickAt j) else None.
Proof.
  unfold yTicks. rewrite list_lookup_fmap. case_decide as Hj.
  - by rewrite lookup_seq_lt.
  - by rewrite lookup_seq_ge by (unfold tickCount; lia).
Qed.

Lemma yTicks_length : length yTicks = 6%nat.
Proof. unfold yTicks. by rewrite length_fmap, length_seq. Qed.

(** A tick is drawn where the scale draws the raw value of its
    level. *)
Theorem yTickAt_on_scale j : ytick_y (yTickAt j) == yScale (invf (yLevel j)).
Proof.
  rewrite yScale_invf. unfold yTickAt. cbn [ytick_y]. by rewrite <- yTickAt_level.
Qed.

(** The ticks divide the plot height in five equal parts, from the
    bottom up, when the padded range is at least [1e-9] wide. *)
Theorem yTickAt_even j :
  eps <= tMax - tMin ->
  ytick_y (yTickAt j)
  == height - padLeft - inject_Z (Z.of_nat j) / 5 * (height - 2 * padLeft).
Proof.
  intros Hw. unfold yTickAt. cbn [ytick_y]. rewrite <- yTickAt_level.
  assert (Qmax eps (tMax - tMin) == tMax - tMin) as -> by qlra.
  unfold Ticks.yLevel, eps in *. field. lra.
Qed.

(** C39: The label of a tick: in percent mode its level, with one decimal;
    otherwise the raw value of its level, with two. *)
Theorem yTickAt_label j :
  ytick_label (yTickAt j) =
  if decide (yMode = Percent) then (toFixed (yLevel j) 1 ++ "%")%string
  else toFixed (invf (yLevel j)) 2.
Proof.
  unfold yTickAt. cbn [ytick_label]. case_decide as HM.
  - f_equal. apply toFixed_proper. rewrite <- yTickAt_level.
    rewrite <- (tf_percent p0 ps domain yMode _ HM). apply tf_invf.
  - apply toFixed_proper. by rewrite <- yTickAt_level.
Qed.

(** Each of the six ticks is between the bottom and the top of the
    plot, the ends included. *)
Lemma yTickAt_in_plot j :
  (j <= 5)%nat -> 2 * padLeft <= height ->
  padLeft <= ytick_y (yTickAt j) <= height - padLeft.
Proof.
  intros Hj Hh. unfold yTickAt. cbn [ytick_y].
  set (s := tMax - tMin) in *. set (q := inject_Z (Z.of_nat j)).
  assert (0 < s) as Hs by (pose proof (tMin_lt_tMax p0 ps domain yMode); unfold s; lra).
  clearbody s.
  assert (0 <= q <= 5) as Hq.
  { unfold q. rewrite <- (Zle_Qle 0), <- (Zle_Qle _ 5). lia. }
  assert (tMin + s / (inject_Z (Z.of_nat tickCount) - 1) * q - tMin == s * q * (1 # 5))
    as -> by (change (inject_Z (Z.of_nat tickCount)) with 6; field).
  assert (0 < Qmax eps s) as Hd by (unfold eps; qlra).
  assert (0 <= s * q * (1 # 5)) as H0 by nra.
  assert (s * q * (1 # 5) <= Qmax eps s) as H1 by (assert (s * q <= 5 * s) by nra; qlra).
  pose proof (Qdiv_nonneg _ _ Hd H0). pose proof (Qdiv_le_1 _ _ Hd H1).
  set (f := _ / Qmax eps s) in *. clearbody f. split; nra.
Qed.

End YTicks.

(** ** Termination of the tick loop *)

Section Termination.
Variables (p0 : PricePoint) (ps : Series).
Variables (width padLeft : Q) (interval : string).
Variables (domain : Domain) (rightMargin : Q).

#[local] Abbreviation xMax := (xMax p0 ps domain).
#[local] Abbreviation tickLoop :=
  (tickLoop p0 ps width padLeft interval domain rightMargin).
#[local] Abbreviation instant := (tickInstant interval).

(** The [k]-th instant is at least [k] minutes after the first. *)
Lemma tickInstant_ge t k : t + inject_Z (Z.of_nat k) * 60000 <= instant t k.
Proof.
  induction k as [|k IH].
  - change (instant t 0) with t. change (inject_Z (Z.of_nat 0)) with 0. lra.
  - pose proof (addInterval_ge (instant t k) interval) as Hs.
    change (addInterval (instant t k) interval) with (instant t (S k)) in Hs.
    rewrite Nat2Z.inj_succ, <- Z.add_1_r, inject_Z_plus.
    change (inject_Z 1) with 1. lra.
Qed.

(** C32: The loop ends by itself: the condition [t <= xMax] fails after a
    number of iterations that the width of the window bounds, whatever
    the guard. *)
Theorem tickLoop_terminates t (k : nat) n :
  xMax - t < inject_Z (Z.of_nat k) * 60000 -> (length (tickLoop n t) <= k)%nat.
Proof.
  intros Hk. apply Nat.nlt_ge. intros Hlt.
  apply lookup_lt_is_Some in Hlt as [tick (_ & Hin & _)%tickLoop_lookup].
  pose proof (tickInstant_ge t k). lra.
Qed.

End Termination.

(** ** Instances *)

#[local] Open Scope chart_scope.

Lemma tickLoop_terminates_witness :
  (length (tickLoop (0 ↦ 100) [180000 ↦ 110] 1200 40 "1" (mkDomain 0 180000) 90
             guard 0) <= 4)%nat.
Proof.
  apply (tickLoop_terminates (0 ↦ 100) [180000 ↦ 110] 1200 40 "1"
           (mkDomain 0 180000) 90 0 4 guard).
  by vm_compute.
Defined.

Lemma xTicks_complete_witness :
  mkTick (xScale (0 ↦ 100) [259200000 ↦ 110] 1200 40 (mkDomain 0 259200000) 90
            (tickInstant "D" (inject_Z (alignToInterval
               (xMin (0 ↦ 100) (mkDomain 0 259200000)) "D")) 2))
         (tickInstant "D" (inject_Z (alignToInterval
               (xMin (0 ↦ 100) (mkDomain 0 259200000)) "D")) 2)
  ∈ xTicks (0 ↦ 100) [259200000 ↦ 110] 1200 40 "D" (mkDomain 0 259200000) 90.
Proof.
  apply (xTicks_complete (0 ↦ 100) [259200000 ↦ 110] 1200 40 "D"
           (mkDomain 0 259200000) 90 2).
  - apply Nat.ltb_lt. by vm_compute.
  - by vm_compute.
Defined.

Lemma xTicks_truncated_witness :
  length (xTicks (0 ↦ 100) [432000000 ↦ 110] 1200 40 "1" (mkDomain 0 432000000) 90)
  = guard /\
  Forall (fun tick => tick_ts tick
            < tickInstant "1" (inject_Z (alignToInterval
                (xMin (0 ↦ 100) (mkDomain 0 432000000)) "1")) guard)
    (xTicks (0 ↦ 100) [432000000 ↦ 110] 1200 40 "1" (mkDomain 0 432000000) 90).
Proof.
  apply (xTicks_truncated (0 ↦ 100) [432000000 ↦ 110] 1200 40 "1"
           (mkDomain 0 432000000) 90).
  by vm_compute.
Defined.

Lemma labelTicks_gap_witness :
  MIN_GAP <= label_x (labelOf "D" (mkTick 100 2)) - label_x (labelOf "D" (mkTick 0 0)).
Proof.
  apply (labelTicks_gap "D" [mkTick 0 0; mkTick 50 1; mkTick 100 2; mkTick 200 3] 0
           (labelOf "D" (mkTick 0 0)) (labelOf "D" (mkTick 100 2)));
    by vm_compute.
Defined.

Lemma yTickAt_even_witness :
  ytick_y (yTickAt (0 ↦ 100) [1 ↦ 110] 640 40 (mkDomain 0 1) Linear 5)
  == 640 - 40 - inject_Z (Z.of_nat 5) / 5 * (640 - 2 * 40).
Proof.
  apply (yTickAt_even (0 ↦ 100) [1 ↦ 110] 640 40 (mkDomain 0 1) Linear 5).
  by vm_compute.
Defined.

Lemma xTicks_aligned_witness :
  Forall (fun tick => aligned "D" (tick_ts tick))
    (xTicks (0 ↦ 100) [259200000 ↦ 110] 1200 40 "D" (mkDomain 0 259200000) 90).
Proof.
  apply (xTicks_aligned (0 ↦ 100) [259200000 ↦ 110] 1200 40 "D"
           (mkDomain 0 259200000) 90).
  apply Nat.leb_le. by vm_compute.
Defined.
