(* ===== verification/Viewport.v ===== *)
(** * Viewport: zoom, pan and crosshair

    The gesture handlers of the component [LiveSP500Canvas]
    ([src/src/LiveSP500Canvas.jsx], lines 625-719) over the part of its
    state they write: the domain override, the panning flag, the start
    of the drag and the crosshair.

    A handler is a function from the state at the time of the event,
    and the event, to the next state; what it reads from the render it
    closes over (the synthetic series, the interval and the Y mode, and
    from them the active domain, the full extent and the two scales) is
    the context of the section [Handlers].  The arithmetic of a zoom
    and of a pan are functions of their own, [zoomDomain] and
    [panDomain], which the handlers call.

    [best], the distance of the nearest point found so far, starts at
    infinity: it is an [option], with [None] for infinity. *)

From Stdlib Require Import QArith Qminmax Qround Qabs Lqa Lia ZArith.
From stdpp Require Import base decidable list option strings numbers sorting relations.
From S2P Require Import Prelude JsText JsDate Series Interval Scale.

#[local] Open Scope Q_scope.

(** ** Data *)

(** [panStart.current] *)
Record PanStart := mkPanStart { pan_x : Q; pan_x0 : Q; pan_x1 : Q }.

(** [cross] *)
Record Cross := mkCross { cross_x : Q; cross_y : Q; cross_ts : Q; cross_price : Q }.

Record ViewState := mkView {
  domain : option Domain;
  isPanning : bool;
  panStart : option PanStart;
  cross : option Cross
}.

(** What a handler reads of a pointer or wheel event:
    [e.clientX], [e.currentTarget.getBoundingClientRect().left] and
    [e.deltaY]. *)
Record PointerEvent := mkEvent { clientX : Q; rectLeft : Q; deltaY : Q }.

Definition width : Q := 1200.
Definition height : Q := 640.
Definition rightMargin : Q := 90.

(** The state of lines 436-439. *)
Definition initialView : ViewState := mkView None false None None.

(** A domain inside the full extent, its ends in order. *)
Definition inExtent (full d : Domain) : Prop :=
  x0 full <= x0 d /\ x0 d <= x1 d /\ x1 d <= x1 full.

(** A domain at least the [n]-th part of the full extent wide. *)
Definition minSpanOf (n : Q) (full d : Domain) : Prop :=
  (x1 full - x0 full) / n <= x1 d - x0 d.

(** The cursor over the plot area, between the left pad and the right
    margin. *)
Definition overPlot (px : Q) : Prop := 40 <= px <= width - rightMargin.

(** ** Zoom *)

(** The instant under the pixel [px] (lines 630-633 and 658-661). *)
Definition cursorTime (activeDomain : Domain) (px : Q) : Q :=
  x0 activeDomain
  + ((px - 40) / Qmax 1 (width - 40 - rightMargin))
    * (x1 activeDomain - x0 activeDomain).

Definition zoomIntensity : Q := 2 # 10.

(** Lines 630-642 of [onWheel]: the domain after the wheel turned by
    [deltaY] with the cursor at [px]. *)
Definition zoomDomain `{ExpLog} (activeDomain fullDomain : Domain) (px deltaY : Q)
  : Domain :=
  let tAtCursor := cursorTime activeDomain px in
  let direction := if decide (0 < deltaY) then 1 else -1 in
  let scale := Exp (direction * zoomIntensity) in
  let newX0 := tAtCursor - (tAtCursor - x0 activeDomain) * scale in
  let newX1 := tAtCursor + (x1 activeDomain - tAtCursor) * scale in
  let minSpan := (x1 fullDomain - x0 fullDomain) / 500 in
  mkDomain (Qmax (x0 fullDomain) (Qmin newX0 (newX1 - minSpan)))
           (Qmin (x1 fullDomain) (Qmax newX1 (newX0 + minSpan))).

(** ** Pan *)

(** Lines 687-703 of [onPointerMove]: the domain of a drag that started
    at [start] when the pointer is at [clientX]. *)
Definition panDomain (start : PanStart) (fullDomain : Domain) (clientX : Q)
  : Domain :=
  let dxPx := clientX - pan_x start in
  let span := pan_x1 start - pan_x0 start in
  let dt := (- dxPx / Qmax 1 (width - 40 - rightMargin)) * span in
  let x0 := pan_x0 start + dt in
  let x1 := pan_x1 start + dt in
  let spanMin := (Series.x1 fullDomain - Series.x0 fullDomain) / 1000 in
  let x1 := if decide (x1 - x0 < spanMin) then x0 + spanMin else x1 in
  let '(x0, x1) :=
    if decide (x0 < Series.x0 fullDomain)
    then (Series.x0 fullDomain, x1 + (Series.x0 fullDomain - x0))
    else (x0, x1) in
  let '(x0, x1) :=
    if decide (Series.x1 fullDomain < x1)
    then (x0 - (x1 - Series.x1 fullDomain), Series.x1 fullDomain)
    else (x0, x1) in
  mkDomain x0 x1.

(** ** Crosshair *)

(** One iteration of the scan of lines 667-675; the state is [best]
    and [nearest]. *)
Definition scanStep (activeDomain : Domain) (ts : Q)
    (acc : option Q * PricePoint) (p : PricePoint) : option Q * PricePoint :=
  if decide (time p < x0 activeDomain \/ x1 activeDomain < time p) then acc
  else
    let d := Qabs (time p - ts) in
    let closer :=
      match acc.1 with
      | None => true
      | Some best => bool_decide (d < best)
      end in
    if closer then (Some d, p) else acc.

(** Lines 665-675: the point the crosshair snaps to, [None] without
    data. *)
Definition nearestPoint (synth : Series) (activeDomain : Domain) (ts : Q)
  : option PricePoint :=
  match synth with
  | [] => None
  | p0 :: _ => Some (foldl (scanStep activeDomain ts) (None, p0) synth).2
  end.

(** What the scan has established after the points [seen]: nothing
    in the domain so far, or the nearest of the points of [seen] that
    are in the domain, and its distance. *)
Definition scanned (activeDomain : Domain) (ts : Q) (seen : Series)
    (acc : option Q * PricePoint) : Prop :=
  let inDomain p := x0 activeDomain <= time p <= x1 activeDomain in
  match acc.1 with
  | None => Forall (fun q => ~ inDomain q) seen
  | Some best =>
      inDomain acc.2 /\ acc.2 ∈ seen /\ best == Qabs (time acc.2 - ts) /\
      Forall (fun q => inDomain q -> best <= Qabs (time q - ts)) seen
  end.

(** ** The handlers *)

Section Handlers.
Context `{ExpLog}.
Variables (synth : Series) (interval : string) (yMode : YMode).

(** The chart of the render the handlers close over (lines 593-604). *)
Definition chartOf (st : ViewState) : ChartGeometry :=
  useChartPath synth width height 40 interval
    (activeDomain (domain st) synth) yMode rightMargin.

Definition onWheel (st : ViewState) (e : PointerEvent) : ViewState :=
  if decide (length synth = 0%nat) then st
  else
    let px := clientX e - rectLeft e in
    let d := zoomDomain (activeDomain (domain st) synth) (fullDomain synth)
               px (deltaY e) in
    mkView (Some d) (isPanning st) (panStart st) (cross st).

Definition onPointerDown (st : ViewState) (e : PointerEvent) : ViewState :=
  let activeDomain := activeDomain (domain st) synth in
  mkView (domain st) true
    (Some (mkPanStart (clientX e) (x0 activeDomain) (x1 activeDomain)))
    (cross st).

Definition onPointerMove (st : ViewState) (e : PointerEvent) : ViewState :=
  let activeDomain := activeDomain (domain st) synth in
  let px := clamp (clientX e - rectLeft e) 0 width in
  let ts := cursorTime activeDomain px in
  let cross' :=
    match nearestPoint synth activeDomain ts with
    | Some nearest =>
        Some (mkCross (chart_xScale (chartOf st) (time nearest))
                      (chart_yScale (chartOf st) (value nearest))
                      (time nearest) (value nearest))
    | None => cross st
    end in
  let domain' :=
    match isPanning st, panStart st with
    | true, Some start => Some (panDomain start (fullDomain synth) (clientX e))
    | _, _ => domain st
    end in
  mkView domain' (isPanning st) (panStart st) cross'.

Definition onPointerUp (st : ViewState) : ViewState :=
  mkView (domain st) false None (cross st).

Definition onLeave (st : ViewState) : ViewState :=
  mkView (domain st) (isPanning st) (panStart st) None.

Definition fitToScreen (st : ViewState) : ViewState :=
  mkView None (isPanning st) (panStart st) (cross st).

End Handlers.

(** ** The gestures as a transition system *)

(** A domain the viewport may show: inside the full extent and at
    least 1/500 of it wide. *)
Definition fits (full d : Domain) : Prop :=
  inExtent full d /\ minSpanOf 500 full d.

(** The invariant of the viewport: the override and the start of the
    drag fit the full extent, and the flag says whether a drag is under
    way. *)
Definition viewInv (full : Domain) (st : ViewState) : Prop :=
  (forall d, domain st = Some d -> fits full d) /\
  (forall s, panStart st = Some s -> fits full (mkDomain (pan_x0 s) (pan_x1 s))) /\
  isPanning st = bool_decide (is_Some (panStart st)).

Section Gestures.
Context `{ExpLog}.
Variables (synth : Series) (interval : string) (yMode : YMode).

(** One gesture on the chart; the wheel with the cursor over the plot
    area. *)
Inductive gesture : ViewState -> ViewState -> Prop :=
| gesture_wheel st e :
    overPlot (clientX e - rectLeft e) -> gesture st (onWheel synth st e)
| gesture_down st e : gesture st (onPointerDown synth st e)
| gesture_move st e : gesture st (onPointerMove synth interval yMode st e)
| gesture_up st : gesture st (onPointerUp st)
| gesture_leave st : gesture st (onLeave st)
| gesture_fit st : gesture st (fitToScreen st).

End Gestures.

(** * Theorems *)

(** ** Zoom *)

Lemma plotWidth_eq : Qmax 1 (width - 40 - rightMargin) == 1070.
Proof. done. Qed.

Section Zoom.
Context `{ExpLog}.
Variables (A F : Domain) (px deltaY : Q).

#[local] Abbreviation t := (cursorTime A px).
#[local] Abbreviation scale :=
  (Exp ((if decide (0 < deltaY) then 1 else -1) * zoomIntensity)).

(** The cursor over the plot area is at an instant of the domain. *)
Lemma cursorTime_in : x0 A <= x1 A -> overPlot px -> x0 A <= t <= x1 A.
Proof.
  unfold overPlot, width, rightMargin. intros HA Hpx.
  unfold cursorTime. rewrite plotWidth_eq.
  assert (0 <= (px - 40) / 1070 <= 1) as Hf.
  { split; [apply Qdiv_nonneg|apply Qdiv_le_1]; lra. }
  set (f := _ / _) in *. clearbody f. nra.
Qed.

(** The scale: above one when the wheel turns down, below one when it
    turns up, never zero. *)
Lemma scale_cases : 0 < deltaY /\ 1 < scale \/ deltaY <= 0 /\ 0 < scale < 1.
Proof.
  case_decide as Hd; [left|right]; (split; [lra|]).
  - apply Exp_gt_1. unfold zoomIntensity. lra.
  - split; [apply Exp_pos|apply Exp_lt_1; unfold zoomIntensity; lra].
Qed.

(** The zoomed domain in terms of the two distances from the cursor,
    scaled. *)
Lemma zoomDomain_eq :
  let u := (t - x0 A) * scale in
  let v := (x1 A - t) * scale in
  let m := (x1 F - x0 F) / 500 in
  zoomDomain A F px deltaY
  = mkDomain (Qmax (x0 F) (Qmin (t - u) (t + v - m)))
             (Qmin (x1 F) (Qmax (t + v) (t - u + m))).
Proof. done. Qed.

(** The scaled distances, as the linear solver needs them. *)
Lemma scaled_cases (d : Q) :
  0 <= d ->
  0 < deltaY /\ d <= d * scale \/ deltaY <= 0 /\ 0 <= d * scale <= d.
Proof. intros Hd. destruct scale_cases as [[? ?]|[? ?]]; [left|right]; nra. Qed.

(** Whatever the cursor, the zoomed domain does not leave the full
    extent. *)
Theorem zoomDomain_bounds :
  x0 F <= x0 (zoomDomain A F px deltaY) /\ x1 (zoomDomain A F px deltaY) <= x1 F.
Proof. rewrite zoomDomain_eq. simpl. split; qlra. Qed.

(** With the cursor over the plot area, a domain inside the full
    extent stays inside it, its ends in order. *)
Theorem zoomDomain_inExtent :
  inExtent F A -> overPlot px -> inExtent F (zoomDomain A F px deltaY).
Proof.
  intros (H0 & HA & H1) [Ht0 Ht1]%(cursorTime_in HA).
  pose proof (scaled_cases (t - x0 A) ltac:(lra)) as Hu.
  pose proof (scaled_cases (x1 A - t) ltac:(lra)) as Hv.
  assert (0 <= (x1 F - x0 F) / 500) as Hm by (apply Qdiv_nonneg; lra).
  rewrite zoomDomain_eq. cbv zeta. unfold inExtent. simpl.
  set (u := _ * scale) in *. set (v := _ * scale) in *.
  set (m := _ / 500) in *. clearbody u v m. split_and!; qlra.
Qed.

(** And a domain at least 1/500 of the full extent wide stays that
    wide. *)
Theorem zoomDomain_minSpan :
  inExtent F A -> minSpanOf 500 F A -> overPlot px ->
  minSpanOf 500 F (zoomDomain A F px deltaY).
Proof.
  intros (H0 & HA & H1) Hs [Ht0 Ht1]%(cursorTime_in HA). unfold minSpanOf in *.
  pose proof (scaled_cases (t - x0 A) ltac:(lra)) as Hu.
  pose proof (scaled_cases (x1 A - t) ltac:(lra)) as Hv.
  assert ((x1 F - x0 F) / 500 * 500 == x1 F - x0 F) as Hm by (field; lra).
  rewrite zoomDomain_eq. cbv zeta. simpl.
  set (u := _ * scale) in *. set (v := _ * scale) in *.
  set (m := _ / 500) in *. clearbody u v m. qlra.
Qed.

(** Turning the wheel down zooms out: the window it leaves is inside
    the window it gives. *)
Theorem zoomDomain_out :
  inExtent F A -> overPlot px -> 0 < deltaY ->
  x0 (zoomDomain A F px deltaY) <= x0 A /\ x1 A <= x1 (zoomDomain A F px deltaY).
Proof.
  intros (H0 & HA & H1) [Ht0 Ht1]%(cursorTime_in HA) Hd.
  pose proof (scaled_cases (t - x0 A) ltac:(lra)) as Hu.
  pose proof (scaled_cases (x1 A - t) ltac:(lra)) as Hv.
  rewrite zoomDomain_eq. cbv zeta. simpl.
  set (u := (t - x0 A) * scale) in *. set (v := (x1 A - t) * scale) in *.
  set (m := _ / 500) in *. clearbody u v m. split; qlra.
Qed.

(** Turning it up zooms in: the window it gives is inside the window
    it leaves, unless the scaled window is narrower than the minimum
    span; then the two clamps of the minimum span push both ends
    apart, to a window less than twice the minimum span wide. *)
Theorem zoomDomain_in :
  inExtent F A -> overPlot px -> deltaY <= 0 ->
  let Z := zoomDomain A F px deltaY in
  x0 A <= x0 Z /\ x1 Z <= x1 A \/ x1 Z - x0 Z <= 2 * ((x1 F - x0 F) / 500).
Proof.
  intros (H0 & HA & H1) [Ht0 Ht1]%(cursorTime_in HA) Hd.
  pose proof (scaled_cases (t - x0 A) ltac:(lra)) as Hu.
  pose proof (scaled_cases (x1 A - t) ltac:(lra)) as Hv.
  rewrite zoomDomain_eq. cbv zeta. simpl.
  set (u := (t - x0 A) * scale) in *. set (v := (x1 A - t) * scale) in *.
  set (m := _ / 500) in *. clearbody u v m.
  destruct (Qlt_le_dec (u + v) m); [right|left; split]; qlra.
Qed.

(** The window after a zoom in that the minimum span stops: each end
    is moved a minimum span from the other end of the scaled window,
    so the result is wider than the minimum by what the scaled window
    is narrower. *)
Theorem zoomDomain_min_clamp :
  inExtent F A -> overPlot px -> deltaY <= 0 ->
  let m := (x1 F - x0 F) / 500 in
  let Z := zoomDomain A F px deltaY in
  (x1 A - x0 A) * scale < m -> x0 F + m <= x0 A -> x1 A + m <= x1 F ->
  x1 Z - x0 Z == 2 * m - (x1 A - x0 A) * scale.
Proof.
  intros (H0 & HA & H1) [Ht0 Ht1]%(cursorTime_in HA) Hd. cbv zeta.
  pose proof (scaled_cases (t - x0 A) ltac:(lra)) as Hu.
  pose proof (scaled_cases (x1 A - t) ltac:(lra)) as Hv.
  assert ((x1 A - x0 A) * scale == (t - x0 A) * scale + (x1 A - t) * scale) as -> by ring.
  rewrite zoomDomain_eq. cbv zeta. simpl.
  set (u := (t - x0 A) * scale) in *. set (v := (x1 A - t) * scale) in *.
  set (m := _ / 500) in *. clearbody u v m. intros. qlra.
Qed.

(** C25: At the minimum span the zoom in works backwards: on a window
    exactly a minimum span wide, and at least that far from both ends
    of the full extent, a wheel turned up with the cursor over the plot
    gives a window wider than the one it leaves. *)
Corollary zoomDomain_limit_widens :
  inExtent F A -> overPlot px -> deltaY <= 0 ->
  let m := (x1 F - x0 F) / 500 in
  let Z := zoomDomain A F px deltaY in
  0 < m -> x1 A - x0 A == m -> x0 F + m <= x0 A -> x1 A + m <= x1 F ->
  x1 A - x0 A < x1 Z - x0 Z.
Proof.
  intros HA Hpx Hd. cbv zeta. intros Hm Hw Hl Hr.
  destruct scale_cases as [[? _]|[_ [Hs0 Hs1]]]; [lra|].
  rewrite (zoomDomain_min_clamp HA Hpx Hd) by (rewrite ?Hw; nra || done).
  rewrite Hw. nra.
Qed.

End Zoom.

(** ** Zooming in and out again *)

#[export] Instance cursorTime_proper : Proper ((≡) ==> Qeq ==> Qeq) cursorTime.
Proof. intros A B [E0 E1] px py Ep. unfold cursorTime. by rewrite E0, E1, Ep. Qed.

Lemma zoomDomain_proper `{ExpLog} (A B F : Domain) (px deltaY : Q) :
  A ≡ B -> zoomDomain A F px deltaY ≡ zoomDomain B F px deltaY.
Proof.
  intros E. pose proof E as [E0 E1].
  assert (cursorTime A px == cursorTime B px) as Et by (by rewrite E).
  unfold zoomDomain. cbv zeta. split; simpl; by rewrite Et, E0, E1.
Qed.

(** Scaling around an instant by [s] and then by its inverse. *)
Lemma zoom_arith (a0 a1 f s s' : Q) :
  s * s' == 1 ->
  let t := a0 + f * (a1 - a0) in
  let n0 := t - (t - a0) * s in
  let n1 := t + (a1 - t) * s in
  let t' := n0 + f * (n1 - n0) in
  t' - (t' - n0) * s' == a0 /\ t' + (n1 - t') * s' == a1.
Proof.
  intros Hss. assert (~ s == 0) as Hs by (intros E; rewrite E in Hss; lra).
  assert (s' == / s) as Es by (symmetry; apply Qinv_unique; lra).
  cbv zeta. rewrite Es. split; by field.
Qed.

Section ZoomRoundTrip.
Context `{ExpLog}.
Variables (A F : Domain) (px dIn dOut : Q).

(** While no clamp applies, the zoomed domain is the scaled one. *)
Lemma zoomDomain_unclamped (B : Domain) (dY : Q) :
  let t := cursorTime B px in
  let s := Exp ((if decide (0 < dY) then 1 else -1) * zoomIntensity) in
  x0 F <= t - (t - x0 B) * s -> t + (x1 B - t) * s <= x1 F ->
  (x1 F - x0 F) / 500 <= (x1 B - x0 B) * s ->
  zoomDomain B F px dY ≡ mkDomain (t - (t - x0 B) * s) (t + (x1 B - t) * s).
Proof.
  cbv zeta. intros H0 H1 Hm. rewrite zoomDomain_eq. cbv zeta.
  set (t := cursorTime B px) in *. clearbody t.
  set (s := Exp _) in *. clearbody s. split; simpl; qlra.
Qed.

(** C11: While no clamp applies, the instant under the cursor stays under
    the cursor: the zoom is about the cursor, not about the middle of
    the window. *)
Theorem zoomDomain_anchor (B : Domain) (dY : Q) :
  let t := cursorTime B px in
  let s := Exp ((if decide (0 < dY) then 1 else -1) * zoomIntensity) in
  x0 F <= t - (t - x0 B) * s -> t + (x1 B - t) * s <= x1 F ->
  (x1 F - x0 F) / 500 <= (x1 B - x0 B) * s ->
  cursorTime (zoomDomain B F px dY) px == cursorTime B px.
Proof.
  cbv zeta. intros H0 H1 Hm.
  destruct (zoomDomain_unclamped B dY H0 H1 Hm) as [E0 E1]. simpl in E0, E1.
  unfold cursorTime at 1. rewrite E0, E1. unfold cursorTime. ring.
Qed.

(** C3: Zooming in and then out with the cursor at the same place gives
    the domain back, exactly, when the zoom in was not clamped. *)
Theorem zoom_in_out :
  inExtent F A -> overPlot px -> dIn <= 0 -> 0 < dOut ->
  (x1 F - x0 F) / 500 <= (x1 A - x0 A) * Exp (- zoomIntensity) ->
  zoomDomain (zoomDomain A F px dIn) F px dOut ≡ A.
Proof.
  intros (H0 & HA & H1) Hpx Hin Hout Hm.
  pose proof (cursorTime_in A px HA Hpx) as [Ht0 Ht1].
  assert (Exp (-1 * zoomIntensity) == Exp (- zoomIntensity)) as Es
    by (apply Exp_proper; ring).
  assert (Exp (1 * zoomIntensity) == Exp zoomIntensity) as Es'
    by (apply Exp_proper; ring).
  pose proof (Exp_opp zoomIntensity) as Hss. rewrite <- Es, <- Es' in Hss.
  pose proof (Exp_pos (-1 * zoomIntensity)) as Hs.
  pose proof (Exp_lt_1 (-1 * zoomIntensity) ltac:(unfold zoomIntensity; lra)) as Hs1.
  rewrite <- Es in Hm. clear Es Es'.
  destruct (zoom_arith (x0 A) (x1 A) ((px - 40) / Qmax 1 (width - 40 - rightMargin))
              _ _ Hss) as [Ea Eb].
  fold (cursorTime A px) in Ea, Eb.
  set (s := Exp (-1 * zoomIntensity)) in *. set (s' := Exp (1 * zoomIntensity)) in *.
  set (t := cursorTime A px) in *.
  assert (0 <= (t - x0 A) * (1 - s)) as Hu by (apply Qmult_le_0_compat; lra).
  assert (0 <= (x1 A - t) * (1 - s)) as Hv by (apply Qmult_le_0_compat; lra).
  assert ((x1 F - x0 F) / 500 * 500 == x1 F - x0 F) as Hf by (field; lra).
  assert (0 <= (x1 A - x0 A) * (1 - s)) as Hw by (apply Qmult_le_0_compat; lra).
  etrans; [apply zoomDomain_proper, zoomDomain_unclamped|];
    rewrite ?decide_False by lra; fold s t; [lra..|].
  etrans; [apply zoomDomain_unclamped|]; rewrite ?decide_True by lra; fold s';
    unfold cursorTime; cbn [x0 x1].
  - rewrite Ea. lra.
  - rewrite Eb. lra.
  - assert ((t + (x1 A - t) * s - (t - (t - x0 A) * s)) * s' == x1 A - x0 A) as ->
      by (transitivity ((x1 A - x0 A) * (s * s')); [ring|rewrite Hss; ring]).
    lra.
  - by split.
Qed.

End ZoomRoundTrip.

(** ** Pan *)

Section Pan.
Variables (start : PanStart) (F : Domain) (cx : Q).

#[local] Abbreviation span := (pan_x1 start - pan_x0 start).
#[local] Abbreviation spanMin := ((x1 F - x0 F) / 1000).
#[local] Abbreviation dt :=
  (- (cx - pan_x start) / Qmax 1 (width - 40 - rightMargin) * span).
#[local] Abbreviation panned := (panDomain start F cx).

(** Whatever the drag, the right end stays inside the full extent. *)
Theorem panDomain_le_x1 : x1 panned <= x1 F.
Proof. unfold panDomain. cbv zeta. repeat case_decide; simpl; lra. Qed.

(** A pan keeps the width of the domain the drag started from, or
    widens it to the minimum. *)
Theorem panDomain_span : x1 panned - x0 panned == Qmax span spanMin.
Proof. unfold panDomain. cbv zeta. repeat case_decide; simpl; qlra. Qed.

(** While the width fits the full extent, the panned domain is inside
    it. *)
Theorem panDomain_inExtent :
  x0 F <= x1 F -> Qmax span spanMin <= x1 F - x0 F -> inExtent F panned.
Proof.
  intros HF Hfit. assert (0 <= spanMin) as Hm by (apply Qdiv_nonneg; lra).
  unfold inExtent, panDomain. cbv zeta. set (m := spanMin) in *. clearbody m.
  repeat case_decide; simpl; split_and!; qlra.
Qed.

(** Away from the edges a pan is a shift by [dt]. *)
Theorem panDomain_shift :
  spanMin <= span -> x0 F <= pan_x0 start + dt -> pan_x1 start + dt <= x1 F ->
  panned ≡ mkDomain (pan_x0 start + dt) (pan_x1 start + dt).
Proof.
  intros Hs H0 H1. unfold panDomain. cbv zeta. set (d := dt) in *. clearbody d.
  repeat case_decide; split; simpl in *; lra.
Qed.

(** C15: A drag to the right from the left edge of the full extent stays at
    the left edge. *)
Theorem panDomain_left_edge :
  pan_x0 start == x0 F -> 0 <= span -> Qmax span spanMin <= x1 F - x0 F ->
  pan_x start <= cx -> x0 (panDomain start F cx) == x0 F.
Proof.
  intros E0 Hs Hfit Hdx.
  assert (dt <= 0) as Hdt.
  { assert (0 <= (cx - pan_x start) / Qmax 1 (width - 40 - rightMargin)) as Hq
      by (apply Qdiv_nonneg; [done|lra]).
    set (q := _ / _) in Hq.
    assert (- (cx - pan_x start) / Qmax 1 (width - 40 - rightMargin) == - q) as ->
      by (unfold q; field; done). nra. }
  assert (0 <= spanMin) as Hm by (apply Qdiv_nonneg; qlra).
  unfold panDomain. cbv zeta. set (d := dt) in *. set (m := spanMin) in *.
  clearbody d m. repeat case_decide; simpl; qlra.
Qed.

End Pan.

(** ** Crosshair *)

Ltac elem_of_snoc :=
  apply elem_of_app; (by left) || (right; by apply list_elem_of_singleton).

Section Crosshair.
Variables (A : Domain) (ts : Q).

#[local] Abbreviation scanStep := (scanStep A ts).
#[local] Abbreviation scanned := (scanned A ts).
#[local] Abbreviation inDomain p := (x0 A <= time p <= x1 A).

(** One iteration keeps what the scan has established. *)
Lemma scanStep_scanned seen acc p :
  scanned seen acc -> scanned (seen ++ [p]) (scanStep acc p).
Proof.
  destruct acc as [[best|] near]; unfold Viewport.scanned, Viewport.scanStep; simpl.
  - intros (Hin & Hel & Eb & Hall). case_decide as Hout; [|case_bool_decide as Hlt];
      simpl; (split; [lra||done|]); (split; [elem_of_snoc|]); (split; [done|]);
      apply Forall_app; (split; [|apply Forall_singleton; lra]); [done| |done].
    eapply Forall_impl; [done|]. simpl. intros q Hq Hd. specialize (Hq Hd). lra.
  - intros Hall. case_decide as Hout; simpl.
    + apply Forall_app. split; [done|]. apply Forall_singleton. lra.
    + split; [lra|]. split; [elem_of_snoc|]. split; [done|].
      apply Forall_app. split; [|apply Forall_singleton; lra].
      eapply Forall_impl; [done|]. simpl. tauto.
Qed.

Lemma foldl_scanStep_scanned l seen acc :
  scanned seen acc -> scanned (seen ++ l) (foldl scanStep acc l).
Proof.
  revert seen acc. induction l as [|p l IH]; intros seen acc Hs; simpl.
  - by rewrite app_nil_r.
  - rewrite (assoc_L _ seen [p] l : seen ++ p :: l = (seen ++ [p]) ++ l).
    by apply IH, scanStep_scanned.
Qed.

(** While nothing in the domain is found, [nearest] stays what it
    was. *)
Lemma scanStep_none acc p : (scanStep acc p).1 = None -> scanStep acc p = acc.
Proof.
  unfold Viewport.scanStep. case_decide; [done|].
  by destruct acc as [[best|] near]; simpl; [case_bool_decide|].
Qed.

Lemma foldl_scanStep_none l acc :
  (foldl scanStep acc l).1 = None -> foldl scanStep acc l = acc.
Proof.
  revert acc. induction l as [|p l IH]; intros acc; simpl; [done|].
  intros Hn. rewrite (IH _ Hn) in Hn |- *. by apply scanStep_none.
Qed.

Lemma nearestPoint_scanned synth nearest :
  nearestPoint synth A ts = Some nearest ->
  nearest ∈ synth /\
  (Forall (fun q => ~ inDomain q) synth /\ head synth = Some nearest \/
   inDomain nearest /\
   Forall (fun q => inDomain q ->
                    Qabs (time nearest - ts) <= Qabs (time q - ts)) synth).
Proof.
  destruct synth as [|p0 l]; [done|]. unfold nearestPoint.
  intros Hr. apply (inj Some) in Hr as <-.
  pose proof (foldl_scanStep_scanned (p0 :: l) [] (None, p0) (Forall_nil_2 _)) as Hs.
  pose proof (foldl_scanStep_none (p0 :: l) (None, p0)) as Hn.
  destruct (foldl scanStep (None, p0) (p0 :: l)) as [[best|] near];
    unfold Viewport.scanned in Hs; cbn [fst snd app] in *.
  - destruct Hs as (Hin & Hel & Eb & Hall).
    split; [done|]. right. split; [done|].
    eapply Forall_impl; [done|]. cbv beta. intros q Hq Hd. specialize (Hq Hd). lra.
  - specialize (Hn eq_refl) as [= ->]. split; [left|]. by left.
Qed.

(** C29: The crosshair snaps to a point of the series: the nearest of the
    points in the domain, or the first point when none is in the
    domain. *)
Theorem nearestPoint_spec synth nearest :
  nearestPoint synth A ts = Some nearest ->
  nearest ∈ synth /\
  (Forall (fun q => ~ inDomain q) synth /\ head synth = Some nearest \/
   inDomain nearest /\
   Forall (fun q => inDomain q ->
                    Qabs (time nearest - ts) <= Qabs (time q - ts)) synth).
Proof. apply nearestPoint_scanned. Qed.

(** The crosshair has a point exactly when there is data. *)
Theorem nearestPoint_is_Some synth : is_Some (nearestPoint synth A ts) <-> synth <> [].
Proof. destruct synth; simpl; [|by split]. split; [by intros [? ?]|done]. Qed.

End Crosshair.

(** ** The handlers and the invariant *)

Lemma fits_full (F : Domain) : x0 F <= x1 F -> fits F F.
Proof.
  intros HF. unfold fits, inExtent, minSpanOf.
  assert ((x1 F - x0 F) / 500 * 500 == x1 F - x0 F) by (field; lra).
  split_and!; lra.
Qed.

Lemma fullDomain_ordered synth : time_sorted synth -> x0 (fullDomain synth) <= x1 (fullDomain synth).
Proof.
  intros Hs. destruct synth as [|p l]; [simpl; lra|].
  pose proof (fullDomain_bounds _ p Hs ltac:(left)). lra.
Qed.

(** A pan from a start that fits gives a domain that fits. *)
Lemma panDomain_fits (F : Domain) start cx :
  fits F (mkDomain (pan_x0 start) (pan_x1 start)) -> fits F (panDomain start F cx).
Proof.
  intros [(H0 & HA & H1) Hw]. unfold minSpanOf in *. simpl in *.
  pose proof (panDomain_span start F cx) as Hspan.
  assert ((x1 F - x0 F) / 500 * 500 == x1 F - x0 F) as E5 by (field; lra).
  assert ((x1 F - x0 F) / 1000 * 1000 == x1 F - x0 F) as E1 by (field; lra).
  split; [apply panDomain_inExtent|unfold minSpanOf]; qlra.
Qed.

Section Invariant.
Context `{ExpLog}.
Variables (synth : Series) (interval : string) (yMode : YMode).
Hypothesis sorted : time_sorted synth.

#[local] Abbreviation F := (fullDomain synth).
#[local] Abbreviation inv := (viewInv F).
#[local] Abbreviation gesture := (gesture synth interval yMode).

Lemma viewInv_initial : inv initialView.
Proof. by split_and!. Qed.

(** Under the invariant the active domain fits the full extent. *)
Lemma activeDomain_fits st : inv st -> fits F (activeDomain (domain st) synth).
Proof.
  intros (Hd & _ & _). unfold activeDomain. destruct (domain st) as [d|]; simpl.
  - by apply Hd.
  - by apply fits_full, fullDomain_ordered.
Qed.

Lemma onWheel_viewInv st e :
  overPlot (clientX e - rectLeft e) -> inv st -> inv (onWheel synth st e).
Proof.
  intros Hpx Hinv. pose proof (activeDomain_fits st Hinv) as [Hin Hw].
  destruct Hinv as (Hd & Hp & Hf). unfold onWheel. case_decide; [done|].
  split_and!; [|done..]. cbn [domain]. intros d [= <-].
  split; [by apply zoomDomain_inExtent|by apply zoomDomain_minSpan].
Qed.

Lemma onPointerDown_viewInv st e : inv st -> inv (onPointerDown synth st e).
Proof.
  intros Hinv. pose proof (activeDomain_fits st Hinv) as Hfit.
  destruct Hinv as (Hd & Hp & Hf). unfold onPointerDown.
  split_and!; [done| |done]. cbn [panStart]. intros s [= <-]. cbn [pan_x0 pan_x1].
  by destruct (activeDomain _ _).
Qed.

Lemma onPointerMove_viewInv st e :
  inv st -> inv (onPointerMove synth interval yMode st e).
Proof.
  intros (Hd & Hp & Hf). unfold onPointerMove.
  split_and!; [|done..]. cbn [domain]. intros d.
  destruct (isPanning st), (panStart st) as [start|]; [|by auto..].
  intros [= <-]. by apply panDomain_fits, Hp.
Qed.

(** Every gesture keeps the invariant. *)
Theorem gesture_viewInv st st' : gesture st st' -> inv st -> inv st'.
Proof.
  destruct 1 as [st e Hpx|st e|st e|st|st|st].
  - by apply onWheel_viewInv.
  - apply onPointerDown_viewInv.
  - apply onPointerMove_viewInv.
  - intros (Hd & Hp & Hf). by split_and!.
  - intros (Hd & Hp & Hf). by split_and!.
  - intros (Hd & Hp & Hf). by split_and!.
Qed.

Lemma reachable_inv st : rtc gesture initialView st -> inv st.
Proof.
  revert st. apply rtc_ind_r; [apply viewInv_initial|].
  intros y z _ Hg Hy. by eapply gesture_viewInv.
Qed.

(** C2: So whatever the gestures since the chart was shown, the domain
    shown is inside the full extent, its ends in order, and at least
    1/500 of it wide. *)
Theorem reachable_fits st :
  rtc gesture initialView st -> fits F (activeDomain (domain st) synth).
Proof. intros Hr. by apply activeDomain_fits, reachable_inv. Qed.

End Invariant.

(** ** What the handlers do *)

(** A drag that has not moved yet shows the domain it started from. *)
Theorem panDomain_start (A F : Domain) (cx : Q) :
  fits F A -> panDomain (mkPanStart cx (x0 A) (x1 A)) F cx ≡ A.
Proof.
  intros [(H0 & HA & H1) Hw]. unfold minSpanOf in Hw.
  assert ((x1 F - x0 F) / 500 * 500 == x1 F - x0 F) as E5 by (field; lra).
  assert ((x1 F - x0 F) / 1000 * 1000 == x1 F - x0 F) as E1 by (field; lra).
  assert (- (cx - cx) / Qmax 1 (width - 40 - rightMargin) * (x1 A - x0 A) == 0) as Ed
    by (rewrite plotWidth_eq; field).
  rewrite panDomain_shift; cbn [pan_x pan_x0 pan_x1]; rewrite ?Ed; [|lra..].
  split; simpl; lra.
Qed.

Section HandlerFacts.
Context `{ExpLog}.
Variables (synth : Series) (interval : string) (yMode : YMode).

#[local] Abbreviation onPointerMove := (onPointerMove synth interval yMode).

(** Without data the wheel does nothing. *)
Theorem onWheel_empty st e : synth = [] -> onWheel synth st e = st.
Proof. intros ->. unfold onWheel. by rewrite decide_True. Qed.

(** The wheel writes the domain, and nothing else. *)
Theorem onWheel_frame st e :
  isPanning (onWheel synth st e) = isPanning st /\
  panStart (onWheel synth st e) = panStart st /\
  cross (onWheel synth st e) = cross st.
Proof. unfold onWheel. by case_decide. Qed.

(** Moving the pointer while no drag is under way leaves the domain
    alone. *)
Theorem onPointerMove_idle st e :
  isPanning st = false -> domain (onPointerMove st e) = domain st.
Proof. unfold Viewport.onPointerMove. by intros ->. Qed.

(** With data, the crosshair is on a point of the series, drawn where
    the scales of the chart put it. *)
Theorem onPointerMove_cross st e :
  synth <> [] ->
  exists p, p ∈ synth /\
    cross (onPointerMove st e)
    = Some (mkCross (chart_xScale (chartOf synth interval yMode st) (time p))
                    (chart_yScale (chartOf synth interval yMode st) (value p))
                    (time p) (value p)).
Proof.
  intros Hne. unfold Viewport.onPointerMove. cbn [cross].
  set (A := activeDomain _ _). set (ts := cursorTime _ _).
  destruct (proj2 (nearestPoint_is_Some A ts synth) Hne) as [p Hp].
  rewrite Hp. exists p. split; [|done]. by apply nearestPoint_scanned in Hp as [? _].
Qed.

(** Releasing the pointer ends the drag; the next move does not pan. *)
Theorem onPointerUp_ends_drag st e :
  domain (onPointerMove (onPointerUp st) e) = domain st.
Proof. done. Qed.

End HandlerFacts.

(** ** Scenarios, with the rational exponential *)

(** Zooming in far to the right of the plot turns the ends of the
    domain around. *)
Example zoomDomain_far_cursor :
  let d := zoomDomain (mkDomain 0 1000) (mkDomain 0 1000) 7000 (-1) in
  x1 d < x0 d.
Proof. by vm_compute. Qed.

(** A drag that started on a longer series, continued on a shorter
    one, leaves the full extent on the left. *)
Example panDomain_stale_start :
  let d := panDomain (mkPanStart 0 0 1000) (mkDomain 0 100) 0 in
  x0 d < 0 /\ x1 d == 100.
Proof. by vm_compute. Qed.

(** One notch in, one notch out, over the middle of the plot. *)
Example zoom_in_out_scenario :
  let F := mkDomain 0 1000 in
  let d1 := zoomDomain F F 575 (-1) in
  let d2 := zoomDomain d1 F 575 1 in
  d1 ≡ mkDomain (250 # 3) (2750 # 3) /\ d2 ≡ F.
Proof. by vm_compute. Qed.

(** ** Instances *)

#[local] Open Scope chart_scope.

Lemma reachable_fits_witness :
  fits (fullDomain [0 ↦ 100; 1000 ↦ 110])
       (activeDomain
          (domain (onWheel [0 ↦ 100; 1000 ↦ 110] initialView (mkEvent 575 0 (-1))))
          [0 ↦ 100; 1000 ↦ 110]).
Proof.
  apply (reachable_fits [0 ↦ 100; 1000 ↦ 110] "D" Linear).
  - repeat constructor; by vm_compute.
  - apply rtc_once, gesture_wheel. by vm_compute.
Defined.

Lemma zoom_in_out_witness :
  zoomDomain (zoomDomain (mkDomain 0 1000) (mkDomain 0 1000) 575 (-1))
             (mkDomain 0 1000) 575 1
  ≡ mkDomain 0 1000.
Proof.
  apply (zoom_in_out (mkDomain 0 1000) (mkDomain 0 1000) 575 (-1) 1); by vm_compute.
Defined.

Lemma zoomDomain_limit_widens_witness :
  let A := mkDomain 500 502 in
  let Z := zoomDomain (H := RatExpLog) A (mkDomain 0 1000) 575 (-1) in
  x1 A - x0 A < x1 Z - x0 Z.
Proof.
  apply (zoomDomain_limit_widens (H := RatExpLog) (mkDomain 500 502) (mkDomain 0 1000) 575 (-1));
    by vm_compute.
Defined.

(** One notch of zoom in on the narrowest window of an extent of a
    thousand: from 2 wide to 7/3 wide. *)
Example zoom_in_at_limit :
  zoomDomain (H := RatExpLog) (mkDomain 500 502) (mkDomain 0 1000) 575 (-1)
  ≡ mkDomain (2999 # 6) (3013 # 6).
Proof. split; by vm_compute. Qed.

Lemma zoomDomain_anchor_witness :
  cursorTime (zoomDomain (mkDomain 0 1000) (mkDomain 0 1000) 575 (-1)) 575
  == cursorTime (mkDomain 0 1000) 575.
Proof.
  apply (zoomDomain_anchor (mkDomain 0 1000) 575 (mkDomain 0 1000) (-1)); by vm_compute.
Defined.

Lemma panDomain_left_edge_witness :
  x0 (panDomain (mkPanStart 100 0 500) (mkDomain 0 1000) 300) == 0.
Proof.
  apply (panDomain_left_edge (mkPanStart 100 0 500) (mkDomain 0 1000) 300);
    by vm_compute.
Defined.

Lemma nearestPoint_spec_witness :
  (10 ↦ 2) ∈ [0 ↦ 1; 10 ↦ 2; 20 ↦ 3] /\
  (Forall (fun q => ~ 0 <= time q <= 20) [0 ↦ 1; 10 ↦ 2; 20 ↦ 3]
   /\ head [0 ↦ 1; 10 ↦ 2; 20 ↦ 3] = Some (10 ↦ 2) \/
   0 <= time (10 ↦ 2) <= 20 /\
   Forall (fun q => 0 <= time q <= 20 ->
                    Qabs (time (10 ↦ 2) - 12) <= Qabs (time q - 12))
          [0 ↦ 1; 10 ↦ 2; 20 ↦ 3]).
Proof.
  apply (nearestPoint_spec (mkDomain 0 20) 12 [0 ↦ 1; 10 ↦ 2; 20 ↦ 3] (10 ↦ 2)).
  by vm_compute.
Defined.
