(* ===== verification/ViewSpec.v ===== *)
(** * ViewSpec: the contract of the viewport, and its refinement

    The design of the viewport as a machine whose steps carry the
    gesture that causes them.  The window is auto-fit or an explicit
    override; a drag is in progress, from the window it started on, or
    not.  What each gesture may do:

    - the wheel turned down gives a window that fits the full extent
      and contains the window it leaves; turned up, a window that fits
      and is inside the window it leaves, or is less than twice the
      minimum span wide; without data it does nothing;
    - pointer down starts a drag from the window shown, and changes no
      window;
    - a move during a drag gives a window that fits and is as wide as
      the window the drag started on; outside a drag it changes
      nothing;
    - pointer up ends the drag, leaving the pointer changes nothing,
      and the fit action returns to auto-fit.

    [abs] reads the state of this machine off the state of the
    component, [perform] is the handler of an input and [kind] its
    gesture.  [perform_refines] shows that the handler of every input
    is a step of the machine with the gesture of the input, and
    [gestures_refine] that the gestures of a run of the component are
    the gestures of a run of the machine.  What the machine says of a
    gesture therefore holds of its handler: [astep_keeps_window],
    [astep_keeps_mode], [astep_drag_width]. *)

From Stdlib Require Import QArith Qminmax Qround Qabs Lqa Lia ZArith.
From stdpp Require Import base decidable list option strings numbers sorting relations.
From S2P Require Import Prelude JsText JsDate Series Interval Scale Viewport.

#[local] Open Scope Q_scope.

(** ** The machine *)

(** No drag, or a drag that started on the window [from]. *)
Inductive Mode :=
| Idle
| Panning (from : Domain).

(** The window is [None] for auto-fit. *)
Record Abs := mkAbs { mode : Mode; shown : option Domain }.

Definition initialAbs : Abs := mkAbs Idle None.

(** The gestures; the wheel with its direction, [out] when it is
    turned down. *)
Inductive Gesture :=
| GWheel (out : bool)
| GDown
| GMove
| GUp
| GLeave
| GFit.

#[export] Instance Gesture_eq_dec : EqDecision Gesture.
Proof. solve_decision. Defined.

(** [inner] lies inside [outer]. *)
Definition within (outer inner : Domain) : Prop :=
  x0 outer <= x0 inner /\ x1 inner <= x1 outer.

Section Machine.
Variables (F : Domain) (hasData : bool).

Inductive astep : Gesture -> Abs -> Abs -> Prop :=
| astep_no_data out a :
    hasData = false -> astep (GWheel out) a a
| astep_zoom_out m w d :
    hasData = true -> fits F d -> within d (default F w) ->
    astep (GWheel true) (mkAbs m w) (mkAbs m (Some d))
| astep_zoom_in m w d :
    hasData = true -> fits F d ->
    within (default F w) d \/ x1 d - x0 d <= 2 * ((x1 F - x0 F) / 500) ->
    astep (GWheel false) (mkAbs m w) (mkAbs m (Some d))
| astep_down m w :
    astep GDown (mkAbs m w) (mkAbs (Panning (default F w)) w)
| astep_drag from w d :
    fits F d -> x1 d - x0 d == x1 from - x0 from ->
    astep GMove (mkAbs (Panning from) w) (mkAbs (Panning from) (Some d))
| astep_hover w : astep GMove (mkAbs Idle w) (mkAbs Idle w)
| astep_up m w : astep GUp (mkAbs m w) (mkAbs Idle w)
| astep_leave a : astep GLeave a a
| astep_fit m w : astep GFit (mkAbs m w) (mkAbs m None).

(** A run of the machine and the gestures of its steps. *)
Inductive arun : list Gesture -> Abs -> Abs -> Prop :=
| arun_nil a : arun [] a a
| arun_cons g gs a a' a'' :
    astep g a a' -> arun gs a' a'' -> arun (g :: gs) a a''.

(** What the machine promises of its states. *)
Definition ainv (a : Abs) : Prop :=
  (forall d, shown a = Some d -> fits F d) /\
  (forall from, mode a = Panning from -> fits F from).

End Machine.

(** ** The component as an implementation of the machine *)

(** The state of the machine in the state of the component. *)
Definition abs (v : ViewState) : Abs :=
  mkAbs match panStart v with
        | Some s => Panning (mkDomain (pan_x0 s) (pan_x1 s))
        | None => Idle
        end
        (domain v).

(** What reaches the viewport: an event of the [svg] element, or the
    fit action. *)
Inductive Input :=
| IWheel (e : PointerEvent)
| IDown (e : PointerEvent)
| IMove (e : PointerEvent)
| IUp
| ILeave
| IFit.

(** The gesture of an input. *)
Definition kind (i : Input) : Gesture :=
  match i with
  | IWheel e => GWheel (bool_decide (0 < deltaY e))
  | IDown _ => GDown
  | IMove _ => GMove
  | IUp => GUp
  | ILeave => GLeave
  | IFit => GFit
  end.

(** The wheel is turned with the cursor over the plot area. *)
Definition admissible (i : Input) : Prop :=
  match i with
  | IWheel e => overPlot (clientX e - rectLeft e)
  | _ => True
  end.

Section Perform.
Context `{ExpLog}.
Variables (synth : Series) (interval : string) (yMode : YMode).

(** The handler of an input. *)
Definition perform (v : ViewState) (i : Input) : ViewState :=
  match i with
  | IWheel e => onWheel synth v e
  | IDown e => onPointerDown synth v e
  | IMove e => onPointerMove synth interval yMode v e
  | IUp => onPointerUp v
  | ILeave => onLeave v
  | IFit => fitToScreen v
  end.

End Perform.

(** * Theorems *)

(** ** The machine keeps its promise *)

Section MachineFacts.
Variables (F : Domain) (hasData : bool).
Hypothesis ordered : x0 F <= x1 F.

#[local] Abbreviation astep := (astep F hasData).
#[local] Abbreviation arun := (arun F hasData).

Lemma ainv_initial : ainv F initialAbs.
Proof. by split. Qed.

Lemma astep_ainv g a a' : astep g a a' -> ainv F a -> ainv F a'.
Proof.
  destruct 1; intros [Hs Hm]; split; simpl in *; try done; try (by intros ? [= <-]).
  intros from [= <-]. destruct w as [d|]; simpl; [by apply Hs|by apply fits_full].
Qed.

Lemma arun_ainv gs a a' : arun gs a a' -> ainv F a -> ainv F a'.
Proof. induction 1; [done|]. intros Hi. by eapply IHarun, astep_ainv. Qed.

Lemma arun_app gs gs' a a' a'' :
  arun gs a a' -> arun gs' a' a'' -> arun (gs ++ gs') a a''.
Proof. induction 1; [done|]. intros Hr. econstructor; [done|by apply IHarun]. Qed.

(** ** What a gesture may change *)

(** Only the wheel, a move and the fit action change the window. *)
Theorem astep_keeps_window g a a' :
  astep g a a' -> g = GDown \/ g = GUp \/ g = GLeave -> shown a' = shown a.
Proof. by destruct 1; intros [?|[?|?]]. Qed.

(** Only pointer down and pointer up change the mode. *)
Theorem astep_keeps_mode g a a' :
  astep g a a' -> g <> GDown -> g <> GUp -> mode a' = mode a.
Proof. by destruct 1. Qed.

(** A move changes the window only during a drag, and to a window as
    wide as the one the drag started on. *)
Theorem astep_drag_width a a' :
  astep GMove a a' ->
  shown a' = shown a
  \/ exists from d, mode a = Panning from /\ shown a' = Some d
                    /\ x1 d - x0 d == x1 from - x0 from.
Proof.
  intros Hs. remember GMove as g eqn:Eg. destruct Hs; try done; simpl; eauto 6.
Qed.

(** The fit action returns to auto-fit, and a drag starts from the
    window shown. *)
Theorem astep_fit_down g a a' :
  astep g a a' ->
  (g = GFit -> shown a' = None) /\
  (g = GDown -> mode a' = Panning (default F (shown a))).
Proof. by destruct 1. Qed.

End MachineFacts.

(** ** A drag keeps its width *)

Lemma domain_eta (d : Domain) : mkDomain (x0 d) (x1 d) = d.
Proof. by destruct d. Qed.

Lemma panDomain_keeps_width (F : Domain) start cx :
  fits F (mkDomain (pan_x0 start) (pan_x1 start)) ->
  let d := panDomain start F cx in
  x1 d - x0 d == pan_x1 start - pan_x0 start.
Proof.
  intros [(H0 & HA & H1) Hw]. cbv zeta. unfold minSpanOf in Hw. simpl in *.
  rewrite panDomain_span.
  assert ((x1 F - x0 F) / 500 * 500 == x1 F - x0 F) as E5 by (field; lra).
  assert ((x1 F - x0 F) / 1000 * 1000 == x1 F - x0 F) as E1 by (field; lra).
  qlra.
Qed.

(** ** The handlers implement the machine *)

Section Refinement.
Context `{ExpLog}.
Variables (synth : Series) (interval : string) (yMode : YMode).
Hypothesis sorted : time_sorted synth.

#[local] Abbreviation F := (fullDomain synth).
#[local] Abbreviation hasData := (bool_decide (synth <> [])).
#[local] Abbreviation inv := (viewInv F).
#[local] Abbreviation gesture := (gesture synth interval yMode).
#[local] Abbreviation perform := (perform synth interval yMode).
#[local] Abbreviation astep := (astep F hasData).
#[local] Abbreviation arun := (arun F hasData).

(** The gestures of [Viewport] are the handlers of the admissible
    inputs. *)
Lemma gesture_perform v v' :
  gesture v v' <-> exists i, admissible i /\ v' = perform v i.
Proof.
  split.
  - destruct 1 as [v e Hpx|v e|v e|v|v|v];
      [by exists (IWheel e)|by exists (IDown e)|by exists (IMove e)
      |by exists IUp|by exists ILeave|by exists IFit].
  - intros ([e|e|e| | |] & Ha & ->); simpl; by constructor.
Qed.

Lemma perform_viewInv v i : admissible i -> inv v -> inv (perform v i).
Proof.
  intros Ha. apply (gesture_viewInv synth interval yMode sorted), gesture_perform.
  by exists i.
Qed.

(** Under the invariant of the viewport the state of the machine keeps
    its promise. *)
Lemma abs_ainv v : inv v -> ainv F (abs v).
Proof.
  intros (Hd & Hp & _). split; simpl; [done|].
  destruct (panStart v) as [s|]; [|done]. intros from [= <-]. by apply Hp.
Qed.

Lemma onWheel_refines v e :
  inv v -> overPlot (clientX e - rectLeft e) ->
  astep (GWheel (bool_decide (0 < deltaY e))) (abs v) (abs (onWheel synth v e)).
Proof.
  intros Hinv Hpx. pose proof (onWheel_viewInv _ sorted v e Hpx Hinv) as (Hd' & _).
  pose proof (activeDomain_fits _ sorted v Hinv) as [HA _].
  unfold onWheel in *. case_decide as He.
  { apply astep_no_data, bool_decide_eq_false. intros Hn. by apply Hn, length_zero_iff_nil. }
  assert (hasData = true) as Hdata.
  { apply bool_decide_eq_true. by intros ->. }
  specialize (Hd' _ eq_refl). unfold abs. cbn [domain panStart].
  destruct (decide (0 < deltaY e)) as [Hdir|Hdir].
  - rewrite (bool_decide_eq_true_2 (0 < deltaY e)) by done.
    apply astep_zoom_out; [done..|]. by apply zoomDomain_out.
  - rewrite (bool_decide_eq_false_2 (0 < deltaY e)) by done.
    apply astep_zoom_in; [done..|]. apply zoomDomain_in; [done..|lra].
Qed.

Lemma onPointerMove_refines v e :
  inv v -> astep GMove (abs v) (abs (onPointerMove synth interval yMode v e)).
Proof.
  intros (Hd & Hp & Hf). unfold onPointerMove, abs. cbn [domain panStart].
  rewrite Hf. destruct (panStart v) as [start|]; [|apply astep_hover].
  rewrite (bool_decide_eq_true_2 (is_Some (Some start))) by done.
  apply astep_drag; [by apply panDomain_fits, Hp|by apply panDomain_keeps_width, Hp].
Qed.

(** The handler of an input is a step of the machine, with the
    gesture of the input. *)
Theorem perform_refines v i :
  inv v -> admissible i -> astep (kind i) (abs v) (abs (perform v i)).
Proof.
  intros Hinv Ha. destruct i as [e|e|e| | |]; simpl.
  - by apply onWheel_refines.
  - unfold onPointerDown, abs. cbn [panStart domain pan_x0 pan_x1].
    unfold activeDomain. rewrite domain_eta. apply astep_down.
  - by apply onPointerMove_refines.
  - apply astep_up.
  - apply astep_leave.
  - apply astep_fit.
Qed.

Lemma perform_run v inputs :
  inv v -> Forall admissible inputs ->
  arun (kind <$> inputs) (abs v) (abs (foldl perform v inputs)).
Proof.
  intros Hinv Ha. revert v Hinv.
  induction Ha as [|i inputs Hi _ IH]; intros v Hinv; simpl; [constructor|].
  econstructor; [by apply perform_refines|]. by apply IH, perform_viewInv.
Qed.

(** C6: The gestures of a run of the component are the gestures of a run
    of the machine, between the corresponding states: what the
    contract says of a gesture holds of its handler, after every
    sequence of inputs. *)
Theorem gestures_refine inputs :
  Forall admissible inputs ->
  arun (kind <$> inputs) initialAbs (abs (foldl perform initialView inputs)).
Proof. apply (perform_run initialView), viewInv_initial. Qed.

End Refinement.

(** ** Instances *)

#[local] Open Scope chart_scope.

Lemma perform_refines_witness :
  astep (fullDomain [0 ↦ 100; 1000 ↦ 110]) true (GWheel false) (abs initialView)
        (abs (onWheel [0 ↦ 100; 1000 ↦ 110] initialView (mkEvent 575 0 (-1)))).
Proof.
  apply (perform_refines (H := RatExpLog) [0 ↦ 100; 1000 ↦ 110] "D" Linear
           ltac:(repeat constructor; by vm_compute)
           initialView (IWheel (mkEvent 575 0 (-1)))).
  - by apply viewInv_initial.
  - by vm_compute.
Defined.

Lemma gestures_refine_witness :
  let synth := [0 ↦ 100; 1000 ↦ 110] in
  let inputs := [IWheel (mkEvent 575 0 (-1)); IDown (mkEvent 500 0 0);
             IMove (mkEvent 400 0 0); IUp; ILeave] in
  arun (fullDomain synth) true [GWheel false; GDown; GMove; GUp; GLeave] initialAbs
       (abs (foldl (perform (H := RatExpLog) synth "D" Linear) initialView inputs)).
Proof.
  apply (gestures_refine (H := RatExpLog) [0 ↦ 100; 1000 ↦ 110] "D" Linear
           ltac:(repeat constructor; by vm_compute)
           [IWheel (mkEvent 575 0 (-1)); IDown (mkEvent 500 0 0);
            IMove (mkEvent 400 0 0); IUp; ILeave]).
  repeat constructor; by vm_compute.
Defined.
