(* ===== verification/App.v ===== *)
(** * App: the state of the component, its controls and its effects

    The component [LiveSP500Canvas] ([src/src/LiveSP500Canvas.jsx],
    lines 421-772) as a transition system.  [AppState] holds the values
    of its [useState] hooks and of the [panStart] ref, and what is left
    of the fetch the effect of lines 453-510 started: each run of that
    effect has a flag [cancelled] of its own, set when the next run
    begins, so only the fetch of the latest run can still write the
    state; [effectRuns] counts the runs and [live] is the request of
    the latest one, until it settles.

    The values the render derives ([leverage], [startTs],
    [filteredData], [synth], the chart) are functions of the state.
    [handle] is what the handler of an event does, [commit] what the
    two effects do after the render that follows, [dispatch] both.  The
    handlers of the chart are attached to the [svg] element, which is
    rendered only for a synthetic series of more than one point (line
    945): without it those events do not occur, and [handle] leaves the
    state as it is.

    [Date.parse], [Math.sin] and [Math.random] are parameters of the
    section; [Date.now()] is an argument of [dispatch].  A handler sees
    the state of the last render: an event is taken to be handled after
    the render of the event before it. *)

From Stdlib Require Import QArith Qminmax Qround Qabs Lqa Lia ZArith.
From stdpp Require Import base decidable list option strings numbers sorting relations.
From S2P Require Import Prelude JsText JsDate Series Leverage Interval Scale Viewport.

#[local] Open Scope Q_scope.

(** ** Data *)

Inductive Theme := Light | Dark.

#[export] Instance Theme_eq_dec : EqDecision Theme.
Proof. solve_decision. Defined.

(** [toTheme] *)
Definition toTheme (v : string) : Theme :=
  if decide (v = "dark") then Dark else Light.

(** The request of one run of the fetch effect. *)
Record Request := mkRequest { req_run : nat; req_range : string; req_interval : string }.

(** How [fetch] and [r.json()] end: a rejection with its message, or a
    response. *)
Inductive NetOutcome :=
| NetError (message : string)
| NetResponse (r : ClientResponse).

Record AppState := mkApp {
  preset : string;
  interval : string;
  theme : Theme;
  key : Z;
  error : string;
  rawData : Series;
  startISO : string;
  baseValue : Q;
  yMode : YMode;
  view : ViewState;
  effectRuns : nat;
  live : option Request
}.

(** A part of a label: text, [String(n)] of a number, or the locale's
    rendering of an instant ([formatDate] and [toLocaleString]). *)
Inductive Piece :=
| Text (s : string)
| Number (n : Q)
| LocaleDate (ts : Q).

Inductive Event :=
| SelectPreset (v : string)
| SelectInterval (v : string)
| SelectTheme (v : string)
| InputStart (v : string)
| InputBase (v : string)
| SelectYMode (v : string)
| ClickReload
| ClickFit
| ClickReset
| Wheel (e : PointerEvent)
| PointerDown (e : PointerEvent)
| PointerMove (e : PointerEvent)
| PointerUp
| PointerLeave
| FetchSettled (run : nat) (outcome : NetOutcome).

(** The state of the [useState] calls of lines 423-439, before any
    effect has run. *)
Definition initialState : AppState :=
  mkApp "SYNTHETIC:+1" "60" Light 0 "" [] "" 100 Linear initialView 0 None.

(** The comparison of a dependency of an effect with its value at the
    last render, for a number or [undefined]. *)
Definition sameValue (a b : option Q) : bool :=
  match a, b with
  | None, None => true
  | Some x, Some y => bool_decide (x == y)
  | _, _ => false
  end.

(** ** State updates *)

Definition setView (st : AppState) (v : ViewState) : AppState :=
  mkApp (preset st) (interval st) (theme st) (key st) (error st) (rawData st)
        (startISO st) (baseValue st) (yMode st) v (effectRuns st) (live st).

(** [setDomain(d)] *)
Definition setDomain (st : AppState) (d : option Domain) : AppState :=
  setView st (mkView d (isPanning (view st)) (panStart (view st)) (cross (view st))).

(** [setRawData(data); setDomain(undefined)], the request settled. *)
Definition setRawData (st : AppState) (data : Series) (err : string) : AppState :=
  setDomain
    (mkApp (preset st) (interval st) (theme st) (key st) err data
           (startISO st) (baseValue st) (yMode st) (view st) (effectRuns st) None)
    None.

(** ** The component *)

Section Component.
Context `{ExpLog}.
(** [Date.parse] ([None] for [NaN]), [Math.sin] and the successive
    results of [Math.random()]. *)
Variables (Date_parse : string -> option Q).
Variables (Math_sin : Q -> Q) (Math_random : nat -> Q).

(** *** What the render derives *)

Definition leverage (st : AppState) : Q := leverageOf (preset st).

(** Lines 442-450. *)
Definition startTs (st : AppState) : option Q :=
  if decide (startISO st = "") then None else Date_parse (startISO st).

Definition filtered (st : AppState) : Series :=
  filteredData (rawData st) (startTs st).

(** Lines 562-567. *)
Definition synth (st : AppState) : Series :=
  buildSyntheticSeries (filtered st) (leverage st) (Some (baseValue st)).

(** Lines 595-604. *)
Definition chart (st : AppState) : ChartGeometry :=
  chartOf (synth st) (interval st) (yMode st) (view st).

(** The condition of line 945 under which the chart, and with it the
    handlers of the gestures, is rendered. *)
Definition showsChart (st : AppState) : Prop := (1 < length (synth st))%nat.

#[export] Instance showsChart_decision st : Decision (showsChart st) := _.

(** Lines 573-582. *)
Definition color (st : AppState) : string :=
  if decide (0 <= leverage st)
  then (if decide (theme st = Dark) then "#22c55e" else "#16a34a")
  else (if decide (theme st = Dark) then "#f87171" else "#ef4444").

Definition bg (st : AppState) : string :=
  if decide (theme st = Dark) then "#0f172a" else "#ffffff".

Definition fg (st : AppState) : string :=
  if decide (theme st = Dark) then "#e2e8f0" else "#0f172a".

(** *** The handlers of the controls *)

(** Lines 721-732. *)
Definition resetAll (st : AppState) : AppState :=
  mkApp "SYNTHETIC:+1" "60" Light (key st + 1) (error st) (rawData st)
        "" 100 Linear
        (mkView None (isPanning (view st)) (panStart (view st)) (cross (view st)))
        (effectRuns st) (live st).

(** The message of the error [fetchYahooSPX] throws. *)
Definition errorMessage (e : FetchError) : string :=
  match e with
  | BackendFailed status => "Backend /api/spx failed: " ++ intToString status
  | MissingSeries => "Missing series from /api/spx"
  end.

(** Lines 488-503: what the fetch of the live run does when it
    settles; [now] is the [Date.now()] of [buildDemoSPX]. *)
Definition settle (now : Q) (st : AppState) (outcome : NetOutcome) : AppState :=
  let failed (message : string) :=
    setRawData st (buildDemoSPX Math_sin Math_random now 0)
      (if decide (message = "") then "Failed to fetch data. Using demo series."
       else message) in
  match outcome with
  | NetError message => failed message
  | NetResponse r =>
      match fetchYahooSPX r with
      | inr spx => setRawData st spx (error st)
      | inl e => failed (errorMessage e)
      end
  end.

(** The handlers of the controls (lines 793-798, 820-822, 842-844,
    860-862, 877-880, 892-894 and 909-913). *)
Definition onPresetChange (st : AppState) (v : string) : AppState :=
  mkApp v (interval st) (theme st) (key st + 1) (error st) (rawData st)
        (startISO st) (baseValue st) (yMode st) (view st) (effectRuns st) (live st).

Definition onIntervalChange (st : AppState) (v : string) : AppState :=
  mkApp (preset st) v (theme st) (key st) (error st) (rawData st)
        (startISO st) (baseValue st) (yMode st) (view st) (effectRuns st) (live st).

Definition onThemeChange (st : AppState) (v : string) : AppState :=
  mkApp (preset st) (interval st) (toTheme v) (key st) (error st) (rawData st)
        (startISO st) (baseValue st) (yMode st) (view st) (effectRuns st) (live st).

Definition onStartChange (st : AppState) (v : string) : AppState :=
  mkApp (preset st) (interval st) (theme st) (key st) (error st) (rawData st)
        v (baseValue st) (yMode st) (view st) (effectRuns st) (live st).

(** [var n = Number(e.target.value); setBaseValue(isNaN(n) ? 0 : n)] *)
Definition onBaseChange (st : AppState) (v : string) : AppState :=
  mkApp (preset st) (interval st) (theme st) (key st) (error st) (rawData st)
        (startISO st) (default 0 (toNumber v)) (yMode st) (view st)
        (effectRuns st) (live st).

Definition onYModeChange (st : AppState) (v : string) : AppState :=
  mkApp (preset st) (interval st) (theme st) (key st) (error st) (rawData st)
        (startISO st) (baseValue st) (toYMode v) (view st) (effectRuns st) (live st).

Definition onReload (st : AppState) : AppState :=
  mkApp (preset st) (interval st) (theme st) (key st + 1) (error st) (rawData st)
        (startISO st) (baseValue st) (yMode st) (view st) (effectRuns st) (live st).

(** A handler of the [svg] element (lines 950-954): it exists while
    the chart is rendered. *)
Definition onChart (st : AppState) (f : ViewState -> ViewState) : AppState :=
  if decide (showsChart st) then setView st (f (view st)) else st.

(** What the handler of an event does to the state. *)
Definition handle (now : Q) (st : AppState) (ev : Event) : AppState :=
  match ev with
  | SelectPreset v => onPresetChange st v
  | SelectInterval v => onIntervalChange st v
  | SelectTheme v => onThemeChange st v
  | InputStart v => onStartChange st v
  | InputBase v => onBaseChange st v
  | SelectYMode v => onYModeChange st v
  | ClickReload => onReload st
  | ClickFit => setView st (fitToScreen (view st))
  | ClickReset => resetAll st
  | Wheel e => onChart st (fun v => onWheel (synth st) v e)
  | PointerDown e => onChart st (fun v => onPointerDown (synth st) v e)
  | PointerMove e =>
      onChart st (fun v => onPointerMove (synth st) (interval st) (yMode st) v e)
  | PointerUp => onChart st onPointerUp
  | PointerLeave => onChart st onLeave
  | FetchSettled run outcome =>
      match live st with
      | Some r => if decide (req_run r = run) then settle now st outcome else st
      | None => st
      end
  end.

(** *** The effects *)

(** The effect of lines 453-510, when one of [interval], [key] and
    [startTs] is not what it was at the last render: the flag of the
    run before is set, the error is cleared and a fetch is started. *)
Definition fetchEffect (now : Q) (old new : AppState) : AppState :=
  if decide (interval old = interval new /\ key old = key new
             /\ sameValue (startTs old) (startTs new))
  then new
  else
    mkApp (preset new) (interval new) (theme new) (key new) "" (rawData new)
          (startISO new) (baseValue new) (yMode new) (view new)
          (S (effectRuns new))
          (Some (mkRequest (S (effectRuns new))
                   (selectRange (interval new) (startTs new) now)
                   (yahooInterval (interval new)))).

(** The effect of lines 514-520. *)
Definition resetEffect (old new : AppState) : AppState :=
  if decide (sameValue (startTs old) (startTs new)
             /\ length (rawData old) = length (rawData new))
  then new
  else if decide (length (rawData new) = 0%nat) then new
  else setDomain new None.

(** The effects after the render that follows a change of state. *)
Definition commit (now : Q) (old new : AppState) : AppState :=
  resetEffect old (fetchEffect now old new).

(** The first render: both effects run. *)
Definition mount (now : Q) : AppState :=
  mkApp (preset initialState) (interval initialState) (theme initialState)
        (key initialState) "" (rawData initialState) (startISO initialState)
        (baseValue initialState) (yMode initialState) (view initialState)
        1 (Some (mkRequest 1 (selectRange (interval initialState)
                                (startTs initialState) now)
                   (yahooInterval (interval initialState)))).

Definition dispatch (now : Q) (st : AppState) (ev : Event) : AppState :=
  commit now st (handle now st ev).

(** The states the component can be in. *)
Inductive reachable : AppState -> Prop :=
| reachable_mount now : reachable (mount now)
| reachable_dispatch now st ev : reachable st -> reachable (dispatch now st ev).

(** *** The labels (lines 734-772) *)

Definition toPercent (v ref : Q) : Q := (v / Qmax eps ref - 1) * 100.

Definition signStr (st : AppState) : string :=
  if decide (0 <= leverage st) then "+" else "".

Definition titleLabel (st : AppState) : list Piece :=
  [Text "Synthetic "; Text (signStr st); Number (leverage st);
   Text "x SPX (base="; Number (baseValue st); Text ")"].

Definition startLabel (st : AppState) : list Piece :=
  match startTs st with
  | Some ts => if decide (ts == 0) then [] else [Text "Start: "; LocaleDate ts]
  | None => []
  end.

Definition effectiveStartLabel (st : AppState) : list Piece :=
  match filtered st with
  | p :: _ => [Text "Effective start: "; LocaleDate (time p)]
  | [] => []
  end.

Definition lastHeaderLabel (st : AppState) : list Piece :=
  match last (synth st) with
  | Some p => [Text "Last: "; Text (toFixed (value p) 2); Text " @ ";
               LocaleDate (time p)]
  | None => []
  end.

(** The suffix of a value in percent mode. *)
Definition percentSuffix (st : AppState) (v : Q) : string :=
  if decide (yMode st = Percent)
  then (" (" ++ toFixed (toPercent v (chart_anchor (chart st))) 1 ++ "%)")%string
  else "".

Definition lastBadgeText (st : AppState) : string :=
  match chart_last (chart st) with
  | Some l => (toFixed (value l) 2 ++ percentSuffix st (value l))%string
  | None => ""
  end.

Definition crossLabel (st : AppState) : list Piece :=
  match cross (view st) with
  | Some c => [LocaleDate (cross_ts c); Text " · ";
               Text (toFixed (cross_price c) 2);
               Text (percentSuffix st (cross_price c))]
  | None => []
  end.

End Component.

(** * Theorems *)

Lemma sameValue_spec a b :
  sameValue a b <->
  match a, b with
  | None, None => True
  | Some x, Some y => x == y
  | _, _ => False
  end.
Proof. destruct a, b; simpl; by rewrite ?bool_decide_spec. Qed.

Section ComponentFacts.
Context `{ExpLog}.
Variables (Date_parse : string -> option Q).
Variables (Math_sin : Q -> Q) (Math_random : nat -> Q).

#[local] Abbreviation startTs := (startTs Date_parse).
#[local] Abbreviation filtered := (filtered Date_parse).
#[local] Abbreviation synth := (synth Date_parse).
#[local] Abbreviation showsChart := (showsChart Date_parse).
#[local] Abbreviation settle := (settle Math_sin Math_random).
#[local] Abbreviation handle := (handle Date_parse Math_sin Math_random).
#[local] Abbreviation fetchEffect := (fetchEffect Date_parse).
#[local] Abbreviation resetEffect := (resetEffect Date_parse).
#[local] Abbreviation commit := (commit Date_parse).
#[local] Abbreviation mount := (mount Date_parse).
#[local] Abbreviation dispatch := (dispatch Date_parse Math_sin Math_random).
#[local] Abbreviation reachable := (reachable Date_parse Math_sin Math_random).

(** ** What the render derives *)

Lemma synth_length st : length (synth st) = length (filtered st).
Proof. apply buildSyntheticSeries_length. Qed.

Lemma fullDomain_synth st : fullDomain (synth st) = fullDomain (filtered st).
Proof. apply fullDomain_buildSyntheticSeries. Qed.

(** The filtered series depends on the raw data and on the start
    only. *)
Lemma filtered_ext st st' :
  rawData st = rawData st' -> sameValue (startTs st) (startTs st') ->
  filtered st = filtered st'.
Proof.
  unfold App.filtered. intros -> Hs%sameValue_spec.
  destruct (startTs st), (startTs st'); try done. by apply filteredData_same_start.
Qed.

Lemma showsChart_ext st st' :
  rawData st = rawData st' -> sameValue (startTs st) (startTs st') ->
  showsChart st <-> showsChart st'.
Proof.
  intros Hr Hs. unfold App.showsChart. by rewrite !synth_length, (filtered_ext st st').
Qed.

Lemma sameValue_refl a : sameValue a a.
Proof. apply sameValue_spec. by destruct a. Qed.

(** C36: With a start after the last raw point nothing is shown: the
    filtered and the synthetic series are empty and the chart is the
    placeholder without ticks. *)
Theorem start_after_last st start p :
  startTs st = Some start -> ~ start == 0 ->
  last (rawData st) = Some p -> time p < start ->
  filtered st = [] /\ synth st = [] /\ ~ showsChart st /\
  chart Date_parse st = emptyChart.
Proof.
  intros Hs Hn Hl Hlt.
  assert (filtered st = []) as Hf.
  { unfold App.filtered. rewrite Hs. by eapply filteredData_start_after_last. }
  assert (synth st = []) as Hsy by (unfold App.synth; by rewrite Hf).
  split_and!; [done..| |].
  - unfold App.showsChart. rewrite Hsy. simpl. lia.
  - unfold chart, chartOf. by rewrite Hsy.
Qed.

(** ** The effects *)

(** The effects write the error, the request and the domain, and
    nothing else. *)
Lemma commit_frame now old new :
  let st := commit now old new in
  preset st = preset new /\ interval st = interval new /\ theme st = theme new /\
  key st = key new /\ rawData st = rawData new /\ startISO st = startISO new /\
  baseValue st = baseValue new /\ yMode st = yMode new /\
  isPanning (view st) = isPanning (view new) /\
  panStart (view st) = panStart (view new) /\
  cross (view st) = cross (view new) /\
  (domain (view st) = domain (view new) \/ domain (view st) = None).
Proof.
  cbv zeta. unfold App.commit, App.resetEffect, App.fetchEffect.
  repeat case_decide; simpl; split_and!; auto.
Qed.

Lemma commit_startTs now old new : startTs (commit now old new) = startTs new.
Proof.
  unfold App.startTs. by destruct (commit_frame now old new) as (_&_&_&_&_&->&_).
Qed.

(** After the effects, a domain override is one the handler left
    there, and then the start and the number of raw points are what
    they were before the event, or there is no raw data. *)
Lemma commit_domain now old new d :
  domain (view (commit now old new)) = Some d ->
  domain (view new) = Some d /\
  (sameValue (startTs old) (startTs new) /\ length (rawData old) = length (rawData new)
   \/ rawData new = []).
Proof.
  unfold App.commit, App.resetEffect, App.fetchEffect.
  repeat case_decide; simpl; intros Hd; try done; split; try done; auto.
  all: right; by apply nil_length_inv.
Qed.

(** A change of the interval, of the key or of the start begins a new
    run of the fetch effect, with the request the policy chooses. *)
Theorem commit_restarts now old new :
  interval old <> interval new \/ key old <> key new
  \/ ~ sameValue (startTs old) (startTs new) ->
  let st := commit now old new in
  effectRuns st = S (effectRuns new) /\ error st = "" /\
  live st = Some (mkRequest (S (effectRuns new))
                    (selectRange (interval new) (startTs new) now)
                    (yahooInterval (interval new))).
Proof.
  intros Hch. cbv zeta. unfold App.commit, App.resetEffect, App.fetchEffect.
  rewrite (decide_False (P := _ /\ _ /\ _)) by tauto.
  repeat case_decide; by simpl.
Qed.

(** Otherwise the run and its request stay. *)
Theorem commit_keeps now old new :
  interval old = interval new -> key old = key new ->
  sameValue (startTs old) (startTs new) ->
  let st := commit now old new in
  effectRuns st = effectRuns new /\ error st = error new /\ live st = live new.
Proof.
  intros Hi Hk Hs. cbv zeta. unfold App.commit, App.resetEffect, App.fetchEffect.
  rewrite (decide_True (P := _ /\ _ /\ _)) by done.
  repeat case_decide; by simpl.
Qed.

(** ** The handlers *)

(** What a handler leaves of the fetch: the count of the runs, and the
    request, unless it has just settled. *)
Lemma handle_fetch now st ev :
  let st' := handle now st ev in
  effectRuns st' = effectRuns st /\ (live st' = live st \/ live st' = None).
Proof.
  cbv zeta. destruct ev; simpl; unfold onChart; try case_decide; auto.
  destruct (live st) as [r|] eqn:El; [|by auto]. case_decide; [|by auto].
  unfold App.settle. destruct outcome as [m|r']; [|destruct (fetchYahooSPX r')]; auto.
Qed.

(** The flag and the start of the drag after a handler. *)
Lemma handle_drag now st ev :
  let v := view st in let v' := view (handle now st ev) in
  isPanning v = bool_decide (is_Some (panStart v)) ->
  isPanning v' = bool_decide (is_Some (panStart v')).
Proof.
  cbv zeta. intros Hf. destruct ev; simpl; unfold onChart; try case_decide; try done.
  - unfold onWheel. by case_decide.
  - destruct (live st) as [r|]; [|done]. case_decide; [|done].
    unfold App.settle. by destruct outcome as [m|r']; [|destruct (fetchYahooSPX r')].
Qed.

(** A domain override after a handler was there before, or the chart
    was shown and the start is what it was; the raw data are the
    same. *)
Lemma handle_domain now st ev d :
  let st' := handle now st ev in
  domain (view st') = Some d ->
  rawData st' = rawData st /\
  (showsChart st /\ startISO st' = startISO st \/ domain (view st) = Some d).
Proof.
  cbv zeta. destruct ev; simpl; unfold onChart; try case_decide; auto; try done.
  destruct (live st) as [r|] eqn:El; [|by auto]. case_decide; [|by auto].
  unfold App.settle. by destruct outcome as [m|r']; [|destruct (fetchYahooSPX r')].
Qed.

(** ** Invariants of the component *)

Lemma showsChart_rawData st : showsChart st -> rawData st <> [].
Proof.
  unfold App.showsChart. rewrite synth_length. unfold App.filtered.
  intros Hl Hr. rewrite Hr in Hl. simpl in Hl. lia.
Qed.

(** The flag [isPanning] says whether a drag has started and not
    ended. *)
Theorem reachable_drag_flag st :
  reachable st -> isPanning (view st) = bool_decide (is_Some (panStart (view st))).
Proof.
  induction 1 as [now|now st ev _ IH]; [done|]. unfold App.dispatch.
  destruct (commit_frame now st (handle now st ev)) as (_&_&_&_&_&_&_&_&->&->&_).
  by apply handle_drag.
Qed.

(** C9: A domain override exists only while the chart is shown. *)
Theorem reachable_domain_shown st d :
  reachable st -> domain (view st) = Some d -> showsChart st.
Proof.
  intros Hr. revert d. induction Hr as [now|now st ev _ IH]; [done|]. intros d.
  unfold App.dispatch. set (st' := handle now st ev).
  intros (Hd & Hdeps)%commit_domain. pose proof Hd as (Hraw & Hprev)%handle_domain.
  fold st' in Hraw, Hprev.
  assert (showsChart st) as Hshown by (destruct Hprev as [[? _]|?]; eauto).
  pose proof (showsChart_rawData st Hshown) as Hne.
  destruct Hdeps as [[Hs _]|Hnil]; [|congruence].
  destruct (commit_frame now st st') as (_&_&_&_&Hr'&Hi'&_).
  apply (showsChart_ext st'); [done| |by apply (showsChart_ext st)].
  rewrite commit_startTs. apply sameValue_refl.
Qed.

Lemma selectRange_sameValue interval a b now :
  sameValue a b -> selectRange interval a now = selectRange interval b now.
Proof.
  intros Hs%sameValue_spec. destruct a, b; try done.
  by apply selectRange_same_start.
Qed.

Lemma commit_id now st : commit now st st = st.
Proof.
  unfold App.commit, App.resetEffect, App.fetchEffect.
  pose proof (sameValue_refl (startTs st)).
  rewrite (decide_True (P := _ /\ _ /\ _)) by done. by rewrite decide_True.
Qed.

(** An event leaves the run and its request, or ends the request; or
    it begins the next run, with the request the policy chooses. *)
Lemma dispatch_runs now st ev :
  let st' := dispatch now st ev in
  effectRuns st' = effectRuns st /\ interval st' = interval st /\
  sameValue (startTs st) (startTs st') /\ (live st' = live st \/ live st' = None)
  \/ effectRuns st' = S (effectRuns st) /\
     live st' = Some (mkRequest (S (effectRuns st))
                        (selectRange (interval st') (startTs st') now)
                        (yahooInterval (interval st'))).
Proof.
  cbv zeta. unfold App.dispatch. set (st' := handle now st ev).
  destruct (commit_frame now st st') as (_&Hi&_). rewrite commit_startTs, Hi.
  destruct (handle_fetch now st ev) as [Hruns Hlive]. fold st' in Hruns, Hlive.
  destruct (decide (interval st = interval st' /\ key st = key st'
                    /\ sameValue (startTs st) (startTs st'))) as [(Ei & Ek & Es)|Hch].
  - left. by destruct (commit_keeps now st st' Ei Ek Es) as (-> & _ & ->).
  - right. destruct (commit_restarts now st st') as (-> & _ & ->); [|by rewrite Hruns].
    apply not_and_l in Hch as [?|Hch]; [by auto|].
    apply not_and_l in Hch as [?|?]; by auto.
Qed.

(** The outcome of a run that is not the live one changes nothing. *)
Lemma dispatch_stale now st run outcome :
  (forall r, live st = Some r -> req_run r <> run) ->
  dispatch now st (FetchSettled run outcome) = st.
Proof.
  intros Hl. unfold App.dispatch, App.handle.
  destruct (live st) as [r|]; [|apply commit_id].
  rewrite decide_False by by apply Hl. apply commit_id.
Qed.

Lemma live_request_inv st r :
  reachable st -> live st = Some r ->
  req_run r = effectRuns st /\ req_interval r = yahooInterval (interval st) /\
  exists now, req_range r = selectRange (interval st) (startTs st) now.
Proof.
  intros Hr. revert r. induction Hr as [now|now st ev _ IH]; intros r.
  { intros [= <-]. split_and!; [done..|]. by exists now. }
  destruct (dispatch_runs now st ev) as [(-> & -> & Es & [->| ->])|[-> ->]]; [|done|].
  - intros (? & ? & now' & ?)%IH. split_and!; [done..|]. exists now'.
    by rewrite <- (selectRange_sameValue _ _ _ _ Es).
  - intros [= <-]. split_and!; [done..|]. by exists now.
Qed.

(** The request in flight is the one of the latest run of the effect,
    and it asks for what the policy chooses for the interval and the
    start of the state. *)
Theorem reachable_live_request st r :
  reachable st -> live st = Some r ->
  req_run r = effectRuns st /\ req_interval r = yahooInterval (interval st) /\
  exists now, req_range r = selectRange (interval st) (startTs st) now.
Proof. apply live_request_inv. Qed.

(** C10: A fetch that a later run of the effect has superseded is cancelled:
    when it settles, nothing changes. *)
Theorem superseded_fetch_discarded now now' st ev r outcome :
  reachable st -> live st = Some r ->
  effectRuns (dispatch now st ev) <> effectRuns st ->
  dispatch now' (dispatch now st ev) (FetchSettled (req_run r) outcome)
  = dispatch now st ev.
Proof.
  intros Hr Hl Hruns.
  destruct (live_request_inv st r Hr Hl) as (Hrun & _).
  set (st1 := dispatch now st ev) in *.
  assert (reachable st1) as Hr1 by (by constructor).
  unfold App.dispatch at 1. simpl.
  destruct (live st1) as [r1|] eqn:Hl1; [|apply commit_id].
  destruct (live_request_inv st1 r1 Hr1 Hl1) as (Hrun1 & _).
  rewrite decide_False by congruence. apply commit_id.
Qed.

(** The reload button, a new preset and a new interval each begin a
    new run. *)
Theorem restart_events now st ev :
  ev = ClickReload \/ (exists v, ev = SelectPreset v)
  \/ (exists v, ev = SelectInterval v /\ v <> interval st) ->
  effectRuns (dispatch now st ev) = S (effectRuns st).
Proof.
  intros Hev. unfold App.dispatch.
  destruct (commit_restarts now st (handle now st ev)) as (-> & _).
  - destruct Hev as [->|[[v ->]|(v & -> & Hv)]]; simpl; [right; left; lia..|by left].
  - by destruct (handle_fetch now st ev) as [-> _].
Qed.

(** The dispatch of the outcome of the live run. *)
Lemma dispatch_settled now st r outcome :
  live st = Some r ->
  let st1 := dispatch now st (FetchSettled (req_run r) outcome) in
  rawData st1
  = match outcome with
    | NetResponse resp =>
        match fetchYahooSPX resp with
        | inr spx => spx
        | inl _ => buildDemoSPX Math_sin Math_random now 0
        end
    | NetError _ => buildDemoSPX Math_sin Math_random now 0
    end /\
  domain (view st1) = None /\ live st1 = None /\ effectRuns st1 = effectRuns st /\
  forall now' outcome', dispatch now' st1 (FetchSettled (req_run r) outcome') = st1.
Proof.
  intros Hl. cbv zeta. set (st1 := dispatch now st _).
  assert (rawData st1 = rawData (settle now st outcome)
          /\ domain (view st1) = None /\ live st1 = None
          /\ effectRuns st1 = effectRuns st) as (Hr & Hd & Hl1 & Hruns).
  { subst st1. unfold App.dispatch, App.handle. rewrite Hl, decide_True by done.
    set (st' := settle now st outcome).
    destruct (commit_frame now st st') as (Hi&_&_&Hk&Hraw&Hs&_&_&_&_&_&Hd).
    assert (interval st' = interval st /\ key st' = key st /\ startISO st' = startISO st
            /\ domain (view st') = None /\ live st' = None
            /\ effectRuns st' = effectRuns st) as (Ei & Ek & Es & Ed & El & Er).
    { subst st'. unfold App.settle.
      by destruct outcome as [m|r']; [|destruct (fetchYahooSPX r')]. }
    destruct (commit_keeps now st st') as (-> & _ & ->); [done..| |].
    { unfold App.startTs. rewrite Es. apply sameValue_refl. }
    split_and!; [done| |done..]. destruct Hd as [->| ->]; done. }
  clearbody st1. split_and!; [|done..|].
  - rewrite Hr. unfold App.settle.
    destruct outcome as [m|r']; [|destruct (fetchYahooSPX r')]; simpl; reflexivity.
  - intros now' outcome'. unfold App.dispatch, App.handle. rewrite Hl1. apply commit_id.
Qed.

(** When the fetch of the live run settles, its data or the demo
    series replace the raw data, the domain override is dropped and the
    request is gone, so that it cannot settle twice. *)
Theorem fetch_settled now st r outcome :
  live st = Some r ->
  let st1 := dispatch now st (FetchSettled (req_run r) outcome) in
  rawData st1
  = match outcome with
    | NetResponse resp =>
        match fetchYahooSPX resp with
        | inr spx => spx
        | inl _ => buildDemoSPX Math_sin Math_random now 0
        end
    | NetError _ => buildDemoSPX Math_sin Math_random now 0
    end /\
  domain (view st1) = None /\ live st1 = None /\ effectRuns st1 = effectRuns st /\
  forall now' outcome', dispatch now' st1 (FetchSettled (req_run r) outcome') = st1.
Proof. apply dispatch_settled. Qed.

(** The message shown with the demo series. *)
Theorem fetch_failed_error now st r outcome :
  live st = Some r ->
  let st1 := dispatch now st (FetchSettled (req_run r) outcome) in
  match outcome with
  | NetError "" => error st1 = "Failed to fetch data. Using demo series."
  | NetError message => error st1 = message
  | NetResponse resp =>
      match fetchYahooSPX resp with
      | inl e => error st1 = errorMessage e
      | inr _ => error st1 = error st
      end
  end.
Proof.
  intros Hl. cbv zeta. unfold App.dispatch, App.handle. rewrite Hl, decide_True by done.
  set (st' := settle now st outcome).
  assert (interval st' = interval st /\ key st' = key st /\ startISO st' = startISO st)
    as (Ei & Ek & Es).
  { subst st'. unfold App.settle.
    by destruct outcome as [m|r']; [|destruct (fetchYahooSPX r')]. }
  destruct (commit_keeps now st st') as (_ & -> & _); [done..| |].
  { unfold App.startTs. rewrite Es. apply sameValue_refl. }
  subst st'. unfold App.settle.
  destruct outcome as [[|c m]|r']; [done..|].
  by destruct (fetchYahooSPX r') as [[status|]|spx].
Qed.

(** The note of a failed fetch goes before the demo series does: a
    reload clears the note when it starts and leaves the data, so
    that until its response arrives the demo series is shown as if it
    were the data. *)
Theorem note_cleared_on_reload now now' st r message :
  live st = Some r -> message <> "" ->
  let failed := dispatch now st (FetchSettled (req_run r) (NetError message)) in
  let reloading := dispatch now' failed ClickReload in
  error failed = message /\
  rawData failed = buildDemoSPX Math_sin Math_random now 0 /\
  error reloading = "" /\ rawData reloading = rawData failed /\
  is_Some (live reloading).
Proof.
  intros Hl Hm. cbv zeta.
  destruct (dispatch_settled now st r (NetError message) Hl) as (Hd & _).
  pose proof (fetch_failed_error now st r (NetError message) Hl) as He.
  cbv zeta in He. set (failed := dispatch now st _) in *.
  destruct (commit_restarts now' failed (handle now' failed ClickReload))
    as (_ & Herr & Hlive); [right; left; simpl; lia|].
  destruct (commit_frame now' failed (handle now' failed ClickReload))
    as (_&_&_&_&Hraw&_).
  set (reloading := dispatch now' failed ClickReload).
  assert (reloading = commit now' failed (handle now' failed ClickReload)) as -> by done.
  rewrite Herr, Hlive, Hraw. split_and!; [by destruct message|done..|by eexists].
Qed.

End ComponentFacts.


(** ** Instances *)

#[local] Open Scope chart_scope.

Lemma reachable_drag_flag_witness :
  isPanning (view (mount (fun _ => None) 0))
  = bool_decide (is_Some (panStart (view (mount (fun _ => None) 0)))).
Proof.
  apply (reachable_drag_flag (fun _ => None) (fun _ => 0) (fun _ => 1 # 2)).
  apply reachable_mount.
Defined.

Lemma reachable_live_request_witness :
  req_run (mkRequest 1 "5d" "60m") = effectRuns (mount (fun _ => None) 0) /\
  req_interval (mkRequest 1 "5d" "60m")
  = yahooInterval (interval (mount (fun _ => None) 0)) /\
  exists now, req_range (mkRequest 1 "5d" "60m")
    = selectRange (interval (mount (fun _ => None) 0))
        (startTs (fun _ => None) (mount (fun _ => None) 0)) now.
Proof.
  apply (reachable_live_request (fun _ => None) (fun _ => 0) (fun _ => 1 # 2)
           (mount (fun _ => None) 0) (mkRequest 1 "5d" "60m")).
  - apply reachable_mount.
  - reflexivity.
Defined.

Lemma superseded_fetch_discarded_witness :
  dispatch (fun _ => None) (fun _ => 0) (fun _ => 1 # 2) 0
    (dispatch (fun _ => None) (fun _ => 0) (fun _ => 1 # 2) 0
       (mount (fun _ => None) 0) ClickReload)
    (FetchSettled (req_run (mkRequest 1 "5d" "60m")) (NetError "offline"))
  = dispatch (fun _ => None) (fun _ => 0) (fun _ => 1 # 2) 0
      (mount (fun _ => None) 0) ClickReload.
Proof.
  apply (superseded_fetch_discarded (fun _ => None) (fun _ => 0) (fun _ => 1 # 2)
           0 0 (mount (fun _ => None) 0) ClickReload (mkRequest 1 "5d" "60m")
           (NetError "offline")).
  - apply reachable_mount.
  - reflexivity.
  - by vm_compute.
Defined.

Lemma reachable_domain_shown_witness :
  showsChart (fun _ => None)
    (dispatch (fun _ => None) (fun _ => 0) (fun _ => 1 # 2) 0
       (dispatch (fun _ => None) (fun _ => 0) (fun _ => 1 # 2) 0
          (mount (fun _ => None) 0)
          (FetchSettled 1 (NetResponse (mkClientResponse true 200
             (Some [mkRaw (Some 0) (Some 100); mkRaw (Some 1000) (Some 110)])))))
       (Wheel (mkEvent 575 0 (-1)))).
Proof.
  eapply (reachable_domain_shown (fun _ => None) (fun _ => 0) (fun _ => 1 # 2)).
  - do 2 apply reachable_dispatch. apply reachable_mount.
  - vm_compute. reflexivity.
Defined.

Lemma start_after_last_witness :
  let st := mkApp "SYNTHETIC:+2" "D" Light 0 "" [0 ↦ 100; 1000 ↦ 110] "2030-01-01T00:00"
              100 Linear initialView 1 None in
  filtered (fun _ => Some 5000) st = [] /\ synth (fun _ => Some 5000) st = [] /\
  ~ showsChart (fun _ => Some 5000) st /\ chart (fun _ => Some 5000) st = emptyChart.
Proof.
  apply (start_after_last (fun _ => Some 5000)
           (mkApp "SYNTHETIC:+2" "D" Light 0 "" [0 ↦ 100; 1000 ↦ 110] "2030-01-01T00:00"
              100 Linear initialView 1 None) 5000 (1000 ↦ 110)); by vm_compute.
Defined.

Lemma fetch_settled_witness :
  let st1 := dispatch (fun _ => None) (fun _ => 0) (fun _ => 1 # 2) 0
               (mount (fun _ => None) 0)
               (FetchSettled 1 (NetResponse (mkClientResponse true 200
                  (Some [mkRaw (Some 0) (Some 100); mkRaw (Some 1000) (Some 110)])))) in
  rawData st1 = [0 ↦ 100; 1000 ↦ 110] /\
  domain (view st1) = None /\ live st1 = None /\ effectRuns st1 = 1%nat /\
  forall now' outcome',
    dispatch (fun _ => None) (fun _ => 0) (fun _ => 1 # 2) now' st1
      (FetchSettled 1 outcome') = st1.
Proof.
  apply (fetch_settled (fun _ => None) (fun _ => 0) (fun _ => 1 # 2) 0
           (mount (fun _ => None) 0) (mkRequest 1 "5d" "60m")
           (NetResponse (mkClientResponse true 200
              (Some [mkRaw (Some 0) (Some 100); mkRaw (Some 1000) (Some 110)])))).
  reflexivity.
Defined.
