(* ===== verification/Controls.v ===== *)
(** * Controls: the form above the chart

    The controls the component renders above the chart
    ([src/src/LiveSP500Canvas.jsx], lines 784-924): four selects, two
    inputs and three buttons, each with the value it shows and the
    event its handler raises, and the local [Card] and [Button]
    components (lines 4-28).  The elements around them are in
    [Markup].

    A select offers its options and nothing else, and a number input
    a number or nothing: [fires] says which events a control can
    raise, [offered] which events the page can
    raise in a state, and [uiReachable] which states the component
    reaches when its events come from the page.  In those states every
    select shows one of its options, and the leverage is one of the
    twenty multiples of the presets: what [parseLeverage] does not
    check, the page does not send. *)

From Stdlib Require Import QArith Qminmax Qround Qabs Lqa Lia ZArith Ascii.
From stdpp Require Import base decidable list option strings numbers sorting relations.
From S2P Require Import Prelude JsText JsDate Series Leverage Interval Scale Viewport App.

#[local] Open Scope Q_scope.

(** ** The local components *)

(** [Card] (lines 4-10): the class of its [div]. *)
Definition cardClass (className : string) : string :=
  "rounded-2xl border bg-white shadow " +:+ className.

(** [Button] (lines 16-28): the class of its [button]. *)
Definition buttonClass (variant className : string) : string :=
  let base := "px-3 py-2 text-sm font-medium rounded-2xl border transition-colors" in
  let styles :=
    if decide (variant = "secondary")
    then " bg-slate-50 hover:bg-slate-100 border-slate-300"
    else " bg-slate-900 text-white hover:bg-slate-700 border-slate-900" in
  base +:+ styles +:+ " " +:+ className.

(** ** The controls *)

(** A control: its label, the class of its element, what it shows,
    and the event of its handler.  The options of a select are pairs
    of a label and a value, inside an [optgroup] if the select has
    one, with keys made of a prefix and the value if the options come
    from a [map]; the handler of a select or an input receives
    [e.target.value]. *)
Inductive Control :=
| Select (label class value : string) (optgroup keyPrefix : option string)
         (options : list (string * string)) (onChange : string -> Event)
| Input (label type class : string) (step min : option Q) (value : Piece)
        (onChange : string -> Event)
| Button (label class : string) (onClick : Event).

(** The value of the state cells [theme] and [yMode], which are
    strings in the source. *)
Definition themeValue (t : Theme) : string :=
  match t with Light => "light" | Dark => "dark" end.

Definition yModeValue (m : YMode) : string :=
  match m with Linear => "linear" | Log => "log" | Percent => "percent" end.

(** [SYNTHETIC_PRESETS], as the options of its select (lines 800-808). *)
Definition presetOptions : list (string * string) :=
  (fun o => (opt_label o, opt_value o)) <$> buildSyntheticOptions.

Definition themeOptions : list (string * string) :=
  [("Light", "light"); ("Dark", "dark")].

Definition controls (st : AppState) : list Control :=
  [Select "Synthetic Leverage" "border rounded-xl p-2 w-40" (preset st)
          (Some "Synthetic Leverage (±1x to ±10x)") (Some "preset-")
          presetOptions SelectPreset;
   Select "Interval" "border rounded-xl p-2 w-32" (interval st) None (Some "int-")
          INTERVAL_OPTIONS SelectInterval;
   Select "Theme" "border rounded-xl p-2 w-32" (themeValue (theme st)) None None
          themeOptions SelectTheme;
   Input "Start (datetime-local)" "datetime-local" "border rounded-xl p-2 w-56"
         None None (Text (startISO st)) InputStart;
   Input "Base (starting value)" "number" "border rounded-xl p-2 w-32"
         (Some 1) (Some 0) (Number (baseValue st)) InputBase;
   Select "Y Scale" "border rounded-xl p-2 w-32" (yModeValue (yMode st)) None (Some "ys-")
          Y_SCALE_OPTIONS SelectYMode;
   Button "Reload" (buttonClass "primary" "") ClickReload;
   Button "Fit" (buttonClass "secondary" "") ClickFit;
   Button "Reset" (buttonClass "secondary" "") ClickReset].

(** The keys of the options of a select (lines 803, 826 and 898). *)
Definition optionKeys (c : Control) : list string :=
  match c with
  | Select _ _ _ _ (Some prefix) options _ => (fun o => prefix +:+ o.2) <$> options
  | _ => []
  end.

(** ** The events of the page *)

(** A valid floating-point number of HTML: an optional minus, digits
    or a point with digits after it or both, and an optional
    exponent. *)
Definition validFloat (s : string) : bool :=
  let body := match s with String "-"%char r => r | _ => s end in
  let '(ip, r1) := takeDigits 10 body in
  match r1 with
  | String "."%char r =>
      let '(fp, r2) := takeDigits 10 r in
      bool_decide (fp <> []) && bool_decide (is_Some (parseExponent r2))
  | _ => bool_decide (ip <> []) && bool_decide (is_Some (parseExponent r1))
  end.

(** What [e.target.value] of an input can be: the value sanitization
    of a number input leaves a valid floating-point number or the
    empty text, so that no text such as "Infinity" reaches the
    handler; a text of any other type is not constrained here. *)
Definition sanitized (type s : string) : Prop :=
  type = "number" -> s = "" \/ validFloat s = true.

#[export] Instance sanitized_decision type s : Decision (sanitized type s) := _.

(** The events a control can raise: a select, with the value of one
    of its options; an input, with a text its type lets through
    ([min] does not keep a typed value out); a button, its click. *)
Inductive fires : Control -> Event -> Prop :=
| fires_select l c v g k opts f o : o ∈ opts -> fires (Select l c v g k opts f) (f o.2)
| fires_input l t c st m v f s : sanitized t s -> fires (Input l t c st m v f) (f s)
| fires_button l c ev : fires (Button l c ev) ev.

(** The events the page can raise in a state: those of its controls,
    the gestures on the chart, and the settling of a fetch. *)
Definition offered (st : AppState) (ev : Event) : Prop :=
  match ev with
  | Wheel _ | PointerDown _ | PointerMove _ | PointerUp | PointerLeave
  | FetchSettled _ _ => True
  | _ => exists c, c ∈ controls st /\ fires c ev
  end.

(** A select shows one of its options. *)
Definition consistent (c : Control) : Prop :=
  match c with
  | Select _ _ v _ _ opts _ => v ∈ opts.*2
  | _ => True
  end.

(** The two selects whose state cell is the string itself. *)
Definition selected (st : AppState) : Prop :=
  preset st ∈ presetOptions.*2 /\ interval st ∈ INTERVAL_OPTIONS.*2.

Section Page.
Context `{ExpLog}.
Variables (Date_parse : string -> option Q).
Variables (Math_sin : Q -> Q) (Math_random : nat -> Q).

(** The states the component reaches by the events of the page. *)
Inductive uiReachable : AppState -> Prop :=
| ui_mount now : uiReachable (mount Date_parse now)
| ui_dispatch now st ev :
    uiReachable st -> offered st ev ->
    uiReachable (dispatch Date_parse Math_sin Math_random now st ev).

End Page.

(** Case analysis on a control of the page. *)
Ltac in_controls H :=
  unfold controls in H;
  repeat (apply elem_of_cons in H as [->|H]); [..|by apply elem_of_nil in H].

(** * Theorems *)

(** ** What the page raises *)

(** The value a select sends is the value of one of its options. *)
Lemma offered_inv st ev :
  offered st ev ->
  match ev with
  | SelectPreset v => v ∈ presetOptions.*2
  | SelectInterval v => v ∈ INTERVAL_OPTIONS.*2
  | SelectTheme v => v ∈ themeOptions.*2
  | SelectYMode v => v ∈ Y_SCALE_OPTIONS.*2
  | _ => True
  end.
Proof.
  destruct ev; try done; intros (c & Hc & Hf); in_controls Hc;
    inversion Hf; simplify_eq; by apply list_elem_of_fmap_2.
Qed.

(** The options of a select have keys of their own, and values of
    their own: a value names one option. *)
Theorem option_keys_NoDup st :
  Forall (fun c => NoDup (optionKeys c)) (controls st) /\
  NoDup presetOptions.*2 /\ NoDup INTERVAL_OPTIONS.*2 /\ NoDup Y_SCALE_OPTIONS.*2.
Proof.
  split_and!; [repeat constructor; cbn [optionKeys]|..];
    try apply NoDup_nil_2; apply (bool_decide_unpack _); by vm_compute.
Qed.

(** ** The selects show what was chosen *)

Lemma consistent_controls st : Forall consistent (controls st) <-> selected st.
Proof.
  unfold controls, selected. rewrite !Forall_cons. cbn [consistent]. split.
  - by intros (? & ? & _).
  - intros [? ?]. split_and!; try done.
    + destruct (theme st); by in_list.
    + destruct (yMode st); by in_list.
Qed.


Section PageFacts.
Context `{ExpLog}.
Variables (Date_parse : string -> option Q).
Variables (Math_sin : Q -> Q) (Math_random : nat -> Q).

#[local] Abbreviation handle := (handle Date_parse Math_sin Math_random).
#[local] Abbreviation dispatch := (dispatch Date_parse Math_sin Math_random).
#[local] Abbreviation uiReachable := (uiReachable Date_parse Math_sin Math_random).

Lemma selected_initial : selected initialState.
Proof.
  unfold selected. evaluate (presetOptions.*2). evaluate (INTERVAL_OPTIONS.*2).
  split; by in_list.
Qed.

(** A handler leaves a select as it is, or sets it to the value of the
    event, or, on reset, to its first state. *)
Lemma handle_selected now st ev :
  offered st ev -> selected st -> selected (handle now st ev).
Proof.
  intros Ho%offered_inv [Hp Hi]. destruct ev; simpl; unfold onChart;
    try case_decide; try (by split); [apply selected_initial|].
  destruct (live st) as [r|]; [case_decide|]; try (by split).
  unfold settle. destruct outcome as [m|r']; [|destruct (fetchYahooSPX r')]; by split.
Qed.

(** The effects do not write the cells the controls show. *)
Lemma controls_commit now old new :
  controls (commit Date_parse now old new) = controls new.
Proof.
  destruct (commit_frame Date_parse now old new) as (Hp&Hi&Ht&_&_&Hs&Hb&Hy&_).
  unfold controls. by rewrite Hp, Hi, Ht, Hs, Hb, Hy.
Qed.

(** The states of the page are states of the component: what holds
    in every reachable state holds in these. *)
Lemma uiReachable_reachable st :
  uiReachable st -> reachable Date_parse Math_sin Math_random st.
Proof. induction 1; by constructor. Qed.

Lemma ui_selected st : uiReachable st -> selected st.
Proof.
  induction 1 as [now|now st ev _ IH Ho]; [apply selected_initial|].
  apply consistent_controls. unfold App.dispatch. rewrite controls_commit.
  by apply consistent_controls, handle_selected.
Qed.

(** In every state the page leads to, each select shows one of its
    options. *)
Theorem ui_consistent st : uiReachable st -> Forall consistent (controls st).
Proof. by intros Hr%ui_selected%consistent_controls. Qed.

(** C14: There the leverage is a non-zero integer between -10 and 10: the
    multiple of a preset. *)
Theorem ui_leverage st :
  uiReachable st ->
  exists k : Z, leverage st == inject_Z k /\ (k <> 0 /\ -10 <= k <= 10)%Z.
Proof.
  intros [Hp _]%ui_selected. unfold presetOptions in Hp.
  rewrite <- list_fmap_compose in Hp.
  apply list_elem_of_fmap in Hp as (o & E & Ho). unfold leverage. rewrite E.
  by apply (proj1 (Forall_forall _ _) leverageOf_presets o).
Qed.

(** Choosing an option of a select makes the select show it: the
    handler stores what the select reads back. *)
Theorem select_shows_choice now st i l c v g k opts f o :
  controls st !! i = Some (Select l c v g k opts f) -> o ∈ opts ->
  controls (dispatch now st (f o.2)) !! i = Some (Select l c o.2 g k opts f).
Proof.
  intros Hi Ho. unfold App.dispatch. rewrite controls_commit.
  destruct i as [|[|[|[|[|[|[|[|[|i]]]]]]]]]; simpl in Hi; try done;
    injection Hi as <- <- <- <- <- <- <-; try reflexivity;
    by repeat (apply elem_of_cons in Ho as [->|Ho]); [..|by apply elem_of_nil in Ho].
Qed.

(** Reset shows the form of the first render, whatever was chosen. *)
Theorem reset_controls now st :
  controls (dispatch now st ClickReset) = controls initialState.
Proof. unfold App.dispatch. by rewrite controls_commit. Qed.

(** The input of the base asks for a number from 0; a typed negative
    number is stored as it is. *)
Example base_below_min :
  let st := handle 0 initialState (InputBase "-5") in
  offered initialState (InputBase "-5") /\
  Input "Base (starting value)" "number" "border rounded-xl p-2 w-32"
        (Some 1) (Some 0) (Number (-5)) InputBase ∈ controls st.
Proof.
  split.
  - exists (Input "Base (starting value)" "number" "border rounded-xl p-2 w-32"
                  (Some 1) (Some 0) (Number 100) InputBase).
    split; [by in_list|by apply (fires_input _ _ _ _ _ _ InputBase "-5"); right].
  - by in_list.
Qed.

End PageFacts.

(** ** Instances *)

Lemma ui_consistent_witness :
  Forall consistent
    (controls (dispatch (H := RatExpLog) (fun _ => None) (fun x => x) (fun _ => 0) 0
                 (mount (fun _ => None) 0) (SelectPreset "SYNTHETIC:-3"))).
Proof.
  apply (ui_consistent (H := RatExpLog) (fun _ => None) (fun x => x) (fun _ => 0)).
  apply ui_dispatch; [apply ui_mount|].
  exists (Select "Synthetic Leverage" "border rounded-xl p-2 w-40" "SYNTHETIC:+1"
                 (Some "Synthetic Leverage (±1x to ±10x)") (Some "preset-")
                 presetOptions SelectPreset).
  split; [by left|].
  apply (fires_select _ _ _ _ _ _ SelectPreset ("-3x SPX", "SYNTHETIC:-3")).
  evaluate presetOptions. by in_list.
Defined.

Lemma ui_leverage_witness :
  exists k : Z, leverage (mount (fun _ => None) 0) == inject_Z k
                /\ (k <> 0 /\ -10 <= k <= 10)%Z.
Proof.
  apply (ui_leverage (H := RatExpLog) (fun _ => None) (fun x => x) (fun _ => 0)).
  apply ui_mount.
Defined.

Lemma select_shows_choice_witness :
  controls (dispatch (H := RatExpLog) (fun _ => None) (fun x => x) (fun _ => 0) 0
              initialState (SelectTheme "dark")) !! 2%nat
  = Some (Select "Theme" "border rounded-xl p-2 w-32" "dark" None None
                 themeOptions SelectTheme).
Proof.
  apply (select_shows_choice (H := RatExpLog) (fun _ => None) (fun x => x) (fun _ => 0)
           0 initialState 2 "Theme" "border rounded-xl p-2 w-32" "light" None None
           themeOptions SelectTheme ("Dark", "dark"));
    [done|by in_list].
Defined.
