(* ===== verification/Request.v ===== *)
(** * Request: the request of the series, from the component to the provider

    The client builds the URL of the proxy from the range and the
    interval ([fetchYahooSPX], [src/src/LiveSP500Canvas.jsx], lines
    119-123); the platform parses the query of that URL into
    [req.query]; the proxy ([api/spx.js], staged as
    [src/unnamed/part_000], lines 7-16) takes [range] and [interval]
    from it, with the defaults "2y" and "1d", and builds the URL of the
    provider.  [serve] is the whole handler: the request, then the
    response of [Series.handler].

    [queryOf] is the platform's part, modelled from the WHATWG URL
    parser: the text after the first [?], cut at [&], each piece cut
    at its first [=], [+] read as a space and the escapes undone (in
    a piece with a malformed escape the well-formed ones are undone
    and the others stay).  A key that
    occurs more than once has the array of its values, which
    [encodeURIComponent] turns into their texts joined by commas.

    The theorems follow a request through: the query of the client's
    URL is the range and the interval it was built from, for every
    string; so the proxy asks the provider for what the client asked;
    and the tokens the component sends need no escape. *)

From Stdlib Require Import QArith Lia ZArith Ascii.
From stdpp Require Import base decidable list option strings.
From S2P Require Import Prelude JsText JsDate Series Leverage Interval Scale Viewport App Controls.

(** ** The client *)

(** Lines 119-123 of [fetchYahooSPX]. *)
Definition clientUrl (range interval : string) : string :=
  "/api/spx?range=" +:+ encodeURIComponent range
  +:+ "&interval=" +:+ encodeURIComponent interval.

(** ** The platform *)

(** The text before the first [sep], and the text after it if there
    is one. *)
Fixpoint cutAt (sep : ascii) (s : string) : string * option string :=
  match s with
  | "" => ("", None)
  | String c s' =>
      if Ascii.eqb c sep then ("", Some s')
      else let '(a, b) := cutAt sep s' in (String c a, b)
  end.

Fixpoint plusToSpace (s : string) : string :=
  match s with
  | "" => ""
  | String c s' => String (if Ascii.eqb c "+" then " "%char else c) (plusToSpace s')
  end.

(** The decoding of a text whose escapes [decodeURIComponent]
    rejects: an escape of two hexadecimal digits is undone, any other
    [%] stays. *)
Fixpoint unescapeBuffer (s : string) : string :=
  match s with
  | "" => ""
  | String "%" (String h (String l s') as t) =>
      match digitOf 16 h, digitOf 16 l with
      | Some a, Some b => String (ascii_of_N (16 * a + b)) (unescapeBuffer s')
      | _, _ => String "%" (unescapeBuffer t)
      end
  | String c s' => String c (unescapeBuffer s')
  end.

(** The text of a name or of a value: [decodeURIComponent], and the
    decoding above when it throws. *)
Definition unescape (s : string) : string :=
  default (unescapeBuffer (plusToSpace s)) (decodeURIComponent (plusToSpace s)).

Definition parseQuery (q : string) : list (string * string) :=
  (fun piece => let '(k, v) := cutAt "=" piece in (unescape k, unescape (default "" v)))
    <$> split "&" q.

(** [req.query] for the URL of a request. *)
Definition queryOf (url : string) : list (string * string) :=
  match (cutAt "?" url).2 with
  | Some q => parseQuery q
  | None => []
  end.

(** [req.query[key]], as the text [encodeURIComponent] makes of it:
    [None] is [undefined]; the value of a key that occurs once is its
    text; a key that occurs more than once has the array of its
    values, and the text of an array joins its elements with commas. *)
Definition param (query : list (string * string)) (key : string) : option string :=
  match (filter (fun kv => kv.1 = key) query).*2 with
  | [] => None
  | v :: vs => Some (foldl (fun acc w => acc +:+ "," +:+ w) v vs)
  end.

(** ** The proxy *)

(** Line 7: [const { range = "2y", interval = "1d" } = req.query]. *)
Definition rangeOf (query : list (string * string)) : string :=
  default "2y" (param query "range").

Definition intervalOf (query : list (string * string)) : string :=
  default "1d" (param query "interval").

(** Line 9. *)
Definition symbol : string := "^GSPC".

(** Lines 10-16. *)
Definition upstreamUrl (query : list (string * string)) : string :=
  "https://query1.finance.yahoo.com/v8/finance/chart/"
  +:+ encodeURIComponent symbol
  +:+ "?range=" +:+ encodeURIComponent (rangeOf query)
  +:+ "&interval=" +:+ encodeURIComponent (intervalOf query).

(** The handler of lines 5-50: [fetch] is the provider, from the URL
    it is asked to the outcome. *)
Definition serve (fetch : string -> Upstream) (url : string) : Response :=
  handler (fetch (upstreamUrl (queryOf url))).

(** ** The request of the component *)

(** The URL the fetch effect asks for a request (line 489). *)
Definition requestUrl (r : Request) : string :=
  clientUrl (req_range r) (req_interval r).

(** The tokens of the range policy and of the interval table. *)
Definition rangeTokens : list string := ["5d"; "2y"; "5y"; "10y"; "max"].
Definition intervalTokens : list string := ["1m"; "5m"; "15m"; "60m"; "1d"; "1wk"; "1mo"].

(** * Theorems *)

(** ** The platform reads what the client wrote *)

Lemma plusToSpace_safe (s : string) : allChars uriSafe s = true -> plusToSpace s = s.
Proof.
  induction s as [|c s IH]; simpl; [done|]. intros [Hc Hs]%andb_true_iff.
  rewrite IH by done. by destruct c as [[] [] [] [] [] [] [] []].
Qed.

(** An escaped string is unescaped to the string. *)
Lemma unescape_encode (s : string) : unescape (encodeURIComponent s) = s.
Proof.
  unfold unescape. rewrite plusToSpace_safe by apply encodeURIComponent_safe.
  by rewrite decode_encodeURIComponent.
Qed.

Lemma encode_no (sep : ascii) (s : string) :
  uriSafe sep = false ->
  allChars (fun c => negb (Ascii.eqb c sep)) (encodeURIComponent s) = true.
Proof.
  intros Hsep. apply (allChars_impl uriSafe); [|apply encodeURIComponent_safe].
  intros c Hc. apply negb_true_iff, Ascii.eqb_neq. intros ->. congruence.
Qed.

(** ** Pieces of a query *)

Lemma cutAt_app (sep : ascii) (a b : string) :
  allChars (fun c => negb (Ascii.eqb c sep)) a = true ->
  cutAt sep (a +:+ String sep b) = (a, Some b).
Proof.
  induction a as [|c a IH]; simpl.
  - intros _. by rewrite Ascii.eqb_refl.
  - intros [Hc Ha]%andb_true_iff. apply negb_true_iff in Hc. by rewrite Hc, IH.
Qed.

Lemma unreserved_no (sep : ascii) (s : string) :
  uriSafe sep = false -> allChars uriUnreserved s = true ->
  allChars (fun c => negb (Ascii.eqb c sep)) s = true.
Proof.
  intros Hsep. apply allChars_impl. intros c Hc.
  apply negb_true_iff, Ascii.eqb_neq. intros ->.
  unfold uriSafe in Hsep. rewrite Hc in Hsep. done.
Qed.

Lemma unescape_unreserved (s : string) : allChars uriUnreserved s = true -> unescape s = s.
Proof.
  intros Hs. rewrite <- (encodeURIComponent_unreserved s Hs) at 1.
  apply unescape_encode.
Qed.

(** A piece [k=v] with an escaped value is read as the key and the
    value. *)
Lemma piece_pair (k v : string) :
  allChars uriUnreserved k = true ->
  let piece := k +:+ String "=" (encodeURIComponent v) in
  allChars (fun c => negb (Ascii.eqb c "&")) piece = true /\
  (let '(k', v') := cutAt "=" piece in (unescape k', unescape (default "" v'))) = (k, v).
Proof.
  intros Hk. cbv zeta. split.
  - rewrite allChars_app. simpl. by rewrite unreserved_no, encode_no.
  - rewrite cutAt_app by by apply unreserved_no. simpl.
    by rewrite unescape_unreserved, unescape_encode.
Qed.

Lemma parseQuery_last (k v : string) :
  allChars uriUnreserved k = true ->
  parseQuery (k +:+ String "=" (encodeURIComponent v)) = [(k, v)].
Proof.
  intros [Hp Hkv]%(piece_pair k v). unfold parseQuery.
  by rewrite split_no_sep, list_fmap_singleton, Hkv.
Qed.

Lemma parseQuery_cons (k v rest : string) :
  allChars uriUnreserved k = true ->
  parseQuery (k +:+ String "=" (encodeURIComponent v +:+ String "&" rest))
  = (k, v) :: parseQuery rest.
Proof.
  intros [Hp Hkv]%(piece_pair k v). unfold parseQuery.
  change (String "=" (?a +:+ ?b)) with (String "=" a +:+ b).
  by rewrite <- append_assoc, split_app_sep, fmap_cons, Hkv.
Qed.

(** ** The platform reads what the client wrote *)

(** The query of the client's URL is the range and the interval it
    was built from, whatever characters they are made of. *)
Theorem queryOf_clientUrl (range interval : string) :
  queryOf (clientUrl range interval) = [("range", range); ("interval", interval)].
Proof.
  unfold queryOf, clientUrl. simpl.
  transitivity (("range", range)
                :: parseQuery ("interval" +:+ String "=" (encodeURIComponent interval)));
    [by apply (parseQuery_cons "range" range)|].
  by rewrite parseQuery_last.
Qed.

(** So the URL determines the range and the interval. *)
Corollary clientUrl_inj (r i r' i' : string) :
  clientUrl r i = clientUrl r' i' -> r = r' /\ i = i'.
Proof.
  intros E%(f_equal queryOf). rewrite !queryOf_clientUrl in E. by simplify_eq.
Qed.

(** ** The proxy asks for what the client asked *)

Lemma upstreamUrl_query (range interval : string) :
  upstreamUrl [("range", range); ("interval", interval)]
  = "https://query1.finance.yahoo.com/v8/finance/chart/%5EGSPC?range="
    +:+ encodeURIComponent range +:+ "&interval=" +:+ encodeURIComponent interval.
Proof. done. Qed.

Lemma serve_clientUrl (fetch : string -> Upstream) (range interval : string) :
  serve fetch (clientUrl range interval)
  = handler (fetch ("https://query1.finance.yahoo.com/v8/finance/chart/%5EGSPC?range="
                    +:+ encodeURIComponent range
                    +:+ "&interval=" +:+ encodeURIComponent interval)).
Proof. unfold serve. by rewrite queryOf_clientUrl, upstreamUrl_query. Qed.

(** C17: The provider is asked for the series of the index over the range
    and at the interval of the client's request, and the response is
    the handler's for the provider's answer. *)
Theorem serve_forwards (fetch : string -> Upstream) (range interval : string) :
  serve fetch (clientUrl range interval)
  = handler (fetch ("https://query1.finance.yahoo.com/v8/finance/chart/%5EGSPC?range="
                    +:+ encodeURIComponent range
                    +:+ "&interval=" +:+ encodeURIComponent interval)).
Proof. apply serve_clientUrl. Qed.

(** A request without a query, or with another one, is served with
    the defaults: two years of daily values. *)
Theorem serve_defaults (fetch : string -> Upstream) (url : string) :
  param (queryOf url) "range" = None -> param (queryOf url) "interval" = None ->
  serve fetch url
  = handler (fetch "https://query1.finance.yahoo.com/v8/finance/chart/%5EGSPC?range=2y&interval=1d").
Proof. intros Hr Hi. unfold serve, upstreamUrl, rangeOf, intervalOf. by rewrite Hr, Hi. Qed.

(** ** The requests of the component *)

Lemma selectRange_tokens interval startTs now :
  selectRange interval startTs now ∈ rangeTokens.
Proof.
  unfold selectRange, rangeTokens. case_decide; [by in_list|].
  destruct startTs as [start|]; [|by in_list]. cbv zeta.
  repeat case_decide; by in_list.
Qed.

(** The tokens of the table, for the intervals the select offers, and
    for any interval that is not a name of [Object.prototype]. *)
Lemma yahooInterval_tokens interval :
  interval ∉ objectPrototype.*1 -> yahooInterval interval ∈ intervalTokens.
Proof.
  intros Hn%assoc_None. unfold yahooInterval, intervalTokens. rewrite Hn.
  destruct (assoc YAHOO_INTERVAL_MAP interval) as [token|] eqn:E; [|by in_list].
  apply assoc_Some in E. unfold YAHOO_INTERVAL_MAP in E.
  repeat (apply elem_of_cons in E as [[= _ ->]|E]); [by in_list..|by apply elem_of_nil in E].
Qed.

Lemma INTERVAL_OPTIONS_plain interval :
  interval ∈ INTERVAL_OPTIONS.*2 -> interval ∉ objectPrototype.*1.
Proof.
  evaluate (INTERVAL_OPTIONS.*2). intros Hi.
  repeat (apply elem_of_cons in Hi as [->|Hi]); [..|by apply elem_of_nil in Hi];
    apply (bool_decide_unpack _); by vm_compute.
Qed.

(** The tokens are made of letters and digits. *)
Lemma tokens_unreserved :
  Forall (fun s => allChars uriUnreserved s = true) (rangeTokens ++ intervalTokens).
Proof. by repeat constructor. Qed.

Section Requests.
Context `{ExpLog}.
Variables (Date_parse : string -> option Q).
Variables (Math_sin : Q -> Q) (Math_random : nat -> Q).

(** In a state the page leads to, the request in flight asks for one
    of the five ranges at one of the seven intervals, and its URL
    needs no escape. *)
Theorem requestUrl_plain st r :
  uiReachable Date_parse Math_sin Math_random st -> live st = Some r ->
  req_range r ∈ rangeTokens /\ req_interval r ∈ intervalTokens /\
  requestUrl r = "/api/spx?range=" +:+ req_range r +:+ "&interval=" +:+ req_interval r.
Proof.
  intros Hui Hl. pose proof (uiReachable_reachable _ _ _ _ Hui) as Hr.
  destruct (live_request_inv _ _ _ st r Hr Hl) as (_ & Ei & now & Er).
  assert (req_range r ∈ rangeTokens) as Hrt by (rewrite Er; apply selectRange_tokens).
  assert (req_interval r ∈ intervalTokens) as Hit.
  { rewrite Ei. apply yahooInterval_tokens, INTERVAL_OPTIONS_plain.
    by apply ui_selected in Hui as [_ ?]. }
  split_and!; [done..|]. unfold requestUrl, clientUrl.
  pose proof (proj1 (Forall_forall _ _) tokens_unreserved) as Hu.
  by rewrite !encodeURIComponent_unreserved by (apply Hu, elem_of_app; auto).
Qed.

End Requests.

(** ** Instances *)

Lemma serve_defaults_witness :
  serve (fun _ => UpNotOk 404) "/api/spx"
  = handler ((fun _ => UpNotOk 404)
               "https://query1.finance.yahoo.com/v8/finance/chart/%5EGSPC?range=2y&interval=1d").
Proof. apply (serve_defaults (fun _ => UpNotOk 404) "/api/spx"); reflexivity. Defined.

Lemma clientUrl_inj_witness : "5d" = "5d" /\ "60m" = "60m".
Proof. apply (clientUrl_inj "5d" "60m" "5d" "60m"). reflexivity. Defined.

Lemma requestUrl_plain_witness :
  let r := mkRequest 1 "5d" "60m" in
  req_range r ∈ rangeTokens /\ req_interval r ∈ intervalTokens /\
  requestUrl r = "/api/spx?range=" +:+ req_range r +:+ "&interval=" +:+ req_interval r.
Proof.
  apply (requestUrl_plain (H := RatExpLog) (fun _ => None) (fun x => x) (fun _ => 0%Q)
           (mount (fun _ => None) 0%Q)); [apply ui_mount|reflexivity].
Defined.

(** An interval put into the state by hand that names a property of
    [Object.prototype] reaches the provider as the text of a function:
    the lookup of line 459 does not ask whether the property is the
    table's own. *)
Example requestUrl_inherited :
  yahooInterval "constructor" = "function Object() { [native code] }" /\
  upstreamUrl (queryOf (requestUrl (mkRequest 1 "10y" (yahooInterval "constructor"))))
  = "https://query1.finance.yahoo.com/v8/finance/chart/%5EGSPC?range=10y&interval="
    +:+ "function%20Object()%20%7B%20%5Bnative%20code%5D%20%7D".
Proof. by vm_compute. Qed.

(** A key given twice reaches the provider as the two values with a
    comma between them. *)
Example serve_repeated_key :
  upstreamUrl (queryOf "/api/spx?range=5d&range=1y&interval=1d")
  = "https://query1.finance.yahoo.com/v8/finance/chart/%5EGSPC?range=5d%2C1y&interval=1d".
Proof. by vm_compute. Qed.

(** A malformed escape stays in the value, beside the well-formed one
    that is undone. *)
Example queryOf_malformed :
  queryOf "/api/spx?range=5%zz%41&interval=%4" = [("range", "5%zzA"); ("interval", "%4")].
Proof. by vm_compute. Qed.

(** A range with characters of its own is escaped by the client,
    unescaped by the platform and escaped again by the proxy. *)
Example serve_escapes :
  clientUrl "1 y&x" "1d" = "/api/spx?range=1%20y%26x&interval=1d" /\
  upstreamUrl (queryOf (clientUrl "1 y&x" "1d"))
  = "https://query1.finance.yahoo.com/v8/finance/chart/%5EGSPC?range=1%20y%26x&interval=1d".
Proof. by vm_compute. Qed.
