(* ===== verification/Invariant.v ===== *)
(** * Invariant: the domain shown, in every state of the component

    [Viewport] shows that the gestures keep the domain inside the full
    extent of a series that does not change; [App] lets the series
    change under the gestures: a fetch settles, the start date is
    edited, the controls are reset.  This file composes the two.  The
    invariant [appInv] of the component says that the raw data are
    ordered by time and that the view satisfies the invariant of the
    viewport for the full extent of the synthetic series of the state.

    It is kept by every event, under two conditions that the code does
    not enforce and that [calm] states: a wheel event has its cursor
    over the plot, and the series does not change in the middle of a
    drag (the start of the drag is a ref that no effect clears); the
    series a fetch delivers is ordered by time, as the proxy delivers
    it for ordered upstream timestamps.  The examples of [Viewport]
    ([zoomDomain_far_cursor], [panDomain_stale_start]) show what happens
    without them, and [drag_across_fetch] shows it for the component:
    whenever a fetch settles during a drag on a series whose extent is
    narrower than the window the drag started on, the next move of the
    pointer shows a window that begins before the first point. *)

From Stdlib Require Import QArith Qminmax Qround Qabs Lqa Lia ZArith.
From stdpp Require Import base decidable list option strings numbers sorting relations.
From S2P Require Import Prelude JsText JsDate Series Leverage Interval Scale Viewport App.

#[local] Open Scope Q_scope.

(** ** The invariant and the calm events *)

Section Calm.
Context `{ExpLog}.
Variables (Date_parse : string -> option Q).

(** The series a settled fetch delivers, if it delivers one, is
    ordered by time. *)
Definition sortedOutcome (outcome : NetOutcome) : Prop :=
  match outcome with
  | NetResponse r =>
      match fetchYahooSPX r with
      | inr spx => time_sorted spx
      | inl _ => True
      end
  | NetError _ => True
  end.

Definition calm (st : AppState) (ev : Event) : Prop :=
  match ev with
  | Wheel e => overPlot (clientX e - rectLeft e)
  | InputStart _ | ClickReset => panStart (view st) = None
  | FetchSettled _ outcome => panStart (view st) = None /\ sortedOutcome outcome
  | _ => True
  end.

Definition appInv (st : AppState) : Prop :=
  time_sorted (rawData st)
  /\ viewInv (fullDomain (synth Date_parse st)) (view st).

Variables (Math_sin : Q -> Q) (Math_random : nat -> Q).

(** The states the component reaches by calm events. *)
Inductive calmly : AppState -> Prop :=
| calmly_mount now : calmly (mount Date_parse now)
| calmly_dispatch now st ev :
    calmly st -> calm st ev ->
    calmly (dispatch Date_parse Math_sin Math_random now st ev).

End Calm.

(** * Theorems *)

Section CalmFacts.
Context `{ExpLog}.
Variables (Date_parse : string -> option Q).
Variables (Math_sin : Q -> Q) (Math_random : nat -> Q).

#[local] Abbreviation startTs := (startTs Date_parse).
#[local] Abbreviation filtered := (filtered Date_parse).
#[local] Abbreviation synth := (synth Date_parse).
#[local] Abbreviation appInv := (appInv Date_parse).
#[local] Abbreviation handle := (handle Date_parse Math_sin Math_random).
#[local] Abbreviation commit := (commit Date_parse).
#[local] Abbreviation dispatch := (dispatch Date_parse Math_sin Math_random).
#[local] Abbreviation calmly := (calmly Date_parse Math_sin Math_random).

(** ** Ordered data *)

Lemma filtered_sorted st : time_sorted (rawData st) -> time_sorted (filtered st).
Proof.
  intros Hs. eapply StronglySorted_sublist; [|done].
  destruct (filteredData_suffix (rawData st) (startTs st) Hs) as [k E].
  unfold App.filtered. rewrite E at 2. by apply sublist_inserts_l.
Qed.

Lemma synth_sorted st : time_sorted (rawData st) -> time_sorted (synth st).
Proof. intros Hs. by apply buildSyntheticSeries_sorted, filtered_sorted. Qed.

(** ** States with the same extent, states without an override *)

(** The invariant carries over to a state with the same raw data and
    filtered series and the same drag, whose override is the same or
    none. *)
Lemma appInv_frame st st' :
  rawData st' = rawData st -> filtered st' = filtered st ->
  isPanning (view st') = isPanning (view st) ->
  panStart (view st') = panStart (view st) ->
  domain (view st') = domain (view st) \/ domain (view st') = None ->
  appInv st -> appInv st'.
Proof.
  intros Hr Hf Hi Hp Hd [Hs (HD & HP & HF)]. split; [by rewrite Hr|].
  rewrite fullDomain_synth, Hf, <- fullDomain_synth. split_and!.
  - intros d Hd'. destruct Hd as [E|E]; rewrite E in Hd'; [by apply HD|done].
  - by rewrite Hp.
  - by rewrite Hi, Hp.
Qed.

(** Without an override and without a drag the invariant asks for
    ordered data only. *)
Lemma appInv_reset st :
  time_sorted (rawData st) -> domain (view st) = None ->
  panStart (view st) = None -> isPanning (view st) = false -> appInv st.
Proof.
  intros Hs Hd Hp Hi. split; [done|]. split_and!.
  - by rewrite Hd.
  - by rewrite Hp.
  - by rewrite Hi, Hp.
Qed.

(** ** The effects *)

(** The effects keep the invariant. *)
Lemma commit_appInv now old new : appInv new -> appInv (commit now old new).
Proof.
  destruct (commit_frame Date_parse now old new)
    as (_&_&_&_&Hr&Hi&_&_&Hpan&Hps&_&Hd).
  apply appInv_frame; [done| |done..].
  unfold App.filtered, App.startTs. by rewrite Hr, Hi.
Qed.

(** After a change of the start on data that are not empty the effects
    leave no override. *)
Lemma commit_appInv_start now old new :
  time_sorted (rawData new) -> rawData new <> [] ->
  ~ sameValue (startTs old) (startTs new) ->
  panStart (view new) = None -> isPanning (view new) = false ->
  appInv (commit now old new).
Proof.
  intros Hs Hne Hch Hp Hi.
  destruct (commit_frame Date_parse now old new)
    as (_&_&_&_&Hr&_&_&_&Hpan&Hps&_&_).
  apply appInv_reset; [by rewrite Hr| |by rewrite Hps|by rewrite Hpan].
  destruct (domain (view (commit now old new))) as [d|] eqn:Ed; [|done].
  by apply commit_domain in Ed as (_ & [[? _]|?]).
Qed.

(** ** The handlers *)

Lemma setView_appInv st v :
  time_sorted (rawData st) -> viewInv (fullDomain (synth st)) v ->
  appInv (setView st v).
Proof. by split. Qed.

(** A gesture on the chart keeps the invariant. *)
Lemma gesture_appInv st v :
  gesture (synth st) (interval st) (yMode st) (view st) v ->
  appInv st -> appInv (setView st v).
Proof.
  intros Hg [Hs Hv]. apply setView_appInv; [done|].
  by eapply gesture_viewInv; [apply synth_sorted| |].
Qed.

Lemma onChart_appInv st f :
  gesture (synth st) (interval st) (yMode st) (view st) (f (view st)) ->
  appInv st -> appInv (onChart Date_parse st f).
Proof. intros Hg Hinv. unfold onChart. case_decide; [|done]. by apply gesture_appInv. Qed.

(** Under the invariant, no drag in progress means the flag is off. *)
Lemma appInv_idle st : appInv st -> panStart (view st) = None -> isPanning (view st) = false.
Proof.
  intros (_ & _ & _ & ->) ->. apply bool_decide_eq_false_2, is_Some_None.
Qed.

(** What a settled fetch leaves: ordered data, no override. *)
Lemma settle_appInv now st outcome :
  sortedOutcome outcome -> panStart (view st) = None -> appInv st ->
  appInv (settle Math_sin Math_random now st outcome).
Proof.
  intros Hso Hp Hinv. pose proof (appInv_idle st Hinv Hp) as Hi.
  unfold settle.
  destruct outcome as [m|r]; [|cbn [sortedOutcome] in Hso; destruct (fetchYahooSPX r)];
    (apply appInv_reset; [|done..]); done || apply buildDemoSPX_sorted.
Qed.

(** A new start date, outside a drag. *)
Lemma onStartChange_appInv now st v :
  panStart (view st) = None -> appInv st ->
  appInv (commit now st (onStartChange st v)).
Proof.
  intros Hp Hinv. pose proof (appInv_idle st Hinv Hp) as Hi.
  set (st1 := onStartChange st v).
  destruct (decide (sameValue (startTs st) (startTs st1))) as [Hs|Hs].
  { apply commit_appInv, (appInv_frame st); [done| |done|done|by left|done].
    symmetry. by apply filtered_ext. }
  destruct (rawData st) as [|p raw] eqn:E.
  { apply commit_appInv, (appInv_frame st); [done| |done|done|by left|done].
    unfold App.filtered. change (rawData st1) with (rawData st). by rewrite E. }
  destruct Hinv as [Hsort _].
  apply commit_appInv_start; [|change (rawData st1) with (rawData st); by rewrite E|done..].
  done.
Qed.

(** ** Every calm event keeps the invariant *)

Theorem dispatch_appInv now st ev :
  calm st ev -> appInv st -> appInv (dispatch now st ev).
Proof.
  intros Hc Hinv. unfold App.dispatch.
  destruct ev; cbn [App.handle calm] in *;
    try (apply commit_appInv, (appInv_frame st); [done..|by left|done]);
    try (apply commit_appInv, onChart_appInv; [by constructor|done]).
  - by apply onStartChange_appInv.
  - apply commit_appInv, gesture_appInv; [by constructor|done].
  - pose proof (appInv_idle st Hinv Hc). destruct Hinv as [Hs _].
    by apply commit_appInv, appInv_reset.
  - destruct Hc as [Hp Hso].
    destruct (live st) as [r|]; [case_decide|]; apply commit_appInv; [|done..].
    by apply settle_appInv.
Qed.

Lemma mount_appInv now : appInv (mount Date_parse now).
Proof. apply appInv_reset; [constructor|done..]. Qed.

(** Under the invariant the domain shown fits the full extent. *)
Lemma appInv_fits st :
  appInv st ->
  fits (fullDomain (synth st)) (activeDomain (domain (view st)) (synth st)).
Proof. intros [Hs Hv]. by apply activeDomain_fits; [apply synth_sorted|]. Qed.

(** The invariant holds in every state reached by calm events. *)
Lemma calmly_appInv st : calmly st -> appInv st.
Proof.
  induction 1 as [now|now st ev _ IH Hc]; [apply mount_appInv|].
  by apply dispatch_appInv.
Qed.

(** C5: In every state reached by calm events the domain shown is inside
    the full extent of the synthetic series, its ends in order, and at
    least 1/500 of the full extent wide. *)
Theorem calmly_fits st :
  calmly st ->
  fits (fullDomain (synth st)) (activeDomain (domain (view st)) (synth st)).
Proof. intros Hc%calmly_appInv. by apply appInv_fits. Qed.

End CalmFacts.

(** ** Instances *)

#[local] Open Scope chart_scope.

Lemma dispatch_appInv_witness :
  appInv (fun _ => None)
    (dispatch (fun _ => None) (fun _ => 0) (fun _ => 1 # 2) 0 (mount (fun _ => None) 0)
       (FetchSettled 1 (NetResponse (mkClientResponse true 200
          (Some [mkRaw (Some 0) (Some 100); mkRaw (Some 1000) (Some 110)]))))).
Proof.
  apply (dispatch_appInv (fun _ => None) (fun _ => 0) (fun _ => 1 # 2)).
  - split; [done|]. repeat constructor; by vm_compute.
  - apply mount_appInv.
Defined.

Lemma calmly_fits_witness :
  let loaded :=
    dispatch (fun _ => None) (fun _ => 0) (fun _ => 1 # 2) 0 (mount (fun _ => None) 0)
      (FetchSettled 1 (NetResponse (mkClientResponse true 200
         (Some [mkRaw (Some 0) (Some 100); mkRaw (Some 1000) (Some 110)])))) in
  let st := dispatch (fun _ => None) (fun _ => 0) (fun _ => 1 # 2) 0 loaded
              (Wheel (mkEvent 575 0 (-1))) in
  fits (fullDomain (synth (fun _ => None) st))
       (activeDomain (domain (view st)) (synth (fun _ => None) st)).
Proof.
  cbv zeta. apply (calmly_fits (fun _ => None) (fun _ => 0) (fun _ => 1 # 2)).
  apply calmly_dispatch; [apply calmly_dispatch; [apply calmly_mount|]|].
  - split; [done|]. repeat constructor; by vm_compute.
  - by vm_compute.
Defined.

(** ** A drag across a fetch *)

Section DragAcrossFetch.
Context `{ExpLog}.
Variables (Date_parse : string -> option Q).
Variables (Math_sin : Q -> Q) (Math_random : nat -> Q).

#[local] Abbreviation synth := (synth Date_parse).
#[local] Abbreviation dispatch := (dispatch Date_parse Math_sin Math_random).

(** No event but pointer down and pointer up touches the start of a
    drag or its flag: not a fetch that settles, and not the effects. *)
Lemma dispatch_keeps_drag now st ev :
  (forall e, ev <> PointerDown e) -> ev <> PointerUp ->
  panStart (view (dispatch now st ev)) = panStart (view st)
  /\ isPanning (view (dispatch now st ev)) = isPanning (view st).
Proof.
  intros Hd Hu. unfold App.dispatch.
  destruct (commit_frame Date_parse now st (handle Date_parse Math_sin Math_random now st ev))
    as (_&_&_&_&_&_&_&_&-> & -> &_).
  destruct ev; simpl; unfold onChart; try case_decide; try done.
  - unfold onWheel. by case_decide.
  - by destruct (Hd e).
  - destruct (live st) as [r|]; [|done]. case_decide; [|done].
    unfold App.settle. by destruct outcome as [m|r']; [|destruct (fetchYahooSPX r')].
Qed.

(** A move of the pointer during a drag, while the chart is shown,
    pans the window the drag started on over the full extent of the
    series shown now. *)
Lemma dispatch_move_pans now st e start :
  showsChart Date_parse st ->
  isPanning (view st) = true -> panStart (view st) = Some start ->
  let st' := dispatch now st (PointerMove e) in
  synth st' = synth st /\
  domain (view st') = Some (panDomain start (fullDomain (synth st)) (clientX e)).
Proof.
  intros Hs Hi Hp. cbv zeta. unfold App.dispatch. cbn [handle]. unfold onChart.
  rewrite decide_True by done. set (v := onPointerMove _ _ _ _ _).
  assert (domain v = Some (panDomain start (fullDomain (synth st)) (clientX e))) as Ev.
  { subst v. unfold onPointerMove. cbn [domain]. by rewrite Hi, Hp. }
  assert (commit Date_parse now st (setView st v) = setView st v) as ->; [|done].
  unfold commit, fetchEffect.
  rewrite decide_True by (split_and!; try done; apply sameValue_refl).
  unfold resetEffect. by rewrite decide_True by (split; [apply sameValue_refl|done]).
Qed.

(** C40: The start of a drag survives the series it was taken on.  When
    the fetch of the live run settles during a drag, the drag goes on,
    and the next move of the pointer pans the window the drag started
    on over the new series: if that window is wider than the new full
    extent, the window shown begins before the first point.  The reset
    of the zoom when the data change (lines 512-520) does not prevent
    it. *)
Theorem drag_across_fetch now now' st r outcome e start :
  live st = Some r ->
  isPanning (view st) = true -> panStart (view st) = Some start ->
  let st1 := dispatch now st (FetchSettled (req_run r) outcome) in
  let st2 := dispatch now' st1 (PointerMove e) in
  showsChart Date_parse st1 ->
  x1 (fullDomain (synth st1)) - x0 (fullDomain (synth st1)) < pan_x1 start - pan_x0 start ->
  domain (view st1) = None /\
  exists d, domain (view st2) = Some d /\ x0 d < x0 (fullDomain (synth st2)).
Proof.
  intros Hl Hi Hp. cbv zeta. set (st1 := dispatch now st _). intros Hs Hw.
  destruct (dispatch_keeps_drag now st (FetchSettled (req_run r) outcome))
    as [Hp1 Hi1]; [done..|]. fold st1 in Hp1, Hi1. rewrite Hp in Hp1. rewrite Hi in Hi1.
  destruct (dispatch_settled Date_parse Math_sin Math_random now st r outcome Hl)
    as (_ & Hd1 & _). fold st1 in Hd1. split; [done|].
  destruct (dispatch_move_pans now' st1 e start Hs Hi1 Hp1) as [-> ->].
  eexists. split; [done|]. set (F := fullDomain (synth st1)) in *.
  pose proof (panDomain_span start F (clientX e)) as Espan.
  pose proof (panDomain_le_x1 start F (clientX e)). qlra.
Qed.

End DragAcrossFetch.

Lemma drag_across_fetch_witness :
  let resp l := NetResponse (mkClientResponse true 200 (Some l)) in
  let step := dispatch (H := RatExpLog) (fun _ => None) (fun _ => 0) (fun _ => 1 # 2) 0 in
  let st1 := step (mount (fun _ => None) 0)
               (FetchSettled 1 (resp [mkRaw (Some 0) (Some 100); mkRaw (Some 1000) (Some 110)])) in
  let st3 := step (step st1 (PointerDown (mkEvent 500 0 0))) ClickReload in
  let late := FetchSettled 2 (resp [mkRaw (Some 0) (Some 100); mkRaw (Some 100) (Some 110)]) in
  let st5 := step (step st3 late) (PointerMove (mkEvent 500 0 0)) in
  domain (view (step st3 late)) = None /\
  exists d, domain (view st5) = Some d
            /\ x0 d < x0 (fullDomain (synth (fun _ => None) st5)).
Proof.
  cbv zeta.
  set (st3 := dispatch _ _ _ 0 (dispatch _ _ _ 0 (dispatch _ _ _ 0 _ _) _) ClickReload).
  apply (drag_across_fetch (H := RatExpLog) (fun _ => None) (fun _ => 0) (fun _ => 1 # 2)
           0 0 st3 (mkRequest 2 "5d" "60m") _ (mkEvent 500 0 0) (mkPanStart 500 0 1000));
    by vm_compute.
Defined.
