(* ===== verification/Asserts.v ===== *)
(** * Asserts: the runtime tests of the render

    Every render of [LiveSP500Canvas] runs two [console.assert]s
    ([src/src/LiveSP500Canvas.jsx], lines 614-623) on what it has just
    derived: the chart has at least two ticks on the X axis, and, when
    there is a synthetic series, its first value is the base.
    [console.assert] does not throw; a test that fails writes its
    message to the console.

    [runtimeTests] is the list of the tests a render runs, and
    [consoleErrors] the messages it writes.  The second test never
    fails.  The first fails exactly when there is no synthetic point:
    the chart of an empty series has no ticks, so the render that
    precedes the first response, and every render with a start after
    the last point, writes the message. *)

From Stdlib Require Import QArith Qminmax Qround Qabs Lqa Lia ZArith.
From stdpp Require Import base decidable list option strings numbers sorting relations.
From S2P Require Import Prelude JsText JsDate Series Leverage Interval Scale Ticks Viewport App.

#[local] Open Scope Q_scope.

(** A [console.assert]: the value of its condition and its message. *)
Record Assertion := mkAssert { holds : bool; message : string }.

Section Render.
Context `{ExpLog}.
Variables (Date_parse : string -> option Q).

#[local] Abbreviation synth := (synth Date_parse).
#[local] Abbreviation chart := (chart Date_parse).

(** Lines 614-623: the second test is under [if (synth.length)]. *)
Definition runtimeTests (st : AppState) : list Assertion :=
  mkAssert (bool_decide (2 <= length (chart_xTicks (chart st)))%nat)
           "Expected at least 2 x-ticks" ::
  match synth st with
  | p :: _ =>
      [mkAssert (bool_decide (Qabs (value p - baseValue st) < 1 # 1000000))
                "First synthetic should equal baseValue"]
  | [] => []
  end.

(** What the tests of a render write to the console. *)
Definition consoleErrors (st : AppState) : list string :=
  message <$> filter (fun a => holds a = false) (runtimeTests st).

End Render.

(** * Theorems *)

Section RenderFacts.
Context `{ExpLog}.
Variables (Date_parse : string -> option Q).

#[local] Abbreviation synth := (synth Date_parse).
#[local] Abbreviation chart := (chart Date_parse).
#[local] Abbreviation runtimeTests := (runtimeTests Date_parse).
#[local] Abbreviation consoleErrors := (consoleErrors Date_parse).

(** The first synthetic value is the base. *)
Lemma synth_first st p ps : synth st = p :: ps -> value p = baseValue st.
Proof.
  unfold App.synth. rewrite buildSyntheticSeries_unfold.
  destruct (filtered Date_parse st); [done|]. by intros [= <- _].
Qed.

(** With a synthetic point the chart has its two ticks. *)
Lemma chart_xTicks_length st :
  synth st <> [] -> (2 <= length (chart_xTicks (chart st)))%nat.
Proof.
  unfold App.chart, chartOf, useChartPath. destruct (synth st); [done|].
  intros _. apply xTicks_two.
Qed.

Lemma consoleErrors_cases st :
  consoleErrors st
  = if decide (synth st = []) then ["Expected at least 2 x-ticks"] else [].
Proof.
  unfold Asserts.consoleErrors, Asserts.runtimeTests. case_decide as E.
  - unfold App.chart, chartOf, useChartPath. by rewrite E.
  - pose proof (chart_xTicks_length st E) as Hl.
    destruct (synth st) as [|p ps] eqn:Es; [done|].
    rewrite (synth_first st p ps Es), (bool_decide_eq_true_2 _ Hl).
    rewrite (bool_decide_eq_true_2 (Qabs _ < _)); [done|].
    apply Qabs_Qlt_condition. split; qlra.
Qed.

(** C13: The render writes the message of the first test when there is no
    synthetic point, and nothing otherwise: the second test never
    fails. *)
Theorem consoleErrors_spec st :
  consoleErrors st
  = if decide (synth st = []) then ["Expected at least 2 x-ticks"] else [].
Proof. apply consoleErrors_cases. Qed.

(** The render at mount, before any response, writes the message. *)
Theorem consoleErrors_mount now :
  consoleErrors (mount Date_parse now) = ["Expected at least 2 x-ticks"].
Proof. by rewrite consoleErrors_cases. Qed.

End RenderFacts.
