(* ===== verification/Labels.v ===== *)
(** * Labels: the texts of the labels

    The labels of the component ([src/src/LiveSP500Canvas.jsx], lines
    739-772) are lists of pieces in [App]: text, a number the render
    converts with [String], an instant the render hands to the locale.
    This file prints them.

    [Locale] is the interface of the host the labels are printed
    against: [toLocaleString] of a [Date], and the two functions
    [tickLabel] calls, with the fields it asks for.  Nothing is assumed
    of them: a theorem of this file holds in every locale and time
    zone.  [String(n)] is [numberToString] of [JsText]: the numbers
    the labels print come from the text of an input or of an option,
    and have a text ([Decimal]).

    The title names the leverage in the words of the select: in a
    state the page leads to, what stands between "Synthetic " and the
    base is the label of the selected preset, and [title_text] gives
    the whole text for a base that is an integer. *)

From Stdlib Require Import QArith Qminmax Qround Qabs Lqa Lia ZArith.
From stdpp Require Import base decidable list option strings numbers sorting relations.
From S2P Require Import Prelude JsText Digits Decimal JsDate Series Leverage Interval Scale Viewport App Controls.

#[local] Open Scope Q_scope.

(** ** The locale *)

(** [d.toLocaleString()], and [d.toLocaleTimeString] and
    [d.toLocaleDateString] with the options of [tickLabel], of the
    [Date] with the given time value. *)
Class Locale := {
  toLocaleString : Z -> string;
  toLocaleFields : TickFormat -> Z -> string
}.

(** A locale that prints the time value, for the instances. *)
Definition plainLocale : Locale :=
  {| toLocaleString := intToString;
     toLocaleFields := fun _ => intToString |}.

Section Texts.
Context `{Locale}.

(** Lines 83-86; [new Date(ts)] drops the fraction of [ts]. *)
Definition formatDate (ts : Q) : string := toLocaleString (Qtrunc ts).

(** The text of a label of the X axis (lines 250-259). *)
Definition tickText (l : TickFormat * Z) : string := toLocaleFields l.1 l.2.

(** [String(n)]: [None] for a rational that has no finite decimal
    expansion, which no number of the component is. *)
Definition numberText (n : Q) : option string := numberToString n.

Definition pieceText (p : Piece) : option string :=
  match p with
  | Text s => Some s
  | Number n => numberText n
  | LocaleDate ts => Some (formatDate ts)
  end.

(** The concatenation of the pieces. *)
Definition labelText (l : list Piece) : option string :=
  foldr (fun p acc => s ← pieceText p; r ← acc; Some (s +:+ r)) (Some "") l.

End Texts.

(** * Theorems *)

Lemma numberText_proper (n m : Q) : n == m -> numberText n = numberText m.
Proof. apply numberToString_proper. Qed.

Lemma numberText_inject_Z (z : Z) :
  (Z.abs z < 10 ^ 21)%Z -> numberText (inject_Z z) = Some (intToString z).
Proof. apply numberToString_inject_Z. Qed.

(** A label of texts, dates and decimal numbers is printed. *)
Lemma labelText_decimal `{Locale} (l : list Piece) :
  Forall (fun p => forall n, p = Number n -> decimal n) l -> is_Some (labelText l).
Proof.
  induction 1 as [|p l Hp _ [r IH]]; [by eexists|]. simpl. rewrite IH.
  destruct p as [s|n|ts]; [by eexists| |by eexists]. simpl.
  destruct (numberToString_decimal n (Hp n eq_refl)) as [t Ht].
  unfold numberText. rewrite Ht. by eexists.
Qed.

(** The leverage of any preset string is a decimal. *)
Lemma leverageOf_decimal (preset : string) : decimal (leverageOf preset).
Proof.
  unfold leverageOf, parseLeverage.
  destruct (negb (isSynthetic preset)); [apply (decimal_inject_Z 1)|]. cbv zeta.
  destruct (toNumber _) as [n|] eqn:En; simpl; [|apply (decimal_inject_Z 1)].
  case_decide; [apply (decimal_inject_Z 1)|].
  apply toNumber_decimal in En.
  case_bool_decide; [apply (decimal_proper (- n)); [ring|by apply decimal_opp]|].
  by apply (decimal_proper n); [ring|].
Qed.

Section TextFacts.
Context `{Locale} `{ExpLog}.
Variables (Date_parse : string -> option Q).
Variables (Math_sin : Q -> Q) (Math_random : nat -> Q).

#[local] Abbreviation uiReachable := (uiReachable Date_parse Math_sin Math_random).

(** ** The labels with a date *)

(** A label without a number is printed in every state. *)
Lemma labelText_dated (l : list Piece) :
  Forall (fun p => forall n, p <> Number n) l -> is_Some (labelText l).
Proof.
  induction 1 as [|p l Hp _ [r IH]]; [by eexists|]. simpl. rewrite IH.
  destruct p as [s|n|ts]; [by eexists|by destruct (Hp n)|by eexists].
Qed.

Theorem header_labels_print st :
  Forall (fun l => is_Some (labelText l))
    [startLabel Date_parse st; effectiveStartLabel Date_parse st;
     lastHeaderLabel Date_parse st; crossLabel Date_parse st].
Proof.
  repeat apply Forall_cons_2; [..|apply Forall_nil_2]; apply labelText_dated.
  - unfold startLabel. destruct (startTs _ _); [case_decide|]; by repeat constructor.
  - unfold effectiveStartLabel. destruct (filtered _ _); by repeat constructor.
  - unfold lastHeaderLabel. destruct (last _); by repeat constructor.
  - unfold crossLabel. destruct (cross _); by repeat constructor.
Qed.

(** ** The title *)

(** The sign and the number of the title are the label of the preset,
    for each preset of the select. *)
Lemma title_of_option :
  Forall (fun o =>
            (n ← numberText (leverageOf (opt_value o));
             Some ((if decide (0 <= leverageOf (opt_value o)) then "+" else "")
                   +:+ n +:+ "x SPX"))
            = Some (opt_label o))
         buildSyntheticOptions.
Proof.
  evaluate buildSyntheticOptions.
  repeat (apply Forall_cons_2; [by vm_compute|]). apply Forall_nil_2.
Qed.

(** In a state the page leads to, the title is "Synthetic ", the label
    of the selected preset, and the base. *)
Theorem ui_title st :
  uiReachable st ->
  exists o, o ∈ buildSyntheticOptions /\ opt_value o = preset st /\
    labelText (titleLabel st)
    = (b ← numberText (baseValue st);
       Some ("Synthetic " +:+ opt_label o +:+ " (base=" +:+ b +:+ ")")).
Proof.
  intros [Hp _]%ui_selected. unfold presetOptions in Hp.
  rewrite <- list_fmap_compose in Hp. apply list_elem_of_fmap in Hp as (o & E & Ho).
  simpl in E. exists o. split_and!; [done..|].
  pose proof (proj1 (Forall_forall _ _) title_of_option o Ho) as Ht.
  unfold titleLabel, signStr, leverage. rewrite E. simpl in *.
  destruct (numberText (leverageOf _)) as [n|]; [|done].
  destruct (numberText (baseValue st)) as [b|]; simpl in *; [|done].
  injection Ht as <-. by rewrite !append_assoc.
Qed.

(** ** Every label has a text *)

(** The base is a decimal in every state: it is 100, or what the text
    of the input converts to. *)
Lemma reachable_base_decimal st :
  reachable Date_parse Math_sin Math_random st -> decimal (baseValue st).
Proof.
  induction 1 as [now|now st ev _ IH]; [apply (decimal_inject_Z 100)|].
  unfold dispatch.
  destruct (commit_frame Date_parse now st (handle Date_parse Math_sin Math_random now st ev))
    as (_&_&_&_&_&_&->&_).
  destruct ev; simpl; unfold onChart; try case_decide; try done.
  - destruct (toNumber v) as [n|] eqn:En; [by eapply toNumber_decimal|].
    apply (decimal_inject_Z 0).
  - apply (decimal_inject_Z 100).
  - destruct (live st) as [r|]; [case_decide|]; try done.
    unfold settle. by destruct outcome as [m|r']; [|destruct (fetchYahooSPX r')].
Qed.

(** C24: In a state the page leads to, the text of the title is
    "Synthetic ", the label of the selected preset with its sign and
    its "x SPX", and the base in digits: for the first render,
    "Synthetic +1x SPX (base=100)". *)
Theorem title_text st z :
  uiReachable st -> baseValue st == inject_Z z -> (Z.abs z < 10 ^ 21)%Z ->
  exists o, o ∈ buildSyntheticOptions /\ opt_value o = preset st /\
    labelText (titleLabel st)
    = Some ("Synthetic " +:+ opt_label o +:+ " (base=" +:+ intToString z +:+ ")").
Proof.
  intros (o & Ho & Ep & Et)%ui_title Eb Hz. exists o. split_and!; [done..|].
  by rewrite Et, (numberText_proper _ _ Eb), numberText_inject_Z.
Qed.

(** In every state of the component each label of the header and of
    the crosshair is printed: the numbers of the title have a finite
    decimal expansion, whatever was typed or selected. *)
Theorem labels_print st :
  reachable Date_parse Math_sin Math_random st ->
  Forall (fun l => is_Some (labelText l))
    [titleLabel st; startLabel Date_parse st; effectiveStartLabel Date_parse st;
     lastHeaderLabel Date_parse st; crossLabel Date_parse st].
Proof.
  intros Hr. apply Forall_cons_2; [|apply header_labels_print].
  apply labelText_decimal. unfold titleLabel.
  repeat apply Forall_cons_2; try apply Forall_nil_2; intros n [= <-].
  - apply leverageOf_decimal.
  - by apply reachable_base_decimal.
Qed.

(** ** The percentage of a label *)

(** In percent mode the percentage the badge and the crosshair print
    for a value is the position of the value on the Y axis: the
    formula of [toPercent] and the one of the transform agree. *)
Theorem toPercent_axis st p0 ps v :
  synth Date_parse st = p0 :: ps -> yMode st = Percent ->
  toPercent v (chart_anchor (chart Date_parse st))
  = tf p0 ps (activeDomain (domain (view st)) (synth Date_parse st)) (yMode st) v.
Proof.
  intros E HM. unfold chart, chartOf, useChartPath. rewrite E. cbn [geometry chart_anchor].
  by rewrite (tf_percent _ _ _ _ _ HM).
Qed.

(** The value of the anchor is printed as 0.0%, when it is positive. *)
Theorem percentSuffix_anchor st :
  yMode st = Percent -> eps <= chart_anchor (chart Date_parse st) ->
  percentSuffix Date_parse st (chart_anchor (chart Date_parse st)) = " (0.0%)".
Proof.
  intros HM Ha. unfold percentSuffix. rewrite decide_True by done.
  rewrite (toFixed_proper _ 0); [done|]. unfold toPercent.
  assert (Qmax eps (chart_anchor (chart Date_parse st)) == chart_anchor (chart Date_parse st))
    as -> by qlra.
  unfold eps in Ha. field. lra.
Qed.

End TextFacts.

(** ** Instances *)

Lemma ui_title_witness :
  exists o, o ∈ buildSyntheticOptions /\
    opt_value o = preset (mount (fun _ => None) 0) /\
    labelText (H := plainLocale) (titleLabel (mount (fun _ => None) 0))
    = (b ← numberText (baseValue (mount (fun _ => None) 0));
       Some ("Synthetic " +:+ opt_label o +:+ " (base=" +:+ b +:+ ")")).
Proof.
  apply (ui_title (H := plainLocale) (H0 := RatExpLog)
           (fun _ => None) (fun x => x) (fun _ => 0)).
  apply ui_mount.
Defined.

Lemma percentSuffix_anchor_witness :
  let st := mkApp "SYNTHETIC:+1" "D" Light 0 "" [0 ↦ 100; 86400000 ↦ 110]%chart "" 100
                  Percent initialView 1 None in
  percentSuffix (H := RatExpLog) (fun _ => None) st
    (chart_anchor (chart (H := RatExpLog) (fun _ => None) st)) = " (0.0%)".
Proof.
  apply (percentSuffix_anchor (H0 := RatExpLog) (fun _ => None)); [done|by vm_compute].
Defined.

Example titleLabel_mount :
  labelText (H := plainLocale) (titleLabel (mount (fun _ => None) 0))
  = Some "Synthetic +1x SPX (base=100)".
Proof. by vm_compute. Qed.

Lemma labels_print_witness :
  let st := dispatch (H := RatExpLog) (fun _ => None) (fun x => x) (fun _ => 0) 0
              (mount (fun _ => None) 0) (InputBase "12.5") in
  Forall (fun l => is_Some (labelText (H := plainLocale) l))
    [titleLabel st; startLabel (fun _ => None) st; effectiveStartLabel (fun _ => None) st;
     lastHeaderLabel (fun _ => None) st; crossLabel (fun _ => None) st].
Proof.
  apply (labels_print (H := plainLocale) (H0 := RatExpLog)
           (fun _ => None) (fun x => x) (fun _ => 0)).
  apply reachable_dispatch, reachable_mount.
Defined.

Lemma title_text_witness :
  let st := dispatch (H := RatExpLog) (fun _ => None) (fun x => x) (fun _ => 0) 0
              (mount (fun _ => None) 0) (InputBase "250") in
  exists o, o ∈ buildSyntheticOptions /\ opt_value o = preset st /\
    labelText (H := plainLocale) (titleLabel st)
    = Some ("Synthetic " +:+ opt_label o +:+ " (base=" +:+ intToString 250 +:+ ")").
Proof.
  apply (title_text (H := plainLocale) (H0 := RatExpLog)
           (fun _ => None) (fun x => x) (fun _ => 0) _ 250%Z); [|done|done].
  apply ui_dispatch; [apply ui_mount|].
  eexists. split; [by apply list_elem_of_lookup_2 with 4%nat|].
  by apply (fires_input _ _ _ _ _ _ InputBase "250"); right.
Defined.

(** A base with a fraction, and a leverage typed into the value of
    the select by hand. *)
Example titleLabel_fraction :
  let st := mkApp "SYNTHETIC:-2.5" "60" Light 0 "" [] "" (25 # 2) Linear initialView 1 None in
  labelText (H := plainLocale) (titleLabel st) = Some "Synthetic -2.5x SPX (base=12.5)".
Proof. by vm_compute. Qed.
