(* ===== verification/Render.v ===== *)
(** * Render: the scene the component draws

    The [svg] element of the component [LiveSP500Canvas]
    ([src/src/LiveSP500Canvas.jsx], lines 930-1123) as the list of its
    shapes, in document order: the background, the divider of the price
    axis, the grid of the two axes with its texts, the line of the
    series, the badge of the last value, the crosshair with its tooltip
    and the header labels.  A shape keeps the attributes of its
    element: geometry, colours, stroke width, dash pattern, font size,
    corner radius, text anchor and, for a text, its content.  The
    groups ([g]) are flattened; the [key]s of the mapped elements are
    the lists [yKeys], [xGridKeys] and [xLabelKeys].  [Chars] is a
    text node that is not inside an element: the number 0 that
    [{startTs && ...}] evaluates to for a start at the epoch.

    The view box of the drawing is [0 0 1200 640]; [inBox] says that a
    shape lies inside a rectangle, and the theorems say which shapes
    stay inside the plot or the view box, and which do not. *)

From Stdlib Require Import QArith Qminmax Qround Qabs Lqa Lia ZArith.
From stdpp Require Import base decidable list option strings numbers sorting relations.
From S2P Require Import Prelude JsText Digits JsDate Series Leverage Interval Scale Ticks Viewport App.

#[local] Open Scope Q_scope.

(** ** Data *)

(** What a text element shows: a string, a label of the component, or
    the label of a tick of the X axis. *)
Inductive Content :=
| Str (s : string)
| Label (l : list Piece)
| TickLabel (l : TickFormat * Z).

(** The elements of the drawing with their attributes: [rx] is the
    corner radius, [strokeWidth] and [strokeDasharray] are [None]
    where the element does not set them.  Widths and font sizes are
    numbers, whether the source writes them as a number or as the
    string of one.  [Chars] is a text node that is a child of the
    [svg] element itself: it has no place in the drawing. *)
Inductive Shape :=
| Rect (x y w h : Q) (rx : option Q) (fill : string) (stroke : option string)
| Line (x1 y1 x2 y2 : Q) (stroke : string) (strokeWidth : option Q)
       (strokeDasharray : option string)
| TextAt (x y : Q) (fontSize : Q) (fill : string) (textAnchor : option string)
         (content : Content)
| Path (d : list PathCmd) (fill : string) (stroke : string) (strokeWidth : Q)
| Circle (cx cy r : Q) (fill : string)
| Chars (s : string).

(** A rectangle of the drawing, by its corners. *)
Record Box := mkBox { box_left : Q; box_top : Q; box_right : Q; box_bottom : Q }.

(** [viewBox="0 0 1200 640"] (line 947). *)
Definition viewBox : Box := mkBox 0 0 1200 640.

(** The plot: between the pads on the left, the top and the bottom, and
    the margin of the price axis on the right. *)
Definition plot : Box := mkBox 40 40 (1200 - rightMargin) (640 - 40).

Definition pointIn (b : Box) (x y : Q) : Prop :=
  box_left b <= x <= box_right b /\ box_top b <= y <= box_bottom b.

Definition cmdIn (b : Box) (c : PathCmd) : Prop :=
  match c with MoveTo x y | LineTo x y => pointIn b x y end.

(** The geometry of a shape is inside [b]; the anchor point, for a
    text. *)
Definition inBox (b : Box) (s : Shape) : Prop :=
  match s with
  | Rect x y w h _ _ _ => pointIn b x y /\ pointIn b (x + w) (y + h)
  | Line x1 y1 x2 y2 _ _ _ => pointIn b x1 y1 /\ pointIn b x2 y2
  | TextAt x y _ _ _ _ => pointIn b x y
  | Path d _ _ _ => Forall (cmdIn b) d
  | Circle cx cy r _ => pointIn b (cx - r) (cy - r) /\ pointIn b (cx + r) (cy + r)
  | Chars _ => True
  end.

(** The box of a text stands in a rectangle: the anchor of the text
    is between the left and the right edge, and the line of the text,
    from one font size above the baseline to the baseline, between
    the top and the bottom. *)
Definition labelled (r t : Shape) : Prop :=
  match r, t with
  | Rect x y w h _ _ _, TextAt tx ty fontSize _ _ _ =>
      x <= tx <= x + w /\ y <= ty - fontSize /\ ty <= y + h
  | _, _ => False
  end.

(** The [key]s of the elements a [map] returns (lines 976, 995 and
    1009): a prefix and the index. *)
Definition indexKeys {A} (prefix : string) (l : list A) : list string :=
  imap (fun i _ => prefix +:+ intToString (Z.of_nat i)) l.

(** ** The elements *)

Section Scene.
Context `{ExpLog}.
Variables (Date_parse : string -> option Q).

#[local] Abbreviation chart := (chart Date_parse).

(** Lines 934-941: the note above the chart. *)
Definition errorNote (st : AppState) : option (string * string) :=
  if decide (error st = "") then None
  else Some (if decide (theme st = Dark) then "#fca5a5" else "#b91c1c",
             ("Data note: " ++ error st)%string).

(** Line 957. *)
Definition cursorStyle (st : AppState) : string :=
  if isPanning (view st) then "grabbing" else "crosshair".

(** Line 960. *)
Definition background (st : AppState) : Shape :=
  Rect 0 0 1200 640 None (bg st) None.

(** Lines 963-970. *)
Definition divider : Shape :=
  Line (1200 - rightMargin) 30 (1200 - rightMargin) (640 - 30) "#e5e7eb" (Some 1) None.

(** Lines 974-990: a grid line and a text for each tick of the Y
    axis. *)
Definition yGrid (st : AppState) : list Shape :=
  t ← chart_yTicks (chart st);
  [Line 40 (ytick_y t) (1200 - rightMargin - 10) (ytick_y t) "#e5e7eb" (Some (1 # 2)) None;
   TextAt 5 (ytick_y t + 4) 10 (fg st) None (Str (ytick_label t))].

(** Lines 992-1004: a grid line for each tick of the X axis. *)
Definition xGrid (st : AppState) : list Shape :=
  (fun t => Line (tick_x t) (640 - 30) (tick_x t) 30 "#e5e7eb" (Some (1 # 2)) None)
    <$> chart_xTicks (chart st).

(** Lines 1006-1019: the labels of the X axis. *)
Definition xTexts (st : AppState) : list Shape :=
  (fun t => TextAt (label_x t) (640 - 10) 10 (fg st) (Some "middle")
              (TickLabel (label_text t)))
    <$> chart_xLabels (chart st).

Definition yKeys (st : AppState) : list string :=
  indexKeys "y-" (chart_yTicks (chart st)).

Definition xGridKeys (st : AppState) : list string :=
  indexKeys "xg-" (chart_xTicks (chart st)).

Definition xLabelKeys (st : AppState) : list string :=
  indexKeys "xl-" (chart_xLabels (chart st)).

(** Line 1023. *)
Definition linePath (st : AppState) : Shape :=
  Path (chart_path (chart st)) "none" (color st) 3.

(** Lines 1026-1061: the dashed line at the last value, its notch and
    the badge in the right margin. *)
Definition lastBadge (st : AppState) : list Shape :=
  match chart_last (chart st) with
  | Some last =>
      let y := chart_yScale (chart st) (value last) in
      [Line 40 y (1200 - rightMargin) y (color st) None (Some "6 4");
       Line (1200 - rightMargin) y (1200 - rightMargin + 6) y (color st) None None;
       Rect (1200 - rightMargin + 10) (y - 14) 120 28 (Some 6)
            (if decide (theme st = Dark) then "#111827" else "#f1f5f9")
            (Some (color st));
       TextAt (1200 - rightMargin + 16) (y + 4) 12 (fg st) None
              (Str (lastBadgeText Date_parse st))]
  | None => []
  end.

(** Lines 1064-1101: the two lines of the crosshair, its dot and the
    tooltip. *)
Definition crosshair (st : AppState) : list Shape :=
  match cross (view st) with
  | Some c =>
      [Line (cross_x c) 30 (cross_x c) (640 - 30) "#94a3b8" None (Some "4 4");
       Line 40 (cross_y c) (1200 - rightMargin - 10) (cross_y c) "#94a3b8" None (Some "4 4");
       Circle (cross_x c) (cross_y c) 3 (color st);
       Rect (cross_x c + 8) (cross_y c - 30) 220 28 (Some 6)
            (if decide (theme st = Dark) then "#111827" else "#f1f5f9")
            (Some "#94a3b8");
       TextAt (cross_x c + 16) (cross_y c - 12) 11 (fg st) None
              (Label (crossLabel Date_parse st))]
  | None => []
  end.

(** Lines 1104-1119: the header labels.  [{startTs && (...)}] is the
    [text] element when [startTs] is truthy, nothing when it is
    [undefined], and the number 0 itself when [startTs] is 0, which
    React renders as the text "0"; [{effectiveStartLabel && (...)}]
    is the element or the empty string, which renders nothing. *)
Definition headerLabels (st : AppState) : list Shape :=
  [TextAt 50 20 14 (fg st) None (Label (titleLabel st))]
  ++ match startTs Date_parse st with
     | Some ts =>
         if decide (ts == 0) then [Chars "0"]
         else [TextAt 400 20 12 (fg st) None (Label (startLabel Date_parse st))]
     | None => []
     end
  ++ match effectiveStartLabel Date_parse st with
     | [] => []
     | l => [TextAt 400 36 11 (fg st) None (Label l)]
     end
  ++ [TextAt (1200 - rightMargin - 280) 20 12 (fg st) None
             (Label (lastHeaderLabel Date_parse st))].

(** Lines 943-1123: the drawing, or [None] for the placeholder "No
    data to display." *)
Definition scene (st : AppState) : option (list Shape) :=
  if decide (1 < length (synth Date_parse st))%nat
  then Some ([background st; divider] ++ yGrid st ++ xGrid st ++ xTexts st
             ++ [linePath st] ++ lastBadge st ++ crosshair st
             ++ headerLabels st)
  else None.

End Scene.

(** * Theorems *)

(** ** The plot *)

Lemma plot_in_viewBox x y : pointIn plot x y -> pointIn viewBox x y.
Proof. unfold pointIn, plot, viewBox, rightMargin. simpl. lra. Qed.

Section PlotFacts.
Context `{ExpLog}.
Variables (p0 : PricePoint) (ps : Series) (interval : string).
Variables (domain : Domain) (yMode : YMode).

#[local] Abbreviation data := (p0 :: ps).
#[local] Abbreviation inWindow := (inWindow p0 ps domain).
#[local] Abbreviation slice := (slice p0 ps domain).
#[local] Abbreviation xScale := (xScale p0 ps width 40 domain rightMargin).
#[local] Abbreviation yScale := (yScale p0 ps height 40 domain yMode).
#[local] Abbreviation dPath := (dPath p0 ps width height 40 domain yMode rightMargin).
#[local] Abbreviation yTicks := (yTicks p0 ps height 40 domain yMode).

(** A point of the window is drawn inside the plot. *)
Lemma vertex_in_plot s :
  s ∈ slice -> inWindow s -> pointIn plot (xScale (time s)) (yScale (value s)).
Proof.
  intros Hs [Hlo Hhi]. split.
  - apply (xScale_bounds p0 ps width 40 domain rightMargin); [by vm_compute|done].
  - assert (value s ∈ values p0 ps domain) as Hv by (by apply list_elem_of_fmap_2).
    apply (yScale_range p0 ps height 40 domain yMode) in Hv; [|by vm_compute].
    unfold plot, height in *. simpl. lra.
Qed.

(** When a point of the data is in the window, the path stays inside
    the plot. *)
Lemma dPath_in_plot : Exists inWindow data -> Forall (cmdIn plot) dPath.
Proof.
  intros Hex. assert (filter inWindow data <> []) as Hne.
  { apply Exists_exists in Hex as (d & Hd & Hw). intros E.
    assert (d ∈ filter inWindow data) as Hin by (by apply list_elem_of_filter).
    rewrite E in Hin. by apply elem_of_nil in Hin. }
  pose proof (slice_inWindow p0 ps domain Hne) as Hall.
  apply Forall_lookup. intros i c. rewrite dPath_lookup.
  intros (s & Hs & ->)%fmap_Some.
  assert (s ∈ slice) as Hin by (by eapply list_elem_of_lookup_2).
  pose proof (vertex_in_plot s Hin (proj1 (Forall_forall _ _) Hall s Hin)).
  by case_decide.
Qed.

(** The ticks of the Y axis are between the bottom and the top of the
    plot. *)
Lemma yTicks_in_plot : Forall (fun t => 40 <= ytick_y t <= 640 - 40) yTicks.
Proof.
  apply Forall_lookup. intros j t. rewrite yTicks_lookup.
  case_decide as Hj; [|done]. intros [= <-].
  apply (yTickAt_in_plot p0 ps height 40 domain yMode); [lia|by vm_compute].
Qed.

End PlotFacts.

(** ** The scene of a state *)

Section SceneFacts.
Context `{ExpLog}.
Variables (Date_parse : string -> option Q).

#[local] Abbreviation synth := (synth Date_parse).
#[local] Abbreviation chart := (chart Date_parse).
#[local] Abbreviation yGrid := (yGrid Date_parse).
#[local] Abbreviation linePath := (linePath Date_parse).
#[local] Abbreviation lastBadge := (lastBadge Date_parse).
#[local] Abbreviation crosshair := (crosshair Date_parse).
#[local] Abbreviation scene := (scene Date_parse).
#[local] Abbreviation active st := (activeDomain (domain (view st)) (synth st)).

Lemma chart_nil st : synth st = [] -> chart st = emptyChart.
Proof. intros E. unfold App.chart, chartOf. by rewrite E. Qed.

Lemma chart_cons st p0 ps :
  synth st = p0 :: ps ->
  chart st = geometry p0 ps width height 40 (interval st) (active st) (yMode st)
                      rightMargin.
Proof. intros E. unfold App.chart, chartOf. by rewrite E. Qed.

(** The placeholder is shown exactly when the chart is not. *)
Lemma scene_None st : scene st = None <-> ~ showsChart Date_parse st.
Proof. unfold Render.scene, showsChart. by case_decide. Qed.

(** The grid of the Y axis, its texts included, is inside the view
    box. *)
Theorem yGrid_in_viewBox st : Forall (inBox viewBox) (yGrid st).
Proof.
  unfold Render.yGrid. destruct (synth st) as [|p0 ps] eqn:E.
  - by rewrite (chart_nil _ E).
  - rewrite (chart_cons _ _ _ E). unfold geometry. cbn [chart_yTicks].
    apply Forall_bind. eapply Forall_impl; [apply yTicks_in_plot|].
    intros t Ht. cbv beta in Ht. unfold compose, rightMargin.
    by repeat apply Forall_cons_2; [..|apply Forall_nil_2]; unfold inBox, pointIn;
      simpl; lra.
Qed.

Lemma linePath_inside st p :
  time_sorted (synth st) -> p ∈ synth st ->
  x0 (active st) <= time p <= x1 (active st) ->
  inBox plot (linePath st).
Proof.
  intros Hs Hp Hd. pose proof (fullDomain_bounds _ p Hs Hp) as HF.
  unfold Render.linePath. cbn [inBox].
  destruct (synth st) as [|p0 ps] eqn:E; [by apply elem_of_nil in Hp|].
  rewrite (chart_cons _ _ _ E). unfold geometry. cbn [chart_path].
  apply dPath_in_plot, Exists_exists. exists p. split; [done|].
  unfold fullDomain in HF. rewrite last_cons_default in HF. cbn [head x0 x1] in HF.
  unfold inWindow, xMin, xMax, dataXMin, dataXMax. rewrite E. qlra.
Qed.

(** C26: The line of the series stays inside the plot when a point of the
    series is in the domain shown. *)
Theorem linePath_in_plot st p :
  time_sorted (synth st) -> p ∈ synth st ->
  x0 (active st) <= time p <= x1 (active st) ->
  inBox plot (linePath st).
Proof. apply linePath_inside. Qed.

(** C28: The badge of the last value is 120 wide and starts 10 after the
    divider, in a margin of 90: it runs past the right edge of the
    view box. *)
Theorem lastBadge_overflows st :
  synth st <> [] -> Exists (fun s => ~ inBox viewBox s) (lastBadge st).
Proof.
  intros Hne. unfold Render.lastBadge.
  destruct (synth st) as [|p0 ps] eqn:E; [done|].
  destruct (useChartPath_ends width height 40 (interval st) (active st) (yMode st)
              rightMargin p0 ps) as (_ & _ & [l Hl]).
  unfold App.chart, chartOf. rewrite E in *. rewrite Hl.
  do 2 apply Exists_cons_tl. apply Exists_cons_hd.
  unfold inBox, pointIn, viewBox, rightMargin. cbn [box_left box_right box_top box_bottom].
  intros [_ [[_ Hr] _]]. lra.
Qed.

(** The tooltip of the crosshair is 220 wide and starts 8 after the
    crosshair: it runs past the right edge of the view box when the
    crosshair is right of 972. *)
Theorem crosshair_tooltip_overflows st c :
  cross (view st) = Some c -> 972 < cross_x c ->
  Exists (fun s => ~ inBox viewBox s) (crosshair st).
Proof.
  intros Hc Hx. unfold Render.crosshair. rewrite Hc.
  do 3 apply Exists_cons_tl. apply Exists_cons_hd.
  unfold inBox, pointIn, viewBox. cbn [box_left box_right box_top box_bottom].
  intros [_ [[_ Hr] _]]. lra.
Qed.

(** ** Texts in their rectangles, and the keys *)

(** The text of the badge of the last value and the text of the
    tooltip stand in their rectangles: one font size fits between
    the top of the rectangle and the baseline. *)
Theorem texts_labelled st r t :
  drop 2 (lastBadge st) = [r; t] \/ drop 3 (crosshair st) = [r; t] -> labelled r t.
Proof.
  unfold Render.lastBadge, Render.crosshair.
  destruct (chart_last (chart st)), (cross (view st));
    intros [E|E]; simplify_eq/=; unfold rightMargin; lra.
Qed.

(** Keys made of a prefix and the index are pairwise different. *)
Lemma indexKeys_NoDup {A} (prefix : string) (l : list A) : NoDup (indexKeys prefix l).
Proof.
  apply NoDup_alt. intros i j k. unfold indexKeys. rewrite !list_lookup_imap.
  intros (x & _ & ->)%fmap_Some (y & _ & E)%fmap_Some.
  apply (inj (String.app prefix)), intToString_inj in E. lia.
Qed.

(** The elements of each of the three maps of the drawing have keys
    of their own, one for each tick or label. *)
Theorem scene_keys st :
  NoDup (yKeys Date_parse st) /\ length (yKeys Date_parse st) = length (chart_yTicks (chart st)) /\
  NoDup (xGridKeys Date_parse st)
  /\ length (xGridKeys Date_parse st) = length (chart_xTicks (chart st)) /\
  NoDup (xLabelKeys Date_parse st)
  /\ length (xLabelKeys Date_parse st) = length (chart_xLabels (chart st)).
Proof.
  unfold yKeys, xGridKeys, xLabelKeys, indexKeys.
  rewrite !length_imap. split_and!; by try apply indexKeys_NoDup.
Qed.

(** With the start at the epoch the header has the text "0" where the
    label of the start would be: [startTs && ...] is the number
    itself. *)
Theorem headerLabels_epoch st ts :
  startTs Date_parse st = Some ts -> ts == 0 ->
  Chars "0" ∈ headerLabels Date_parse st /\ startLabel Date_parse st = [].
Proof.
  intros Es E0. unfold headerLabels, startLabel. rewrite Es, !decide_True by done.
  split; [|done]. apply elem_of_app. right. apply elem_of_app. left. by left.
Qed.

End SceneFacts.


(** ** The crosshair *)

Section CrosshairFacts.
Context `{ExpLog}.
Variables (synth : Series) (interval : string) (yMode : YMode).

(** C27: After a move of the pointer the crosshair is inside the plot, when
    a point of the series is in the domain shown. *)
Theorem crosshair_in_plot v e c :
  time_sorted synth ->
  Exists (fun p => x0 (activeDomain (domain v) synth) <= time p
                   <= x1 (activeDomain (domain v) synth)) synth ->
  cross (onPointerMove synth interval yMode v e) = Some c ->
  pointIn plot (cross_x c) (cross_y c).
Proof.
  intros Hs Hex. unfold onPointerMove. cbn [cross].
  set (ts := cursorTime _ _). unfold chartOf.
  set (A := activeDomain _ _) in *.
  destruct (nearestPoint synth A ts) as [nearest|] eqn:Hn.
  2: { apply eq_None_not_Some in Hn. destruct Hn.
       apply nearestPoint_is_Some. intros ->. by apply Exists_nil in Hex. }
  apply nearestPoint_scanned in Hn as (Hin & [[Hnone _]|[Hd _]]).
  { apply Exists_exists in Hex as (q & Hq & HA).
    by destruct (proj1 (Forall_forall _ _) Hnone q Hq). }
  intros [= <-]. cbn [cross_x cross_y].
  pose proof (fullDomain_bounds _ _ Hs Hin) as HF.
  destruct synth as [|p0 ps]; [by apply elem_of_nil in Hin|].
  unfold fullDomain in HF. rewrite last_cons_default in HF. cbn [head x0 x1] in HF.
  assert (inWindow p0 ps A nearest) as Hw
    by (unfold inWindow, xMin, xMax, dataXMin, dataXMax; qlra).
  unfold useChartPath, geometry. cbn [chart_xScale chart_yScale].
  apply vertex_in_plot; [by apply slice_complete|done].
Qed.

End CrosshairFacts.

(** ** Scenarios *)

#[local] Open Scope chart_scope.

(** One notch of the wheel over the middle of the plot, on a series of
    two points: no point is in the window any more, the whole series is
    drawn on the scale of the window, and the line starts left of the
    view box. *)
Example zoom_between_points :
  let synth := [0 ↦ 100; 1000 ↦ 110] in
  let v := onWheel synth initialView (mkEvent 575 0 (-1)) in
  fits (fullDomain synth) (activeDomain (domain v) synth) /\
  ~ Forall (cmdIn viewBox) (chart_path (chartOf synth "60" Linear v)).
Proof.
  cbv zeta. split; [by vm_compute|].
  set (d := chart_path _). vm_compute in d. subst d.
  intros [Hx _]%Forall_cons_1. revert Hx. vm_compute. by intros [[Hx _] _].
Qed.

(** The first tick is the aligned instant at or before the left end of
    the window.  With the month interval and a window from the 20th to
    the 25th of January 2024 it is the 1st of January: its grid line
    and its label, the first of the axis, are left of the view box. *)
Example first_tick_left_of_viewBox :
  let synth := [1705708800000 ↦ 100; 1706140800000 ↦ 110] in
  let c := chartOf synth "M" Linear initialView in
  exists t, head (chart_xTicks c) = Some t /\ tick_ts t == 1704067200000 /\
            tick_x t < 0 /\ label_x <$> head (chart_xLabels c) = Some (tick_x t).
Proof. cbv zeta. eexists. by vm_compute. Qed.

(** The crosshair is computed by a move of the pointer only: after a
    zoom it still marks the pixel of the last move, which is no longer
    where the chart draws its point. *)
Example crosshair_stale :
  let synth := [0 ↦ 100; 500 ↦ 105; 1000 ↦ 110] in
  let v1 := onPointerMove synth "60" Linear initialView (mkEvent 300 0 0) in
  let v2 := onWheel synth v1 (mkEvent 575 0 (-1)) in
  exists c, cross v2 = Some c /\ cross_ts c == 0 /\
            chart_xScale (chartOf synth "60" Linear v2) (cross_ts c) < 0 /\
            cross_x c == 40.
Proof. cbv zeta. eexists. by vm_compute. Qed.

(** ** Instances *)

Lemma headerLabels_epoch_witness :
  let st := mkApp "SYNTHETIC:+1" "D" Light 0 "" [] "1970-01-01T00:00" 100 Linear
                  initialView 1 None in
  Chars "0" ∈ headerLabels (fun _ => Some 0) st
  /\ startLabel (fun _ => Some 0) st = [].
Proof.
  apply (headerLabels_epoch (fun _ => Some 0) _ 0); by vm_compute.
Defined.

Lemma linePath_in_plot_witness :
  inBox plot
    (linePath (fun _ => None)
       (mkApp "SYNTHETIC:+2" "D" Light 0 "" [0 ↦ 100; 1000 ↦ 110] "" 100 Linear
              initialView 1 None)).
Proof.
  apply (linePath_in_plot (fun _ => None) _ (0 ↦ 100)).
  - repeat constructor; by vm_compute.
  - by in_list.
  - by vm_compute.
Defined.

Lemma lastBadge_overflows_witness :
  Exists (fun s => ~ inBox viewBox s)
    (lastBadge (fun _ => None)
       (mkApp "SYNTHETIC:+2" "D" Light 0 "" [0 ↦ 100; 1000 ↦ 110] "" 100 Percent
              initialView 1 None)).
Proof. by apply (lastBadge_overflows (fun _ => None)). Defined.

Lemma crosshair_tooltip_overflows_witness :
  Exists (fun s => ~ inBox viewBox s)
    (crosshair (fun _ => None)
       (mkApp "SYNTHETIC:+2" "D" Light 0 "" [0 ↦ 100; 1000 ↦ 110] "" 100 Linear
              (mkView None false None (Some (mkCross 1110 100 1000 110))) 1 None)).
Proof.
  by apply (crosshair_tooltip_overflows (fun _ => None) _ (mkCross 1110 100 1000 110)).
Defined.

Lemma crosshair_in_plot_witness :
  let v := onPointerMove [0 ↦ 100; 1000 ↦ 110] "D" Linear initialView (mkEvent 300 0 0) in
  let c := default (mkCross 0 0 0 0) (cross v) in
  pointIn plot (cross_x c) (cross_y c).
Proof.
  cbv zeta.
  apply (crosshair_in_plot [0 ↦ 100; 1000 ↦ 110] "D" Linear initialView (mkEvent 300 0 0)).
  - repeat constructor; by vm_compute.
  - apply Exists_cons_hd. by vm_compute.
  - by vm_compute.
Defined.
