(* ===== verification/Page.v ===== *)
(** * Page: what the component returns

    The element [LiveSP500Canvas] returns
    ([src/src/LiveSP500Canvas.jsx], lines 773-1132) as the record of
    its parts: the heading, the card with the controls ([Controls]),
    the section with the note of an error and the drawing or its
    placeholder ([Render]), and the paragraph under it; and [App]
    ([src/src/App.jsx]), which renders the component and nothing
    else.  Class names other than those the local components compute
    are left out.

    The page is where the parts meet: the section and the first shape
    of the drawing have the same background, a render that writes to
    the console ([Asserts]) shows the placeholder, and after calm
    events ([Invariant]) the line of an auto-fit chart is inside the
    plot. *)

From Stdlib Require Import QArith Qminmax Qround Qabs Lqa Lia ZArith.
From stdpp Require Import base decidable list option strings numbers sorting relations.
From S2P Require Import Prelude JsText JsDate Series Leverage Interval Scale Viewport App.
From S2P Require Import Invariant Asserts Controls Render.

#[local] Open Scope Q_scope.

Record Page := mkPage {
  heading : string;
  card : string * list Control;
  sectionStyle : string * string;
  note : option (string * string);
  drawing : option (list Shape);
  help : string
}.

(** The state of [App]: its [count], and the component. *)
Record Root := mkRoot { count : Z; canvas : AppState }.

Section Page.
Context `{ExpLog}.
Variables (Date_parse : string -> option Q).

(** Lines 773-783, 925-945 and 1121-1132.  The card is [<Card>] with
    no class of its own; [drawing] is [None] for "No data to
    display." *)
Definition page (st : AppState) : Page :=
  mkPage "Live Synthetic S&P 500 (±1×…±10× SPX)"
         (cardClass "", controls st)
         (bg st, fg st)
         (errorNote st)
         (scene Date_parse st)
         ("Y-scale supports Linear, Log (if values > 0), and Percent (relative "
          +:+ "to the left edge of the visible range). Use the mouse wheel to zoom "
          +:+ "and drag to pan.").

(** [App] ([src/src/App.jsx], lines 7-11): [count] starts at 0 and no
    code reads or writes it. *)
Definition AppRoot (now : Q) : Root := mkRoot 0 (mount Date_parse now).

End Page.

(** * Theorems *)

Section PageFacts.
Context `{ExpLog}.
Variables (Date_parse : string -> option Q).

#[local] Abbreviation page := (page Date_parse).
#[local] Abbreviation synth := (synth Date_parse).

(** The drawing starts with a rectangle over the whole view box in the
    background of the section around it. *)
Theorem drawing_background st shapes :
  drawing (page st) = Some shapes ->
  head shapes = Some (Rect 0 0 1200 640 None (sectionStyle (page st)).1 None).
Proof. unfold Page.page, scene. simpl. case_decide; by intros [= <-]. Qed.

(** A render that writes to the console shows the placeholder. *)
Theorem consoleErrors_placeholder st :
  consoleErrors Date_parse st <> [] -> drawing (page st) = None.
Proof.
  rewrite consoleErrors_cases. case_decide as E; [intros _|done].
  apply scene_None. unfold showsChart. rewrite E. simpl. lia.
Qed.

(** The placeholder with one synthetic point is silent: the chart of
    one point has its two ticks, and is not drawn. *)
Theorem placeholder_silent st p :
  synth st = [p] ->
  drawing (page st) = None /\ consoleErrors Date_parse st = [].
Proof.
  intros E. split.
  - apply scene_None. unfold showsChart. rewrite E. simpl. lia.
  - rewrite consoleErrors_cases. by rewrite E, decide_False.
Qed.

(** The page of the first render. *)
Theorem page_mount now :
  let p := page (canvas (AppRoot Date_parse now)) in
  card p = (cardClass "", controls initialState) /\
  sectionStyle p = ("#ffffff", "#0f172a") /\
  note p = None /\ drawing p = None.
Proof. done. Qed.

End PageFacts.

(** ** Auto-fit *)

Section AutoFit.
Context `{ExpLog}.
Variables (Date_parse : string -> option Q).
Variables (Math_sin : Q -> Q) (Math_random : nat -> Q).

(** After calm events, with no override of the window, the line of the
    series is inside the plot: the window is the full extent and every
    point is in it. *)
Theorem autofit_line_in_plot st :
  calmly Date_parse Math_sin Math_random st ->
  domain (view st) = None -> synth Date_parse st <> [] ->
  inBox plot (linePath Date_parse st).
Proof.
  intros [Hs%(synth_sorted Date_parse) _]%calmly_appInv Hd Hne.
  destruct (synth Date_parse st) as [|p ps] eqn:E; [done|].
  apply (linePath_inside _ st p); rewrite ?E; [done|by left|].
  rewrite Hd. apply (fullDomain_bounds (p :: ps) p Hs). by left.
Qed.

End AutoFit.

(** ** Instances *)

#[local] Open Scope chart_scope.

Lemma drawing_background_witness :
  head (default [] (drawing (page (H := RatExpLog) (fun _ => None)
          (mkApp "SYNTHETIC:+1" "D" Dark 0 "" [0 ↦ 100; 86400000 ↦ 110] "" 100
                 Linear initialView 1 None))))
  = Some (Rect 0 0 1200 640 None "#0f172a" None).
Proof.
  set (st := mkApp _ _ _ _ _ _ _ _ _ _ _ _).
  pose proof (drawing_background (H := RatExpLog) (fun _ => None) st) as Hd.
  destruct (drawing _) as [shapes|] eqn:E; [by apply (Hd shapes)|by vm_compute in E].
Defined.

Lemma consoleErrors_placeholder_witness :
  drawing (page (H := RatExpLog) (fun _ => None) initialState) = None.
Proof.
  apply (consoleErrors_placeholder (H := RatExpLog) (fun _ => None) initialState).
  by vm_compute.
Defined.

Lemma placeholder_silent_witness :
  let st := mkApp "SYNTHETIC:+1" "D" Light 0 "" [0 ↦ 100] "" 100 Linear
                  initialView 1 None in
  drawing (page (H := RatExpLog) (fun _ => None) st) = None
  /\ consoleErrors (fun _ => None) st = [].
Proof.
  apply (placeholder_silent (H := RatExpLog) (fun _ => None) _ (0 ↦ 100)).
  by vm_compute.
Defined.

Lemma autofit_line_in_plot_witness :
  let loaded :=
    dispatch (fun _ => None) (fun _ => 0) (fun _ => 1 # 2) 0 (mount (fun _ => None) 0)
      (FetchSettled 1 (NetResponse (mkClientResponse true 200
         (Some [mkRaw (Some 0) (Some 100); mkRaw (Some 1000) (Some 110)])))) in
  inBox plot (linePath (fun _ => None) loaded).
Proof.
  cbv zeta. apply (autofit_line_in_plot (fun _ => None) (fun _ => 0) (fun _ => 1 # 2)).
  - apply calmly_dispatch; [apply calmly_mount|].
    split; [done|]. repeat constructor; by vm_compute.
  - by vm_compute.
  - by vm_compute.
Defined.
