(* ===== verification/Markup.v ===== *)
(** * Markup: the element the component returns, as a tree

    The [return] of [LiveSP500Canvas] ([src/src/LiveSP500Canvas.jsx],
    lines 774-1132) element by element: a node is an element with its
    tag, its class and its inline style, a text, a control of the form
    ([Controls]) or the [svg] element with its shapes ([Render]).  The
    local components [Card] and [CardContent] are the [div]s they
    return.

    [Page] names the parts of the page; this file says where they are.
    The theorems read the tree back: its controls are those of
    [Controls], in the order of the document and each under its label;
    its drawing is the scene of [Render]; and the events it can raise
    are the events of its controls and, while the [svg] element is
    there, the gestures.  [raised] is the same as a test on the
    event, which [System] uses for the events of the user. *)

From Stdlib Require Import QArith Lia ZArith.
From stdpp Require Import base decidable list option strings numbers.
From S2P Require Import Prelude JsText JsDate Series Leverage Interval Scale Viewport App.
From S2P Require Import Controls Render Page.

#[local] Open Scope Q_scope.

(** ** Data *)

#[warnings="-register-all"]
Inductive Node :=
| El (tag className : string) (style : list (string * string)) (children : list Node)
| Txt (s : string)
| Ctl (c : Control)
| Svg (attrs style : list (string * string)) (shapes : list Shape).

(** The label of a control. *)
Definition fieldLabel (c : Control) : string :=
  match c with
  | Select l _ _ _ _ _ _ | Input l _ _ _ _ _ _ | Button l _ _ => l
  end.

(** A control of the form under its label (lines 786-810 for the
    first): [minWidth] is in pixels. *)
Definition field (minWidth : Z) (c : Control) : Node :=
  El "div" "flex flex-col" [("minWidth", intToString minWidth)]
     [El "label" "block text-sm text-gray-600 mb-1" [] [Txt (fieldLabel c)]; Ctl c].

(** The local components [Card] (lines 4-10) and [CardContent] (lines
    12-14): a [div] with the class around the children. *)
Definition Card (className : string) (children : list Node) : Node :=
  El "div" (cardClass className) [] children.

Definition CardContent (className : string) (children : list Node) : Node :=
  El "div" className [] children.

(** Line 1122 and lines 1126-1130. *)
Definition placeholderNode : Node := El "div" "p-6 text-sm" [] [Txt "No data to display."].

Definition helpNode : Node :=
  El "p" "text-xs text-gray-500 mt-1 text-center" []
     [Txt ("Y-scale supports Linear, Log (if values > 0), and Percent (relative "
           +:+ "to the left edge of the visible range). Use the mouse wheel to zoom "
           +:+ "and drag to pan.")].

(** The controls of a tree, the texts of a tree and its drawing, in
    the order of the document. *)
Fixpoint controlsOf (n : Node) : list Control :=
  match n with
  | El _ _ _ children => foldr (fun c acc => controlsOf c ++ acc) [] children
  | Ctl c => [c]
  | Txt _ | Svg _ _ _ => []
  end.

Fixpoint textsOf (n : Node) : list string :=
  match n with
  | El _ _ _ children => foldr (fun c acc => textsOf c ++ acc) [] children
  | Txt s => [s]
  | Ctl _ | Svg _ _ _ => []
  end.

Fixpoint drawingsOf (n : Node) : list (list Shape) :=
  match n with
  | El _ _ _ children => foldr (fun c acc => drawingsOf c ++ acc) [] children
  | Svg _ _ shapes => [shapes]
  | Txt _ | Ctl _ => []
  end.

(** The elements with a given tag. *)
Fixpoint byTag (tag : string) (n : Node) : list Node :=
  match n with
  | El t _ _ children =>
      (if decide (t = tag) then [n] else [])
      ++ foldr (fun c acc => byTag tag c ++ acc) [] children
  | _ => []
  end.

(** The events of the gestures, which the [svg] element handles
    (lines 950-954). *)
Definition isGesture (ev : Event) : bool :=
  match ev with
  | Wheel _ | PointerDown _ | PointerMove _ | PointerUp | PointerLeave => true
  | _ => false
  end.

(** The events a tree can raise: those of its controls and, if it has
    a drawing, the gestures. *)
Definition raises (n : Node) (ev : Event) : Prop :=
  (exists c, c ∈ controlsOf n /\ fires c ev) \/ (isGesture ev /\ drawingsOf n <> []).

(** ** The page *)

Section Markup.
Context `{ExpLog}.
Variables (Date_parse : string -> option Q).

(** Lines 934-941. *)
Definition noteNode (st : AppState) : list Node :=
  match errorNote st with
  | Some (colour, text) => [El "div" "mb-2 text-xs" [("color", colour)] [Txt text]]
  | None => []
  end.

(** Lines 943-1123. *)
Definition chartNode (st : AppState) : Node :=
  match scene Date_parse st with
  | Some shapes =>
      Svg [("width", "100%"); ("viewBox", "0 0 1200 640"); ("role", "img");
           ("aria-label", "Synthetic S&P 500 chart")]
          [("touchAction", "none"); ("cursor", cursorStyle st)]
          shapes
  | None => placeholderNode
  end.

(** Lines 930-1124: the section of the chart. *)
Definition sectionNode (st : AppState) : Node :=
  El "div" "rounded-2xl shadow border p-4 w-full"
     [("background", bg st); ("color", fg st)]
     (noteNode st ++ [chartNode st]).

(** Whether the page raises an event in a state: the test that
    [raises] is shown to agree with on the returned tree. *)
Definition raised (st : AppState) (ev : Event) : bool :=
  match ev with
  | SelectPreset v => bool_decide (v ∈ presetOptions.*2)
  | SelectInterval v => bool_decide (v ∈ INTERVAL_OPTIONS.*2)
  | SelectTheme v => bool_decide (v ∈ themeOptions.*2)
  | SelectYMode v => bool_decide (v ∈ Y_SCALE_OPTIONS.*2)
  | InputStart _ => true
  | InputBase v => bool_decide (sanitized "number" v)
  | ClickReload | ClickFit | ClickReset => true
  | Wheel _ | PointerDown _ | PointerMove _ | PointerUp | PointerLeave =>
      bool_decide (showsChart Date_parse st)
  | FetchSettled _ _ => false
  end.

(** Lines 774-1132. *)
Definition markup (st : AppState) : Node :=
  El "div" "w-full min-h-screen p-4 md:p-6 space-y-4 box-border" []
   [El "div" "max-w-6xl mx-auto space-y-4" []
     [El "h1" "text-2xl font-semibold" [] [Txt "Live Synthetic S&P 500 (±1×…±10× SPX)"];
      Card ""
       [CardContent "pt-4"
         [El "div" "flex flex-wrap gap-4 items-end" []
           (zip_with field [180; 120; 120; 230; 150; 150]%Z (take 6 (controls st))
            ++ [El "div" "flex gap-2 ml-auto" [] (Ctl <$> drop 6 (controls st))])]]];
    sectionNode st;
    helpNode].

End Markup.

(** * Theorems *)

(** The [n]-th control of the form, as the witness of an event. *)
Ltac nth_control n :=
  eexists; split; [by apply list_elem_of_lookup_2 with n|].

Section MarkupFacts.
Context `{ExpLog}.
Variables (Date_parse : string -> option Q).

#[local] Abbreviation markup := (markup Date_parse).
#[local] Abbreviation page := (page Date_parse).

(** ** The parts of the page in the tree *)

(** The controls of the tree are those of the form, in its order. *)
Lemma markup_controls st : controlsOf (markup st) = controls st.
Proof.
  unfold Markup.markup, sectionNode, noteNode, chartNode. cbn -[cardClass].
  by destruct (errorNote st) as [[? ?]|], (scene Date_parse st).
Qed.

(** The tree has one drawing, the scene, or none, and then the text
    of the placeholder. *)
Lemma markup_drawing st :
  drawingsOf (markup st) = option_list (drawing (page st)).
Proof.
  unfold Markup.markup, sectionNode, noteNode, chartNode, Page.page. cbn -[cardClass].
  by destruct (errorNote st) as [[? ?]|], (scene Date_parse st).
Qed.

(** The texts of the tree: the heading, the labels of the six fields,
    the note of an error, the placeholder if there is no drawing, and
    the help under the chart. *)
Lemma markup_texts st :
  textsOf (markup st)
  = heading (page st) :: (fieldLabel <$> take 6 (controls st))
    ++ from_option (fun n => [n.2]) [] (note (page st))
    ++ (if drawing (page st) is Some _ then [] else ["No data to display."])
    ++ [help (page st)].
Proof.
  unfold Markup.markup, sectionNode, noteNode, chartNode, Page.page. cbn -[cardClass].
  by destruct (errorNote st) as [[? ?]|], (scene Date_parse st).
Qed.

(** The [label] elements are those of the six fields, each with the
    label of its control, and the one [h1] element is the heading. *)
Lemma markup_fields st :
  textsOf <$> byTag "label" (markup st) = (fun c => [fieldLabel c]) <$> take 6 (controls st)
  /\ textsOf <$> byTag "h1" (markup st) = [[heading (page st)]].
Proof.
  unfold Markup.markup, sectionNode, noteNode, chartNode, Page.page. cbn -[cardClass].
  by destruct (errorNote st) as [[? ?]|], (scene Date_parse st).
Qed.

(** ** The events of the page *)

Lemma markup_has_drawing st : drawingsOf (markup st) <> [] <-> showsChart Date_parse st.
Proof.
  rewrite markup_drawing. unfold Page.page. cbn [drawing].
  destruct (scene Date_parse st) as [shapes|] eqn:E; simpl.
  - split; [intros _|done]. destruct (decide (showsChart Date_parse st)) as [|Hn]; [done|].
    apply scene_None in Hn. congruence.
  - split; [done|]. intros Hs. by apply scene_None in E.
Qed.

(** The events the tree raises: those of the controls of the form,
    and the gestures while the chart is shown. *)
Theorem markup_raises st ev :
  raises (markup st) ev
  <-> (exists c, c ∈ controls st /\ fires c ev) \/ (isGesture ev /\ showsChart Date_parse st).
Proof. unfold raises. by rewrite markup_controls, markup_has_drawing. Qed.

(** The events the tree raises, as a test on the event: the value of
    a select is one of its options, the text of the number input is
    sanitized, and a gesture needs the chart. *)
Theorem raised_raises st ev : raised Date_parse st ev = true <-> raises (markup st) ev.
Proof.
  rewrite markup_raises. split.
  - destruct ev; cbn [raised]; try done; intros Hr; try apply bool_decide_eq_true in Hr;
      try (by right); left.
    + apply list_elem_of_fmap in Hr as (o & -> & Ho). nth_control 0%nat.
      by apply (fires_select _ _ _ _ _ _ SelectPreset o).
    + apply list_elem_of_fmap in Hr as (o & -> & Ho). nth_control 1%nat.
      by apply (fires_select _ _ _ _ _ _ SelectInterval o).
    + apply list_elem_of_fmap in Hr as (o & -> & Ho). nth_control 2%nat.
      by apply (fires_select _ _ _ _ _ _ SelectTheme o).
    + nth_control 3%nat. by apply (fires_input _ _ _ _ _ _ InputStart v).
    + nth_control 4%nat. by apply (fires_input _ _ _ _ _ _ InputBase v).
    + apply list_elem_of_fmap in Hr as (o & -> & Ho). nth_control 5%nat.
      by apply (fires_select _ _ _ _ _ _ SelectYMode o).
    + nth_control 6%nat. apply fires_button.
    + nth_control 7%nat. apply fires_button.
    + nth_control 8%nat. apply fires_button.
  - intros [(c & Hc & Hf)|[Hg Hs]].
    + in_controls Hc; inversion Hf; subst; cbn [raised]; try done;
        apply bool_decide_eq_true; (done || by apply list_elem_of_fmap_2).
    + destruct ev; try done; by apply bool_decide_eq_true.
Qed.

(** What the tree raises the page offers. *)
Corollary raises_offered st ev : raises (markup st) ev -> offered st ev.
Proof.
  intros [Hc|[Hg _]]%markup_raises; [|by destruct ev].
  destruct Hc as (c & Hc & Hf). destruct ev; try done; try by exists c.
  all: in_controls Hc; inversion Hf.
Qed.

End MarkupFacts.

(** ** Instances *)

(** With two points the chart is shown and the tree raises the
    gestures; choosing "Dark" is raised in every state. *)
Example markup_raises_examples :
  let st := mkApp "SYNTHETIC:+1" "D" Light 0 "" [mkPoint 0 100; mkPoint 86400000 110] ""
                  100 Linear initialView 1 None in
  raises (markup (H := RatExpLog) (fun _ => None) st) PointerUp /\
  raises (markup (H := RatExpLog) (fun _ => None) initialState) (SelectTheme "dark").
Proof.
  split; apply markup_raises; [right; split; [done|vm_compute; lia]|left].
  eexists. split; [by apply list_elem_of_lookup_2 with 2%nat|].
  by apply (fires_select _ _ _ _ _ _ SelectTheme ("Dark", "dark")); in_list.
Qed.
