(* ===== verification/System.v ===== *)
(** * System: the component, the network and the proxy together

    [App] takes the outcome of a fetch as an event that carries any
    response; [Request] and [Series] say what the proxy answers.  This
    file closes the loop.  The state of the system is the state of the
    component, the requests in flight (those [fetchYahooSPX] has sent,
    [src/src/LiveSP500Canvas.jsx], line 125, and that have not settled)
    by the number of the run that sent them, and the URLs the proxy
    has asked the provider for ([src/unnamed/part_000], line 18), in
    order.

    An event of the system is an event of the user, the delivery of a
    request in flight (the proxy serves it and the client receives the
    response, as one step: the proxy keeps no state), or its loss (the
    client's [fetch] rejects).  The events of the user are those the
    page raises in the state it shows ([raised], [Markup]): a select
    sends the value of one of its options, the number input a number,
    and the gestures exist with the chart.  Requests settle in any
    order, each at most once.  The provider is a parameter: what it
    answers to the [n]-th request of the proxy, for the URL asked.

    The theorems are those of the composition: what the provider is
    asked for; that a response which arrives after its request was
    superseded changes nothing, and the response of the live request
    is shown; that the data of the component are the provider's, in
    its order, or the demo series; and that the conditions of
    [Invariant] on a settled fetch hold of the system by themselves
    for a provider whose timestamps are ordered. *)

From Stdlib Require Import QArith Lia ZArith.
From stdpp Require Import base decidable list option strings numbers sorting gmap.
From S2P Require Import Prelude JsText JsDate Series Leverage Interval Scale Viewport App.
From S2P Require Import Controls Request Invariant Render Page Markup.

(** ** Data *)

Record Sys := mkSys {
  app : AppState;
  inflight : gmap nat Request;
  asked : list string
}.

Inductive SysEvent :=
| User (ev : Event)
| Deliver (run : nat)
| Lose (run : nat) (message : string).

(** The events of [App] that are the user's. *)
Definition byUser (ev : Event) : bool :=
  match ev with FetchSettled _ _ => false | _ => true end.

(** The request a render has sent: the one of the state, when the
    fetch effect has run. *)
Definition started (old new : AppState) : option Request :=
  if decide (effectRuns new = effectRuns old) then None else live new.

Definition send (r : option Request) (m : gmap nat Request) : gmap nat Request :=
  match r with
  | Some r => <[req_run r := r]> m
  | None => m
  end.

(** The URL the proxy asks the provider for when it serves a request
    of the component. *)
Definition proxyUrl (r : Request) : string := upstreamUrl (queryOf (requestUrl r)).

(** The URL of the provider for a range and an interval that need no
    escape. *)
Definition providerUrl (range interval : string) : string :=
  "https://query1.finance.yahoo.com/v8/finance/chart/%5EGSPC?range="
  +:+ range +:+ "&interval=" +:+ interval.

(** The requests of the range policy with the interval table: an
    intraday interval over five days, a day, a week or a month over
    two years or more. *)
Definition policyRequests : list (string * string) :=
  (pair "5d" <$> ["1m"; "5m"; "15m"; "60m"])
  ++ (range ← ["2y"; "5y"; "10y"; "max"]; pair range <$> ["1d"; "1wk"; "1mo"]).

Definition providerUrls : list string :=
  (fun p => providerUrl p.1 p.2) <$> policyRequests.

(** A provider's answer whose timestamps, those that are numbers, are
    in order. *)
Definition sortedUpstream (up : Upstream) : Prop :=
  match up with
  | UpBody (Some (mkUpstreamResult (JArray ts) _)) => StronglySorted Qle (omap id ts)
  | _ => True
  end.

(** ** The steps *)

Section System.
Context `{ExpLog}.
Variables (Date_parse : string -> option Q).
Variables (Math_sin : Q -> Q) (Math_random : nat -> Q).
Variable provider : nat -> string -> Upstream.

#[local] Abbreviation dispatch := (dispatch Date_parse Math_sin Math_random).

(** The first render with its fetch. *)
Definition mountSys (now : Q) : Sys :=
  let st := mount Date_parse now in mkSys st (send (live st) ∅) [].

(** What the client receives for a request the proxy serves as its
    [n]-th. *)
Definition response (n : nat) (r : Request) : NetOutcome :=
  NetResponse (wire (serve (provider n) (requestUrl r))).

(** A request in flight settles with an outcome. *)
Definition settleRun (now : Q) (s : Sys) (run : nat) (outcome : NetOutcome)
    (urls : list string) : Sys :=
  mkSys (dispatch now (app s) (FetchSettled run outcome))
        (delete run (inflight s)) (asked s ++ urls).

Definition sysStep (now : Q) (s : Sys) (e : SysEvent) : Sys :=
  match e with
  | User ev =>
      if byUser ev then
        let st := dispatch now (app s) ev in
        mkSys st (send (started (app s) st) (inflight s)) (asked s)
      else s
  | Deliver run =>
      match inflight s !! run with
      | Some r => settleRun now s run (response (length (asked s)) r) [proxyUrl r]
      | None => s
      end
  | Lose run message =>
      match inflight s !! run with
      | Some r => settleRun now s run (NetError message) []
      | None => s
      end
  end.

(** An event the system can take in a state: one the page raises, or
    the settling of a request. *)
Definition sysEnabled (s : Sys) (e : SysEvent) : bool :=
  match e with
  | User ev => raised Date_parse (app s) ev
  | Deliver _ | Lose _ _ => true
  end.

(** A run of the system: the events with the instants at which they
    are handled; [sysAccepts] says that each is enabled when its turn
    comes. *)
Definition sysRun (s : Sys) (es : list (Q * SysEvent)) : Sys :=
  foldl (fun s e => sysStep e.1 s e.2) s es.

Fixpoint sysAccepts (s : Sys) (es : list (Q * SysEvent)) : bool :=
  match es with
  | [] => true
  | e :: es => sysEnabled s e.2 && sysAccepts (sysStep e.1 s e.2) es
  end.

(** The states of the system. *)
Inductive sysReachable : Sys -> Prop :=
| sys_mount now : sysReachable (mountSys now)
| sys_step now s e :
    sysReachable s -> sysEnabled s e = true -> sysReachable (sysStep now s e).

(** The requests in flight are those of the runs so far, each under
    the number of its run and a request of the policy, and the live
    request of the component is one of them. *)
Definition sysInv (s : Sys) : Prop :=
  uiReachable Date_parse Math_sin Math_random (app s) /\
  map_Forall (fun run r =>
    req_run r = run /\ (run <= effectRuns (app s))%nat /\
    (req_range r, req_interval r) ∈ policyRequests) (inflight s) /\
  forall r, live (app s) = Some r -> inflight s !! req_run r = Some r.

(** A series the provider gave for one of the URLs it was asked (the
    points with a finite close and a time), and a series of the demo
    generator. *)
Definition provided (urls : list string) (data : Series) : Prop :=
  exists n url ts cl,
    urls !! n = Some url /\
    provider n url = UpBody (Some (mkUpstreamResult (JArray ts) (Some cl))) /\
    data = timedPoints (finitePoints (zipClose ts cl)).

Definition demo (data : Series) : Prop :=
  exists now, data = buildDemoSPX Math_sin Math_random now 0.

(** The events under which the invariant of [Invariant] is kept: the
    user's are calm, and no fetch settles in the middle of a drag. *)
Definition sysCalm (s : Sys) (e : SysEvent) : Prop :=
  match e with
  | User ev => calm (app s) ev
  | Deliver _ | Lose _ _ => panStart (view (app s)) = None
  end.

Inductive sysCalmly : Sys -> Prop :=
| sysCalmly_mount now : sysCalmly (mountSys now)
| sysCalmly_step now s e :
    sysCalmly s -> sysCalm s e -> sysCalmly (sysStep now s e).

End System.

(** A provider that has two days of values for the request of ten
    years by the day, and nothing else. *)
Definition dailyProvider (n : nat) (url : string) : Upstream :=
  if decide (url = providerUrl "10y" "1d")
  then UpBody (Some (mkUpstreamResult (JArray [Some 0; Some 86400]%Q)
                                      (Some [Some 100%Q; Some 110%Q])))
  else UpNotOk 404.

(** * Theorems *)

(** ** The requests of the policy *)

Lemma yahooInterval_intraday interval :
  intraday interval -> yahooInterval interval ∈ ["1m"; "5m"; "15m"; "60m"].
Proof. intros [->|[->|[->| ->]]]; by in_list. Qed.

Lemma yahooInterval_daily interval :
  interval ∈ INTERVAL_OPTIONS.*2 -> ~ intraday interval ->
  yahooInterval interval ∈ ["1d"; "1wk"; "1mo"].
Proof.
  evaluate (INTERVAL_OPTIONS.*2). unfold intraday. intros Hi Hd.
  repeat (apply elem_of_cons in Hi as [->|Hi]); [..|by apply elem_of_nil in Hi];
    try (by in_list); destruct Hd; auto.
Qed.

Lemma selectRange_daily interval startTs now :
  ~ intraday interval -> selectRange interval startTs now ∈ ["2y"; "5y"; "10y"; "max"].
Proof.
  intros Hd. unfold selectRange, intraday in *. rewrite decide_False by done.
  destruct startTs as [start|]; cbv zeta; repeat case_decide; by in_list.
Qed.

(** What the effect asks for is a request of the policy, for an
    interval of the select. *)
Lemma policy_request interval startTs now :
  interval ∈ INTERVAL_OPTIONS.*2 ->
  (selectRange interval startTs now, yahooInterval interval) ∈ policyRequests.
Proof.
  intros Hopt. unfold policyRequests. apply elem_of_app.
  destruct (decide (intraday interval)) as [Hi|Hd]; [left|right].
  - rewrite selectRange_intraday by done.
    by apply list_elem_of_fmap_2, yahooInterval_intraday.
  - apply list_elem_of_bind. eexists. split; [|by apply selectRange_daily].
    by apply list_elem_of_fmap_2, yahooInterval_daily.
Qed.

Lemma policy_tokens range interval :
  (range, interval) ∈ policyRequests ->
  range ∈ rangeTokens /\ interval ∈ intervalTokens.
Proof.
  revert range interval.
  assert (Forall (fun p => p.1 ∈ rangeTokens /\ p.2 ∈ intervalTokens) policyRequests) as Hall
    by (repeat constructor; by in_list).
  intros range interval Hin. by apply (proj1 (Forall_forall _ _) Hall (range, interval)).
Qed.

(** The proxy escapes nothing of a request of the policy. *)
Lemma proxyUrl_policy r :
  (req_range r, req_interval r) ∈ policyRequests ->
  proxyUrl r = providerUrl (req_range r) (req_interval r) /\ proxyUrl r ∈ providerUrls.
Proof.
  intros Hin. destruct (policy_tokens _ _ Hin) as [Hr Hi].
  pose proof (proj1 (Forall_forall _ _) tokens_unreserved) as Hu.
  assert (proxyUrl r = providerUrl (req_range r) (req_interval r)) as E.
  { unfold proxyUrl, requestUrl. rewrite queryOf_clientUrl, upstreamUrl_query.
    by rewrite !encodeURIComponent_unreserved by (apply Hu, elem_of_app; auto). }
  split; [done|]. rewrite E. unfold providerUrls.
  by apply (list_elem_of_fmap_2 (fun p => providerUrl p.1 p.2) _ (_, _)).
Qed.

Section SystemFacts.
Context `{ExpLog}.
Variables (Date_parse : string -> option Q).
Variables (Math_sin : Q -> Q) (Math_random : nat -> Q).
Variable provider : nat -> string -> Upstream.

#[local] Abbreviation dispatch := (dispatch Date_parse Math_sin Math_random).
#[local] Abbreviation uiReachable := (uiReachable Date_parse Math_sin Math_random).
#[local] Abbreviation sysEnabled := (sysEnabled Date_parse).
#[local] Abbreviation sysAccepts := (sysAccepts Date_parse Math_sin Math_random provider).
#[local] Abbreviation mountSys := (mountSys Date_parse).
#[local] Abbreviation settleRun := (settleRun Date_parse Math_sin Math_random).
#[local] Abbreviation sysStep := (sysStep Date_parse Math_sin Math_random provider).
#[local] Abbreviation sysRun := (sysRun Date_parse Math_sin Math_random provider).
#[local] Abbreviation sysReachable := (sysReachable Date_parse Math_sin Math_random provider).
#[local] Abbreviation sysInv := (sysInv Date_parse Math_sin Math_random).
#[local] Abbreviation response := (response provider).
#[local] Abbreviation provided := (provided provider).
#[local] Abbreviation demo := (demo Math_sin Math_random).

(** ** The requests in flight *)

(** A settled fetch starts no run, and leaves a live request only if
    it was live before and is of another run. *)
Lemma dispatch_settle_live now st run outcome :
  let st' := dispatch now st (FetchSettled run outcome) in
  effectRuns st' = effectRuns st /\
  forall r, live st' = Some r -> live st = Some r /\ req_run r <> run.
Proof.
  cbv zeta. destruct (live st) as [r0|] eqn:El.
  - destruct (decide (req_run r0 = run)) as [<-|Hne].
    + destruct (dispatch_settled Date_parse Math_sin Math_random now st r0 outcome El)
        as (_ & _ & -> & -> & _). by split.
    + rewrite dispatch_stale by (intros r; rewrite El; congruence).
      split; [done|]. intros r. rewrite El. by intros [= <-].
  - rewrite dispatch_stale by (intros r; by rewrite El). split; [done|]. by rewrite El.
Qed.

Lemma mountSys_inv now : sysInv (mountSys now).
Proof.
  split_and!; [constructor| |].
  - apply map_Forall_insert_2; [|apply map_Forall_empty].
    split_and!; [done..|]. apply policy_request, selected_initial.
  - intros r [= <-]. apply lookup_insert_eq.
Qed.

(** The request of a state the page leads to is one of the policy. *)
Lemma ui_policy_request st now :
  uiReachable st ->
  (selectRange (interval st) (startTs Date_parse st) now, yahooInterval (interval st))
  ∈ policyRequests.
Proof. intros [_ Hi]%ui_selected. by apply policy_request. Qed.

Lemma user_inv now s ev :
  sysEnabled s (User ev) = true -> sysInv s -> sysInv (sysStep now s (User ev)).
Proof.
  intros He%raised_raises%raises_offered (Hr & Hf & Hl).
  cbn [System.sysStep]. destruct (byUser ev); [|done].
  cbv zeta. unfold started. set (st' := dispatch now (app s) ev).
  assert (uiReachable st') by by constructor.
  destruct (dispatch_runs Date_parse Math_sin Math_random now (app s) ev)
    as [(Er & _ & _ & El)|[Er El]]; fold st' in Er, El.
  - rewrite decide_True by done. split_and!; cbn [app inflight send]; [done|by rewrite Er|].
    intros r Hr'. destruct El as [El|El]; rewrite El in Hr'; [by apply Hl|done].
  - rewrite decide_False by lia. rewrite El.
    split_and!; cbn [app inflight send req_run]; [done| |].
    + apply map_Forall_insert_2; [split_and!; [done|lia|by apply ui_policy_request]|].
      eapply map_Forall_impl; [done|]. intros run r (? & ? & ?). split_and!; [done|lia|done].
    + intros r Hr'. rewrite El in Hr'. injection Hr' as <-. apply lookup_insert_eq.
Qed.

Lemma settleRun_inv now s run outcome urls :
  sysInv s -> sysInv (settleRun now s run outcome urls).
Proof.
  intros (Hr & Hf & Hl).
  destruct (dispatch_settle_live now (app s) run outcome) as [Er El].
  split_and!; cbn [System.settleRun app inflight]; [by constructor| |].
  - rewrite Er. by apply map_Forall_delete.
  - intros r [Hr' Hne]%El. rewrite lookup_delete_ne by done. by apply Hl.
Qed.

Lemma sysStep_inv now s e :
  sysEnabled s e = true -> sysInv s -> sysInv (sysStep now s e).
Proof.
  intros He Hinv. destruct e as [ev|run|run message]; [by apply user_inv|..];
    cbn [System.sysStep]; destruct (inflight s !! run); by try apply settleRun_inv.
Qed.

Lemma sysReachable_inv s : sysReachable s -> sysInv s.
Proof. induction 1; [apply mountSys_inv|by apply sysStep_inv]. Qed.

(** A run whose events are enabled, each in its turn, leads to a state
    of the system. *)
Lemma sysRun_reachable s es :
  sysReachable s -> sysAccepts s es = true -> sysReachable (sysRun s es).
Proof.
  revert s. induction es as [|e es IH]; intros s Hs; simpl; [done|].
  intros [He Ha]%andb_true_iff. apply IH; [by constructor|done].
Qed.

(** The state of the component in a state of the system is one the
    page leads to. *)
Lemma sysReachable_ui s : sysReachable s -> uiReachable (app s).
Proof. by intros [? _]%sysReachable_inv. Qed.

(** ** What the provider is asked *)

Lemma sysReachable_asked s : sysReachable s -> Forall (.∈ providerUrls) (asked s).
Proof.
  induction 1 as [now|now s e Hs IH _]; [constructor|].
  destruct (sysReachable_inv s Hs) as (_ & Hf & _).
  destruct e as [ev|run|run message]; cbn [System.sysStep].
  - by destruct (byUser ev).
  - destruct (inflight s !! run) as [r|] eqn:Er; [|done].
    apply Forall_app. split; [done|]. apply Forall_singleton.
    by apply proxyUrl_policy, (Hf run r Er).
  - destruct (inflight s !! run); [|done]. cbn [System.settleRun asked].
    by rewrite app_nil_r.
Qed.

(** The proxy's answer to a request of the policy. *)
Lemma response_policy n r :
  (req_range r, req_interval r) ∈ policyRequests ->
  response n r
  = NetResponse (wire (handler (provider n (providerUrl (req_range r) (req_interval r))))).
Proof.
  intros [E _]%proxyUrl_policy. unfold System.response, serve. by rewrite <- E.
Qed.

(** ** The order of the responses *)

Lemma sysReachable_stale now s run r outcome :
  sysReachable s -> inflight s !! run = Some r -> live (app s) <> Some r ->
  dispatch now (app s) (FetchSettled run outcome) = app s.
Proof.
  intros (_ & _ & Hl)%sysReachable_inv Hr Hlive. apply dispatch_stale.
  intros r' Hr' <-. apply Hl in Hr' as Hin. congruence.
Qed.

(** ** Where the data come from *)

Lemma user_rawData now st ev : byUser ev -> rawData (dispatch now st ev) = rawData st.
Proof.
  intros Hu. unfold App.dispatch.
  destruct (commit_frame Date_parse now st (handle Date_parse Math_sin Math_random now st ev))
    as (_&_&_&_&->&_).
  destruct ev; try done; simpl; unfold onChart; by try case_decide.
Qed.

(** The data after a fetch settled: those before, the demo series, or
    the series of the response. *)
Lemma settled_rawData now st run outcome :
  let data := rawData (dispatch now st (FetchSettled run outcome)) in
  data = rawData st \/ demo data
  \/ exists resp, outcome = NetResponse resp /\ fetchYahooSPX resp = inr data.
Proof.
  cbv zeta. destruct (live st) as [r0|] eqn:El;
    [destruct (decide (req_run r0 = run)) as [<-|Hne]|].
  - destruct (dispatch_settled Date_parse Math_sin Math_random now st r0 outcome El)
      as (-> & _). right.
    destruct outcome as [m|resp]; [left; by exists now|].
    destruct (fetchYahooSPX resp) eqn:Ef; [left; by exists now|right; eauto].
  - left. by rewrite dispatch_stale by (intros r; rewrite El; congruence).
  - left. by rewrite dispatch_stale by (intros r; by rewrite El).
Qed.

Lemma provided_app urls urls' data :
  provided urls data -> provided (urls ++ urls') data.
Proof.
  intros (n & url & ts & cl & Hn & Hp & ->). exists n, url, ts, cl.
  split_and!; [|done..]. by apply lookup_app_l_Some.
Qed.

(** The series of a response of the proxy is the provider's. *)
Lemma response_provided urls r data resp :
  response (length urls) r = NetResponse resp ->
  fetchYahooSPX resp = inr data -> provided (urls ++ [proxyUrl r]) data.
Proof.
  intros [= <-]. rewrite fetchYahooSPX_wire. unfold serve. fold (proxyUrl r).
  destruct (handler _) as [series| |] eqn:Eh; intros [= <-].
  apply handler_Resp200 in Eh as (ts & cl & Hp & ->).
  exists (length urls), (proxyUrl r), ts, cl. split_and!; [|done..].
  by apply list_lookup_middle.
Qed.

Lemma sysReachable_data s :
  sysReachable s ->
  rawData (app s) = [] \/ demo (rawData (app s)) \/ provided (asked s) (rawData (app s)).
Proof.
  induction 1 as [now|now s e Hs IH _]; [by left|].
  destruct e as [ev|run|run message]; cbn [System.sysStep].
  - destruct (byUser ev) eqn:Eu; [|done]. cbn [app asked].
    by rewrite user_rawData by by rewrite Eu.
  - destruct (inflight s !! run) as [r|]; [|done]. cbn [System.settleRun app asked].
    destruct (settled_rawData now (app s) run (response (length (asked s)) r))
      as [->|[Hd|(resp & Hresp & Hf)]]; [|by auto|].
    + destruct IH as [?|[?|?]]; eauto using provided_app.
    + right. right. by eapply response_provided.
  - destruct (inflight s !! run) as [r|]; [|done]. cbn [System.settleRun app asked].
    rewrite app_nil_r.
    by destruct (settled_rawData now (app s) run (NetError message))
      as [->|[Hd|(resp & Hresp & Hf)]]; auto.
Qed.

(** ** Ordered data *)

Lemma handler_sortedUpstream up series :
  sortedUpstream up -> handler up = Resp200 series -> time_sorted (timedPoints series).
Proof.
  intros Hs (ts & cl & -> & ->)%handler_Resp200. by apply finitePoints_sorted.
Qed.

Section Sorted.
Hypothesis provider_sorted : forall n url, sortedUpstream (provider n url).

(** What the client makes of a response of the proxy is in order. *)
Lemma response_sorted n r : sortedOutcome (response n r).
Proof.
  unfold System.response, sortedOutcome. rewrite fetchYahooSPX_wire.
  destruct (serve _ _) as [series| |] eqn:Eh; [|done..].
  by eapply handler_sortedUpstream.
Qed.

Lemma sysReachable_sorted s : sysReachable s -> time_sorted (rawData (app s)).
Proof.
  intros [->|[[now ->]|(n & url & ts & cl & _ & Hp & ->)]]%sysReachable_data.
  - constructor.
  - apply buildDemoSPX_sorted.
  - eapply handler_sortedUpstream; [apply (provider_sorted n url)|by rewrite Hp].
Qed.

(** The calm runs of the system are calm runs of the component: the
    condition of [calm] on the series a fetch delivers holds by
    itself. *)
Lemma sysCalmly_calmly s :
  sysCalmly Date_parse Math_sin Math_random provider s ->
  calmly Date_parse Math_sin Math_random (app s).
Proof.
  induction 1 as [now|now s e _ IH Hc]; [constructor|].
  destruct e as [ev|run|run message]; cbn [System.sysStep sysCalm] in *.
  - destruct (byUser ev); [by constructor|done].
  - destruct (inflight s !! run) as [r|]; [|done].
    constructor; [done|]. split; [done|apply response_sorted].
  - destruct (inflight s !! run) as [r|]; [|done]. by constructor.
Qed.

End Sorted.

(** ** The composition *)

(** C23: The provider is asked for nothing but the sixteen requests of the
    policy: the index at an intraday interval over five days, or by
    the day, the week or the month over two years or more. *)
Theorem system_asks s : sysReachable s -> Forall (fun url => url ∈ providerUrls) (asked s).
Proof. apply sysReachable_asked. Qed.

(** C20: A response that arrives when its request is no longer the live
    one changes nothing in the component, in whatever order the
    responses arrive; the request is settled. *)
Theorem stale_response_ignored now s run r :
  sysReachable s -> inflight s !! run = Some r -> live (app s) <> Some r ->
  app (sysStep now s (Deliver run)) = app s /\
  inflight (sysStep now s (Deliver run)) !! run = None.
Proof.
  intros Hs Hr Hl. cbn [System.sysStep]. rewrite Hr. cbn [System.settleRun app inflight].
  split; [by eapply sysReachable_stale|apply lookup_delete_eq].
Qed.

(** C21: The live request can always be delivered: the proxy asks the
    provider for its range and interval, the component shows the
    series of the answer, or the demo series when the proxy answers
    with an error, and no request is live. *)
Theorem live_response_shown now s r :
  sysReachable s -> live (app s) = Some r ->
  let url := providerUrl (req_range r) (req_interval r) in
  let s' := sysStep now s (Deliver (req_run r)) in
  asked s' = asked s ++ [url] /\
  rawData (app s') = match handler (provider (length (asked s)) url) with
                     | Resp200 series => timedPoints series
                     | _ => buildDemoSPX Math_sin Math_random now 0
                     end /\
  live (app s') = None /\ inflight s' !! req_run r = None.
Proof.
  intros (_ & Hf & Hl)%sysReachable_inv Hlive. cbv zeta.
  pose proof (Hl r Hlive) as Hin. destruct (Hf _ _ Hin) as (_ & _ & Hp).
  cbn [System.sysStep]. rewrite Hin. cbn [System.settleRun app inflight asked].
  destruct (proxyUrl_policy r Hp) as [-> _]. rewrite response_policy by done.
  destruct (dispatch_settled Date_parse Math_sin Math_random now (app s) r
              (NetResponse (wire (handler (provider (length (asked s))
                 (providerUrl (req_range r) (req_interval r)))))) Hlive)
    as (-> & _ & -> & _).
  rewrite fetchYahooSPX_wire. split_and!; [done| |done|apply lookup_delete_eq].
  by destruct (handler _).
Qed.

(** When every request has settled none is live: the component does
    not wait for a response that will not come. *)
Corollary settled_no_live s : sysReachable s -> inflight s = ∅ -> live (app s) = None.
Proof.
  intros (_ & _ & Hl)%sysReachable_inv He.
  destruct (live (app s)) as [r|] eqn:E; [|done].
  pose proof (Hl r eq_refl) as Hin. by rewrite He in Hin.
Qed.

(** C22: The data of the component are none (before the first fetch
    settles), a demo series, or the finite points of an answer the
    provider gave to a request of the proxy. *)
Theorem system_provenance s :
  sysReachable s ->
  rawData (app s) = [] \/ demo (rawData (app s)) \/ provided (asked s) (rawData (app s)).
Proof. apply sysReachable_data. Qed.

(** With a provider whose timestamps are in order, the data of the
    component are ordered by time in every state of the system. *)
Theorem system_sorted :
  (forall n url, sortedUpstream (provider n url)) ->
  forall s, sysReachable s -> time_sorted (rawData (app s)).
Proof. apply sysReachable_sorted. Qed.

(** C19: With such a provider, while the cursor of a wheel event is over
    the plot and neither a fetch settles nor the start changes in the
    middle of a drag, the window shown is inside the full extent of
    the synthetic series, whatever the provider answers. *)
Theorem system_fits s :
  (forall n url, sortedUpstream (provider n url)) ->
  sysCalmly Date_parse Math_sin Math_random provider s ->
  fits (fullDomain (synth Date_parse (app s)))
       (activeDomain (domain (view (app s))) (synth Date_parse (app s))).
Proof.
  intros Hp Hs. apply appInv_fits.
  by apply (calmly_appInv Date_parse Math_sin Math_random), sysCalmly_calmly.
Qed.

End SystemFacts.

(** ** Instances *)

Section Instances.
#[local] Abbreviation run0 es :=
  (sysRun (H := RatExpLog) (fun _ => None) (fun x => x) (fun _ => 0%Q) dailyProvider
          (mountSys (fun _ => None) 0%Q) (pair 0%Q <$> es)).
#[local] Abbreviation step0 :=
  (sysStep (H := RatExpLog) (fun _ => None) (fun x => x) (fun _ => 0%Q) dailyProvider 0%Q).

Lemma run0_reachable es :
  sysAccepts (H := RatExpLog) (fun _ => None) (fun x => x) (fun _ => 0%Q) dailyProvider
    (mountSys (fun _ => None) 0%Q) (pair 0%Q <$> es) = true ->
  sysReachable (fun _ => None) (fun x => x) (fun _ => 0%Q) dailyProvider (run0 es).
Proof. apply sysRun_reachable, sys_mount. Qed.

Lemma dailyProvider_sorted n url : sortedUpstream (dailyProvider n url).
Proof. unfold dailyProvider. case_decide; [|done]. repeat constructor; by vm_compute. Qed.

Lemma system_asks_witness :
  Forall (fun url => url ∈ providerUrls) (asked (run0 [Deliver 1])).
Proof. apply (system_asks _ _ _ _ _ (run0_reachable [Deliver 1] eq_refl)). Defined.

Lemma stale_response_ignored_witness :
  let s := run0 [User (SelectInterval "D")] in
  app (step0 s (Deliver 1)) = app s /\ inflight (step0 s (Deliver 1)) !! 1%nat = None.
Proof.
  apply (stale_response_ignored _ _ _ _ 0%Q _ 1%nat (mkRequest 1 "5d" "60m")
           (run0_reachable [User (SelectInterval "D")] eq_refl)); [reflexivity|by vm_compute].
Defined.

Lemma live_response_shown_witness :
  let s := run0 [User (SelectInterval "D")] in
  let r := mkRequest 2 "10y" "1d" in
  let url := providerUrl (req_range r) (req_interval r) in
  let s' := step0 s (Deliver (req_run r)) in
  asked s' = asked s ++ [url] /\
  rawData (app s') = match handler (dailyProvider (length (asked s)) url) with
                     | Resp200 series => timedPoints series
                     | _ => buildDemoSPX (fun x => x) (fun _ => 0%Q) 0%Q 0
                     end /\
  live (app s') = None /\ inflight s' !! req_run r = None.
Proof.
  apply (live_response_shown _ _ _ _ 0%Q _ (mkRequest 2 "10y" "1d")
           (run0_reachable [User (SelectInterval "D")] eq_refl)). reflexivity.
Defined.

Lemma system_provenance_witness :
  let s := run0 [User (SelectInterval "D"); Deliver 2] in
  rawData (app s) = []
  \/ demo (fun x => x) (fun _ => 0%Q) (rawData (app s))
  \/ provided dailyProvider (asked s) (rawData (app s)).
Proof.
  apply (system_provenance _ _ _ _ _ (run0_reachable [User (SelectInterval "D"); Deliver 2] eq_refl)).
Defined.

Lemma system_sorted_witness :
  time_sorted (rawData (app (run0 [User (SelectInterval "D"); Deliver 2]))).
Proof.
  apply (system_sorted _ _ _ _ dailyProvider_sorted _
           (run0_reachable [User (SelectInterval "D"); Deliver 2] eq_refl)).
Defined.

Lemma system_fits_witness :
  let s := step0 (step0 (mountSys (fun _ => None) 0%Q) (User (SelectInterval "D")))
             (Deliver 2) in
  fits (fullDomain (synth (fun _ => None) (app s)))
       (activeDomain (domain (view (app s))) (synth (fun _ => None) (app s))).
Proof.
  apply (system_fits (fun _ => None) (fun x => x) (fun _ => 0%Q) dailyProvider
           _ dailyProvider_sorted).
  apply sysCalmly_step; [apply sysCalmly_step; [apply sysCalmly_mount|]|]; by vm_compute.
Defined.

(** The responses arrive out of order.  The first render asks for
    five days by the hour, a change of the interval to the day asks
    for ten years by the day before the first answer is there.  The
    second answer arrives first and is shown; the first, an error of
    the provider, arrives late and changes nothing: no demo series, no
    message. *)
Example responses_out_of_order :
  let s2 := run0 [User (SelectInterval "D"); Deliver 2] in
  let s1 := step0 s2 (Deliver 1) in
  rawData (app s2) = [mkPoint 0 100; mkPoint 86400000 110]%Q /\
  app s1 = app s2 /\ error (app s1) = "" /\
  asked s1 = [providerUrl "10y" "1d"; providerUrl "5d" "60m"] /\ inflight s1 = ∅.
Proof. by vm_compute. Qed.

(** Why the events of the user are those of the page: an interval
    that no option of the select has, put into the state by hand, is
    looked up in the table as the name of a property of
    [Object.prototype], and the provider is asked for the text of a
    function. *)
Example unoffered_interval :
  let e := User (SelectInterval "constructor") in
  sysEnabled (fun _ => None) (mountSys (fun _ => None) 0%Q) e = false /\
  asked (step0 (step0 (mountSys (fun _ => None) 0%Q) e) (Deliver 2))
  = ["https://query1.finance.yahoo.com/v8/finance/chart/%5EGSPC?range=10y&interval="
     +:+ "function%20Object()%20%7B%20%5Bnative%20code%5D%20%7D"].
Proof. by vm_compute. Qed.

End Instances.
